(* ===== verification/_CoqProject ===== *)
-Q . S2P
Prelude.v
CTypes.v
EnvoyIface.v
Reference.v
Bridge.v
BridgeProps.v
Dispatcher.v
DispatcherInv.v
DispatcherOrder.v
DispatcherProps.v
DispatcherOps.v
DispatcherSpecs.v
DispatcherSafety.v
PlatformBridge.v
PlatformBridgeOps.v
PlatformBridgeData.v
PlatformBridgeMirror.v
PlatformBridgeProps.v
Assertion.v
AssertionProps.v
Engine.v
EngineInv.v
EngineProps.v
External.v
LockGuard.v
MainInterface.v
MainInterfaceInv.v
MainInterfaceProps.v
Process.v
ProcessProps.v
Jni.v
JniSpecs.v
JniReference.v
JniProps.v
ConfigTemplate.v
Configuration.v
ConfigProps.v
Foundation.v
IosUtility.v
IosUtilityProps.v
IosStream.v
IosStreamInv.v
IosStreamProps.v
IosFilter.v
IosFilterProps.v
IosConfiguration.v
IosEngine.v
IosEngineProps.v
Grpc.v
GrpcReaders.v
GrpcProps.v
RetryPolicy.v
Headers.v
RetryPolicyProps.v
RequestProps.v
KotlinHeadersProps.v
JvmBridge.v
JvmBridgeProps.v
