(* ===== verification/Prelude.v ===== *)
(** * Envoy Mobile: the bridge between a mobile platform and Envoy

    Envoy Mobile embeds the Envoy proxy in a mobile application. The application talks
    to it through a C interface (library/common/main_interface.cc); a C++ bridge turns
    those calls into HTTP streams of Envoy and Envoy's answers into C callbacks. Envoy
    itself is a submodule and not part of the repository, and so is the application:
    both are the environment of this development. The bindings for Java and Objective-C,
    which convert between the objects of a platform and the C interface, are part of it,
    and so is what the libraries for Kotlin and Swift compute on the way.
    Paths below are under src/library/common/ unless they begin with src/.

    ** The program and its model

    - A call of the interface finds the engine through a weak pointer and delegates
      (MainInterface.v: the globals of main_interface.cc as a record, one definition per
      function). Stream calls go to the dispatcher, stats to the engine, filters to the
      registry of platform APIs.
    - The dispatcher (http/dispatcher.cc; Dispatcher.v) owns the streams. Its API runs on
      any thread and only posts functors; they wait in a queue until the engine is ready
      and then run on Envoy's event loop. The HTTP connection manager of Envoy calls the
      stream objects back, and those call the platform's envoy_http_callbacks. The state
      is a record with the fields of the class, a heap of stream objects, and the
      queues of the event loop; every operation is a computation in a state-and-fault
      monad; [step] is the relation of what platform, event loop and connection manager
      can do, re-entrant calls included.
    - The engine (engine.cc; Engine.v) starts Envoy on a thread of its own and joins it in
      its destructor. The code between two points where threads can interleave is one
      action; [engine_step] interleaves them.
    - The platform bridge filter (extensions/filters/http/platform_bridge/;
      PlatformBridge.v) is an HTTP filter whose callbacks are functions of the platform,
      with iteration that can be stopped and resumed asynchronously. External.v models
      its configuration and api/external.cc.
    - The assertion filter (extensions/filters/http/assertion/; Assertion.v) answers
      requests according to streaming matchers.
    - The C structs (types/c_types.{h,cc}; CTypes.v) carry headers and data across, over
      an explicit heap with ownership; buffer/utility.cc, buffer/bridge_fragment.h and
      http/header_utility.cc (Bridge.v) convert them from and to Envoy's own.
    - The JNI layer (jni/; Jni.v) is the Java platform: it turns Java arrays into the C
      structs and back, implements the callbacks and the filter functions by calls of
      Java methods, and exports the C interface to Java.
    - The configuration Envoy starts with is a template of YAML (config_template.cc;
      ConfigTemplate.v), which the Java class EnvoyConfiguration fills in
      (under src/library/java/; Configuration.v).
    - The Objective-C layer (src/library/objective-c/) is the platform on iOS.
      Foundation.v has what it uses of Apple's Foundation: strings in Unicode with UTF-8
      and the length in UTF-16, and dictionaries of headers, whose order of enumeration is
      a parameter. IosUtility.v is EnvoyBridgeUtility.h, the conversions. IosStream.v is
      EnvoyHTTPStreamImpl.m: stream objects with explicit reference counting, the
      contexts in C memory, and the blocks that wait on the application's queues;
      [ios_action] of IosStreamInv.v is what engine, queues and application can do.
      IosFilter.v has the filter functions of EnvoyEngineImpl.m, with the callbacks object,
      over closures of the application, and the closures that Filter.swift (under
      src/library/swift/) makes. IosConfiguration.v is EnvoyConfiguration.m, and
      IosEngine.v the engine object of EnvoyEngineImpl.m and EnvoyNetworkMonitor.m.
    - JvmBridge.v is the Java that the JNI layer calls (under src/library/java/):
      JvmBridgeUtility collects a block of headers pair by pair, JvmCallbackContext gives
      the callbacks of a stream to the application's executor, JvmFilterContext asks a
      filter; with the adapters of Kotlin in StreamCallbacks.kt and filters/Filter.kt.
    - The libraries for applications (src/library/swift/src/ and src/library/kotlin/src/)
      build requests. RetryPolicy.v has retry policies and their headers (RetryPolicy and
      RetryPolicyMapper of both languages). Headers.v has the header builders: functions
      on dictionaries in Swift, whose dictionaries are values, and computations on a store
      of maps and lists in Kotlin, where they are shared objects. Grpc.v has the gRPC
      clients, which frame messages and cut the bytes of a response into messages again.
    - Process.v puts a platform, Java's or Apple's, and the C interface over one memory.
    - thread/lock_guard.h is LockGuard.v.

    ** Conventions

    Prelude.v has the monad [M St A] (a run returns [Ok] or a [fault]: a failed
    RELEASE_ASSERT or ASSERT, a panic, an exception, undefined behaviour), weakest
    preconditions [wp] for it, lenses that run a component inside a larger state,
    refinement of computations, fixed-width integers, and the tactics. ASSERT is checked
    only in a debug build: [BuildMode] is a parameter, and [release_build_agrees] relates
    the two. Pointers are [option positive]; a location is never reused, so a use after
    free is a fault. What the code uses of Envoy, of the matchers and of the JVM are
    classes (EnvoyIface.v, Assertion.v, Jni.v), operations and laws apart; Reference.v and
    the ends of the files that use them have small instances, which the examples run on.
    Names follow the source; a lambda [f] posts is [f_cb].

    ** What the theorems show

    - Streams (DispatcherInv.v, DispatcherOrder.v, DispatcherProps.v): in every reachable
      state the callbacks of each stream are a run of the abstract stream of c_types.h
      ([spec_step]): open exactly while the dispatcher has it, with exactly one terminal
      callback, last. The platform's calls run once and in order across ready(); the
      counters are those that the trace accounts for: a completion counts as a success if
      the last status of its stream was one. DispatcherSpecs.v, over DispatcherOps.v,
      gives the result of each handler on each branch, errors and local replies included,
      with the memory it allocates and frees. DispatcherSafety.v shows, for builds with
      ASSERTs, progress: whatever a well-behaved environment does next, no handler
      faults; and every step that completes leaves the state well-formed.
    - Composition (MainInterfaceInv.v, MainInterfaceProps.v): runs of the C interface are
      runs of the dispatcher and of engines; init_stream supplies the fresh handles the
      dispatcher assumes; no call of the interface has undefined behaviour in an orderly
      world; what each call does with and without an engine; when handles repeat.
    - Engine (EngineInv.v, EngineProps.v): an orderly engine (Envoy starts and exits only
      when asked, the API listener is there, on_exit is set, no wait ends by itself) never
      faults, and its destructor returns within a bounded number of actions; stats keep
      their order; what goes wrong when Envoy cannot start, exits by itself or a wait ends
      by itself.
    - Platform bridge filter (PlatformBridgeOps.v, PlatformBridgeData.v,
      PlatformBridgeMirror.v, PlatformBridgeProps.v): decodeData implements an abstract
      specification of the platform's answers, headers it returns on resumption and
      statuses that panic included, and leaves the rest of the state as it was; what the headers and trailers handlers and
      the resumption do for each answer; the encode functions are the decode functions
      with the directions exchanged; the resume callbacks never do anything.
    - Assertion filter (AssertionProps.v): a request passes exactly if the matchers accept
      the whole of it, as judged by a reference definition over the whole request.
    - Configuration (ConfigProps.v): every request is routed to a cluster the template
      defines, with the protocol the platform asked for; the template always resolves.
    - Memory and conversions (BridgeProps.v): a copy is deep and survives the release of
      its original; headers and data round-trip, with every block freed exactly once.
    - iOS conversions (IosUtilityProps.v): ASCII headers round-trip through the C structs;
      the values of a name keep their order; what is not ASCII is cut to as many bytes as
      it has UTF-16 units; bytes that are not UTF-8 raise an exception.
    - iOS streams (IosStreamProps.v, over the invariant of IosStreamInv.v): whatever
      engine, queues and application do, no callback or method touches an object or a
      context that is gone; a context lives exactly as long as its stream object, which
      lives until a terminal block has run and the application has let go; closures are
      called in the order of the callbacks; running what waits frees the streams that are
      over. The only faults are memory that runs out and a block of headers that are not
      UTF-8, which throws. Fed with the callbacks of a stream of the dispatcher, the
      object is kept while the dispatcher has the stream and no longer.
    - iOS filters (IosFilterProps.v): the functions ask the closures and obey them; a
      filter that returns what it gets is not noticed by the stream (the bridge filter of
      PlatformBridge.v and the iOS functions together); which answers of Swift filters
      raise exceptions; an asynchronous filter is never resumed.
    - iOS start (IosConfiguration.v, IosEngineProps.v): where strings and template have
      no stray opening brace and no key is nested in another, the configuration resolves to the same text
      whatever the order of the dictionary, the one Java resolves to but for the operating
      system; a configuration runs as a whole, with every filter it names
      registered, or not at all; which network the monitor selects.
    - Java (JniProps.v): headers round-trip between Java arrays and C structs; the Java
      context of a stream is alive for every callback and released with the last one;
      what the send functions and the filter functions do, and what they leak.
    - Java applications (JvmBridgeProps.v): the callbacks of a stream of the dispatcher
      arrive, through the JNI layer, the context and the executor, at the closures of the
      application, with the same headers, data and errors in the same order; maps of
      headers round-trip through C; what a filter written in Kotlin answers, what becomes
      of a filter that resumes, and of a block of headers that is empty.
    - Retry policies (RetryPolicyProps.v): a policy is read back from its headers as it
      was, on either platform; the headers of an earlier policy can spoil a later one.
    - Requests (RequestProps.v): whatever an application does with a builder, the method,
      scheme, authority and path stay; and the dispatcher, given the headers, routes the
      request to a cluster of the configuration that speaks the protocol it asked for
      (builder, header map, dispatcher and template together). Names with capital letters
      get around the builder's guard.
    - Kotlin's builders (KotlinHeadersProps.v) implement Swift's, as long as no list is
      shared and the timeout of a gRPC request is set once: Kotlin adds a value each time
      and Swift sets it. What is built shares the map of the builder.
    - gRPC (GrpcReaders.v, GrpcProps.v): [MessageReaderLaws] says what a processor of
      messages promises, and both platforms have them: messages arrive as they were sent,
      however the response is cut into chunks, and in the middle of a response both have
      delivered the same. Where the processors differ: compressed messages, and long
      ones, for which Swift waits or, where Int has 32 bits, traps.

    ** Bounds

    Loops are bounded by the length fields of the structs, so no fuel is needed; a
    length is at most INT_MAX where the code stores it in an int. malloc may fail: an
    [Allocator] is an oracle, and specifications allow exactly the "malloc failure" of
    safe_malloc. At most 2^64 handles are issued in one run. [parse] splits a template
    with its length as fuel, and consumes a character at each step. The examples use
    small concrete runs. The gRPC processors call themselves without bound: the number of
    calls that fit on the stack is a parameter, and 3 for each message of a chunk and 3
    more are enough; [swift_processing_terminates] bounds them by the bytes that are kept.

    ** Not modelled

    - Logging, tracing and the text of log messages; the syncpoints of tests are trace
      events.
    - Envoy: header maps, buffers, codecs, the connection manager, the event loop, the
      stats store and the matchers are parameters. The order between different header
      names is not observed.
    - envoy_mobile_main_common.cc, the extension registry, the synthetic address
      and the stats sink configuration construct Envoy objects or are constants.
      certificates.inc, the text of root certificates, is a parameter.
    - Of the libraries for applications: the builders of engines, streams and responses,
      which only pass their arguments on, the stats clients, and the classes of Android
      that watch the network and the life of the application. The resume functions of
      asynchronous filters in Kotlin are not reachable: EnvoyHTTPFilter has none.
    - Strings of the builders are UTF-8 and their case matters for ASCII only; digits of
      other scripts, which Kotlin's toIntOrNull accepts, are not modelled.
    - Apple's libraries: the queues run the blocks of one queue in order, objects that
      nobody designates are deallocated, strings of the configuration are compared
      literally. The order of blocks of different queues is arbitrary; autorelease pools
      and notifications other than termination are not modelled.
    - Data races: each operation runs atomically on its thread, except in the engine,
      where actions interleave. Memory order is sequential.
    - run_engine in MainInterface.v replaces an engine at once. In the code the assignment
      destroys the old engine, and blocks, before the weak pointer designates the new one,
      so that calls of other threads meanwhile find no engine. The early return of
      ~Engine for a thread that cannot be joined is left out: the constructor starts the
      thread and nothing else joins it.
    - The streams of an engine that is being destroyed are no longer followed in
      MainInterface.v; the dispatcher model covers what its event loop still runs.
    - Local references of the JVM are counted, not tracked one by one. An exception ends
      the computation in Java that throws it; the JNI layer never sees one. *)

From stdpp Require Export base gmap strings list fin_maps.
From Stdlib Require Export Strings.Byte.
From Stdlib Require Import ZArith Lia.

#[global] Set Default Goal Selector "!".

Declare Scope envoy_scope.
Delimit Scope envoy_scope with envoy.

(** ** Faults and results *)

(** How a run of the C++ code can end without returning. [ReleaseAssert] is
    RELEASE_ASSERT, [DebugAssert] is ASSERT (compiled out of release builds),
    [Panic] is PANIC and the NOT_IMPLEMENTED / NOT_REACHED macros, [Thrown] an
    exception that leaves the function, and [Undefined] undefined behaviour of
    C++ (null or dangling dereference, double free, out-of-range access). *)
Inductive fault : Type :=
| ReleaseAssert (what : string)
| DebugAssert (what : string)
| Panic (what : string)
| Thrown (what : string)
| Undefined (what : string).

Inductive result (A : Type) : Type :=
| Ok (a : A)
| Fault (f : fault).
Arguments Ok {A} a.
Arguments Fault {A} f.

#[export] Instance fault_eq_dec : EqDecision fault.
Proof. solve_decision. Defined.

#[export] Instance byte_eq_decision : EqDecision byte := Byte.byte_eq_dec.

(** ** The state-and-fault monad *)

Definition M (St A : Type) : Type := St → result (A * St).

#[export] Instance M_ret {St} : MRet (M St) := λ A a s, Ok (a, s).
#[export] Instance M_bind {St} : MBind (M St) := λ A B k m s,
  match m s with
  | Ok (a, s') => k a s'
  | Fault f => Fault f
  end.

Definition fail {St A} (f : fault) : M St A := λ _, Fault f.
Definition gets {St A} (f : St → A) : M St A := λ s, Ok (f s, s).
Definition modify {St} (f : St → St) : M St unit := λ s, Ok (tt, f s).

Definition when {St} (b : bool) (m : M St unit) : M St unit :=
  if b then m else mret tt.

(** RELEASE_ASSERT is checked in every build; ASSERT only when [ASSERT_enabled]. *)
Class BuildMode := ASSERT_enabled : bool.
Definition debug_build : BuildMode := true.
Definition release_build : BuildMode := false.

Definition RELEASE_ASSERT {St} (b : bool) (what : string) : M St unit :=
  if b then mret tt else fail (ReleaseAssert what).
Definition ASSERT {mode : BuildMode} {St} (b : bool) (what : string) : M St unit :=
  if ASSERT_enabled then (if b then mret tt else fail (DebugAssert what)) else mret tt.

(** A pointer or optional that is dereferenced: [Undefined] when it is empty. *)
Definition deref {St A} (what : string) (o : option A) : M St A :=
  match o with Some a => mret a | None => fail (Undefined what) end.

(** [fold_upto i n body acc] is [for (j = i; j < i + n; j++) acc = body(j, acc)]. *)
Fixpoint fold_upto {St A} (i : Z) (n : nat) (body : Z → A → M St A) (acc : A) : M St A :=
  match n with
  | O => mret acc
  | S n => acc' ← body i acc; fold_upto (i + 1) n body acc'
  end.

(** [for (i = 0; i < len; i++)] over a bound that the loop does not change. *)
Definition for_range {St A} (len : Z) (body : Z → A → M St A) (acc : A) : M St A :=
  fold_upto 0 (Z.to_nat len) body acc.

Definition for_each {St A} (l : list A) (body : A → M St unit) : M St unit :=
  foldr (λ a m, body a ;; m) (mret tt) l.

(** ** Parts of a state *)

(** A component's operations run inside a larger state through a lens. *)
Class Part (St T : Type) := { part_get : St → T; part_set : T → St → St }.

Class PartLaws (St T : Type) `{!Part St T} : Prop := {
  part_get_set (t : T) (s : St) : part_get (part_set t s) = t;
  part_set_get (s : St) : part_set (part_get s) s = s;
  part_set_set (t t' : T) (s : St) : part_set t (part_set t' s) = part_set t s
}.

Definition zoom {St T A} `{!Part St T} (m : M T A) : M St A := λ s,
  match m (part_get s) with
  | Ok (a, t) => Ok (a, part_set t s)
  | Fault f => Fault f
  end.

(** ** Fixed-width integers *)

Definition u64 (z : Z) : Z := z `mod` 2 ^ 64.
Definition u32 (z : Z) : Z := z `mod` 2 ^ 32.
Definition wrap_signed (w : Z) (z : Z) : Z := (z + 2 ^ (w - 1)) `mod` 2 ^ w - 2 ^ (w - 1).
Definition s32 (z : Z) : Z := wrap_signed 32 z.
Definition s64 (z : Z) : Z := wrap_signed 64 z.
Definition INT_MAX : Z := 2 ^ 31 - 1.

(** ** Lemmas on the monad *)

Section monad.
Context {St : Type}.
Implicit Types (s : St).

Lemma bind_Ok {A B} (m : M St A) (k : A → M St B) s r :
  (m ≫= k) s = Ok r ↔ ∃ a s', m s = Ok (a, s') ∧ k a s' = Ok r.
Proof.
  unfold mbind, M_bind. split.
  - destruct (m s) as [[a s']|f]; [eauto|done].
  - intros (a & s' & -> & H). done.
Qed.

Lemma bind_run {A B} (m : M St A) (k : A → M St B) s a s' :
  m s = Ok (a, s') → (m ≫= k) s = k a s'.
Proof. unfold mbind, M_bind. by intros ->. Qed.

Lemma bind_Fault {A B} (m : M St A) (k : A → M St B) s f :
  m s = Fault f → (m ≫= k) s = Fault f.
Proof. unfold mbind, M_bind. by intros ->. Qed.

Lemma ret_bind {A B} (a : A) (k : A → M St B) s : (mret a ≫= k) s = k a s.
Proof. done. Qed.

Lemma bind_assoc {A B C} (m : M St A) (k : A → M St B) (k' : B → M St C) s :
  ((m ≫= k) ≫= k') s = (m ≫= λ a, k a ≫= k') s.
Proof. unfold mbind, M_bind. by destruct (m s) as [[]|]. Qed.

Lemma fold_upto_app {A} i n1 n2 (body : Z → A → M St A) acc s :
  fold_upto i (n1 + n2) body acc s =
  (fold_upto i n1 body acc ≫= fold_upto (i + Z.of_nat n1) n2 body) s.
Proof.
  revert i acc s. induction n1 as [|n1 IH]; intros i acc s.
  - rewrite Z.add_0_r. done.
  - cbn [Nat.add fold_upto]. rewrite bind_assoc. unfold mbind, M_bind.
    destruct (body i acc s) as [[a s']|]; [|done]. rewrite IH.
    unfold mbind, M_bind. replace (i + 1 + Z.of_nat n1)%Z with (i + Z.of_nat (S n1))%Z by lia. done.
Qed.

Lemma for_each_app {A} (l1 l2 : list A) (body : A → M St unit) s :
  for_each (l1 ++ l2) body s = (for_each l1 body ;; for_each l2 body) s.
Proof.
  revert s. induction l1 as [|a l1 IH]; intros s; [done|].
  cbn. rewrite bind_assoc. unfold mbind, M_bind.
  destruct (body a s) as [[[] s']|]; [|done]. apply IH.
Qed.

Lemma for_each_fmap {A B} (f : A → B) (l : list A) (body : B → M St unit) :
  for_each (f <$> l) body = for_each l (λ a, body (f a)).
Proof. unfold for_each. induction l as [|a l IH]; [done|]. cbn. by rewrite IH. Qed.
End monad.

(** ** Weakest preconditions *)

(** [wp m E Q s]: the run of [m] from [s] either returns with [Q], or faults with
    a fault that [E] allows. [E := λ _, False] is total correctness. *)
Definition wp {St A} (m : M St A) (E : fault → Prop) (Q : A → St → Prop) (s : St) : Prop :=
  match m s with
  | Ok (a, s') => Q a s'
  | Fault f => E f
  end.

#[global] Arguments wp {St A} m E Q s : simpl never.

Definition no_fault (f : fault) : Prop := False.
Definition any_fault (f : fault) : Prop := True.

Section wp.
Context {St : Type}.
Implicit Types (s : St) (E : fault → Prop).

Lemma wp_ret {A} (a : A) E Q s : Q a s → wp (mret a) E Q s.
Proof. done. Qed.

Lemma wp_bind {A B} (m : M St A) (k : A → M St B) E Q s :
  wp m E (λ a s', wp (k a) E Q s') s → wp (m ≫= k) E Q s.
Proof. unfold wp, mbind, M_bind. by destruct (m s) as [[]|]. Qed.

Lemma wp_mono {A} (m : M St A) E (E' : fault → Prop) (Q Q' : A → St → Prop) s :
  wp m E Q s → (∀ f, E f → E' f) → (∀ a s', Q a s' → Q' a s') → wp m E' Q' s.
Proof. unfold wp. destruct (m s) as [[]|]; eauto. Qed.

Lemma wp_conseq {A} (m : M St A) E (Q Q' : A → St → Prop) s :
  wp m E Q s → (∀ a s', Q a s' → Q' a s') → wp m E Q' s.
Proof. intros. by eapply wp_mono. Qed.

Lemma wp_and {A} (m : M St A) E (Q1 Q2 : A → St → Prop) s :
  wp m E Q1 s → wp m E Q2 s → wp m E (λ a s', Q1 a s' ∧ Q2 a s') s.
Proof. unfold wp. by destruct (m s) as [[]|]. Qed.

Lemma wp_fail {A} f E (Q : A → St → Prop) s : E f → wp (fail f) E Q s.
Proof. done. Qed.

Lemma wp_gets {A} (f : St → A) E (Q : A → St → Prop) s : Q (f s) s → wp (gets f) E Q s.
Proof. done. Qed.

Lemma wp_modify (f : St → St) E Q s : Q tt (f s) → wp (modify f) E Q s.
Proof. done. Qed.

Lemma wp_when (b : bool) (m : M St unit) E Q s :
  (b = true → wp m E Q s) → (b = false → Q tt s) → wp (when b m) E Q s.
Proof. destruct b; intros H1 H2; [by apply H1|by apply wp_ret, H2]. Qed.

Lemma wp_RELEASE_ASSERT b what E Q s :
  (b = true → Q tt s) → (b = false → E (ReleaseAssert what)) →
  wp (RELEASE_ASSERT b what) E Q s.
Proof. destruct b; intros H1 H2; [by apply H1|by apply H2]. Qed.

Lemma wp_ASSERT `{mode : BuildMode} b what E Q s :
  (b = true ∨ mode = false → Q tt s) →
  (mode = true → b = false → E (DebugAssert what)) →
  wp (ASSERT b what) E Q s.
Proof. unfold ASSERT, ASSERT_enabled. destruct mode, b; cbn; naive_solver. Qed.

Lemma wp_deref {A} what (o : option A) E (Q : A → St → Prop) s :
  (∀ a, o = Some a → Q a s) → (o = None → E (Undefined what)) → wp (deref what o) E Q s.
Proof. destruct o; intros H1 H2; [by apply H1|by apply H2]. Qed.

Lemma wp_Ok {A} (m : M St A) E Q s a s' : wp m E Q s → m s = Ok (a, s') → Q a s'.
Proof. unfold wp. intros H Hr. by rewrite Hr in H. Qed.

Lemma wp_run {A} (m : M St A) E (Q : A → St → Prop) s a s' :
  m s = Ok (a, s') → Q a s' → wp m E Q s.
Proof. unfold wp. by intros ->. Qed.

Lemma wp_total {A} (m : M St A) Q s :
  wp m no_fault Q s → ∃ a s', m s = Ok (a, s') ∧ Q a s'.
Proof. unfold wp. destruct (m s) as [[a s']|]; [eauto|done]. Qed.

(** The loop rule: an invariant indexed by the number of completed iterations. *)
Lemma wp_fold_upto {A} (I : nat → A → St → Prop) i n (body : Z → A → M St A) acc E Q s :
  I 0 acc s →
  (∀ k a s', k < n → I k a s' →
    wp (body (i + Z.of_nat k)%Z a) E (λ a' s'', I (S k) a' s'') s') →
  (∀ a s', I n a s' → Q a s') →
  wp (fold_upto i n body acc) E Q s.
Proof.
  revert I i acc s. induction n as [|n IH]; intros I i acc s H0 Hbody HQ.
  - apply wp_ret. by apply HQ.
  - cbn [fold_upto]. apply wp_bind.
    eapply wp_conseq.
    + specialize (Hbody 0 acc s ltac:(lia) H0).
      rewrite Z.add_0_r in Hbody. exact Hbody.
    + intros a s' Ha. apply (IH (λ k, I (S k))).
      * done.
      * intros k a' s'' Hk HI.
        replace (i + 1 + Z.of_nat k)%Z with (i + Z.of_nat (S k))%Z by lia.
        apply Hbody; [lia|done].
      * done.
Qed.

Lemma wp_for_each {A} (I : list A → St → Prop) (l : list A) (body : A → M St unit) E Q s :
  I l s →
  (∀ a l' s', I (a :: l') s' → wp (body a) E (λ _ s'', I l' s'') s') →
  (∀ s', I [] s' → Q tt s') →
  wp (for_each l body) E Q s.
Proof.
  intros HI Hstep HQ. revert s HI. induction l as [|a l IH]; intros s HI.
  - apply wp_ret. by apply HQ.
  - cbn. apply wp_bind. eapply wp_conseq; [by apply Hstep|].
    intros [] s' HI'. by apply IH.
Qed.
End wp.

Lemma wp_zoom {St T A} `{!Part St T} (m : M T A) E (Q : A → St → Prop) (s : St) :
  wp m E (λ a t, Q a (part_set t s)) (part_get s) → wp (zoom m) E Q s.
Proof. unfold wp, zoom. by destruct (m (part_get s)) as [[]|]. Qed.

Lemma zoom_for_each {St T A} `{!Part St T, !PartLaws St T} (l : list A) (body : A → M T unit) (s : St) :
  for_each l (λ a, zoom (body a)) s = zoom (for_each l body) s.
Proof.
  revert s. induction l as [|a l IH]; intros s.
  { unfold zoom. cbn. by rewrite part_set_get. }
  change ((zoom (body a) ;; for_each l (λ a, zoom (body a))) s = zoom (body a ;; for_each l body) s).
  unfold mbind, M_bind. unfold zoom at 1 3. destruct (body a (part_get s)) as [[[] t]|]; [|done].
  rewrite IH. unfold zoom. rewrite part_get_set.
  destruct (for_each l body t) as [[]|]; [|done]. by rewrite part_set_set.
Qed.

Lemma zoom_Ok {St T A} `{!Part St T} (m : M T A) (s : St) r :
  zoom m s = Ok r ↔ ∃ a t, m (part_get s) = Ok (a, t) ∧ r = (a, part_set t s).
Proof.
  unfold zoom. destruct (m (part_get s)) as [[a t]|f].
  - split; [intros [= <-]; eauto|by intros (? & ? & [= -> ->] & ->)].
  - split; [done|by intros (? & ? & ? & ?)].
Qed.

(** ** Relations that every run respects *)

(** [preserves R m]: the states before and after every returning run of [m] are
    related by [R]. For a preorder the property is compositional. *)
Definition preserves {St A} (R : relation St) (m : M St A) : Prop :=
  ∀ s a s', m s = Ok (a, s') → R s s'.

Section preserves.
Context {St : Type} (R : relation St) `{!PreOrder R}.

Lemma preserves_ret {A} (a : A) : preserves R (mret a).
Proof. by intros s a' s' [= <- <-]. Qed.
Lemma preserves_fail {A} f : preserves (A := A) R (fail f).
Proof. done. Qed.
Lemma preserves_gets {A} (f : St → A) : preserves R (gets f).
Proof. by intros s a' s' [= <- <-]. Qed.
Lemma preserves_bind {A A'} (m : M St A) (k : A → M St A') :
  preserves R m → (∀ a, preserves R (k a)) → preserves R (m ≫= k).
Proof.
  intros Hm Hk s a s'. rewrite bind_Ok. intros (b & s1 & H1 & H2).
  etrans; [by eapply Hm|by eapply Hk].
Qed.
Lemma preserves_modify (f : St → St) : (∀ s, R s (f s)) → preserves R (modify f).
Proof. intros Hf s a s' [= <- <-]. apply Hf. Qed.
Lemma preserves_when b (m : M St unit) : preserves R m → preserves R (when b m).
Proof. destruct b; [done|intros _; apply preserves_ret]. Qed.
Lemma preserves_RELEASE_ASSERT b what : preserves R (RELEASE_ASSERT b what).
Proof. destruct b; [apply preserves_ret|apply preserves_fail]. Qed.
Lemma preserves_ASSERT {mode : BuildMode} b what : preserves R (ASSERT b what).
Proof. unfold ASSERT. destruct ASSERT_enabled, b; (apply preserves_ret || apply preserves_fail). Qed.
Lemma preserves_deref {A} what (x : option A) : preserves R (deref what x).
Proof. destruct x; [apply preserves_ret|apply preserves_fail]. Qed.
Lemma preserves_for_each {A} (l : list A) (body : A → M St unit) :
  Forall (λ a, preserves R (body a)) l → preserves R (for_each l body).
Proof.
  induction 1; [apply preserves_ret|]. cbn. apply preserves_bind; [done|]. by intros [].
Qed.
Lemma preserves_zoom {T A} `{!Part St T} (m : M T A) :
  (∀ s t, R s (part_set t s)) → preserves R (zoom m).
Proof. intros HR s a s'. rewrite zoom_Ok. intros (a' & t & _ & [= -> ->]). apply HR. Qed.
End preserves.

Create HintDb preservesdb.

(** ** Refinement of computations *)

(** [m1 ⊑ₘ m2]: every run of [m1] that returns is also a run of [m2]. *)
Definition refines {St A} (m1 m2 : M St A) : Prop :=
  ∀ s r, m1 s = Ok r → m2 s = Ok r.
Infix "⊑ₘ" := refines (at level 70) : envoy_scope.
Open Scope envoy_scope.

#[export] Instance refines_preorder {St A} : PreOrder (@refines St A).
Proof. split; [by intros m s r|]. intros m1 m2 m3 H1 H2 s r H. by apply H2, H1. Qed.

#[export] Instance bind_refines {St A B} :
  Proper (pointwise_relation A (@refines St B) ==> @refines St A ==> @refines St B)
    (mbind (M := M St)).
Proof.
  intros k1 k2 Hk m1 m2 Hm s r. rewrite !bind_Ok.
  intros (a & s' & H1 & H2). exists a, s'. split; [by apply Hm|by apply Hk].
Qed.

Lemma refines_bind {St A B} (m1 m2 : M St A) (k1 k2 : A → M St B) :
  m1 ⊑ₘ m2 → (∀ a, k1 a ⊑ₘ k2 a) → (m1 ≫= k1) ⊑ₘ (m2 ≫= k2).
Proof. intros Hm Hk. by apply bind_refines. Qed.

Lemma refines_when {St} b (m1 m2 : M St unit) : m1 ⊑ₘ m2 → when b m1 ⊑ₘ when b m2.
Proof. by destruct b. Qed.

Lemma refines_zoom {St T A} `{!Part St T} (m1 m2 : M T A) :
  m1 ⊑ₘ m2 → (zoom m1 : M St A) ⊑ₘ zoom m2.
Proof.
  intros Hm s r. rewrite !zoom_Ok. intros (a & t & H1 & ->). eauto.
Qed.

Lemma refines_for_each {St A} (l : list A) (b1 b2 : A → M St unit) :
  (∀ a, b1 a ⊑ₘ b2 a) → for_each l b1 ⊑ₘ for_each l b2.
Proof.
  intros Hb. induction l as [|a l IH]; [reflexivity|].
  cbn. apply refines_bind; [done|]. by intros [].
Qed.

(** Dropping the ASSERTs of a build only removes faults. *)
Lemma refines_ASSERT {St} b what :
  @ASSERT true St b what ⊑ₘ @ASSERT false St b what.
Proof. intros s r. by destruct b. Qed.

Create HintDb refinesdb.
#[export] Hint Resolve refines_bind refines_when refines_zoom refines_for_each
  refines_ASSERT : refinesdb.
#[export] Hint Extern 0 (?m ⊑ₘ ?m) => reflexivity : refinesdb.

(** ** Fixed-width lemmas *)

Lemma u64_small z : (0 ≤ z < 2 ^ 64)%Z → u64 z = z.
Proof. intros. unfold u64. by apply Z.mod_small. Qed.

Lemma u64_bound z : (0 ≤ u64 z < 2 ^ 64)%Z.
Proof. unfold u64. apply Z.mod_pos_bound. lia. Qed.

Lemma s32_small z : (- 2 ^ 31 ≤ z < 2 ^ 31)%Z → s32 z = z.
Proof.
  intros. unfold s32, wrap_signed. rewrite Z.mod_small; lia.
Qed.

Lemma s32_range z : (- 2 ^ 31 ≤ s32 z < 2 ^ 31)%Z.
Proof.
  unfold s32, wrap_signed.
  pose proof (Z.mod_pos_bound (z + 2 ^ (32 - 1)) (2 ^ 32) ltac:(lia)). lia.
Qed.

(** ** Lists *)

Lemma Forall_prefix {A} (P : A → Prop) (l1 l2 : list A) :
  l1 `prefix_of` l2 → Forall P l2 → Forall P l1.
Proof. intros [k ->] H. by apply Forall_app in H as [??]. Qed.

Lemma mapM_Some_fmap {A} (l : list A) : mapM (λ o : option A, o) (Some <$> l) = Some l.
Proof. induction l as [|a l IH]; [done|]. cbn. rewrite IH. done. Qed.

Lemma take_Some_app {A} (l : list A) rest :
  take (length l) ((Some <$> l) ++ rest) = Some <$> l.
Proof.
  rewrite take_app_le by (rewrite length_fmap; lia).
  rewrite take_ge; [done|]. by rewrite length_fmap.
Qed.

(** ** Tactics *)

(** Invert a chain of binds that returned. *)
Ltac inv_bind H :=
  let a := fresh "v" in let s := fresh "st" in
  let H1 := fresh "Hrun" in let H2 := fresh "Hrest" in
  apply bind_Ok in H; destruct H as (a & s & H1 & H2).

(** Walk through the primitives and branches of a [preserves] goal; the database
    has the lemmas of the calls. *)
Ltac preserve :=
  repeat (intros; cbv beta; lazymatch goal with
  | |- preserves _ (_ ≫= _) => apply preserves_bind; [exact _|..]
  | |- preserves _ (mret _) => apply preserves_ret; exact _
  | |- preserves _ (fail _) => apply preserves_fail
  | |- preserves _ (gets _) => apply preserves_gets; exact _
  | |- preserves _ (when _ _) => apply preserves_when; [exact _|]
  | |- preserves _ (RELEASE_ASSERT _ _) => apply preserves_RELEASE_ASSERT; exact _
  | |- preserves _ (ASSERT _ _) => apply preserves_ASSERT; exact _
  | |- preserves _ (deref _ _) => apply preserves_deref; exact _
  | |- preserves _ (for_each _ _) =>
      first [solve [auto with preservesdb nocore] | apply preserves_for_each; [exact _|]]
  | |- preserves _ (match ?x with _ => _ end) => destruct x
  | |- _ => solve [auto with preservesdb nocore]
  end).

(** Step through the leading primitive of a [wp] goal. *)
Ltac wp_step :=
  lazymatch goal with
  | |- wp (_ ≫= _) _ _ _ => apply wp_bind
  | |- wp (mret _) _ _ _ => apply wp_ret
  | |- wp (gets _) _ _ _ => apply wp_gets
  | |- wp (modify _) _ _ _ => apply wp_modify
  | |- wp (fail _) _ _ _ => apply wp_fail
  | |- wp (when _ _) _ _ _ => apply wp_when; intros
  | |- wp (RELEASE_ASSERT _ _) _ _ _ => apply wp_RELEASE_ASSERT; intros
  | |- wp (ASSERT _ _) _ _ _ => apply wp_ASSERT; intros
  | |- wp (deref _ _) _ _ _ => apply wp_deref; intros
  | |- wp (zoom _) _ _ _ => apply wp_zoom
  end.

(** Evaluate the leading primitives, leaving branches and calls. *)
Ltac wp_pures :=
  repeat lazymatch goal with
  | |- wp (_ ≫= _) _ _ _ => apply wp_bind
  | |- wp (mret _) _ _ _ => apply wp_ret
  | |- wp (gets _) _ _ _ => apply wp_gets
  | |- wp (modify _) _ _ _ => apply wp_modify
  end.
