(* ===== verification/CTypes.v ===== *)
(** * The C data types of the bridge and the memory they live in

    Models library/common/types/c_types.h and c_types.cc: the structs that cross
    the platform boundary, the allocation wrappers, and the copy and release
    helpers. Memory is a finite map from locations to typed blocks; a release
    function pointer is the constructor that names the function. Ownership is
    made explicit: [headers_owned] lists the blocks a struct is responsible for,
    and the theorems say which blocks each helper allocates and frees. *)

From S2P Require Export Prelude.

(** ** Data *)

(** NULL is [None]. Locations are never reused, so a dangling pointer stays
    recognisable after the block is freed. *)
Abbreviation ptr := (option positive).
Abbreviation NULL := (@None positive).

Inductive envoy_status_t := ENVOY_SUCCESS | ENVOY_FAILURE.

Inductive envoy_error_code_t :=
| ENVOY_UNDEFINED_ERROR
| ENVOY_STREAM_RESET
| ENVOY_CONNECTION_FAILURE.

(** The values of envoy_error_code_t. *)
Definition error_code_value (c : envoy_error_code_t) : Z :=
  match c with
  | ENVOY_UNDEFINED_ERROR => 0%Z | ENVOY_STREAM_RESET => 1%Z | ENVOY_CONNECTION_FAILURE => 2%Z
  end.

Inductive envoy_network_t := ENVOY_NET_GENERIC | ENVOY_NET_WLAN | ENVOY_NET_WWAN.

(** The functions an [envoy_data] can carry as its release callback. *)
Inductive envoy_release_f :=
| envoy_noop_release
| c_free_release
| jni_delete_global_ref_release
| platform_release (id : positive).

Record envoy_data := EnvoyData {
  data_length : Z;
  data_bytes : ptr;
  data_release : envoy_release_f;
  data_context : ptr
}.

Record envoy_header := EnvoyHeader {
  header_key : envoy_data;
  header_value : envoy_data
}.

Record envoy_headers := EnvoyHeaders {
  headers_length : Z;
  headers_headers : ptr
}.

Record envoy_error := EnvoyError {
  error_code : envoy_error_code_t;
  error_message : envoy_data;
  error_attempt_count : Z
}.

#[export] Instance envoy_status_eq_dec : EqDecision envoy_status_t.
Proof. solve_decision. Defined.
#[export] Instance envoy_error_code_eq_dec : EqDecision envoy_error_code_t.
Proof. solve_decision. Defined.
#[export] Instance envoy_network_eq_dec : EqDecision envoy_network_t.
Proof. solve_decision. Defined.
#[export] Instance envoy_release_eq_dec : EqDecision envoy_release_f.
Proof. solve_decision. Defined.
#[export] Instance envoy_data_eq_dec : EqDecision envoy_data.
Proof. solve_decision. Defined.
#[export] Instance envoy_header_eq_dec : EqDecision envoy_header.
Proof. solve_decision. Defined.
#[export] Instance envoy_headers_eq_dec : EqDecision envoy_headers.
Proof. solve_decision. Defined.

(** A block of allocated memory. A cell that was never written is [None]. The
    boxes are the heap-allocated structs the platform hands over by pointer. *)
Inductive block :=
| BBytes (bs : list (option byte))
| BHeaders (hs : list (option envoy_header))
| BDataBox (d : envoy_data)
| BHeadersBox (h : envoy_headers).

Record mem := Mem {
  heap : gmap positive block;
  next_loc : positive;
  released : list (envoy_release_f * ptr)
}.

Definition mem_empty : mem := Mem ∅ 1 [].

Definition set_heap (h : gmap positive block) (m : mem) : mem :=
  Mem h (next_loc m) (released m).

(** ** The C library *)

(** Whether malloc finds memory is up to the allocator: an oracle on the state
    and the size of the request. *)
Class Allocator := malloc_ok : mem → Z → bool.

Definition alloc_block (b : block) (m : mem) : mem :=
  Mem (<[next_loc m := b]> (heap m)) (next_loc m + 1) (released m).

Definition c_malloc `{Allocator} (size : Z) (b : block) : M mem ptr := λ m,
  if malloc_ok m size then Ok (Some (next_loc m), alloc_block b m) else Ok (NULL, m).

Definition c_free (p : ptr) : M mem unit :=
  match p with
  | None => mret tt
  | Some l =>
      m ← gets heap;
      match m !! l with
      | Some _ => modify (λ m, set_heap (delete l (heap m)) m)
      | None => fail (Undefined "free of a pointer that is not allocated")
      end
  end.

Definition read_bytes (p : ptr) (n : Z) : M mem (list byte) :=
  if decide (n = 0%Z) then mret []
  else
    l ← deref "read through NULL" p;
    h ← gets heap;
    match h !! l with
    | Some (BBytes bs) =>
        if decide (Z.to_nat n ≤ length bs) then
          deref "read of uninitialised bytes" (mapM (λ o, o) (take (Z.to_nat n) bs))
        else fail (Undefined "read past the end of a block")
    | _ => fail (Undefined "read of a block that is not allocated")
    end.

Definition write_bytes (p : ptr) (bs : list byte) : M mem unit :=
  if decide (bs = []) then mret tt
  else
    l ← deref "write through NULL" p;
    h ← gets heap;
    match h !! l with
    | Some (BBytes old) =>
        if decide (length bs ≤ length old) then
          modify (λ m, set_heap
            (<[l := BBytes ((Some <$> bs) ++ drop (length bs) old)]> (heap m)) m)
        else fail (Undefined "write past the end of a block")
    | _ => fail (Undefined "write to a block that is not allocated")
    end.

(** [p[i]] on an array of envoy_header. *)
Definition load_header (p : ptr) (i : Z) : M mem envoy_header :=
  l ← deref "headers array is NULL" p;
  h ← gets heap;
  match h !! l with
  | Some (BHeaders hs) =>
      deref "header read out of range or uninitialised"
        (if decide (0 ≤ i)%Z then mjoin (hs !! Z.to_nat i) else None)
  | _ => fail (Undefined "headers array is not allocated")
  end.

Definition store_header (p : ptr) (i : Z) (hd : envoy_header) : M mem unit :=
  l ← deref "headers array is NULL" p;
  h ← gets heap;
  match h !! l with
  | Some (BHeaders hs) =>
      if decide (0 ≤ i < Z.of_nat (length hs))%Z then
        modify (λ m, set_heap (<[l := BHeaders (<[Z.to_nat i := Some hd]> hs)]> (heap m)) m)
      else fail (Undefined "header write out of range")
  | _ => fail (Undefined "headers array is not allocated")
  end.

(** ** c_types.cc *)

(** sizeof(envoy_header) on a 64-bit target: two structs of four words. *)
Definition SIZEOF_ENVOY_HEADER : Z := 64.

Definition bytes_block (size : Z) : block := BBytes (replicate (Z.to_nat size) None).
Definition headers_block (size : Z) : block :=
  BHeaders (replicate (Z.to_nat (size / SIZEOF_ENVOY_HEADER)) None).

Definition safe_malloc `{Allocator} (size : Z) (layout : Z → block) : M mem ptr :=
  p ← c_malloc size (layout size);
  when (bool_decide (0 < size)%Z)
    (RELEASE_ASSERT (bool_decide (p ≠ NULL)) "malloc failure") ;;
  mret p.

Definition safe_calloc `{Allocator} (count size : Z) (zeroed : block) : M mem ptr :=
  p ← c_malloc (count * size) zeroed;
  when (bool_decide (0 < count)%Z && bool_decide (0 < size)%Z)
    (RELEASE_ASSERT (bool_decide (p ≠ NULL)) "calloc failure") ;;
  mret p.

(** [d.release(d.context)]. A release function outside c_types.cc belongs to the
    platform: the call is recorded. *)
Definition release_data (d : envoy_data) : M mem unit :=
  match data_release d with
  | envoy_noop_release => mret tt
  | c_free_release => c_free (data_context d)
  | f => modify (λ m, Mem (heap m) (next_loc m) (released m ++ [(f, data_context d)]))
  end.

Definition release_envoy_headers (headers : envoy_headers) : M mem unit :=
  for_range (headers_length headers) (λ i _,
    header ← load_header (headers_headers headers) i;
    release_data (header_key header) ;;
    release_data (header_value header)) tt ;;
  c_free (headers_headers headers).

(** The body of copy_envoy_data over a source of bytes: the storage a pointer of
    this heap designates, or the storage of a std::string, which is not in it. *)
Definition copy_envoy_data_from `{Allocator} (length : Z) (src : M mem (list byte))
    : M mem envoy_data :=
  dst_bytes ← safe_malloc length bytes_block;
  bs ← src;
  write_bytes dst_bytes bs ;;
  mret (EnvoyData length dst_bytes c_free_release dst_bytes).

Definition copy_envoy_data `{Allocator} (length : Z) (src_bytes : ptr) : M mem envoy_data :=
  copy_envoy_data_from length (read_bytes src_bytes length).

(** sizeof(envoy_header) * n as a size_t; an int operand converts first. *)
Definition header_array_size (n : Z) : Z := u64 (SIZEOF_ENVOY_HEADER * u64 n).

Definition copy_envoy_headers `{Allocator} (src : envoy_headers) : M mem envoy_headers :=
  dst_header_array ← safe_malloc (header_array_size (headers_length src)) headers_block;
  for_range (headers_length src) (λ i _,
    header ← load_header (headers_headers src) i;
    key ← copy_envoy_data (data_length (header_key header)) (data_bytes (header_key header));
    value ← copy_envoy_data (data_length (header_value header)) (data_bytes (header_value header));
    store_header dst_header_array i (EnvoyHeader key value)) tt ;;
  mret (EnvoyHeaders (headers_length src) dst_header_array).

Definition envoy_nodata : envoy_data := EnvoyData 0 NULL envoy_noop_release NULL.
Definition envoy_noheaders : envoy_headers := EnvoyHeaders 0 NULL.

(** ** What a struct designates and what it owns *)

Definition reads_bytes (h : gmap positive block) (p : ptr) (bs : list byte) : Prop :=
  bs = [] ∨ ∃ l rest, p = Some l ∧ h !! l = Some (BBytes ((Some <$> bs) ++ rest)).

Definition reads_data (h : gmap positive block) (d : envoy_data) (bs : list byte) : Prop :=
  data_length d = Z.of_nat (length bs) ∧ reads_bytes h (data_bytes d) bs.

Definition reads_header (h : gmap positive block) (hd : envoy_header)
    (e : list byte * list byte) : Prop :=
  reads_data h (header_key hd) e.1 ∧ reads_data h (header_value hd) e.2.

Definition reads_array (h : gmap positive block) (p : ptr) (hs : list envoy_header) : Prop :=
  hs = [] ∨ ∃ l rest, p = Some l ∧ h !! l = Some (BHeaders ((Some <$> hs) ++ rest)).

Definition reads_headers (h : gmap positive block) (eh : envoy_headers)
    (hs : list envoy_header) (es : list (list byte * list byte)) : Prop :=
  headers_length eh = Z.of_nat (length hs) ∧
  reads_array h (headers_headers eh) hs ∧
  Forall2 (reads_header h) hs es.

Definition data_owned (d : envoy_data) : list positive :=
  match data_release d with
  | c_free_release => option_list (data_context d)
  | _ => []
  end.

Definition data_external (d : envoy_data) : list (envoy_release_f * ptr) :=
  match data_release d with
  | envoy_noop_release | c_free_release => []
  | f => [(f, data_context d)]
  end.

(** The struct frees the very bytes it designates. *)
Definition self_contained (d : envoy_data) : Prop :=
  data_release d = c_free_release ∧ data_context d = data_bytes d.
Definition header_contained (hd : envoy_header) : Prop :=
  self_contained (header_key hd) ∧ self_contained (header_value hd).

Definition header_owned (hd : envoy_header) : list positive :=
  data_owned (header_key hd) ++ data_owned (header_value hd).
Definition header_external (hd : envoy_header) : list (envoy_release_f * ptr) :=
  data_external (header_key hd) ++ data_external (header_value hd).

Definition items_owned (hs : list envoy_header) : list positive :=
  concat (header_owned <$> hs).
Definition headers_owned (eh : envoy_headers) (hs : list envoy_header) : list positive :=
  items_owned hs ++ option_list (headers_headers eh).
Definition headers_external (hs : list envoy_header) : list (envoy_release_f * ptr) :=
  concat (header_external <$> hs).

Definition allocated (m : mem) (ls : list positive) : Prop :=
  NoDup ls ∧ ∀ l, l ∈ ls → is_Some (heap m !! l).

(** A well-formed envoy_headers the callee may consume: it reads as [es], and its
    owned blocks are distinct and allocated. *)
Definition headers_ok (m : mem) (eh : envoy_headers) (hs : list envoy_header)
    (es : list (list byte * list byte)) : Prop :=
  reads_headers (heap m) eh hs es ∧ allocated m (headers_owned eh hs).

Definition data_ok (m : mem) (d : envoy_data) (bs : list byte) : Prop :=
  reads_data (heap m) d bs ∧ allocated m (data_owned d).

Definition mem_wf (m : mem) : Prop :=
  ∀ l, is_Some (heap m !! l) → (l < next_loc m)%positive.

(** The memory after the blocks [ls] are freed and the releases [ext] recorded. *)
Definition mem_release (ls : list positive) (ext : list (envoy_release_f * ptr)) (m : mem)
    : mem :=
  Mem (foldr delete (heap m) ls) (next_loc m) (released m ++ ext).

(** [m'] is [m] with exactly the fresh blocks [ls] added. *)
Record grows (ls : list positive) (m m' : mem) : Prop := {
  grows_next : (next_loc m ≤ next_loc m')%positive;
  grows_old : ∀ l, l ∉ ls → heap m' !! l = heap m !! l;
  grows_new : ∀ l, l ∈ ls →
    is_Some (heap m' !! l) ∧ (next_loc m ≤ l)%positive ∧ (l < next_loc m')%positive;
  grows_nodup : NoDup ls;
  grows_released : released m' = released m
}.

(** The only fault an allocation adds, and only when malloc can fail. *)
Definition oom `{Allocator} (f : fault) : Prop :=
  f = ReleaseAssert "malloc failure" ∧ ∃ m n, (0 < n)%Z ∧ malloc_ok m n = false.

(** ** Lemmas on memory *)

Lemma lookup_foldr_delete_dec (h : gmap positive block) ls l :
  foldr delete h ls !! l = if decide (l ∈ ls) then None else h !! l.
Proof.
  case_decide.
  - by apply lookup_foldr_delete.
  - by apply lookup_foldr_delete_not_elem_of.
Qed.

Lemma mem_release_nil m : mem_release [] [] m = m.
Proof. unfold mem_release. cbn. rewrite app_nil_r. by destruct m. Qed.

Lemma mem_release_app l1 l2 e1 e2 m :
  mem_release l2 e2 (mem_release l1 e1 m) = mem_release (l1 ++ l2) (e1 ++ e2) m.
Proof.
  unfold mem_release. cbn. f_equal.
  - apply map_eq. intros l. rewrite !lookup_foldr_delete_dec.
    repeat case_decide; set_solver.
  - by rewrite app_assoc.
Qed.

Lemma lookup_mem_release ls ext m l :
  heap (mem_release ls ext m) !! l = if decide (l ∈ ls) then None else heap m !! l.
Proof. apply lookup_foldr_delete_dec. Qed.

Lemma allocated_app m l1 l2 :
  allocated m (l1 ++ l2) ↔ allocated m l1 ∧ allocated m l2 ∧ (∀ l, l ∈ l1 → l ∉ l2).
Proof.
  unfold allocated. rewrite NoDup_app. setoid_rewrite elem_of_app. naive_solver.
Qed.

Lemma allocated_release m l1 l2 e :
  allocated m (l1 ++ l2) → allocated (mem_release l1 e m) l2.
Proof.
  rewrite allocated_app. intros (_ & [Hnd Hl2] & Hdisj). split; [done|].
  intros l Hl. rewrite lookup_mem_release. case_decide; [|by apply Hl2].
  by destruct (Hdisj l).
Qed.

Lemma grows_refl m : grows [] m m.
Proof. split; try done; [set_solver|constructor]. Qed.

Lemma grows_trans l1 l2 m m1 m2 :
  grows l1 m m1 → grows l2 m1 m2 → grows (l1 ++ l2) m m2.
Proof.
  intros [N1 O1 W1 D1 R1] [N2 O2 W2 D2 R2]. split.
  - lia.
  - intros l. rewrite elem_of_app. intros Hl. rewrite O2 by tauto. apply O1. tauto.
  - intros l. rewrite elem_of_app. intros [Hl|Hl].
    + destruct (W1 l Hl) as (H1 & H2 & H3).
      rewrite O2; [split; [done|lia]|]. intros Hl2. destruct (W2 l Hl2). lia.
    + destruct (W2 l Hl) as (H1 & H2 & H3). split; [done|lia].
  - apply NoDup_app. split; [done|]. split; [|done].
    intros l Hl Hl2. destruct (W1 l Hl). destruct (W2 l Hl2). lia.
  - congruence.
Qed.

Lemma grows_alloc b m : grows [next_loc m] m (alloc_block b m).
Proof.
  split; cbn.
  - lia.
  - intros l Hl. rewrite lookup_insert_ne; [done|]. intros <-. apply Hl. by left.
  - intros l Hl. apply list_elem_of_singleton in Hl. subst l.
    rewrite lookup_insert_eq. split; [done|lia].
  - apply NoDup_singleton.
  - done.
Qed.

Lemma grows_update ls m m' l b :
  grows ls m m' → l ∈ ls → grows ls m (set_heap (<[l := b]> (heap m')) m').
Proof.
  intros [N O W D R] Hl. split; try done; cbn.
  - intros l' Hl'. rewrite lookup_insert_ne; [by apply O|]. by intros ->.
  - intros l' Hl'. rewrite lookup_insert. case_decide.
    + subst l'. split; [done|by apply W].
    + by apply W.
Qed.

Lemma grows_wf ls m m' : mem_wf m → grows ls m m' → mem_wf m'.
Proof.
  intros Hwf [N O W D R] l Hl. destruct (decide (l ∈ ls)) as [Hin|Hin].
  - by apply W.
  - rewrite O in Hl by done. specialize (Hwf l Hl). lia.
Qed.

Lemma grows_fresh ls m m' l :
  mem_wf m → grows ls m m' → is_Some (heap m !! l) → l ∉ ls.
Proof. intros Hwf G Hl Hin. destruct (grows_new _ _ _ G l Hin). specialize (Hwf l Hl). lia. Qed.

Lemma grows_keeps ls m m' l b :
  mem_wf m → grows ls m m' → heap m !! l = Some b → heap m' !! l = Some b.
Proof.
  intros Hwf G Hl. rewrite (grows_old _ _ _ G); [done|]. eapply grows_fresh; eauto.
Qed.

Lemma grows_allocated ls m m' : grows ls m m' → allocated m' ls.
Proof. intros G. split; [apply G|]. intros l Hl. by apply (grows_new _ _ _ G). Qed.

(** Freeing what was added restores the heap. *)
Lemma grows_release ls e m m' :
  mem_wf m → grows ls m m' → heap (mem_release ls e m') = heap m.
Proof.
  intros Hwf G. apply map_eq. intros l. rewrite lookup_mem_release. case_decide.
  - destruct (heap m !! l) eqn:E; [|done].
    exfalso. eapply grows_fresh; eauto.
  - by apply (grows_old _ _ _ G).
Qed.

Lemma mem_wf_release ls e m : mem_wf m → mem_wf (mem_release ls e m).
Proof.
  intros Hwf l. rewrite lookup_mem_release. case_decide; [by intros []|]. apply Hwf.
Qed.

Lemma mem_wf_empty : mem_wf mem_empty.
Proof.
  intros l [b Hb]. change (heap mem_empty) with (∅ : gmap positive block) in Hb.
  by rewrite lookup_empty in Hb.
Qed.

#[export] Instance grows_proper : Proper ((≡ₚ) ==> eq ==> eq ==> iff) grows.
Proof.
  assert (Hd : ∀ l1 l2 m m', l1 ≡ₚ l2 → grows l1 m m' → grows l2 m m').
  { intros l1 l2 m m' Hp [N O W D R]. split; [done|..|done].
    - intros l. rewrite <- Hp. apply O.
    - intros l. rewrite <- Hp. apply W.
    - by rewrite <- Hp. }
  intros l1 l2 Hp m _ <- m' _ <-. split; by apply Hd.
Qed.

(** Reading is stable under growth. *)
Section stable.
Context (ls : list positive) (m m' : mem) (Hwf : mem_wf m) (Hgrows : grows ls m m').

Lemma reads_bytes_grows p bs : reads_bytes (heap m) p bs → reads_bytes (heap m') p bs.
Proof.
  intros [->|(l & rest & -> & Hl)]; [by left|]. right. exists l, rest.
  split; [done|]. by eapply grows_keeps.
Qed.

Lemma reads_data_grows d bs : reads_data (heap m) d bs → reads_data (heap m') d bs.
Proof. intros [H1 H2]. split; [done|by apply reads_bytes_grows]. Qed.

Lemma reads_header_grows hd e : reads_header (heap m) hd e → reads_header (heap m') hd e.
Proof. intros [H1 H2]. split; by apply reads_data_grows. Qed.

Lemma reads_items_grows hs es :
  Forall2 (reads_header (heap m)) hs es → Forall2 (reads_header (heap m')) hs es.
Proof. intros H. eapply Forall2_impl; [done|]. intros. by apply reads_header_grows. Qed.

Lemma reads_array_grows p hs : reads_array (heap m) p hs → reads_array (heap m') p hs.
Proof.
  intros [->|(l & rest & -> & Hl)]; [by left|]. right. exists l, rest.
  split; [done|]. by eapply grows_keeps.
Qed.

Lemma reads_headers_grows eh hs es :
  reads_headers (heap m) eh hs es → reads_headers (heap m') eh hs es.
Proof.
  intros (H1 & H2 & H3). split; [done|]. split; [by apply reads_array_grows|].
  by apply reads_items_grows.
Qed.

Lemma allocated_grows ls' : allocated m ls' → allocated m' ls'.
Proof.
  intros [H1 H2]. split; [done|]. intros l Hl. destruct (H2 l Hl) as [b Hb].
  exists b. by eapply grows_keeps.
Qed.

Lemma headers_ok_grows eh hs es : headers_ok m eh hs es → headers_ok m' eh hs es.
Proof. intros [H1 H2]. split; [by apply reads_headers_grows|by apply allocated_grows]. Qed.

Lemma data_ok_grows d bs : data_ok m d bs → data_ok m' d bs.
Proof. intros [H1 H2]. split; [by apply reads_data_grows|by apply allocated_grows]. Qed.
End stable.

(** ** Structs that own what they designate *)

Lemma contained_external d : self_contained d → data_external d = [].
Proof. unfold data_external. by intros [-> _]. Qed.

Lemma contained_owned d : self_contained d → data_owned d = option_list (data_bytes d).
Proof. unfold data_owned. by intros [-> ->]. Qed.

Lemma contained_headers_external hs : Forall header_contained hs → headers_external hs = [].
Proof.
  induction 1 as [|hd hs [Hk Hv] _ IH]; [done|].
  unfold headers_external in *. rewrite fmap_cons. cbn [concat]. rewrite IH.
  unfold header_external. by rewrite (contained_external _ Hk), (contained_external _ Hv).
Qed.

(** What such structs read depends on nothing but the blocks they own. *)
Section contained.
Context (h h' : gmap positive block).

Lemma reads_data_owned d bs :
  self_contained d → (∀ l, l ∈ data_owned d → h' !! l = h !! l) →
  reads_data h d bs → reads_data h' d bs.
Proof.
  intros Hc Hsame [Hlen Hr]. split; [done|]. rewrite contained_owned in Hsame by done.
  destruct Hr as [->|(l & rest & Hp & Hl)]; [by left|]. right. exists l, rest. split; [done|].
  rewrite Hsame; [done|]. rewrite Hp. set_solver.
Qed.

Lemma reads_items_owned hs es :
  Forall header_contained hs → (∀ l, l ∈ items_owned hs → h' !! l = h !! l) →
  Forall2 (reads_header h) hs es → Forall2 (reads_header h') hs es.
Proof.
  intros Hc Hsame Hr. revert Hc Hsame. induction Hr as [|hd e hs es [Hk Hv] _ IH]; [constructor|].
  intros [[Ck Cv] Hc]%Forall_cons Hsame. unfold items_owned, header_owned in *. cbn in Hsame.
  constructor; [|apply IH; [done|set_solver]].
  split; (eapply reads_data_owned; [done| |done]); set_solver.
Qed.

Lemma reads_headers_owned eh hs es :
  Forall header_contained hs → (∀ l, l ∈ headers_owned eh hs → h' !! l = h !! l) →
  reads_headers h eh hs es → reads_headers h' eh hs es.
Proof.
  unfold headers_owned. intros Hc Hsame (Hlen & Harr & Hitems). split; [done|]. split.
  - destruct Harr as [->|(l & rest & Hp & Hl)]; [by left|]. right. exists l, rest.
    split; [done|]. rewrite Hsame; [done|]. rewrite Hp. set_solver.
  - eapply reads_items_owned; [done| |done]. set_solver.
Qed.
End contained.

(** ** The C library calls *)

Lemma c_free_run l m :
  is_Some (heap m !! l) → c_free (Some l) m = Ok (tt, mem_release [l] [] m).
Proof.
  intros [b Hb]. unfold c_free, mbind, M_bind, gets. cbn. rewrite Hb. cbn.
  unfold modify, set_heap, mem_release. cbn. by rewrite app_nil_r.
Qed.

Lemma c_free_option_run p m :
  (∀ l, l ∈ option_list p → is_Some (heap m !! l)) →
  c_free p m = Ok (tt, mem_release (option_list p) [] m).
Proof.
  destruct p as [l|]; intros Hl; cbn in *.
  - apply c_free_run. apply Hl. by left.
  - by rewrite mem_release_nil.
Qed.

Lemma read_bytes_run p n bs m :
  n = Z.of_nat (length bs) → reads_bytes (heap m) p bs → read_bytes p n m = Ok (bs, m).
Proof.
  intros -> Hr. unfold read_bytes. case_decide as Hn.
  { destruct bs; [done|]. cbn in Hn. lia. }
  destruct Hr as [->|(l & rest & -> & Hl)]; [done|].
  unfold mbind, M_bind, gets. cbn. rewrite Hl, Nat2Z.id.
  rewrite decide_True by (rewrite length_app, length_fmap; lia).
  by rewrite take_Some_app, mapM_Some_fmap.
Qed.

Lemma load_header_run p hs i hd m :
  reads_array (heap m) p hs → hs !! i = Some hd → load_header p (Z.of_nat i) m = Ok (hd, m).
Proof.
  intros [->|(l & rest & -> & Hl)] Hi; [by rewrite lookup_nil in Hi|].
  unfold load_header, mbind, M_bind, gets. cbn. rewrite Hl.
  rewrite decide_True by lia. rewrite Nat2Z.id.
  pose proof (lookup_lt_Some _ _ _ Hi).
  rewrite lookup_app_l by (rewrite length_fmap; lia).
  rewrite list_lookup_fmap, Hi. done.
Qed.

Lemma release_data_run d m :
  (∀ l, l ∈ data_owned d → is_Some (heap m !! l)) →
  release_data d m = Ok (tt, mem_release (data_owned d) (data_external d) m).
Proof.
  unfold release_data, data_owned, data_external. destruct (data_release d); intros Hl.
  - by rewrite mem_release_nil.
  - by apply c_free_option_run.
  - by destruct m.
  - by destruct m.
Qed.

(** ** Releasing headers *)

Lemma items_owned_take_S hs k hd :
  hs !! k = Some hd → items_owned (take (S k) hs) = items_owned (take k hs) ++ header_owned hd.
Proof.
  intros Hk. unfold items_owned. rewrite (take_S_r _ _ _ Hk), fmap_app, concat_app. cbn.
  by rewrite app_nil_r.
Qed.

Lemma headers_external_take_S hs k hd :
  hs !! k = Some hd →
  headers_external (take (S k) hs) = headers_external (take k hs) ++ header_external hd.
Proof.
  intros Hk. unfold headers_external. rewrite (take_S_r _ _ _ Hk), fmap_app, concat_app. cbn.
  by rewrite app_nil_r.
Qed.

Lemma items_owned_split hs k hd :
  hs !! k = Some hd →
  items_owned hs = items_owned (take k hs) ++ header_owned hd ++ items_owned (drop (S k) hs).
Proof.
  intros Hk. unfold items_owned. rewrite <- (take_drop_middle _ _ _ Hk) at 1.
  rewrite fmap_app, concat_app. done.
Qed.

(** Releasing consumable headers frees exactly the blocks they own, each once. *)
Lemma release_envoy_headers_run eh hs m :
  headers_length eh = Z.of_nat (length hs) →
  reads_array (heap m) (headers_headers eh) hs →
  allocated m (headers_owned eh hs) →
  release_envoy_headers eh m = Ok (tt, mem_release (headers_owned eh hs) (headers_external hs) m).
Proof.
  intros Hlen Harr Hown. unfold release_envoy_headers, headers_owned.
  assert (Hloop : wp (for_range (headers_length eh) (λ i _,
      header ← load_header (headers_headers eh) i;
      release_data (header_key header) ;; release_data (header_value header)) tt)
    no_fault (λ _ m', m' = mem_release (items_owned hs) (headers_external hs) m) m).
  { unfold for_range. rewrite Hlen, Nat2Z.id.
    apply (wp_fold_upto (λ k _ m',
      m' = mem_release (items_owned (take k hs)) (headers_external (take k hs)) m)).
    - cbn. by rewrite mem_release_nil.
    - intros k [] m' Hk ->. destruct (lookup_lt_is_Some_2 hs k Hk) as [hd Hhd].
      assert (Hsplit := Hown). unfold headers_owned in Hsplit.
      rewrite (items_owned_split _ _ _ Hhd), <- !app_assoc in Hsplit.
      unfold header_owned in Hsplit. rewrite <- app_assoc in Hsplit.
      pose proof (proj1 (allocated_app _ _ _) Hsplit) as (_ & _ & Hdisj).
      apply (allocated_release _ _ _ (headers_external (take k hs))) in Hsplit.
      apply wp_bind. eapply wp_run.
      { rewrite Z.add_0_l. apply (load_header_run _ hs); [|done].
        destruct Harr as [->|(l & rest & Hp & Hl)]; [by left|]. right. exists l, rest.
        split; [done|]. rewrite lookup_mem_release. case_decide; [|done].
        exfalso. apply (Hdisj l); [done|]. rewrite Hp. set_solver. }
      apply wp_bind. eapply wp_run.
      { apply release_data_run. intros l Hl. apply Hsplit. set_solver. }
      apply (allocated_release _ _ _ (data_external (header_key hd))) in Hsplit.
      eapply wp_run.
      { apply release_data_run. intros l Hl. apply Hsplit. set_solver. }
      rewrite !mem_release_app, (items_owned_take_S _ _ _ Hhd), (headers_external_take_S _ _ _ Hhd).
      done.
    - intros [] m' ->. by rewrite !take_ge by lia. }
  apply wp_total in Hloop as ([] & m' & Hrun & ->).
  rewrite (bind_run _ _ _ _ _ Hrun). rewrite c_free_option_run.
  - by rewrite mem_release_app, app_nil_r.
  - by apply (allocated_release m (items_owned hs) _ (headers_external hs)) in Hown as [_ ?].
Qed.

(** ** Allocating *)

Section alloc.
Context `{Allocator}.

(** safe_malloc: a fresh block, or NULL for a request of no bytes, or an abort. *)
Lemma wp_safe_malloc size layout Q m :
  ((size ≤ 0)%Z → Q NULL m) →
  Q (Some (next_loc m)) (alloc_block (layout size) m) →
  wp (safe_malloc size layout) oom Q m.
Proof.
  intros H0 H1. unfold safe_malloc, c_malloc. apply wp_bind. unfold wp at 1.
  destruct (malloc_ok m size) eqn:Hok.
  - apply wp_bind, wp_when; intros _; by apply wp_ret.
  - apply wp_bind, wp_when; intros Hsz.
    + apply wp_RELEASE_ASSERT; [done|]. intros _. split; [done|].
      exists m, size. by apply bool_decide_eq_true in Hsz.
    + apply wp_ret, H0. apply bool_decide_eq_false in Hsz. lia.
Qed.

Lemma write_bytes_fresh p bs m :
  (p = NULL ∧ bs = [] ∨
   ∃ l, p = Some l ∧ heap m !! l = Some (bytes_block (Z.of_nat (length bs)))) →
  wp (write_bytes p bs) no_fault (λ _ m',
    reads_bytes (heap m') p bs ∧
    (m' = m ∨ ∃ l, p = Some l ∧ m' = set_heap (<[l := BBytes (Some <$> bs)]> (heap m)) m)) m.
Proof.
  intros Hp. unfold write_bytes. case_decide as Hbs.
  { apply wp_ret. split; [by left|by left]. }
  destruct Hp as [[-> ->]|(l & -> & Hl)]; [done|].
  apply wp_bind, wp_ret, wp_bind, wp_gets. rewrite Hl. unfold bytes_block.
  rewrite Nat2Z.id, decide_True by (rewrite length_replicate; lia).
  rewrite drop_ge, app_nil_r by (rewrite length_replicate; lia).
  apply wp_modify. split; [|by right; exists l].
  right. exists l, []. cbn. rewrite lookup_insert_eq, app_nil_r. done.
Qed.

(** A copied envoy_data is a fresh block that reads as its source and frees itself. *)
Lemma wp_copy_envoy_data_from n (src : M mem (list byte)) bs m :
  n = Z.of_nat (length bs) →
  (∀ ls m', grows ls m m' → src m' = Ok (bs, m')) →
  wp (copy_envoy_data_from n src) oom (λ d m',
    reads_data (heap m') d bs ∧ self_contained d ∧ grows (data_owned d) m m') m.
Proof.
  intros -> Hsrc. unfold copy_envoy_data_from. apply wp_bind, wp_safe_malloc.
  - intros Hn. assert (bs = []) as -> by (destruct bs; [done|cbn in Hn; lia]).
    apply wp_bind. eapply wp_run; [by eapply Hsrc, grows_refl|].
    apply wp_bind, wp_ret, wp_ret. split; [|split; [done|apply grows_refl]].
    split; [done|by left].
  - apply wp_bind. eapply wp_run; [by eapply Hsrc, grows_alloc|].
    apply wp_bind. eapply wp_mono; [apply write_bytes_fresh|done|].
    { right. exists (next_loc m). split; [done|]. cbn. by rewrite lookup_insert_eq. }
    intros [] m' [Hr Hm']. apply wp_ret. split; [done|]. split; [done|]. cbn.
    destruct Hm' as [->|(l & [= <-] & ->)].
    + apply grows_alloc.
    + apply grows_update; [apply grows_alloc|set_solver].
Qed.

Lemma wp_copy_envoy_data n p bs m :
  mem_wf m → n = Z.of_nat (length bs) → reads_bytes (heap m) p bs →
  wp (copy_envoy_data n p) oom (λ d m',
    reads_data (heap m') d bs ∧ self_contained d ∧ grows (data_owned d) m m') m.
Proof.
  intros Hwf Hn Hr. apply wp_copy_envoy_data_from; [done|].
  intros ls m' Hg. apply read_bytes_run; [done|]. by eapply reads_bytes_grows.
Qed.
End alloc.

(** ** Filling an array of headers *)

(** The loop state of the two copying loops after [length hs] of the [es] entries:
    the array [p] holds the items so far, and everything new is owned. *)
Record filling (m0 : mem) (p : ptr) (es : list (list byte * list byte))
    (hs : list envoy_header) (m : mem) : Prop := {
  filling_grows : grows (items_owned hs ++ option_list p) m0 m;
  filling_array : es = [] ∨ ∃ a, p = Some a ∧
    heap m !! a = Some (BHeaders ((Some <$> hs) ++ replicate (length es - length hs) None));
  filling_items : Forall2 (reads_header (heap m)) hs (take (length hs) es);
  filling_contained : Forall header_contained hs
}.

Lemma reads_data_update_array h a xs ys d bs :
  h !! a = Some (BHeaders xs) → reads_data h d bs → reads_data (<[a := BHeaders ys]> h) d bs.
Proof.
  intros Ha [Hl Hr]. split; [done|].
  destruct Hr as [->|(l & rest & -> & Hb)]; [by left|]. right. exists l, rest.
  split; [done|]. rewrite lookup_insert_ne; [done|]. intros ->. congruence.
Qed.

Lemma items_owned_snoc hs hd : items_owned (hs ++ [hd]) = items_owned hs ++ header_owned hd.
Proof. unfold items_owned. rewrite fmap_app, concat_app. cbn. by rewrite app_nil_r. Qed.

Lemma array_snoc (hs : list envoy_header) hd n :
  <[length hs := Some hd]> ((Some <$> hs) ++ replicate (S n) None) =
  (Some <$> (hs ++ [hd])) ++ replicate n None.
Proof.
  rewrite insert_app_r_alt by (by rewrite length_fmap).
  rewrite length_fmap, Nat.sub_diag, fmap_app, <- app_assoc. done.
Qed.

(** Storing the next pair keeps the loop state. *)
Lemma filling_store m0 p es hs key value e m m1 m2 :
  mem_wf m0 → filling m0 p es hs m → es !! length hs = Some e →
  grows (data_owned key) m m1 → reads_data (heap m1) key e.1 →
  grows (data_owned value) m1 m2 → reads_data (heap m2) value e.2 →
  self_contained key → self_contained value →
  wp (store_header p (Z.of_nat (length hs)) (EnvoyHeader key value)) no_fault
    (λ _ m', filling m0 p es (hs ++ [EnvoyHeader key value]) m') m2.
Proof.
  intros Hwf0 [G A I X] He G1 R1 G2 R2 X1 X2.
  assert (mem_wf m) as Hwf by (by eapply grows_wf). assert (mem_wf m1) as Hwf1 by (by eapply grows_wf).
  pose proof (lookup_lt_Some _ _ _ He) as Hlt.
  destruct A as [->|(a & -> & Ha)]; [by rewrite lookup_nil in He|].
  replace (length es - length hs)%nat with (S (length es - S (length hs))) in Ha by lia.
  eapply grows_keeps in Ha; [|exact Hwf|exact G1].
  eapply grows_keeps in Ha; [|exact Hwf1|exact G2].
  unfold store_header. apply wp_bind, wp_ret, wp_bind, wp_gets. rewrite Ha.
  rewrite decide_True by (rewrite length_app, length_fmap, length_replicate; lia).
  rewrite Nat2Z.id, array_snoc. apply wp_modify.
  assert (grows (items_owned (hs ++ [EnvoyHeader key value]) ++ option_list (Some a)) m0 m2) as G'.
  { pose proof (grows_trans _ _ _ _ _ (grows_trans _ _ _ _ _ G G1) G2) as G'. revert G'.
    apply grows_proper; [|done..]. rewrite items_owned_snoc. unfold header_owned. cbn.
    solve_Permutation. }
  split.
  - apply grows_update; [done|]. set_solver.
  - right. exists a. split; [done|]. cbn. rewrite lookup_insert_eq, length_app. cbn.
    by replace (length hs + 1)%nat with (S (length hs)) by lia.
  - rewrite length_app. cbn. rewrite Nat.add_1_r, (take_S_r _ _ _ He).
    assert (Hkeep : ∀ hd e', reads_header (heap m2) hd e' →
      reads_header (<[a:=BHeaders ((Some <$> hs ++ [EnvoyHeader key value]) ++
        replicate (length es - S (length hs)) None)]> (heap m2)) hd e').
    { intros hd e' [? ?]. split; by eapply reads_data_update_array. }
    apply Forall2_app; [|constructor; [|constructor]].
    + eapply Forall2_impl; [exact I|]. intros hd e' ?. apply Hkeep.
      eapply reads_header_grows; [exact Hwf1|exact G2|].
      by eapply reads_header_grows; [exact Hwf|exact G1|].
    + apply Hkeep. split; [|done]. by eapply reads_data_grows; [exact Hwf1|exact G2|].
  - apply Forall_app. split; [done|]. constructor; [by split|constructor].
Qed.

Section fill.
Context `{Allocator}.

Lemma wp_fill_step m0 p es hs e (src1 src2 : M mem (list byte)) m :
  mem_wf m0 → filling m0 p es hs m → es !! length hs = Some e →
  (∀ ls m', grows ls m m' → src1 m' = Ok (e.1, m')) →
  (∀ ls m', grows ls m m' → src2 m' = Ok (e.2, m')) →
  wp (key ← copy_envoy_data_from (Z.of_nat (length e.1)) src1;
      value ← copy_envoy_data_from (Z.of_nat (length e.2)) src2;
      store_header p (Z.of_nat (length hs)) (EnvoyHeader key value)) oom
    (λ _ m', ∃ hd, filling m0 p es (hs ++ [hd]) m') m.
Proof.
  intros Hwf0 F He Hsrc1 Hsrc2.
  apply wp_bind. eapply wp_conseq; [by apply wp_copy_envoy_data_from|].
  intros key m1 (R1 & X1 & G1).
  apply wp_bind. eapply wp_conseq.
  { apply wp_copy_envoy_data_from; [done|]. intros ls m' G'.
    eapply Hsrc2. by eapply grows_trans. }
  intros value m2 (R2 & X2 & G2).
  eapply wp_mono; [by eapply filling_store|done|]. cbn. eauto.
Qed.

Lemma header_array_size_small n :
  (0 ≤ n ≤ INT_MAX)%Z → header_array_size n = (64 * n)%Z.
Proof.
  unfold header_array_size, SIZEOF_ENVOY_HEADER, INT_MAX. intros.
  rewrite (u64_small n) by lia. apply u64_small. lia.
Qed.

(** The array allocated for [n] headers starts the loop. *)
Lemma wp_start_fill es Q m :
  mem_wf m → (Z.of_nat (length es) ≤ INT_MAX)%Z →
  (∀ p m', filling m p es [] m' → Q p m') →
  wp (safe_malloc (header_array_size (Z.of_nat (length es))) headers_block) oom Q m.
Proof.
  intros Hwf Hn HQ. rewrite header_array_size_small by lia. apply wp_safe_malloc.
  - intros Hsz. apply HQ. assert (es = []) as -> by (destruct es; [done|cbn in Hsz; lia]).
    split; [apply grows_refl|by left|constructor|done].
  - apply HQ. split; [apply grows_alloc|..|constructor|done].
    right. exists (next_loc m). split; [done|]. cbn. rewrite lookup_insert_eq.
    unfold headers_block, SIZEOF_ENVOY_HEADER. rewrite Z.mul_comm, Z.div_mul by lia.
    rewrite Nat2Z.id, Nat.sub_0_r. done.
Qed.

(** A filled array is an envoy_headers that owns exactly what was allocated. *)
Lemma filling_done m0 p es hs m :
  length hs = length es → filling m0 p es hs m →
  reads_headers (heap m) (EnvoyHeaders (Z.of_nat (length es)) p) hs es ∧
  Forall header_contained hs ∧
  grows (headers_owned (EnvoyHeaders (Z.of_nat (length es)) p) hs) m0 m.
Proof.
  intros Hlen [G A I X]. split; [|done]. split; [cbn; by rewrite Hlen|].
  rewrite Hlen, take_ge in I by lia. split; [|done]. cbn.
  destruct A as [->|(a & -> & Ha)]; [by left; destruct hs|]. right. exists a.
  rewrite Hlen, Nat.sub_diag in Ha. eauto.
Qed.

(** copy_envoy_headers: a deep copy that owns its own blocks. *)
Lemma wp_copy_envoy_headers src hs es m :
  mem_wf m → reads_headers (heap m) src hs es → (Z.of_nat (length es) ≤ INT_MAX)%Z →
  wp (copy_envoy_headers src) oom (λ dst m', ∃ hs',
    reads_headers (heap m') dst hs' es ∧ Forall header_contained hs' ∧
    grows (headers_owned dst hs') m m') m.
Proof.
  intros Hwf (Hlen & Harr & Hitems) Hmax.
  pose proof (Forall2_length _ _ _ Hitems) as Hl. rewrite Hl in Hlen.
  unfold copy_envoy_headers. rewrite Hlen.
  apply wp_bind, wp_start_fill; [done..|]. intros p m1 F1.
  apply wp_bind. unfold for_range. rewrite Nat2Z.id.
  apply (wp_fold_upto (λ k _ m', ∃ hs', length hs' = k ∧ filling m p es hs' m')).
  - by exists [].
  - intros k [] m' Hk (hs' & <- & F). rewrite Z.add_0_l.
    destruct (lookup_lt_is_Some_2 es (length hs')) as [e He]; [done|].
    destruct (Forall2_lookup_r _ _ _ _ _ Hitems He) as (hd & Hhd & [Hk1 Hk2] & Hv1 & Hv2).
    assert (Hstable : ∀ ls m'', grows ls m' m'' → ∃ ls', grows ls' m m'').
    { intros ls m'' G. eexists. by eapply grows_trans; [apply F|]. }
    destruct (Hstable _ _ (grows_refl m')) as [ls0 G0].
    apply wp_bind. eapply wp_run.
    { apply (load_header_run _ hs); [|done]. by eapply reads_array_grows. }
    unfold copy_envoy_data. rewrite Hk1, Hv1.
    eapply wp_conseq.
    { eapply wp_fill_step; [done..| |].
      - intros ls m'' G. destruct (Hstable _ _ G). apply read_bytes_run; [done|].
        by eapply reads_bytes_grows.
      - intros ls m'' G. destruct (Hstable _ _ G). apply read_bytes_run; [done|].
        by eapply reads_bytes_grows. }
    intros [] m'' [hd' F']. exists (hs' ++ [hd']). split; [|done].
    rewrite length_app. cbn. lia.
  - intros [] m' (hs' & Hlen' & F). apply wp_ret.
    exists hs'. by apply filling_done.
Qed.
End fill.
