(* ===== verification/EnvoyIface.v ===== *)
(** * What the bridge relies on from Envoy

    Envoy itself is a submodule whose sources are not in this repository. The
    classes of this file are its parts the bridge calls: header maps, buffers and
    the codec helpers. Operations are class fields; the laws, in separate classes,
    state the documented behaviour the theorems use. Nothing here fixes an
    implementation: [Reference.v] shows the laws can be met. *)

From S2P Require Export CTypes.

Definition bytes_of (s : string) : list byte := String.list_byte_of_string s.
Definition string_of (bs : list byte) : string := String.string_of_list_byte bs.

Lemma string_of_bytes_of s : string_of (bytes_of s) = s.
Proof. apply String.string_of_list_byte_of_string. Qed.

Lemma bytes_of_string_of bs : bytes_of (string_of bs) = bs.
Proof. apply String.list_byte_of_string_of_list_byte. Qed.

(** ** Header lists up to the order between different names *)

(** The values of header [k], in order. *)
Definition values (k : string) (l : list (string * string)) : list string :=
  snd <$> filter (λ e, e.1 = k) l.

(** A header map keeps the order of the values of one name; the order between
    names is its own business (pseudo-headers come first). *)
Definition headers_equiv (l1 l2 : list (string * string)) : Prop :=
  ∀ k, values k l1 = values k l2.
Infix "≡ₕ" := headers_equiv (at level 70) : envoy_scope.

#[export] Instance headers_equiv_equivalence : Equivalence headers_equiv.
Proof.
  split; [by intros l k|by intros l1 l2 H k; rewrite H|].
  intros l1 l2 l3 H1 H2 k. by rewrite H1, H2.
Qed.

(** ** Http::HeaderMap *)

Inductive header_map_kind :=
| RequestHeaderMapImpl
| RequestTrailerMapImpl
| ResponseHeaderMapImpl
| ResponseTrailerMapImpl.

Class HeaderMap (HM : Type) := {
  (** The [create()] of each implementation class. *)
  hm_create : header_map_kind → HM;
  (** The constructor of LowerCaseString. *)
  LowerCaseString : string → string;
  (** The pairs [iterate] visits, in its order. *)
  hm_entries : HM → list (string * string);
  hm_size : HM → Z;
  (** Whether the map stores the name as a predefined inline header. *)
  hm_inline : HM → string → bool;
  hm_addCopy : string → string → HM → HM;
  hm_addReference : string → string → HM → HM;
  hm_clear : HM → HM;
  hm_remove : string → HM → HM;
  hm_get : string → HM → list string;
  hm_setReferenceForwardedProto : string → HM → HM
}.

Definition ForwardedProto : string := "x-forwarded-proto".

(** What separates the values of an inline header that is added twice. *)
Definition inline_delimiter (k : string) : string :=
  if decide (k = "cookie") then "; " else ",".

Class HeaderMapLaws (HM : Type) `{!HeaderMap HM} : Prop := {
  create_entries k : hm_entries (hm_create k) = [];
  clear_entries (m : HM) : hm_entries (hm_clear m) = [];
  size_entries (m : HM) : hm_size m = Z.of_nat (length (hm_entries m));
  get_values k (m : HM) : hm_get k m = values k (hm_entries m);
  (** Adding a header that is not inline, or not present, adds an entry. *)
  addCopy_new k v (m : HM) :
    hm_inline m k = false ∨ hm_get k m = [] →
    hm_entries (hm_addCopy k v m) ≡ₕ hm_entries m ++ [(k, v)];
  (** Adding to a present inline header concatenates. *)
  addCopy_inline k v v0 (m : HM) :
    hm_inline m k = true → hm_get k m = [v0] →
    hm_get k (hm_addCopy k v m) = [v0 +:+ inline_delimiter k +:+ v] ∧
    ∀ k', k' ≠ k → hm_get k' (hm_addCopy k v m) = hm_get k' m;
  addReference_addCopy k v (m : HM) : hm_addReference k v m = hm_addCopy k v m;
  inline_addCopy k v (m : HM) k' : hm_inline (hm_addCopy k v m) k' = hm_inline m k';
  inline_clear (m : HM) k' : hm_inline (hm_clear m) k' = hm_inline m k';
  inline_remove k (m : HM) k' : hm_inline (hm_remove k m) k' = hm_inline m k';
  remove_entries k (m : HM) :
    hm_entries (hm_remove k m) ≡ₕ filter (λ e, e.1 ≠ k) (hm_entries m);
  setForwardedProto_entries v (m : HM) :
    hm_entries (hm_setReferenceForwardedProto v m) ≡ₕ
    filter (λ e, e.1 ≠ ForwardedProto) (hm_entries m) ++ [(ForwardedProto, v)];
  lower_idempotent s : LowerCaseString (LowerCaseString s) = LowerCaseString s
}.

(** ** Codec helpers of Envoy's Http::Utility, CodeUtility and absl *)

Class EnvoyCodec (HM : Type) := {
  (** Throws (None) when :status is missing or malformed. *)
  getResponseStatus : HM → option Z;
  is2xx : Z → bool;
  (** The value of x-envoy-attempt-count, when present. *)
  EnvoyAttemptCount : HM → option string;
  (** absl::SimpleAtoi into a uint32_t. *)
  SimpleAtoi_uint32 : string → option Z;
  (** Headers::get().EnvoyUpstreamServiceTime and SchemeValues.Https. *)
  EnvoyUpstreamServiceTime : string;
  SchemeHttps : string
}.

Class EnvoyCodecLaws (HM : Type) `{!EnvoyCodec HM} : Prop := {
  SimpleAtoi_range s n : SimpleAtoi_uint32 s = Some n → (0 ≤ n < 2 ^ 32)%Z
}.

(** ** Buffer::Instance *)

(** A buffer observes as its bytes and as the external fragments it still has to
    call [done] on. A fragment is identified by the envoy_data it wraps. *)
Class BufferInstance (B : Type) := {
  buf_create : B;
  buf_bytes : B → list byte;
  buf_fragments : B → list envoy_data;
  buf_addBufferFragment : envoy_data → list byte → B → B;
  (** The buffer after draining [n] bytes, and the fragments done with. *)
  buf_drain : Z → B → B * list envoy_data;
  (** [buf_move dst src]: both buffers afterwards. *)
  buf_move : B → B → B * B
}.

Definition buf_length {B} `{!BufferInstance B} (b : B) : Z := Z.of_nat (length (buf_bytes b)).

Class BufferLaws (B : Type) `{!BufferInstance B} : Prop := {
  create_bytes : buf_bytes buf_create = [];
  create_fragments : buf_fragments buf_create = [];
  add_bytes d bs (b : B) : buf_bytes (buf_addBufferFragment d bs b) = buf_bytes b ++ bs;
  add_fragments d bs (b : B) :
    buf_fragments (buf_addBufferFragment d bs b) = buf_fragments b ++ [d];
  (** Draining everything empties the buffer and ends every fragment. *)
  drain_all_bytes (b : B) : buf_bytes (buf_drain (buf_length b) b).1 = [];
  drain_all_fragments (b : B) : buf_fragments (buf_drain (buf_length b) b).1 = [];
  drain_all_done (b : B) : (buf_drain (buf_length b) b).2 = buf_fragments b;
  move_dst_bytes (dst src : B) : buf_bytes (buf_move dst src).1 = buf_bytes dst ++ buf_bytes src;
  move_dst_fragments (dst src : B) :
    buf_fragments (buf_move dst src).1 = buf_fragments dst ++ buf_fragments src;
  move_src_bytes (dst src : B) : buf_bytes (buf_move dst src).2 = [];
  move_src_fragments (dst src : B) : buf_fragments (buf_move dst src).2 = []
}.

(** ** Http filters *)

(** FilterHeadersStatus, FilterDataStatus and FilterTrailersStatus: those the filters
    of the repository return. *)
Inductive FilterHeadersStatus := HeadersContinue | HeadersStopIteration.
Inductive FilterDataStatus :=
  DataContinue | DataStopIterationAndBuffer | DataStopIterationNoBuffer.
Inductive FilterTrailersStatus := TrailersContinue | TrailersStopIteration.

(** ** Lemmas on header lists *)

Lemma values_app k l1 l2 : values k (l1 ++ l2) = values k l1 ++ values k l2.
Proof. unfold values. by rewrite filter_app, fmap_app. Qed.

Lemma values_cons k e l :
  values k (e :: l) = if decide (e.1 = k) then e.2 :: values k l else values k l.
Proof. unfold values. rewrite filter_cons. by case_decide. Qed.

Lemma values_filter_ne k k' l :
  values k (filter (λ e, e.1 ≠ k') l) = if decide (k = k') then [] else values k l.
Proof.
  induction l as [|[a b] l IH]; [by case_decide|].
  rewrite filter_cons, values_cons. cbn in *.
  repeat case_decide; subst; rewrite ?values_cons; cbn; repeat case_decide; congruence.
Qed.

Lemma values_nil_iff k l : values k l = [] ↔ k ∉ l.*1.
Proof.
  induction l as [|[a b] l IH]; [set_solver|].
  rewrite values_cons. cbn. case_decide; [subst; set_solver|set_solver].
Qed.

#[export] Instance app_headers_equiv :
  Proper (headers_equiv ==> headers_equiv ==> headers_equiv) (@app (string * string)).
Proof. intros l1 l2 H1 l3 l4 H2 k. by rewrite !values_app, H1, H2. Qed.

#[export] Instance values_proper k : Proper (headers_equiv ==> eq) (values k).
Proof. intros l1 l2 H. apply H. Qed.

#[export] Instance filter_ne_proper k :
  Proper (headers_equiv ==> headers_equiv) (filter (λ e : string * string, e.1 ≠ k)).
Proof. intros l1 l2 H k'. by rewrite !values_filter_ne, (H k'). Qed.

Create Rewrite HintDb headersdb.
#[export] Hint Rewrite values_app values_cons values_filter_ne : headersdb.
