(* ===== verification/Reference.v ===== *)
(** * Instances that meet the interfaces

    Small executable instances of the classes of EnvoyIface.v, with their laws
    proved. The theorems are stated over any instance; these show the laws are
    satisfiable and are what the witnesses compute with. *)

From S2P Require Export EnvoyIface.

(** ** A header map *)

Record ref_map := RefMap {
  rm_kind : header_map_kind;
  rm_entries : list (string * string)
}.

Definition ref_inline (k : string) : bool :=
  bool_decide (k ∈ [":status"; "content-length"; "cookie"; ForwardedProto]).

Definition lower_ascii (a : Ascii.ascii) : Ascii.ascii :=
  let n := Ascii.nat_of_ascii a in
  if (65 <=? n) && (n <=? 90) then Ascii.ascii_of_nat (n + 32) else a.

Fixpoint ref_lower (s : string) : string :=
  match s with
  | EmptyString => EmptyString
  | String a s => String (lower_ascii a) (ref_lower s)
  end.

Definition ref_append (k v : string) (e : string * string) : string * string :=
  if decide (e.1 = k) then (e.1, e.2 +:+ inline_delimiter k +:+ v) else e.

Definition ref_add (k v : string) (m : ref_map) : ref_map :=
  RefMap (rm_kind m)
    (if ref_inline k && bool_decide (values k (rm_entries m) ≠ [])
     then ref_append k v <$> rm_entries m
     else rm_entries m ++ [(k, v)]).

#[export] Instance ref_header_map : HeaderMap ref_map := {
  hm_create k := RefMap k [];
  LowerCaseString := ref_lower;
  hm_entries := rm_entries;
  hm_size m := Z.of_nat (length (rm_entries m));
  hm_inline _ k := ref_inline k;
  hm_addCopy := ref_add;
  hm_addReference := ref_add;
  hm_clear m := RefMap (rm_kind m) [];
  hm_remove k m := RefMap (rm_kind m) (filter (λ e, e.1 ≠ k) (rm_entries m));
  hm_get k m := values k (rm_entries m);
  hm_setReferenceForwardedProto v m :=
    RefMap (rm_kind m)
      (filter (λ e, e.1 ≠ ForwardedProto) (rm_entries m) ++ [(ForwardedProto, v)])
}.

Lemma lower_ascii_idem a : lower_ascii (lower_ascii a) = lower_ascii a.
Proof. destruct a as [[] [] [] [] [] [] [] []]; reflexivity. Qed.

Lemma ref_lower_idem s : ref_lower (ref_lower s) = ref_lower s.
Proof. induction s as [|a s IH]; [done|]. cbn. by rewrite lower_ascii_idem, IH. Qed.

Lemma values_ref_append k v k' l :
  values k' (ref_append k v <$> l) =
  if decide (k' = k) then (λ w, w +:+ inline_delimiter k +:+ v) <$> values k l else values k' l.
Proof.
  induction l as [|[a b] l IH]; [by case_decide|].
  rewrite fmap_cons, !values_cons, IH. unfold ref_append. cbn.
  repeat case_decide; cbn in *; subst; try done; congruence.
Qed.

#[export] Instance ref_header_map_laws : HeaderMapLaws ref_map.
Proof.
  split; try done.
  - intros k v m Hnew. cbn in *. unfold ref_add. cbn.
    destruct (ref_inline k); [|done]. destruct Hnew as [?|Hnew]; [done|].
    rewrite bool_decide_eq_false_2 by (rewrite Hnew; tauto). done.
  - intros k v v0 m Hi Hg.
    change (ref_inline k = true) in Hi. change (values k (rm_entries m) = [v0]) in Hg.
    change (values k (rm_entries (ref_add k v m)) = [v0 +:+ inline_delimiter k +:+ v] ∧
      ∀ k', k' ≠ k → values k' (rm_entries (ref_add k v m)) = values k' (rm_entries m)).
    unfold ref_add. rewrite Hi, bool_decide_eq_true_2 by (by rewrite Hg).
    cbn [andb rm_entries].
    split.
    + rewrite values_ref_append, decide_True by done. by rewrite Hg.
    + intros k' Hk'. by rewrite values_ref_append, decide_False.
  - intros s. apply ref_lower_idem.
Qed.

(** ** Codec helpers *)

Fixpoint parse_digits (acc : Z) (s : string) : option Z :=
  match s with
  | EmptyString => Some acc
  | String a s =>
      let n := Ascii.nat_of_ascii a in
      if (48 <=? n) && (n <=? 57) then parse_digits (10 * acc + (Z.of_nat n - 48)) s else None
  end.

Definition parse_u32 (s : string) : option Z :=
  match s with
  | EmptyString => None
  | _ =>
    match parse_digits 0 s with
    | Some n => if bool_decide (0 ≤ n < 2 ^ 32)%Z then Some n else None
    | None => None
    end
  end.

#[export] Instance ref_codec : EnvoyCodec ref_map := {
  getResponseStatus m := head (values ":status" (rm_entries m)) ≫= parse_u32;
  is2xx n := bool_decide (200 ≤ n < 300)%Z;
  EnvoyAttemptCount m := head (values "x-envoy-attempt-count" (rm_entries m));
  SimpleAtoi_uint32 := parse_u32;
  EnvoyUpstreamServiceTime := "x-envoy-upstream-service-time";
  SchemeHttps := "https"
}.

#[export] Instance ref_codec_laws : EnvoyCodecLaws ref_map.
Proof.
  split. intros s n. cbn. unfold parse_u32. destruct s; [done|].
  destruct (parse_digits _ _); [|done]. case_bool_decide; [|done]. by intros [= <-].
Qed.

(** ** A buffer *)

Record ref_buffer := RefBuffer {
  rb_bytes : list byte;
  rb_fragments : list envoy_data
}.

#[export] Instance ref_buffer_instance : BufferInstance ref_buffer := {
  buf_create := RefBuffer [] [];
  buf_bytes := rb_bytes;
  buf_fragments := rb_fragments;
  buf_addBufferFragment d bs b := RefBuffer (rb_bytes b ++ bs) (rb_fragments b ++ [d]);
  buf_drain n b :=
    if bool_decide (Z.of_nat (length (rb_bytes b)) ≤ n)%Z
    then (RefBuffer [] [], rb_fragments b)
    else (RefBuffer (drop (Z.to_nat n) (rb_bytes b)) (rb_fragments b), []);
  buf_move dst src :=
    (RefBuffer (rb_bytes dst ++ rb_bytes src) (rb_fragments dst ++ rb_fragments src),
     RefBuffer [] [])
}.

#[export] Instance ref_buffer_laws : BufferLaws ref_buffer.
Proof.
  split; try done; intros b; unfold buf_length; cbn;
    by rewrite bool_decide_eq_true_2 by lia.
Qed.

(** ** Allocators: one that always succeeds, one that never does *)

#[export] Instance ref_allocator : Allocator | 100 := λ _ _, true.
Definition no_memory : Allocator := λ _ _, false.

(** ** A memory with one header *)

Definition ref_key : envoy_data := EnvoyData 3 (Some 1%positive) c_free_release (Some 1%positive).
Definition ref_value : envoy_data := EnvoyData 2 (Some 2%positive) c_free_release (Some 2%positive).
Definition ref_header : envoy_header := EnvoyHeader ref_key ref_value.
Definition ref_headers : envoy_headers := EnvoyHeaders 1 (Some 3%positive).
Definition ref_pairs : list (list byte * list byte) := [(bytes_of "Key", bytes_of "ab")].

Definition ref_mem : mem :=
  Mem {[ 1%positive := BBytes (Some <$> bytes_of "Key");
         2%positive := BBytes (Some <$> bytes_of "ab");
         3%positive := BHeaders [Some ref_header] ]} 4 [].

Lemma ref_value_reads : reads_data (heap ref_mem) ref_value (bytes_of "ab").
Proof. split; [done|]. right. exists 2%positive, []. by vm_compute. Qed.

(** Any memory that has these blocks. *)
Lemma ref_headers_ok_in m :
  heap m !! 1%positive = heap ref_mem !! 1%positive →
  heap m !! 2%positive = heap ref_mem !! 2%positive →
  heap m !! 3%positive = heap ref_mem !! 3%positive →
  headers_ok m ref_headers [ref_header] ref_pairs.
Proof.
  intros E1 E2 E3. split; [split_and!; [done| |]|].
  - right. exists 3%positive, []. split; [done|]. rewrite E3. by vm_compute.
  - constructor; [|constructor]. split; (split; [done|]); right.
    + exists 1%positive, []. split; [done|]. rewrite E1. by vm_compute.
    + exists 2%positive, []. split; [done|]. rewrite E2. by vm_compute.
  - split.
    + apply (bool_decide_unpack _). by vm_compute.
    + intros l Hl. cbn in Hl. rewrite !elem_of_cons, elem_of_nil in Hl.
      destruct Hl as [->|[->|[->|[]]]]; rewrite ?E1, ?E2, ?E3; by vm_compute; eexists.
Qed.

Lemma ref_headers_ok : headers_ok ref_mem ref_headers [ref_header] ref_pairs.
Proof. by apply ref_headers_ok_in. Qed.

Lemma ref_mem_wf : mem_wf ref_mem.
Proof.
  intros l [b Hb]. cbn in *. unfold ref_mem in Hb. cbn in Hb.
  rewrite !lookup_insert, lookup_singleton in Hb. repeat case_decide; subst; try done; lia.
Qed.
