(* ===== verification/Bridge.v ===== *)
(** * Conversions between bridge structs and Envoy objects

    Models library/common/buffer (BridgeFragment, Buffer::Utility) and
    library/common/http/header_utility.cc (Http::Utility): the functions every
    other component uses to move headers and data across the C boundary. The
    theorems give their functional result and their effect on memory, and that
    the two directions are inverse. *)

From S2P Require Export EnvoyIface.

(** ** buffer/bridge_fragment.h and buffer/utility.cc *)

Section buffers.
Context `{Allocator} {B : Type} `{!BufferInstance B}.

(** BridgeFragment::done. *)
Definition BridgeFragment_done (d : envoy_data) : M mem unit := release_data d.

(** [b.addBufferFragment( *BridgeFragment::createBridgeFragment(d))]: the buffer
    now designates [size()] bytes at [data()]. *)
Definition addBridgeFragment (d : envoy_data) (b : B) : M mem B :=
  bs ← read_bytes (data_bytes d) (data_length d);
  mret (buf_addBufferFragment d bs b).

(** [b.drain(b.length())]: the fragments drained are done. *)
Definition drain_all (b : B) : M mem B :=
  let '(b', done) := buf_drain (buf_length b) b in
  for_each done BridgeFragment_done ;; mret b'.

Definition toInternalData (data : envoy_data) : M mem B :=
  addBridgeFragment data buf_create.

(** The envoy_data, and the drained buffer. *)
Definition toBridgeData (data : B) : M mem (envoy_data * B) :=
  let length := buf_length data in
  p ← safe_malloc length bytes_block;
  write_bytes p (buf_bytes data) ;;
  data' ← drain_all data;
  mret (EnvoyData length p c_free_release p, data').

Definition copyToBridgeData (data : B) : M mem envoy_data :=
  let length := buf_length data in
  p ← safe_malloc length bytes_block;
  write_bytes p (buf_bytes data) ;;
  mret (EnvoyData length p c_free_release p).
End buffers.

(** ** http/header_utility.cc *)

Section headers.
Context `{Allocator} {HM : Type} `{!HeaderMap HM}.

Definition convertToString (s : envoy_data) : M mem string :=
  bs ← read_bytes (data_bytes s) (data_length s); mret (string_of bs).

(** The copy loop of toRequestHeaders, toRequestTrailers and replaceHeaders. *)
Definition addCopies (headers : envoy_headers) (transformed : HM) : M mem HM :=
  for_range (headers_length headers) (λ i hm,
    header ← load_header (headers_headers headers) i;
    key ← convertToString (header_key header);
    value ← convertToString (header_value header);
    mret (hm_addCopy (LowerCaseString key) value hm)) transformed.

Definition toRequestHeaders (headers : envoy_headers) : M mem HM :=
  transformed_headers ← addCopies headers (hm_create RequestHeaderMapImpl);
  release_envoy_headers headers ;;
  mret transformed_headers.

Definition toRequestTrailers (trailers : envoy_headers) : M mem HM :=
  transformed_trailers ← addCopies trailers (hm_create RequestTrailerMapImpl);
  release_envoy_headers trailers ;;
  mret transformed_trailers.

(** [header_map.iterate] with a callback that always continues. *)
Fixpoint iterate (es : list (string * string))
    (cb : string * string → envoy_headers → M mem envoy_headers) (acc : envoy_headers)
    : M mem envoy_headers :=
  match es with
  | [] => mret acc
  | e :: es => acc' ← cb e acc; iterate es cb acc'
  end.

Definition copy_view (s : string) : M mem envoy_data :=
  copy_envoy_data_from (Z.of_nat (length (bytes_of s))) (mret (bytes_of s)).

Definition toBridgeHeaders (header_map : HM) : M mem envoy_headers :=
  headers ← safe_malloc (header_array_size (hm_size header_map)) headers_block;
  iterate (hm_entries header_map) (λ e transformed,
    key ← copy_view e.1;
    value ← copy_view e.2;
    store_header (headers_headers transformed) (headers_length transformed)
      (EnvoyHeader key value) ;;
    if decide (headers_length transformed < INT_MAX)%Z then
      mret (EnvoyHeaders (headers_length transformed + 1) (headers_headers transformed))
    else fail (Undefined "signed overflow of the header count"))
    (EnvoyHeaders 0 headers).
End headers.

(** ** Specifications *)

(** The pairs of an envoy_headers as strings, names in lower case. *)
Definition lower_entries {HM} `{!HeaderMap HM} (es : list (list byte * list byte))
    : list (string * string) :=
  (λ e, (LowerCaseString (string_of e.1), string_of e.2)) <$> es.

Definition bytes_entries (es : list (string * string)) : list (list byte * list byte) :=
  prod_map bytes_of bytes_of <$> es.

(** The names of [es] that [m] stores inline occur once in [es] and not in [m]. *)
Definition inline_once {HM} `{!HeaderMap HM} (m : HM) (es : list (string * string)) : Prop :=
  ∀ k, hm_inline m k = true → length (values k (hm_entries m ++ es)) ≤ 1.

(** *** Buffers *)

Section buffer_specs.
Context `{Allocator} {B : Type} `{!BufferInstance B} `{!BufferLaws B}.

Definition fragments_owned (b : B) : list positive :=
  concat (data_owned <$> buf_fragments b).
Definition fragments_external (b : B) : list (envoy_release_f * ptr) :=
  concat (data_external <$> buf_fragments b).

Lemma for_each_release_run ds m :
  allocated m (concat (data_owned <$> ds)) →
  for_each ds BridgeFragment_done m =
  Ok (tt, mem_release (concat (data_owned <$> ds)) (concat (data_external <$> ds)) m).
Proof.
  revert m. induction ds as [|d ds IH]; intros m Hown.
  { cbn. by rewrite mem_release_nil. }
  change (for_each (d :: ds) BridgeFragment_done m) with
    ((BridgeFragment_done d ;; for_each ds BridgeFragment_done) m).
  rewrite fmap_cons in *. cbn [concat] in *.
  rewrite (bind_run _ _ m tt (mem_release (data_owned d) (data_external d) m)).
  - rewrite IH; [by rewrite mem_release_app|].
    by apply (allocated_release m (data_owned d) _ (data_external d)).
  - apply release_data_run. apply allocated_app in Hown as ([_ Hl] & _). done.
Qed.

(** Draining a buffer ends each of its fragments once and leaves it empty. *)
Lemma drain_all_run b m :
  allocated m (fragments_owned b) →
  ∃ b', drain_all b m = Ok (b', mem_release (fragments_owned b) (fragments_external b) m) ∧
    buf_bytes b' = [] ∧ buf_fragments b' = [].
Proof.
  intros Hown. unfold drain_all.
  pose proof (drain_all_bytes b) as Hb. pose proof (drain_all_fragments b) as Hf.
  pose proof (drain_all_done b) as Hd.
  destruct (buf_drain (buf_length b) b) as [b' done]. cbn in *. subst done.
  exists b'. split; [|done]. rewrite (bind_run _ _ _ _ _ (for_each_release_run _ _ Hown)). done.
Qed.

Lemma addBridgeFragment_run d bs b m :
  reads_data (heap m) d bs →
  addBridgeFragment d b m = Ok (buf_addBufferFragment d bs b, m).
Proof.
  intros [Hlen Hr]. unfold addBridgeFragment.
  by rewrite (bind_run _ _ _ _ _ (read_bytes_run _ _ _ _ Hlen Hr)).
Qed.

Lemma wp_copyToBridgeData b m :
  wp (copyToBridgeData b) oom (λ d m',
    reads_data (heap m') d (buf_bytes b) ∧ self_contained d ∧
    grows (data_owned d) m m') m.
Proof.
  change (copyToBridgeData b) with
    (copy_envoy_data_from (buf_length b) (mret (buf_bytes b))).
  by apply wp_copy_envoy_data_from.
Qed.

Lemma wp_toBridgeData b m :
  mem_wf m → allocated m (fragments_owned b) →
  wp (toBridgeData b) oom (λ r m', ∃ m1,
    grows (data_owned r.1) m m1 ∧ self_contained r.1 ∧
    reads_data (heap m1) r.1 (buf_bytes b) ∧
    m' = mem_release (fragments_owned b) (fragments_external b) m1 ∧
    buf_bytes r.2 = [] ∧ buf_fragments r.2 = []) m.
Proof.
  intros Hwf Hown.
  pose proof (wp_copyToBridgeData b m) as Hcopy. revert Hcopy.
  unfold toBridgeData, copyToBridgeData, wp, mbind, M_bind.
  destruct (safe_malloc _ _ m) as [[p m1]|f]; [|done].
  destruct (write_bytes p (buf_bytes b) m1) as [[[] m2]|f]; [|done]. cbn.
  intros (Hr & Hx & Hg).
  destruct (drain_all_run b m2) as (b' & -> & Hb & Hf).
  { by eapply allocated_grows. }
  exists m2. by split_and!.
Qed.
End buffer_specs.

(** *** Headers *)

Section header_specs.
Context `{Allocator} {HM : Type} `{!HeaderMap HM} `{!HeaderMapLaws HM}.

Lemma convertToString_run d bs m :
  reads_data (heap m) d bs → convertToString d m = Ok (string_of bs, m).
Proof.
  intros [Hlen Hr]. unfold convertToString.
  by rewrite (bind_run _ _ _ _ _ (read_bytes_run _ _ _ _ Hlen Hr)).
Qed.

(** What the copy loop computes, as a fold. *)
Definition add_entries (es : list (string * string)) (m : HM) : HM :=
  foldl (λ hm e, hm_addCopy e.1 e.2 hm) m es.

Lemma addCopies_run eh hs es (hm : HM) m :
  reads_headers (heap m) eh hs es →
  addCopies eh hm m = Ok (add_entries (lower_entries es) hm, m).
Proof.
  intros (Hlen & Harr & Hitems). pose proof (Forall2_length _ _ _ Hitems) as Hl.
  assert (wp (addCopies eh hm) no_fault
    (λ hm' m', hm' = add_entries (lower_entries es) hm ∧ m' = m) m) as Hwp.
  { unfold addCopies, for_range. rewrite Hlen, Nat2Z.id.
    apply (wp_fold_upto (λ k hm' m',
      hm' = add_entries (lower_entries (take k es)) hm ∧ m' = m)).
    - done.
    - intros k hm' m' Hk [-> ->]. rewrite Z.add_0_l.
      destruct (lookup_lt_is_Some_2 hs k Hk) as [hd Hhd].
      destruct (Forall2_lookup_l _ _ _ _ _ Hitems Hhd) as (e & He & Hkey & Hval).
      apply wp_bind. eapply wp_run; [by eapply load_header_run|].
      apply wp_bind. eapply wp_run; [by eapply convertToString_run|].
      apply wp_bind. eapply wp_run; [by eapply convertToString_run|].
      apply wp_ret. split; [|done].
      unfold lower_entries. rewrite (take_S_r _ _ _ He), fmap_app.
      unfold add_entries. rewrite foldl_app. done.
    - intros hm' m' [-> ->]. by rewrite take_ge by lia. }
  apply wp_total in Hwp as (? & ? & ? & -> & ->). done.
Qed.

Lemma inline_add_entries es (hm : HM) k : hm_inline (add_entries es hm) k = hm_inline hm k.
Proof.
  revert hm. induction es as [|e es IH]; intros hm; [done|].
  cbn. unfold add_entries in IH. rewrite IH. apply inline_addCopy.
Qed.

Lemma add_entries_equiv es (hm : HM) :
  inline_once hm es → hm_entries (add_entries es hm) ≡ₕ hm_entries hm ++ es.
Proof.
  revert hm. induction es as [|[k v] es IH]; intros hm Honce; [by rewrite app_nil_r|].
  assert (Hnew : hm_entries (hm_addCopy k v hm) ≡ₕ hm_entries hm ++ [(k, v)]).
  { apply addCopy_new. rewrite get_values.
    destruct (hm_inline hm k) eqn:Hi; [right|by left].
    specialize (Honce k Hi). rewrite values_app, values_cons in Honce. cbn in Honce.
    rewrite decide_True in Honce by done. rewrite length_app in Honce. cbn in Honce.
    destruct (values k (hm_entries hm)); [done|cbn in Honce; lia]. }
  change (add_entries ((k, v) :: es) hm) with (add_entries es (hm_addCopy k v hm)).
  rewrite IH.
  - rewrite Hnew, <- app_assoc. done.
  - intros k' Hk'. rewrite inline_addCopy in Hk'.
    rewrite values_app, Hnew, <- values_app, <- app_assoc. by apply Honce.
Qed.

(** Names that are not inline keep all their values, in order, whatever becomes of the
    inline ones, which have at most one. *)
Lemma add_entries_values es (hm : HM) k :
  (∀ k, hm_inline hm k = true → length (values k (hm_entries hm)) ≤ 1) →
  hm_inline hm k = false →
  values k (hm_entries (add_entries es hm)) = values k (hm_entries hm) ++ values k es.
Proof.
  revert hm. induction es as [|[k' v] es IH]; intros hm Hone Hk; [by rewrite app_nil_r|].
  change (add_entries ((k', v) :: es) hm) with (add_entries es (hm_addCopy k' v hm)).
  assert (Hother : ∀ j, j ≠ k' → values j (hm_entries (hm_addCopy k' v hm)) = values j (hm_entries hm)).
  { intros j Hj. destruct (hm_inline hm k') eqn:Hi; [destruct (hm_get k' hm) as [|v0 [|]] eqn:Hg|].
    2:{ rewrite <- !get_values. by apply (addCopy_inline k' v v0). }
    2:{ rewrite get_values in Hg. specialize (Hone k' Hi). rewrite Hg in Hone. cbn in Hone. lia. }
    all: rewrite (addCopy_new k' v hm ltac:(auto) j), values_app, values_cons, decide_False by done;
      apply app_nil_r. }
  rewrite IH.
  - rewrite values_cons. cbn [fst snd]. case_decide as E; [|by rewrite Hother].
    subst k'. rewrite (addCopy_new k v hm ltac:(auto) k), values_app, values_cons, decide_True by done.
    by rewrite <- app_assoc.
  - intros j Hj. rewrite inline_addCopy in Hj. specialize (Hone j Hj).
    destruct (decide (j = k')) as [->|Hne]; [|by rewrite Hother].
    rewrite <- get_values in Hone. destruct (hm_get k' hm) as [|v0 [|]] eqn:Hg; [| |cbn in Hone; lia].
    + rewrite (addCopy_new k' v hm ltac:(auto) k'), values_app, values_cons, decide_True by done.
      rewrite get_values in Hg. by rewrite Hg.
    + destruct (addCopy_inline k' v v0 hm Hj Hg) as [Hv _]. rewrite get_values in Hv. by rewrite Hv.
  - by rewrite inline_addCopy.
Qed.

(** toRequestHeaders and toRequestTrailers consume their argument: the result has
    its pairs with lower-cased names, and exactly its blocks are freed. *)
Lemma toRequestHeaders_run eh hs es m :
  headers_ok m eh hs es →
  toRequestHeaders (HM := HM) eh m =
  Ok (add_entries (lower_entries es) (hm_create RequestHeaderMapImpl),
      mem_release (headers_owned eh hs) (headers_external hs) m).
Proof.
  intros [Hr Hown]. unfold toRequestHeaders.
  rewrite (bind_run _ _ _ _ _ (addCopies_run _ _ _ _ _ Hr)).
  destruct Hr as (Hlen & Harr & _).
  rewrite (bind_run _ _ _ _ _ (release_envoy_headers_run _ _ _ Hlen Harr Hown)). done.
Qed.

Lemma toRequestTrailers_run eh hs es m :
  headers_ok m eh hs es →
  toRequestTrailers (HM := HM) eh m =
  Ok (add_entries (lower_entries es) (hm_create RequestTrailerMapImpl),
      mem_release (headers_owned eh hs) (headers_external hs) m).
Proof.
  intros [Hr Hown]. unfold toRequestTrailers.
  rewrite (bind_run _ _ _ _ _ (addCopies_run _ _ _ _ _ Hr)).
  destruct Hr as (Hlen & Harr & _).
  rewrite (bind_run _ _ _ _ _ (release_envoy_headers_run _ _ _ Hlen Harr Hown)). done.
Qed.

Lemma wp_iterate_filling m0 p es hs rest m :
  mem_wf m0 → (Z.of_nat (length es) ≤ INT_MAX)%Z →
  rest = drop (length hs) es → length hs ≤ length es →
  filling m0 p (bytes_entries es) hs m →
  wp (iterate rest (λ e transformed,
    key ← copy_view e.1;
    value ← copy_view e.2;
    store_header (headers_headers transformed) (headers_length transformed)
      (EnvoyHeader key value) ;;
    if decide (headers_length transformed < INT_MAX)%Z then
      mret (EnvoyHeaders (headers_length transformed + 1) (headers_headers transformed))
    else fail (Undefined "signed overflow of the header count"))
    (EnvoyHeaders (Z.of_nat (length hs)) p)) oom
  (λ eh m', ∃ hs', length hs' = length es ∧ eh = EnvoyHeaders (Z.of_nat (length es)) p ∧
    filling m0 p (bytes_entries es) hs' m') m.
Proof.
  intros Hwf Hmax. revert hs m.
  induction rest as [|e rest IH]; intros hs m Hrest Hle F; cbn [iterate].
  { apply wp_ret. assert (length hs = length es) as Hl.
    { apply (f_equal length) in Hrest. rewrite length_drop in Hrest. cbn in Hrest. lia. }
    exists hs. by rewrite Hl. }
  assert (es !! length hs = Some e) as He.
  { rewrite <- (Nat.add_0_r (length hs)), <- lookup_drop, <- Hrest. done. }
  pose proof (lookup_lt_Some _ _ _ He) as Hlt.
  apply wp_bind. cbn [headers_headers headers_length].
  pose proof (wp_fill_step m0 p (bytes_entries es) hs (prod_map bytes_of bytes_of e)
    (mret (bytes_of e.1)) (mret (bytes_of e.2)) m Hwf F) as Hstep.
  specialize (Hstep ltac:(unfold bytes_entries; by rewrite list_lookup_fmap, He)
    ltac:(done) ltac:(done)).
  unfold wp, copy_view in *. unfold mbind, M_bind in *. cbn in Hstep.
  destruct (copy_envoy_data_from _ (mret (bytes_of e.1)) m) as [[key m1]|]; [|done].
  destruct (copy_envoy_data_from _ (mret (bytes_of e.2)) m1) as [[value m2]|]; [|done].
  destruct (store_header _ _ _ m2) as [[[] m3]|]; [|done].
  destruct Hstep as [hd F'].
  case_decide as Hov; [|lia]. cbn.
  replace (Z.of_nat (length hs) + 1)%Z with (Z.of_nat (length (hs ++ [hd])))
    by (rewrite length_app; cbn; lia).
  apply IH; [|rewrite length_app; cbn; lia|done].
  rewrite length_app. cbn. rewrite Nat.add_1_r.
  by rewrite (drop_S _ _ _ He) in Hrest; injection Hrest.
Qed.

(** toBridgeHeaders: a fresh envoy_headers with the pairs iterate visits. *)
Lemma wp_toBridgeHeaders (hm : HM) m :
  mem_wf m → (hm_size hm ≤ INT_MAX)%Z →
  wp (toBridgeHeaders hm) oom (λ eh m', ∃ hs,
    reads_headers (heap m') eh hs (bytes_entries (hm_entries hm)) ∧
    Forall header_contained hs ∧
    grows (headers_owned eh hs) m m') m.
Proof.
  intros Hwf. unfold toBridgeHeaders. rewrite size_entries. intros Hmax.
  assert (length (bytes_entries (hm_entries hm)) = length (hm_entries hm)) as Hl
    by (unfold bytes_entries; by rewrite length_fmap).
  apply wp_bind. rewrite <- Hl at 1. apply wp_start_fill; [done|lia|].
  intros p m' F. eapply wp_conseq.
  { apply (wp_iterate_filling m p (hm_entries hm) []); [done..|cbn; lia|done]. }
  intros eh m'' (hs & Hlen & -> & F'). exists hs.
  rewrite <- Hl. apply filling_done; [lia|done].
Qed.
End header_specs.
