(* ===== verification/BridgeProps.v ===== *)
(** * What the conversions promise

    The theorems about the C structs and their conversions: a copy is deep, the two
    directions of the header and data conversions are inverse and leak nothing, and
    an allocation that fails stops the process instead of handing out NULL. *)

From S2P Require Export Bridge Reference.

(** ** Lemmas *)

Lemma headers_ok_owned m m' eh hs es :
  Forall header_contained hs → (∀ l, l ∈ headers_owned eh hs → heap m' !! l = heap m !! l) →
  headers_ok m eh hs es → headers_ok m' eh hs es.
Proof.
  intros Hc Hsame [Hr [Hnd Hal]]. split; [by eapply reads_headers_owned|].
  split; [done|]. intros l Hl. rewrite Hsame by done. by apply Hal.
Qed.

Lemma owned_apart m m' ls ls' l :
  mem_wf m → grows ls m m' → allocated m ls' → l ∈ ls → l ∉ ls'.
Proof. intros Hwf Hg [_ Hal] Hl Hl'. by eapply grows_fresh; [..|apply Hal|]. Qed.

Section strings.
Context {HM : Type} `{!HeaderMap HM}.

Lemma lower_bytes_entries (es : list (string * string)) :
  Forall (λ e, LowerCaseString e.1 = e.1) es → lower_entries (bytes_entries es) = es.
Proof.
  induction 1 as [|[k v] es Hk _ IH]; [done|]. cbn in Hk.
  unfold lower_entries, bytes_entries in *. rewrite !fmap_cons, IH. f_equal.
  cbn [prod_map fst snd]. by rewrite !string_of_bytes_of, Hk.
Qed.
End strings.

(** ** The header structs *)

Section copying.
Context `{Allocator}.
Implicit Types (m : mem).

(** copy_envoy_headers is a deep copy. The copy designates the same pairs and the
    source still does. The copy owns all it designates, apart from the source: it is
    whole after the source is released, and releasing the copy instead gives back the
    heap there was before copying. *)
Theorem copy_is_deep src hs es m :
  mem_wf m → headers_ok m src hs es → (Z.of_nat (length es) ≤ INT_MAX)%Z →
  wp (copy_envoy_headers src) oom (λ dst m', ∃ hs',
    headers_ok m' dst hs' es ∧ headers_ok m' src hs es ∧
    (∃ m1, release_envoy_headers src m' = Ok (tt, m1) ∧ headers_ok m1 dst hs' es) ∧
    (∃ m2, release_envoy_headers dst m' = Ok (tt, m2) ∧ heap m2 = heap m ∧
      released m2 = released m)) m.
Proof.
  intros Hwf Hsrc Hmax. eapply wp_conseq; [by eapply wp_copy_envoy_headers; [|apply Hsrc|]|].
  intros dst m' (hs' & Hr & Hc & Hg). exists hs'.
  assert (headers_ok m' dst hs' es) as Hdst by (split; [done|by eapply grows_allocated]).
  assert (headers_ok m' src hs es) as Hsrc' by (by eapply headers_ok_grows).
  split; [done|]. split; [done|]. split.
  - destruct Hsrc' as [(Hl & Ha & _) Hown]. eexists. split; [by apply release_envoy_headers_run|].
    eapply headers_ok_owned; [done| |done]. intros l Hin. rewrite lookup_mem_release.
    rewrite decide_False; [done|]. eapply owned_apart; [exact Hwf|exact Hg|apply Hsrc|done].
  - destruct Hdst as [(Hl & Ha & _) Hown]. eexists. split; [by apply release_envoy_headers_run|].
    split; [by eapply grows_release|]. cbn. rewrite contained_headers_external by done.
    rewrite app_nil_r. apply Hg.
Qed.

(** Allocation failure is never handed on. When the allocator has no memory,
    copying bytes stops at RELEASE_ASSERT before anything is written through NULL, and
    copying no bytes succeeds with a NULL pointer that can be released. *)
Theorem malloc_failure_is_fatal n p m :
  malloc_ok m n = false → (0 ≤ n)%Z →
  copy_envoy_data n p m =
    (if decide (n = 0%Z) then Ok (EnvoyData 0 NULL c_free_release NULL, m)
     else Fault (ReleaseAssert "malloc failure")) ∧
  release_data (EnvoyData 0 NULL c_free_release NULL) m = Ok (tt, m).
Proof.
  intros Hno Hn. split; [|done].
  unfold copy_envoy_data, copy_envoy_data_from, safe_malloc, c_malloc, mbind, M_bind.
  rewrite Hno. case_decide as Hz.
  - by subst n.
  - unfold when. by rewrite bool_decide_eq_true_2 by lia.
Qed.
End copying.

(** ** Round trips *)

Section round_trips.
Context `{Allocator} {HM : Type} `{!HeaderMap HM, !HeaderMapLaws HM}.
Implicit Types (m : mem) (hm : HM).

(** What a conversion back gives for a map whose names are already in lower case. *)
Definition same_headers (hm : HM) (m : mem) (hm' : HM) (m' : mem) : Prop :=
  hm_entries hm' ≡ₕ hm_entries hm ∧ heap m' = heap m ∧ released m' = released m.

Lemma wp_back kind (convert : envoy_headers → M mem HM) hm m :
  (∀ eh hs es m', headers_ok m' eh hs es →
    convert eh m' = Ok (add_entries (lower_entries es) (hm_create kind),
      mem_release (headers_owned eh hs) (headers_external hs) m')) →
  mem_wf m → (hm_size hm ≤ INT_MAX)%Z →
  Forall (λ e, LowerCaseString e.1 = e.1) (hm_entries hm) →
  inline_once (hm_create kind) (hm_entries hm) →
  wp (toBridgeHeaders hm ≫= convert) oom (same_headers hm m) m.
Proof.
  intros Hconvert Hwf Hsize Hlower Honce. apply wp_bind.
  eapply wp_conseq; [by apply wp_toBridgeHeaders|]. intros eh m1 (hs & Hr & Hx & Hg).
  eapply wp_run; [apply (Hconvert _ hs)|].
  { split; [done|by eapply grows_allocated]. }
  split; [|split; [by eapply grows_release|]].
  - rewrite lower_bytes_entries by done.
    etrans; [by apply add_entries_equiv|]. by rewrite create_entries.
  - cbn. rewrite contained_headers_external, app_nil_r by done. apply Hg.
Qed.

(** C34: Headers survive the bridge. A map with lower-case names that holds each
    inline header once, sent out by toBridgeHeaders and taken back by
    toRequestHeaders or toRequestTrailers, has the same values for every name in the
    same order, and the trip leaves no block behind and frees none twice. *)
Theorem headers_round_trip hm m :
  mem_wf m → (hm_size hm ≤ INT_MAX)%Z →
  Forall (λ e, LowerCaseString e.1 = e.1) (hm_entries hm) →
  inline_once (hm_create RequestHeaderMapImpl) (hm_entries hm) →
  inline_once (hm_create RequestTrailerMapImpl) (hm_entries hm) →
  wp (toBridgeHeaders hm ≫= toRequestHeaders) oom (same_headers hm m) m ∧
  wp (toBridgeHeaders hm ≫= toRequestTrailers) oom (same_headers hm m) m.
Proof.
  intros. split.
  - eapply (wp_back RequestHeaderMapImpl); [|done..]. intros. by apply toRequestHeaders_run.
  - eapply (wp_back RequestTrailerMapImpl); [|done..]. intros. by apply toRequestTrailers_run.
Qed.

Context {B : Type} `{!BufferInstance B, !BufferLaws B}.

(** A frame sent out and taken back, then consumed. *)
Definition data_trip (b : B) : M mem (B * B) :=
  p ← toBridgeData b; back ← toInternalData (B := B) p.1; _ ← drain_all back; mret (p.2, back).

(** Data survives the bridge. toBridgeData empties the buffer and ends its
    fragments; taking the struct back with toInternalData gives the same bytes, and
    draining that buffer frees the copy, so the trip as a whole has only freed the
    blocks the original buffer owned. *)
Theorem data_round_trip (b : B) m :
  mem_wf m → allocated m (fragments_owned b) →
  wp (data_trip b) oom (λ p m',
    buf_bytes p.1 = [] ∧ buf_fragments p.1 = [] ∧ buf_bytes p.2 = buf_bytes b ∧
    heap m' = heap (mem_release (fragments_owned b) (fragments_external b) m) ∧
    released m' = released m ++ fragments_external b) m.
Proof.
  intros Hwf Hown. apply wp_bind.
  eapply wp_conseq; [by apply wp_toBridgeData|]. intros [d b'] m' (m1 & Hg & Hx & Hr & -> & Hb & Hf).
  cbn [fst snd] in *.
  set (freed := mem_release _ _ m1).
  assert (Hapart : ∀ l, l ∈ data_owned d → heap freed !! l = heap m1 !! l).
  { intros l Hl. unfold freed. rewrite lookup_mem_release, decide_False; [done|].
    by eapply owned_apart. }
  assert (allocated freed (data_owned d)) as Hd.
  { destruct (grows_allocated _ _ _ Hg) as [Hnd Hal]. split; [done|]. intros l Hl.
    rewrite Hapart by done. by apply Hal. }
  apply wp_bind. eapply wp_run.
  { eapply addBridgeFragment_run. by eapply reads_data_owned. }
  destruct (drain_all_run (buf_addBufferFragment d (buf_bytes b) (buf_create : B)) freed)
    as (b2 & Hdrain & _).
  { unfold fragments_owned. rewrite add_fragments, create_fragments. cbn. by rewrite app_nil_r. }
  apply wp_bind. eapply wp_run; [exact Hdrain|]. apply wp_ret. cbn [fst snd].
  split; [done|]. split; [done|]. split; [by rewrite add_bytes, create_bytes|].
  unfold fragments_owned at 1 3, fragments_external at 1 3.
  rewrite add_fragments, create_fragments. cbn [app fmap list_fmap concat]. rewrite !app_nil_r.
  rewrite (contained_external d) by done. unfold freed.
  split; [|cbn; rewrite app_nil_r; by rewrite (grows_released _ _ _ Hg)].
  apply map_eq. intros l. rewrite !lookup_mem_release. case_decide as Hl.
  - case_decide; [done|]. symmetry. destruct (heap m !! l) eqn:Hm; [|done].
    exfalso. by eapply grows_fresh.
  - case_decide; [done|]. by apply (grows_old _ _ _ Hg).
Qed.
End round_trips.

(** ** Witnesses *)

Definition ref_lower_map : ref_map :=
  RefMap RequestHeaderMapImpl [("a", "1"); ("content-length", "3"); ("a", "2")].

Lemma copy_is_deep_witness :
  wp (copy_envoy_headers ref_headers) oom (λ dst m', ∃ hs',
    headers_ok m' dst hs' ref_pairs ∧ headers_ok m' ref_headers [ref_header] ref_pairs ∧
    (∃ m1, release_envoy_headers ref_headers m' = Ok (tt, m1) ∧ headers_ok m1 dst hs' ref_pairs) ∧
    (∃ m2, release_envoy_headers dst m' = Ok (tt, m2) ∧ heap m2 = heap ref_mem ∧
      released m2 = released ref_mem)) ref_mem.
Proof. exact (copy_is_deep ref_headers [ref_header] ref_pairs ref_mem ref_mem_wf ref_headers_ok ltac:(by vm_compute)). Defined.

Lemma malloc_failure_is_fatal_witness :
  copy_envoy_data (H := no_memory) 2 (Some 2%positive) ref_mem =
    Fault (ReleaseAssert "malloc failure").
Proof.
  exact (proj1 (malloc_failure_is_fatal (H := no_memory) 2 (Some 2%positive) ref_mem
    eq_refl ltac:(lia))).
Defined.

Lemma headers_round_trip_witness :
  wp (toBridgeHeaders ref_lower_map ≫= toRequestHeaders (HM := ref_map)) oom
    (same_headers ref_lower_map ref_mem) ref_mem.
Proof.
  assert (inline_once (hm_create RequestHeaderMapImpl : ref_map) (hm_entries ref_lower_map)) as Honce.
  { intros k Hk. change (ref_inline k = true) in Hk. apply bool_decide_eq_true in Hk.
    rewrite !elem_of_cons, elem_of_nil in Hk. destruct Hk as [->|[->|[->|[->|[]]]]]; vm_compute; lia. }
  refine (proj1 (headers_round_trip ref_lower_map ref_mem ref_mem_wf _ _ Honce Honce)).
  - by vm_compute.
  - by repeat constructor.
Defined.

Lemma data_round_trip_witness :
  wp (data_trip (RefBuffer (bytes_of "ab") [ref_value])) oom (λ p m',
    buf_bytes p.1 = [] ∧ buf_fragments p.1 = [] ∧ buf_bytes p.2 = bytes_of "ab" ∧
    heap m' = heap (mem_release [2%positive] [] ref_mem) ∧
    released m' = []) ref_mem.
Proof.
  refine (data_round_trip (RefBuffer (bytes_of "ab") [ref_value]) ref_mem ref_mem_wf _).
  split; [apply NoDup_singleton|]. intros l Hl%list_elem_of_singleton. subst l.
  vm_compute. by eexists.
Defined.
