(* ===== verification/Dispatcher.v ===== *)
(** * Http::Dispatcher

    Models library/common/http/dispatcher.{h,cc}: the object that owns the HTTP
    streams of the engine. Platform threads call its API, which only posts functors;
    the event loop runs them and the HTTP connection manager (HCM) calls the stream
    objects back. The platform, the event loop and the HCM are the environment:
    their choices are the labels of [exec_label] and the arguments [newStream] and
    [runResetCallbacks] of the handlers, which may call back into the dispatcher. *)

From S2P Require Export Bridge.

(** ** Data *)

(** envoy_http_callbacks: the platform's functions, by identity, and its context. *)
Record envoy_http_callbacks := EnvoyHttpCallbacks {
  on_headers_f : positive; on_data_f : positive; on_metadata_f : positive;
  on_trailers_f : positive; on_error_f : positive; on_complete_f : positive;
  on_cancel_f : positive; callbacks_context : ptr
}.

(** Envoy's StreamResetReason, of which the dispatcher names one. *)
Inductive StreamResetReason := RemoteReset | OtherReset (n : nat).

(** The functors the API posts, by the lambda they come from and its captures. *)
Inductive functor :=
| PostStartStream (new_stream_handle : Z) (bridge_callbacks : envoy_http_callbacks)
| PostSendHeaders (stream : Z) (headers : envoy_headers) (end_stream : bool)
| PostSendData (stream : Z) (data : envoy_data) (end_stream : bool)
| PostSendTrailers (stream : Z) (trailers : envoy_headers)
| PostCancelStream (stream : Z).

Record DispatcherStats := Stats {
  stream_success : N; stream_failure : N; stream_cancel : N
}.

#[export] Instance stats_eq_dec : EqDecision DispatcherStats.
Proof. solve_decision. Defined.

Record DirectStreamCallbacks := StreamCallbacks {
  bridge_callbacks_ : envoy_http_callbacks;
  error_code_ : option envoy_error_code_t;
  error_message_ : option envoy_data;
  error_attempt_count_ : option Z;
  success_ : bool
}.

Record DirectStream := Stream {
  stream_handle_ : Z;
  request_decoder_ : option positive;
  callbacks_ : DirectStreamCallbacks;
  response_details_ : string
}.

(** A call through the envoy_http_callbacks of a stream. *)
Inductive bridge_event :=
| OnHeaders (headers : envoy_headers) (end_stream : bool)
| OnData (data : envoy_data) (end_stream : bool)
| OnTrailers (trailers : envoy_headers)
| OnError (error : envoy_error)
| OnComplete
| OnCancel.

Definition new_callbacks (bridge_callbacks : envoy_http_callbacks) : DirectStreamCallbacks :=
  StreamCallbacks bridge_callbacks None None None false.

Definition set_error_code c (cb : DirectStreamCallbacks) : DirectStreamCallbacks :=
  StreamCallbacks (bridge_callbacks_ cb) c (error_message_ cb) (error_attempt_count_ cb) (success_ cb).
Definition set_error_message v (cb : DirectStreamCallbacks) : DirectStreamCallbacks :=
  StreamCallbacks (bridge_callbacks_ cb) (error_code_ cb) v (error_attempt_count_ cb) (success_ cb).
Definition set_attempt_count v (cb : DirectStreamCallbacks) : DirectStreamCallbacks :=
  StreamCallbacks (bridge_callbacks_ cb) (error_code_ cb) (error_message_ cb) v (success_ cb).
Definition set_success v (cb : DirectStreamCallbacks) : DirectStreamCallbacks :=
  StreamCallbacks (bridge_callbacks_ cb) (error_code_ cb) (error_message_ cb) (error_attempt_count_ cb) v.
Definition on_callbacks (f : DirectStreamCallbacks → DirectStreamCallbacks) (ds : DirectStream)
    : DirectStream :=
  Stream (stream_handle_ ds) (request_decoder_ ds) (f (callbacks_ ds)) (response_details_ ds).
Definition set_request_decoder d (ds : DirectStream) : DirectStream :=
  Stream (stream_handle_ ds) d (callbacks_ ds) (response_details_ ds).
Definition setResponseDetails v (ds : DirectStream) : DirectStream :=
  Stream (stream_handle_ ds) (request_decoder_ ds) (callbacks_ ds) v.

(** ** State *)

Section state.
Context (HM B : Type).

(** What the dispatcher does to the outside, in order; and of what comes in, the status
    of each response the connection manager encodes and the functors that run. *)
Inductive event :=
| EvBridge (o : nat) (ev : bridge_event)
| EvNewStream (o : nat) (is_internally_created : bool)
| EvDecodeHeaders (decoder : positive) (headers : HM) (end_stream : bool)
| EvDecodeData (decoder : positive) (data : B) (end_stream : bool)
| EvDecodeTrailers (decoder : positive) (trailers : HM)
| EvResetCallbacks (o : nat) (reason : StreamResetReason)
| EvSyncPoint (name : string)
| EvResponseStatus (o : nat) (response_status : Z)
| EvRan (f : functor).

(** The dispatcher's fields; then the heap of DirectStream objects that its
    shared pointers designate, the event loop's queue of posted functors and of
    deferred deletions, the running thread, the C memory, and the trace. *)
Record state := State {
  event_dispatcher_ : bool;
  api_listener_ : bool;
  stats_ : option DispatcherStats;
  init_queue_ : list functor;
  streams_ : gmap Z nat;
  preferred_network_ : envoy_network_t;
  objects : gmap nat DirectStream;
  next_object : nat;
  loop_queue : list functor;
  deferred : list nat;
  on_loop_thread : bool;
  st_mem : mem;
  trace : list event
}.
End state.
Arguments EvBridge {HM B} o ev.
Arguments EvNewStream {HM B} o is_internally_created.
Arguments EvDecodeHeaders {HM B} decoder headers end_stream.
Arguments EvDecodeData {HM B} decoder data end_stream.
Arguments EvDecodeTrailers {HM B} decoder trailers.
Arguments EvResetCallbacks {HM B} o reason.
Arguments EvSyncPoint {HM B} name.
Arguments EvResponseStatus {HM B} o response_status.
Arguments EvRan {HM B} f.
Arguments State {HM B} _ _ _ _ _ _ _ _ _ _ _ _ _.
Arguments event_dispatcher_ {HM B} _.
Arguments api_listener_ {HM B} _.
Arguments stats_ {HM B} _.
Arguments init_queue_ {HM B} _.
Arguments streams_ {HM B} _.
Arguments preferred_network_ {HM B} _.
Arguments objects {HM B} _.
Arguments next_object {HM B} _.
Arguments loop_queue {HM B} _.
Arguments deferred {HM B} _.
Arguments on_loop_thread {HM B} _.
Arguments st_mem {HM B} _.
Arguments trace {HM B} _.

Section setters.
Context {HM B : Type}.
Abbreviation state := (state HM B).
Abbreviation event := (event HM B).
Definition set_event_dispatcher (v : bool) (s : state) : state :=
  State v (api_listener_ s) (stats_ s) (init_queue_ s) (streams_ s) (preferred_network_ s) (objects s) (next_object s) (loop_queue s) (deferred s) (on_loop_thread s) (st_mem s) (trace s).
Definition set_api_listener (v : bool) (s : state) : state :=
  State (event_dispatcher_ s) v (stats_ s) (init_queue_ s) (streams_ s) (preferred_network_ s) (objects s) (next_object s) (loop_queue s) (deferred s) (on_loop_thread s) (st_mem s) (trace s).
Definition set_stats (v : option DispatcherStats) (s : state) : state :=
  State (event_dispatcher_ s) (api_listener_ s) v (init_queue_ s) (streams_ s) (preferred_network_ s) (objects s) (next_object s) (loop_queue s) (deferred s) (on_loop_thread s) (st_mem s) (trace s).
Definition set_init_queue (v : list functor) (s : state) : state :=
  State (event_dispatcher_ s) (api_listener_ s) (stats_ s) v (streams_ s) (preferred_network_ s) (objects s) (next_object s) (loop_queue s) (deferred s) (on_loop_thread s) (st_mem s) (trace s).
Definition set_streams (v : gmap Z nat) (s : state) : state :=
  State (event_dispatcher_ s) (api_listener_ s) (stats_ s) (init_queue_ s) v (preferred_network_ s) (objects s) (next_object s) (loop_queue s) (deferred s) (on_loop_thread s) (st_mem s) (trace s).
Definition set_preferred_network (v : envoy_network_t) (s : state) : state :=
  State (event_dispatcher_ s) (api_listener_ s) (stats_ s) (init_queue_ s) (streams_ s) v (objects s) (next_object s) (loop_queue s) (deferred s) (on_loop_thread s) (st_mem s) (trace s).
Definition set_objects (v : gmap nat DirectStream) (s : state) : state :=
  State (event_dispatcher_ s) (api_listener_ s) (stats_ s) (init_queue_ s) (streams_ s) (preferred_network_ s) v (next_object s) (loop_queue s) (deferred s) (on_loop_thread s) (st_mem s) (trace s).
Definition set_next_object (v : nat) (s : state) : state :=
  State (event_dispatcher_ s) (api_listener_ s) (stats_ s) (init_queue_ s) (streams_ s) (preferred_network_ s) (objects s) v (loop_queue s) (deferred s) (on_loop_thread s) (st_mem s) (trace s).
Definition set_loop_queue (v : list functor) (s : state) : state :=
  State (event_dispatcher_ s) (api_listener_ s) (stats_ s) (init_queue_ s) (streams_ s) (preferred_network_ s) (objects s) (next_object s) v (deferred s) (on_loop_thread s) (st_mem s) (trace s).
Definition set_deferred (v : list nat) (s : state) : state :=
  State (event_dispatcher_ s) (api_listener_ s) (stats_ s) (init_queue_ s) (streams_ s) (preferred_network_ s) (objects s) (next_object s) (loop_queue s) v (on_loop_thread s) (st_mem s) (trace s).
Definition set_on_loop_thread (v : bool) (s : state) : state :=
  State (event_dispatcher_ s) (api_listener_ s) (stats_ s) (init_queue_ s) (streams_ s) (preferred_network_ s) (objects s) (next_object s) (loop_queue s) (deferred s) v (st_mem s) (trace s).
Definition set_st_mem (v : mem) (s : state) : state :=
  State (event_dispatcher_ s) (api_listener_ s) (stats_ s) (init_queue_ s) (streams_ s) (preferred_network_ s) (objects s) (next_object s) (loop_queue s) (deferred s) (on_loop_thread s) v (trace s).
Definition set_trace (v : list event) (s : state) : state :=
  State (event_dispatcher_ s) (api_listener_ s) (stats_ s) (init_queue_ s) (streams_ s) (preferred_network_ s) (objects s) (next_object s) (loop_queue s) (deferred s) (on_loop_thread s) (st_mem s) v.
End setters.

#[export] Instance state_mem {HM B} : Part (state HM B) mem :=
  { part_get := st_mem; part_set := set_st_mem }.
#[export] Instance state_mem_laws {HM B} : PartLaws (state HM B) mem.
Proof. split; [done|by intros []|done]. Qed.

Definition terminal (ev : bridge_event) : bool :=
  match ev with OnError _ | OnComplete | OnCancel => true | _ => false end.

Definition ClusterHeader : string := "x-envoy-mobile-cluster".
Definition BaseCluster : string := "base".
Definition BaseWlanCluster : string := "base_wlan".
Definition BaseWwanCluster : string := "base_wwan".
Definition H2UpstreamHeader : string := "x-envoy-mobile-upstream-protocol".
Definition H2Suffix : string := "_h2".
Definition BaseClusterH2 : string := BaseCluster +:+ H2Suffix.
Definition BaseWlanClusterH2 : string := BaseWlanCluster +:+ H2Suffix.
Definition BaseWwanClusterH2 : string := BaseWwanCluster +:+ H2Suffix.

(** ** Operations *)

Section dispatcher.
Context {mode : BuildMode} `{Allocator} {HM : Type} `{!HeaderMap HM} `{!EnvoyCodec HM}
  {B : Type} `{!BufferInstance B}.
Abbreviation D := (M (state HM B)).

Definition emit (ev : event HM B) : D unit := modify (λ s, set_trace (trace s ++ [ev]) s).
Definition bridge (o : nat) (ev : bridge_event) : D unit := emit (EvBridge o ev).
Definition syncPoint (name : string) : D unit := emit (EvSyncPoint name).

Definition get_object (o : nat) : D DirectStream :=
  objs ← gets objects; deref "the DirectStream was destroyed" (objs !! o).
Definition update_object (o : nat) (f : DirectStream → DirectStream) : D unit :=
  modify (λ s, set_objects (alter f o (objects s)) s).
Definition update_callbacks (o : nat) (f : DirectStreamCallbacks → DirectStreamCallbacks)
    : D unit := update_object o (on_callbacks f).

(** *** Dispatcher *)

Definition post (callback : functor) : D unit :=
  ed ← gets event_dispatcher_;
  if ed : bool then modify (λ s, set_loop_queue (loop_queue s ++ [callback]) s)
  else modify (λ s, set_init_queue (init_queue_ s ++ [callback]) s).

(** [scope_stats] are the counters the scope has under the dispatcher's prefix. *)
Definition ready (scope_stats : DispatcherStats) : D unit :=
  q ← gets init_queue_;
  for_each q (λ cb, modify (λ s, set_loop_queue (loop_queue s ++ [cb]) s)) ;;
  modify (set_stats (Some scope_stats)) ;;
  modify (set_event_dispatcher true) ;;
  modify (set_api_listener true).

Definition inc_stat (f : DispatcherStats → DispatcherStats) : D unit :=
  st ← gets stats_;
  ASSERT (bool_decide (is_Some st)) "stats_.has_value()" ;;
  match st with
  | Some st => modify (set_stats (Some (f st)))
  | None => fail (Thrown "bad_optional_access")
  end.
Definition inc_success (st : DispatcherStats) : DispatcherStats :=
  Stats (N.succ (stream_success st)) (stream_failure st) (stream_cancel st).
Definition inc_failure (st : DispatcherStats) : DispatcherStats :=
  Stats (stream_success st) (N.succ (stream_failure st)) (stream_cancel st).
Definition inc_cancel (st : DispatcherStats) : DispatcherStats :=
  Stats (stream_success st) (stream_failure st) (N.succ (stream_cancel st)).

Definition getStream (stream : Z) : D (option nat) := gets (λ s, streams_ s !! stream).

Definition removeStream (stream_handle : Z) : D unit :=
  ed ← gets event_dispatcher_;
  deref "event_dispatcher_ is null" (if ed : bool then Some tt else None) ;;
  isThreadSafe ← gets on_loop_thread;
  RELEASE_ASSERT isThreadSafe
    "stream removeStream must be performed on the event_dispatcher_'s thread." ;;
  direct_stream ← getStream stream_handle;
  RELEASE_ASSERT (bool_decide (is_Some direct_stream))
    "removeStream is a private method that is only called with stream ids that exist" ;;
  o ← deref "direct_stream" direct_stream;
  modify (λ s, set_deferred (deferred s ++ [o]) s) ;;
  erased ← gets (λ s, if streams_ s !! stream_handle is Some _ then 1 else 0);
  modify (λ s, set_streams (delete stream_handle (streams_ s)) s) ;;
  ASSERT (bool_decide (erased = 1))
    "removeStream should always remove one entry from the streams map".

Definition setDestinationCluster (headers : HM) : D HM :=
  let get_result := hm_get H2UpstreamHeader headers in
  '(use_h2_cluster, headers) ←
    (match get_result with
     | [] => mret (false, headers)
     | value :: _ =>
         ASSERT (bool_decide (length get_result = 1)) "get_result.size() == 1" ;;
         use_h2_cluster ←
           (if decide (value = "http2") then mret true
            else ASSERT (bool_decide (value = "http1")) "using unsupported protocol version" ;;
                 mret false);
         mret (use_h2_cluster : bool, hm_remove H2UpstreamHeader headers)
     end);
  network ← gets preferred_network_;
  mret (match network with
        | ENVOY_NET_WLAN => hm_addReference ClusterHeader
            (if use_h2_cluster : bool then BaseWlanClusterH2 else BaseWlanCluster) headers
        | ENVOY_NET_WWAN => hm_addReference ClusterHeader
            (if use_h2_cluster : bool then BaseWwanClusterH2 else BaseWwanCluster) headers
        | ENVOY_NET_GENERIC => hm_addReference ClusterHeader
            (if use_h2_cluster : bool then BaseClusterH2 else BaseCluster) headers
        end).

(** *** DirectStreamCallbacks *)

Definition closeStream (o : nat) : D unit :=
  ds ← get_object o; removeStream (stream_handle_ ds).

Definition onComplete (o : nat) : D unit :=
  ds ← get_object o;
  (if success_ (callbacks_ ds) then inc_stat inc_success else inc_stat inc_failure) ;;
  bridge o OnComplete.

Definition onError (o : nat) : D unit :=
  ds ← get_object o;
  present ← getStream (stream_handle_ ds);
  ASSERT (bool_decide (present = None)) "!http_dispatcher_.getStream(stream_handle_)" ;;
  let code := default ENVOY_STREAM_RESET (error_code_ (callbacks_ ds)) in
  let message := default envoy_nodata (error_message_ (callbacks_ ds)) in
  let attempt_count := default (-1)%Z (error_attempt_count_ (callbacks_ ds)) in
  syncPoint "dispatch_on_error" ;;
  inc_stat inc_failure ;;
  bridge o (OnError (EnvoyError code message attempt_count)).

Definition onCancel (o : nat) : D unit :=
  get_object o ;;
  inc_stat inc_cancel ;;
  bridge o OnCancel.

Definition mapLocalResponseToError (o : nat) (headers : HM) : D unit :=
  match getResponseStatus headers with
  | None => fail (Thrown "CodecClientException")
  | Some status =>
      update_callbacks o (set_error_code
        (Some (if decide (status = 503%Z) then ENVOY_CONNECTION_FAILURE
               else ENVOY_UNDEFINED_ERROR))) ;;
      match EnvoyAttemptCount headers with
      | Some value =>
          match SimpleAtoi_uint32 value with
          | Some attempt_count => update_callbacks o (set_attempt_count (Some (s32 attempt_count)))
          | None => mret tt
          end
      | None => mret tt
      end
  end.

Definition assert_present (o : nat) : D unit :=
  ds ← get_object o;
  present ← getStream (stream_handle_ ds);
  ASSERT (bool_decide (is_Some present)) "http_dispatcher_.getStream(stream_handle_)".

Definition encodeHeaders (o : nat) (headers : HM) (end_stream : bool) : D unit :=
  assert_present o ;;
  match getResponseStatus headers with
  | None => fail (Thrown "CodecClientException")
  | Some response_status =>
      emit (EvResponseStatus o response_status) ;;
      let success := is2xx response_status in
      update_callbacks o (set_success success) ;;
      when end_stream (closeStream o) ;;
      if negb success && bool_decide (hm_get EnvoyUpstreamServiceTime headers = []) then
        mapLocalResponseToError o headers ;;
        when end_stream (onError o)
      else
        syncPoint "dispatch_encode_headers" ;;
        bridged ← zoom (toBridgeHeaders headers);
        bridge o (OnHeaders bridged end_stream) ;;
        when end_stream (onComplete o)
  end.

(** The buffer is the caller's: its state afterwards is returned. *)
Definition encodeData (o : nat) (data : B) (end_stream : bool) : D B :=
  assert_present o ;;
  when end_stream (closeStream o) ;;
  ds ← get_object o;
  if bool_decide (is_Some (error_code_ (callbacks_ ds))) then
    ASSERT end_stream "local response has to end the stream with a single data frame" ;;
    '(message, data) ← zoom (toBridgeData data);
    update_callbacks o (set_error_message (Some message)) ;;
    onError o ;;
    mret data
  else
    when end_stream (syncPoint "dispatch_encode_final_data") ;;
    '(bridged, data) ← zoom (toBridgeData data);
    bridge o (OnData bridged end_stream) ;;
    when end_stream (onComplete o) ;;
    mret data.

Definition encodeTrailers (o : nat) (trailers : HM) : D unit :=
  assert_present o ;;
  closeStream o ;;
  bridged ← zoom (toBridgeHeaders trailers);
  bridge o (OnTrailers bridged) ;;
  onComplete o.

Definition encode100ContinueHeaders (o : nat) (headers : HM) : D unit :=
  fail (Panic "not implemented").
Definition encodeMetadata (o : nat) : D unit := fail (Panic "not implemented").

(** *** DirectStream *)

Definition resetStream (runResetCallbacks : StreamResetReason → D unit)
    (o : nat) (reason : StreamResetReason) : D unit :=
  get_object o ;;
  runResetCallbacks reason ;;
  ds ← get_object o;
  present ← getStream (stream_handle_ ds);
  match present with
  | None => mret tt
  | Some _ => removeStream (stream_handle_ ds) ;; onError o
  end.

(** *** The posted functors *)

Definition new_object (ds : DirectStream) : D nat :=
  o ← gets next_object;
  modify (λ s, set_objects (<[o := ds]> (objects s)) s) ;;
  modify (set_next_object (S o)) ;;
  mret o.

Definition startStream_cb (newStream : nat → bool → D positive) (new_stream_handle : Z)
    (bridge_callbacks : envoy_http_callbacks) : D unit :=
  o ← new_object (Stream new_stream_handle None (new_callbacks bridge_callbacks) "");
  api ← gets api_listener_;
  deref "api_listener_ is null" (if api : bool then Some tt else None) ;;
  decoder ← newStream o true;
  update_object o (set_request_decoder (Some decoder)) ;;
  streams ← gets streams_;
  match streams !! new_stream_handle with
  | None => modify (set_streams (<[new_stream_handle := o]> streams))
  | Some _ =>
      (* emplace keeps the old entry; the last reference to the new stream ends *)
      modify (λ s, set_objects (delete o (objects s)) s)
  end.

Definition sendHeaders_cb (stream : Z) (headers : envoy_headers) (end_stream : bool) : D unit :=
  direct_stream ← getStream stream;
  match direct_stream with
  | None => mret tt
  | Some o =>
      internal_headers ← zoom (toRequestHeaders headers);
      internal_headers ← setDestinationCluster internal_headers;
      let internal_headers := hm_setReferenceForwardedProto SchemeHttps internal_headers in
      ds ← get_object o;
      decoder ← deref "request_decoder_" (request_decoder_ ds);
      emit (EvDecodeHeaders decoder internal_headers end_stream)
  end.

Definition sendData_cb (stream : Z) (data : envoy_data) (end_stream : bool) : D unit :=
  direct_stream ← getStream stream;
  match direct_stream with
  | None => mret tt
  | Some o =>
      buf ← zoom (toInternalData data);
      ds ← get_object o;
      decoder ← deref "request_decoder_" (request_decoder_ ds);
      emit (EvDecodeData decoder buf end_stream)
  end.

Definition sendTrailers_cb (stream : Z) (trailers : envoy_headers) : D unit :=
  direct_stream ← getStream stream;
  match direct_stream with
  | None => mret tt
  | Some o =>
      internal_trailers ← zoom (toRequestTrailers trailers);
      ds ← get_object o;
      decoder ← deref "request_decoder_" (request_decoder_ ds);
      emit (EvDecodeTrailers decoder internal_trailers)
  end.

Definition getCancelDetails : string := "client cancelled stream".

Definition cancelStream_cb (runResetCallbacks : nat → StreamResetReason → D unit)
    (stream : Z) : D unit :=
  direct_stream ← getStream stream;
  match direct_stream with
  | None => mret tt
  | Some o =>
      ds ← get_object o;
      removeStream (stream_handle_ ds) ;;
      syncPoint "dispatch_on_cancel" ;;
      onCancel o ;;
      update_object o (setResponseDetails getCancelDetails) ;;
      runResetCallbacks o RemoteReset
  end.

Definition run_functor (newStream : nat → bool → D positive)
    (runResetCallbacks : nat → StreamResetReason → D unit) (f : functor) : D unit :=
  match f with
  | PostStartStream h cb => startStream_cb newStream h cb
  | PostSendHeaders st hd es => sendHeaders_cb st hd es
  | PostSendData st d es => sendData_cb st d es
  | PostSendTrailers st tr => sendTrailers_cb st tr
  | PostCancelStream st => cancelStream_cb runResetCallbacks st
  end.

(** *** The API, called from any thread *)

Definition startStream (new_stream_handle : Z) (bridge_callbacks : envoy_http_callbacks)
    : D envoy_status_t :=
  post (PostStartStream new_stream_handle bridge_callbacks) ;; mret ENVOY_SUCCESS.
Definition sendHeaders (stream : Z) (headers : envoy_headers) (end_stream : bool)
    : D envoy_status_t :=
  post (PostSendHeaders stream headers end_stream) ;; mret ENVOY_SUCCESS.
Definition sendData (stream : Z) (data : envoy_data) (end_stream : bool) : D envoy_status_t :=
  post (PostSendData stream data end_stream) ;; mret ENVOY_SUCCESS.
Definition sendMetadata (stream : Z) (metadata : envoy_headers) : D envoy_status_t :=
  fail (Panic "not implemented").
Definition sendTrailers (stream : Z) (trailers : envoy_headers) : D envoy_status_t :=
  post (PostSendTrailers stream trailers) ;; mret ENVOY_SUCCESS.
Definition cancelStream (stream : Z) : D envoy_status_t :=
  post (PostCancelStream stream) ;; mret ENVOY_SUCCESS.
End dispatcher.

(** ** The dispatcher in its environment *)

(** What the HCM can call on a stream object. The calls it makes while
    runResetCallbacks is running are part of the resetStream call. *)
Inductive hcm_call (HM B : Type) :=
| HcmEncodeHeaders (o : nat) (headers : HM) (end_stream : bool)
| HcmEncodeData (o : nat) (data : B) (end_stream : bool)
| HcmEncodeTrailers (o : nat) (trailers : HM)
| HcmResetStream (o : nat) (reason : StreamResetReason) (during : list (hcm_call HM B))
| HcmEncode100Continue (o : nat) (headers : HM)
| HcmEncodeMetadata (o : nat).
Arguments HcmEncodeHeaders {HM B} o headers end_stream.
Arguments HcmEncodeData {HM B} o data end_stream.
Arguments HcmEncodeTrailers {HM B} o trailers.
Arguments HcmResetStream {HM B} o reason during.
Arguments HcmEncode100Continue {HM B} o headers.
Arguments HcmEncodeMetadata {HM B} o.

(** [LRun n decoder during]: the event loop runs the [n]-th functor of its queue; if
    that starts a stream, newStream returns [decoder]; [during] is what the HCM calls
    back while the functor is inside newStream or runResetCallbacks. *)
Inductive label (HM B : Type) :=
| LApi (f : functor)
| LReady (scope_stats : DispatcherStats)
| LRun (n : nat) (decoder : positive) (during : list (hcm_call HM B))
| LHcm (c : hcm_call HM B)
| LClearDeferredDeleteList
| LSetPreferredNetwork (network : envoy_network_t).
Arguments LApi {HM B} f.
Arguments LReady {HM B} scope_stats.
Arguments LRun {HM B} n decoder during.
Arguments LHcm {HM B} c.
Arguments LClearDeferredDeleteList {HM B}.
Arguments LSetPreferredNetwork {HM B} network.

Section system.
Context {mode : BuildMode} `{Allocator} {HM : Type} `{!HeaderMap HM} `{!EnvoyCodec HM}
  {B : Type} `{!BufferInstance B}.
Abbreviation D := (M (state HM B)).

Fixpoint exec_hcm (c : hcm_call HM B) : D unit :=
  match c with
  | HcmEncodeHeaders o headers end_stream => encodeHeaders o headers end_stream
  | HcmEncodeData o data end_stream => encodeData o data end_stream ;; mret tt
  | HcmEncodeTrailers o trailers => encodeTrailers o trailers
  | HcmResetStream o reason during =>
      resetStream (λ r, emit (EvResetCallbacks o r) ;; for_each during exec_hcm) o reason
  | HcmEncode100Continue o headers => encode100ContinueHeaders o headers
  | HcmEncodeMetadata o => encodeMetadata o
  end.

Definition api_call (f : functor) : D envoy_status_t :=
  match f with
  | PostStartStream h cb => startStream h cb
  | PostSendHeaders st hd es => sendHeaders st hd es
  | PostSendData st d es => sendData st d es
  | PostSendTrailers st tr => sendTrailers st tr
  | PostCancelStream st => cancelStream st
  end.

Definition hcm_newStream (decoder : positive) (during : list (hcm_call HM B))
    (o : nat) (is_internally_created : bool) : D positive :=
  emit (EvNewStream o is_internally_created) ;; for_each during exec_hcm ;; mret decoder.
Definition hcm_reset (during : list (hcm_call HM B)) (o : nat) (r : StreamResetReason) : D unit :=
  emit (EvResetCallbacks o r) ;; for_each during exec_hcm.

Definition run_posted (n : nat) (decoder : positive) (during : list (hcm_call HM B)) : D unit :=
  q ← gets loop_queue;
  match q !! n with
  | None => mret tt
  | Some f =>
      modify (set_loop_queue (delete n q)) ;;
      emit (EvRan f) ;;
      run_functor (hcm_newStream decoder during) (hcm_reset during) f
  end.

(** The event loop drops its references to the wrappers: a stream object dies
    unless the map still refers to it. *)
Definition clear_deferred : D unit :=
  modify (λ s, set_deferred [] (set_objects
    (foldr (λ o objs, if decide (o ∈ (map_to_list (streams_ s)).*2) then objs
                      else delete o objs) (objects s) (deferred s)) s)).

Definition exec_label (l : label HM B) : D unit :=
  match l with
  | LApi f => modify (set_on_loop_thread false) ;; api_call f ;; mret tt
  | LReady scope_stats => modify (set_on_loop_thread true) ;; ready scope_stats
  | LRun n decoder during => modify (set_on_loop_thread true) ;; run_posted n decoder during
  | LHcm c => modify (set_on_loop_thread true) ;; exec_hcm c
  | LClearDeferredDeleteList => modify (set_on_loop_thread true) ;; clear_deferred
  | LSetPreferredNetwork n => modify (set_preferred_network n)
  end.

Definition init_state (m : mem) : state HM B :=
  State false false None [] ∅ ENVOY_NET_GENERIC ∅ 0 [] [] false m [].

(** The handles startStream was called with: run, and still queued. *)
Definition start_handles (q : list functor) : list Z :=
  omap (λ f, if f is PostStartStream h _ then Some h else None) q.
Definition pending (s : state HM B) : list functor :=
  if event_dispatcher_ s then loop_queue s else init_queue_ s.
Definition ran (tr : list (event HM B)) : list functor :=
  omap (λ ev, if ev is EvRan f then Some f else None) tr.
Definition used_handles (s : state HM B) : list Z := start_handles (ran (trace s)).

(** The platform starts each handle once (init_stream never repeats one). *)
Definition fresh_start (f : functor) (s : state HM B) : Prop :=
  match f with
  | PostStartStream h _ => h ∉ used_handles s ++ start_handles (pending s)
  | _ => True
  end.

(** The environment's moves: API calls with fresh stream handles, ready once, and
    any call of the event loop and the HCM. A step exists when no fault occurs. *)
Inductive step (scope : DispatcherStats) : state HM B → label HM B → state HM B → Prop :=
| step_api f s s' :
    fresh_start f s → exec_label (LApi f) s = Ok (tt, s') → step scope s (LApi f) s'
| step_ready s s' :
    event_dispatcher_ s = false → exec_label (LReady scope) s = Ok (tt, s') →
    step scope s (LReady scope) s'
| step_run n decoder during s s' :
    exec_label (LRun n decoder during) s = Ok (tt, s') → step scope s (LRun n decoder during) s'
| step_hcm c s s' :
    exec_label (LHcm c) s = Ok (tt, s') → step scope s (LHcm c) s'
| step_clear s s' :
    exec_label LClearDeferredDeleteList s = Ok (tt, s') →
    step scope s LClearDeferredDeleteList s'
| step_network n s s' :
    exec_label (LSetPreferredNetwork n) s = Ok (tt, s') →
    step scope s (LSetPreferredNetwork n) s'.

Inductive steps (scope : DispatcherStats) : state HM B → list (label HM B) → state HM B → Prop :=
| steps_nil s : steps scope s [] s
| steps_snoc s ls l s' s'' :
    steps scope s ls s' → step scope s' l s'' → steps scope s (ls ++ [l]) s''.

(** The same, as an executable function. *)
Definition allowed (scope : DispatcherStats) (l : label HM B) (s : state HM B) : bool :=
  match l with
  | LApi (PostStartStream h _) =>
      bool_decide (h ∉ used_handles s ++ start_handles (pending s))
  | LReady scope' => negb (event_dispatcher_ s) && bool_decide (scope' = scope)
  | _ => true
  end.

Fixpoint run_labels (scope : DispatcherStats) (ls : list (label HM B)) (s : state HM B)
    : option (state HM B) :=
  match ls with
  | [] => Some s
  | l :: ls =>
      if allowed scope l s then
        match exec_label l s with
        | Ok (_, s') => run_labels scope ls s'
        | Fault _ => None
        end
      else None
  end.

Definition reachable (scope : DispatcherStats) (ls : list (label HM B)) (s : state HM B) : Prop :=
  ∃ m, steps scope (init_state m) ls s.

Lemma allowed_step scope l s s' :
  allowed scope l s = true → exec_label l s = Ok (tt, s') → step scope s l s'.
Proof.
  destruct l as [f|sc|n d dur|c| |n]; intros Ha He; try by constructor.
  - apply step_api; [|done]. destruct f; cbn in *; try done. by apply bool_decide_eq_true in Ha.
  - cbn in Ha. apply andb_true_iff in Ha as [Hed Hsc].
    apply negb_true_iff in Hed. apply bool_decide_eq_true in Hsc as ->. by apply step_ready.
Qed.

Lemma run_labels_steps scope ls s s' ls0 s0 :
  steps scope s0 ls0 s → run_labels scope ls s = Some s' → steps scope s0 (ls0 ++ ls) s'.
Proof.
  revert s ls0. induction ls as [|l ls IH]; intros s ls0 H0 Hr; cbn in Hr.
  - injection Hr as <-. by rewrite app_nil_r.
  - destruct (allowed scope l s) eqn:Ha; [|done].
    destruct (exec_label l s) as [[[] s1]|] eqn:He; [|done].
    rewrite (cons_middle l ls0 ls), app_assoc. apply (IH s1); [|done].
    eapply steps_snoc; [done|]. by apply allowed_step.
Qed.

Lemma run_labels_reachable scope m ls s :
  run_labels scope ls (init_state m) = Some s → reachable scope ls s.
Proof. intros Hr. exists m. by apply (run_labels_steps scope ls _ _ [] _ (steps_nil scope _)). Qed.
End system.

(** ** The abstract stream *)

(** What c_types.h promises the platform about the callbacks of one stream: any
    headers and data, an end of stream answered by completion, and exactly one
    terminal callback, after which there is silence. *)
Inductive phase := Open | Ending | Closed.

#[export] Instance phase_eq_dec : EqDecision phase.
Proof. solve_decision. Defined.

Definition spec_step (p : phase) (ev : bridge_event) : option phase :=
  match p, ev with
  | Open, OnHeaders _ end_stream | Open, OnData _ end_stream =>
      Some (if end_stream then Ending else Open)
  | Open, OnTrailers _ => Some Ending
  | Ending, OnComplete => Some Closed
  | Open, OnError _ | Open, OnCancel => Some Closed
  | _, _ => None
  end.

Definition spec_run (evs : list bridge_event) : option phase :=
  foldl (λ p ev, p ≫= λ p, spec_step p ev) (Some Open) evs.

Definition bridge_trace {HM B} (o : nat) (tr : list (event HM B)) : list bridge_event :=
  omap (λ ev, if ev is EvBridge o' e then (if decide (o' = o) then Some e else None) else None) tr.

Definition phase_of {HM B} (o : nat) (s : state HM B) : option phase :=
  spec_run (bridge_trace o (trace s)).
