(* ===== verification/DispatcherInv.v ===== *)
(** * The stream invariant of the dispatcher

    Every stream object is in one of three places: in the map (its callbacks are
    still open), in limbo (a handler on the stack has taken it out, or not yet put
    it in), or out of the map (its terminal callback was issued). [Inv X s] says so
    for the limbo objects [X]; each handler is shown to preserve it, for arbitrary
    environments, in a build with ASSERTs. *)

From S2P Require Export Dispatcher.

Section defs.
Context `{Allocator} {HM : Type} `{!HeaderMap HM} `{!EnvoyCodec HM}
  {B : Type} `{!BufferInstance B}.
Implicit Types (s : state HM B) (o : nat) (X : gmap nat phase).

Definition handles s : gmap nat Z := stream_handle_ <$> objects s.
Definition live o s : Prop := ∃ h, handles s !! o = Some h ∧ streams_ s !! h = Some o.

Record Inv X s : Prop := {
  inv_streams h o : streams_ s !! h = Some o →
    handles s !! o = Some h ∧ X !! o = None ∧ phase_of o s = Some Open;
  inv_limbo o p : X !! o = Some p →
    phase_of o s = Some p ∧ p ≠ Closed ∧ is_Some (handles s !! o);
  inv_closed o : o < next_object s → X !! o = None → (∀ h, streams_ s !! h ≠ Some o) →
    phase_of o s = Some Closed;
  inv_fresh o : next_object s ≤ o →
    bridge_trace o (trace s) = [] ∧ handles s !! o = None ∧ X !! o = None;
  inv_unique o1 o2 h : handles s !! o1 = Some h → handles s !! o2 = Some h → o1 = o2;
  inv_used o h : handles s !! o = Some h → h ∈ used_handles s;
  inv_nodup : NoDup (used_handles s ++ start_handles (pending s));
  inv_queue : event_dispatcher_ s = false → loop_queue s = []
}.

(** Two states the invariant does not tell apart. *)
Record same_view s s' : Prop := {
  sv_streams : streams_ s' = streams_ s;
  sv_handles : handles s' = handles s;
  sv_next : next_object s' = next_object s;
  sv_bridge o : bridge_trace o (trace s') = bridge_trace o (trace s);
  sv_used : used_handles s' = used_handles s;
  sv_pending : pending s' = pending s;
  sv_ed : event_dispatcher_ s' = event_dispatcher_ s;
  sv_queue : loop_queue s' = loop_queue s
}.

End defs.

(** A computation that does not touch the stream map, the set of objects, the queue
    or the bridge callbacks. *)
Abbreviation keeps := (preserves same_view).

Section view.
Context `{Allocator} {HM : Type} `{!HeaderMap HM} `{!EnvoyCodec HM}
  {B : Type} `{!BufferInstance B}.
Implicit Types (s : state HM B) (o : nat) (X : gmap nat phase).

#[export] Instance same_view_preorder : PreOrder (@same_view HM B).
Proof.
  split; [by intros s; split|].
  intros s1 s2 s3 [A1 B1 C1 D1 E1 F1 G1 K1] [A2 B2 C2 D2 E2 F2 G2 K2]. split; congruence.
Qed.

Lemma phase_of_view s s' o : same_view s s' → phase_of o s' = phase_of o s.
Proof. intros V. unfold phase_of. by rewrite (sv_bridge _ _ V). Qed.

Lemma Inv_view X s s' : same_view s s' → Inv X s → Inv X s'.
Proof.
  intros V [I1 I2 I3 I4 I5 I6 I7 I8]. pose proof V as [A1 B1 C1 D1 E1 F1 G1 K1]. split.
  - intros h o. rewrite A1, B1, (phase_of_view _ _ _ V). apply I1.
  - intros o p. rewrite B1, (phase_of_view _ _ _ V). apply I2.
  - intros o. rewrite A1, C1, (phase_of_view _ _ _ V). apply I3.
  - intros o. rewrite C1, D1, B1. apply I4.
  - intros o1 o2 h. rewrite B1. apply I5.
  - intros o h. rewrite B1, E1. apply I6.
  - by rewrite E1, F1.
  - rewrite G1, K1. apply I8.
Qed.

Lemma live_view o s s' : same_view s s' → live o s → live o s'.
Proof. intros [A1 B1 C1 D1 E1 F1 G1 K1] (h & ? & ?). exists h. by rewrite A1, B1. Qed.

(** *** Computations that keep the view *)

Lemma keeps_zoom {A} (m : M mem A) : keeps (zoom m : M (state HM B) A).
Proof. apply preserves_zoom. by split. Qed.

Lemma handles_update (s : state HM B) o f :
  (∀ ds, stream_handle_ (f ds) = stream_handle_ ds) →
  handles (set_objects (alter f o (objects s)) s) = handles s.
Proof.
  intros Hf. unfold handles. cbn. apply map_eq. intros o'.
  rewrite !lookup_fmap, lookup_alter. case_decide; [|done]. subst.
  destruct (objects s !! o'); cbn; [by rewrite Hf|done].
Qed.

Lemma keeps_update_object o f :
  (∀ ds, stream_handle_ (f ds) = stream_handle_ ds) →
  keeps (update_object o f : M (state HM B) unit).
Proof. intros Hf. apply preserves_modify. intros s. split; try done. by apply handles_update. Qed.

Lemma keeps_emit (ev : event HM B) :
  match ev with EvBridge _ _ | EvRan _ => False | _ => True end → keeps (emit ev).
Proof.
  intros Hev. apply preserves_modify. intros s. split; try done.
  - intros o. cbn. unfold bridge_trace. rewrite omap_app. destruct ev; try done; cbn; by rewrite app_nil_r.
  - unfold used_handles, ran. cbn. rewrite omap_app. destruct ev; try done; cbn; by rewrite app_nil_r.
Qed.

Lemma keeps_get_object o : keeps (get_object o : M (state HM B) DirectStream).
Proof. unfold get_object. preserve. Qed.
Lemma keeps_inc_stat {mode : BuildMode} f : keeps (inc_stat f : M (state HM B) unit).
Proof.
  unfold inc_stat. apply preserves_bind; [exact _|apply preserves_gets; exact _|]. intros st.
  apply preserves_bind; [exact _|apply preserves_ASSERT; exact _|]. intros [].
  destruct st; [by apply preserves_modify|apply preserves_fail].
Qed.

Lemma wp_keeps {A} X E (m : M (state HM B) A) s :
  keeps m → Inv X s → (∀ f, E f) →
  wp m E (λ _ s', Inv X s' ∧ same_view s s') s.
Proof.
  intros Hm HI HE. unfold wp. destruct (m s) as [[a s']|f] eqn:Hr; [|apply HE].
  specialize (Hm _ _ _ Hr). split; [by eapply Inv_view|done].
Qed.
End view.

#[export] Hint Resolve keeps_zoom keeps_get_object keeps_inc_stat : preservesdb.
#[export] Hint Extern 1 (keeps (emit _)) => apply keeps_emit; exact I : preservesdb.
#[export] Hint Extern 1 (keeps (syncPoint _)) => apply keeps_emit; exact I : preservesdb.
#[export] Hint Extern 1 (keeps (getStream _)) => apply preserves_gets; exact _ : preservesdb.
#[export] Hint Extern 1 (keeps (update_object _ _)) =>
  apply keeps_update_object; reflexivity : preservesdb.
#[export] Hint Extern 1 (keeps (update_callbacks _ _)) =>
  apply keeps_update_object; reflexivity : preservesdb.
#[export] Hint Extern 1 (keeps (modify _)) => apply preserves_modify; intros; by split : preservesdb.

(** Skip over a computation that keeps the view. *)
Ltac wp_skip a s Hi Hv :=
  apply wp_bind; eapply wp_conseq;
  [apply wp_keeps; [solve [preserve]|eassumption|done]|];
  intros a s [Hi Hv]; cbv beta in Hi, Hv.

(** ** The operations that move a stream *)

Section moves.
#[local] Existing Instance debug_build.
Context `{Allocator} {HM : Type} `{!HeaderMap HM} `{!EnvoyCodec HM}
  {B : Type} `{!BufferInstance B}.
Implicit Types (s : state HM B) (o : nat) (X : gmap nat phase).

Lemma phase_of_emit s o o' ev :
  phase_of o (set_trace (trace s ++ [EvBridge o' ev]) s) =
  if decide (o' = o) then phase_of o s ≫= λ p, spec_step p ev else phase_of o s.
Proof.
  unfold phase_of, bridge_trace. cbn. rewrite omap_app. cbn.
  case_decide; [|by rewrite app_nil_r].
  unfold spec_run. by rewrite foldl_app.
Qed.

Lemma used_handles_emit s o ev :
  used_handles (set_trace (trace s ++ [EvBridge o ev]) s) = used_handles s.
Proof. unfold used_handles, ran. cbn. rewrite omap_app. cbn. by rewrite app_nil_r. Qed.

Lemma live_unlimbo X s o : Inv X s → live o s → X !! o = None ∧ phase_of o s = Some Open.
Proof. intros HI (h & Hh & Hs). by destruct (inv_streams _ _ HI h o Hs) as (_ & ? & ?). Qed.

Lemma next_above X s o h : Inv X s → handles s !! o = Some h → o < next_object s.
Proof.
  intros HI Hh. destruct (decide (o < next_object s)); [done|].
  destruct (inv_fresh _ _ HI o) as (_ & ? & _); [lia|congruence].
Qed.

Lemma limbo_not_live X s o p h : Inv X s → X !! o = Some p → streams_ s !! h ≠ Some o.
Proof. intros HI HX Hs. destruct (inv_streams _ _ HI h o Hs) as (_ & ? & _). congruence. Qed.

(** A callback on a live stream that leaves it open. *)
Lemma Inv_bridge_live X s o ev :
  Inv X s → live o s → spec_step Open ev = Some Open →
  Inv X (set_trace (trace s ++ [EvBridge o ev]) s).
Proof.
  intros HI Hl Hev. destruct (live_unlimbo _ _ _ HI Hl) as [HX Hp].
  pose proof Hl as (h0 & Hh0 & Hs0). destruct HI as [I1 I2 I3 I4 I5 I6 I7 I8].
  split; try done.
  - intros h o' Hs. destruct (I1 h o' Hs) as (? & ? & ?). split_and!; [done..|].
    rewrite phase_of_emit. case_decide; [|done]. subst. by rewrite Hp.
  - intros o' p HX'. destruct (I2 o' p HX') as (? & ? & ?). split_and!; [|done..].
    rewrite phase_of_emit. case_decide; [congruence|done].
  - intros o' ? ? Hs. rewrite phase_of_emit. case_decide; [|by apply I3].
    subst. by destruct (Hs h0).
  - intros o' Hlt. destruct (I4 o' Hlt) as (Hb & Hh & ?). split_and!; [|done..]. cbn.
    unfold bridge_trace in *. rewrite omap_app, Hb. cbn.
    case_decide; [|done]. subst. exfalso. rewrite Hh in Hh0. done.
  - intros o' h Hh. rewrite used_handles_emit. by eapply I6.
  - by rewrite used_handles_emit.
Qed.

(** A callback on a stream in limbo that moves it to a phase that still owes one. *)
Lemma Inv_bridge_limbo X s o p p' ev :
  Inv (<[o := p]> X) s → spec_step p ev = Some p' → p' ≠ Closed →
  Inv (<[o := p']> X) (set_trace (trace s ++ [EvBridge o ev]) s).
Proof.
  intros HI Hev Hp'. pose proof (λ h, limbo_not_live _ _ o p h HI ltac:(by simplify_map_eq)) as Hnl.
  destruct HI as [I1 I2 I3 I4 I5 I6 I7 I8].
  destruct (I2 o p ltac:(by simplify_map_eq)) as (Hp & _ & [ho Hho]).
  split; try done.
  - intros h o' Hs. destruct (I1 h o' Hs) as (? & HX & ?).
    assert (o ≠ o') by (intros ->; by apply (Hnl h)).
    rewrite lookup_insert_ne in HX |- * by done.
    by rewrite phase_of_emit, decide_False by done.
  - intros o' q HX. rewrite phase_of_emit. case_decide.
    + subst. rewrite lookup_insert_eq in HX. injection HX as <-. by rewrite Hp.
    + apply I2. by rewrite lookup_insert_ne in HX |- * by done.
  - intros o' Hlt HX Hs. assert (o ≠ o') by (intros ->; by rewrite lookup_insert_eq in HX).
    rewrite phase_of_emit, decide_False by done. apply I3; [done| |done].
    by rewrite lookup_insert_ne in HX |- * by done.
  - intros o' Hlt. destruct (I4 o' Hlt) as (Hb & Hh & HX).
    assert (o ≠ o') by (intros ->; by rewrite lookup_insert_eq in HX).
    rewrite lookup_insert_ne in HX |- * by done. split_and!; [|done..]. cbn.
    unfold bridge_trace in *. rewrite omap_app, Hb. cbn. by rewrite decide_False.
  - intros o' h Hh. rewrite used_handles_emit. by eapply I6.
  - by rewrite used_handles_emit.
Qed.

(** The terminal callback takes a stream out of limbo. *)
Lemma Inv_bridge_terminal X s o p ev :
  Inv (<[o := p]> X) s → X !! o = None → spec_step p ev = Some Closed →
  Inv X (set_trace (trace s ++ [EvBridge o ev]) s).
Proof.
  intros HI HXo Hev. pose proof (λ h, limbo_not_live _ _ o p h HI ltac:(by simplify_map_eq)) as Hnl.
  destruct HI as [I1 I2 I3 I4 I5 I6 I7 I8].
  destruct (I2 o p ltac:(by simplify_map_eq)) as (Hp & _ & [ho Hho]).
  split; try done.
  - intros h o' Hs. destruct (I1 h o' Hs) as (? & HX & ?).
    assert (o ≠ o') by (intros ->; by apply (Hnl h)).
    rewrite lookup_insert_ne in HX by done.
    by rewrite phase_of_emit, decide_False by done.
  - intros o' q HX. assert (o ≠ o') by congruence. rewrite phase_of_emit, decide_False by done.
    apply I2. by rewrite lookup_insert_ne.
  - intros o' Hlt HX Hs. rewrite phase_of_emit. case_decide.
    + subst. by rewrite Hp.
    + apply I3; [done| |done]. by rewrite lookup_insert_ne.
  - intros o' Hlt. destruct (I4 o' Hlt) as (Hb & Hh & HX).
    assert (o ≠ o') by (intros ->; by rewrite lookup_insert_eq in HX).
    rewrite lookup_insert_ne in HX by done. split_and!; [|done..]. cbn.
    unfold bridge_trace in *. rewrite omap_app, Hb. cbn. by rewrite decide_False.
  - intros o' h Hh. rewrite used_handles_emit. by eapply I6.
  - by rewrite used_handles_emit.
Qed.

(** Erasing a stream from the map puts it in limbo. *)
Lemma Inv_erase X s h o d :
  Inv X s → streams_ s !! h = Some o →
  Inv (<[o := Open]> X) (set_streams (delete h (streams_ s)) (set_deferred d s)).
Proof.
  intros [I1 I2 I3 I4 I5 I6 I7 I8] Hs. destruct (I1 h o Hs) as (Hh & HX & Hp).
  split; try done.
  - intros h' o' Hs'. cbn in Hs'. rewrite lookup_delete in Hs'. case_decide; [done|].
    destruct (I1 h' o' Hs') as (Hh' & ? & ?). split_and!; try done.
    rewrite lookup_insert_ne; [done|]. intros ->.
    change (handles s !! o' = Some h') in Hh'. congruence.
  - intros o' p HX'. rewrite lookup_insert in HX'. case_decide.
    + injection HX' as <-. subst. split_and!; [done..|]. by exists h.
    + by apply I2.
  - intros o' Hlt HX' Hs'. assert (o ≠ o') by (intros ->; by rewrite lookup_insert_eq in HX').
    rewrite lookup_insert_ne in HX' by done. apply I3; [done..|]. intros h' Hs''.
    apply (Hs' h'). cbn. rewrite lookup_delete_ne; [done|]. intros ->. congruence.
  - intros o' Hlt. destruct (I4 o' Hlt) as (? & ? & ?). split_and!; [done..|].
    rewrite lookup_insert_ne; [done|]. intros ->. congruence.
Qed.
End moves.

(** ** The handlers *)

Section handlers.
#[local] Existing Instance debug_build.
Context `{Allocator} {HM : Type} `{!HeaderMap HM} `{!EnvoyCodec HM}
  {B : Type} `{!BufferInstance B}.
Implicit Types (s : state HM B) (o : nat) (X : gmap nat phase).

Lemma handles_object s o ds : objects s !! o = Some ds → handles s !! o = Some (stream_handle_ ds).
Proof. intros Ho. unfold handles. by rewrite lookup_fmap, Ho. Qed.

Lemma wp_get_object o (Q : DirectStream → state HM B → Prop) s :
  (∀ ds, objects s !! o = Some ds → Q ds s) → wp (get_object o) any_fault Q s.
Proof. intros HQ. apply wp_bind, wp_gets, wp_deref; [done|by intros]. Qed.

Lemma wp_assert_present o Q X s :
  Inv X s → (live o s → Q tt s) → wp (assert_present o) any_fault Q s.
Proof.
  intros HI HQ. apply wp_bind, wp_get_object. intros ds Hds.
  apply wp_bind, wp_gets, wp_ASSERT; [|by intros]. intros [Hp|?]; [|done].
  apply bool_decide_eq_true in Hp as [o' Ho']. apply HQ.
  apply handles_object in Hds.
  destruct (inv_streams _ _ HI _ _ Ho') as (Hh & _).
  rewrite (inv_unique _ _ HI _ _ _ Hds Hh) in *. by eexists.
Qed.

Lemma wp_removeStream h X s :
  Inv X s →
  wp (removeStream h) any_fault (λ _ s', ∃ o, streams_ s !! h = Some o ∧
    Inv (<[o := Open]> X) s' ∧ handles s' = handles s) s.
Proof.
  intros HI. unfold removeStream.
  apply wp_bind, wp_gets, wp_bind, wp_deref; [|by intros]. intros [] _.
  apply wp_bind, wp_gets, wp_bind, wp_RELEASE_ASSERT; [|by intros]. intros _.
  apply wp_bind, wp_gets, wp_bind, wp_RELEASE_ASSERT; [|by intros]. intros _.
  apply wp_bind, wp_deref; [|by intros]. intros o Ho.
  apply wp_bind, wp_modify, wp_bind, wp_gets, wp_bind, wp_modify.
  apply wp_ASSERT; [|by intros]. intros _. exists o. split; [done|].
  split; [|done]. by apply (Inv_erase X s h o (deferred s ++ [o])).
Qed.

Lemma wp_closeStream o X s :
  Inv X s →
  wp (closeStream o) any_fault (λ _ s', live o s ∧
    Inv (<[o := Open]> X) s' ∧ handles s' = handles s) s.
Proof.
  intros HI. apply wp_bind, wp_get_object. intros ds Hds.
  eapply wp_conseq; [by apply wp_removeStream|].
  intros [] s' (o' & Ho' & HI' & Hh'). apply handles_object in Hds.
  destruct (inv_streams _ _ HI _ _ Ho') as (Hh & _).
  rewrite (inv_unique _ _ HI _ _ _ Hds Hh) in *. split; [by eexists|done].
Qed.

(** [inc_stat] and the terminal call that always follows it. *)
Lemma wp_terminal o f ev p X s :
  Inv (<[o := p]> X) s → X !! o = None → spec_step p ev = Some Closed →
  wp (inc_stat f ;; bridge o ev) any_fault (λ _ s', Inv X s' ∧ handles s' = handles s) s.
Proof.
  intros HI HX Hev. wp_skip u s1 HI1 V1. apply wp_modify.
  split; [by eapply Inv_bridge_terminal|]. apply V1.
Qed.

Lemma wp_onComplete o X s :
  Inv (<[o := Ending]> X) s → X !! o = None →
  wp (onComplete o) any_fault (λ _ s', Inv X s' ∧ handles s' = handles s) s.
Proof.
  intros HI HX. apply wp_bind, wp_get_object. intros ds _.
  destruct (success_ (callbacks_ ds)); by eapply wp_terminal.
Qed.

Lemma wp_onError o X s :
  Inv (<[o := Open]> X) s → X !! o = None →
  wp (onError o) any_fault (λ _ s', Inv X s' ∧ handles s' = handles s) s.
Proof.
  intros HI HX. apply wp_bind, wp_get_object. intros ds _.
  wp_skip p s1 HI1 V1. wp_skip u s2 HI2 V2. wp_skip u' s3 HI3 V3.
  eapply wp_conseq; [by eapply wp_terminal|].
  intros [] s' [HI' Hh]. split; [done|]. rewrite Hh, (sv_handles _ _ V3), (sv_handles _ _ V2).
  apply V1.
Qed.

Lemma wp_onCancel o X s :
  Inv (<[o := Open]> X) s → X !! o = None →
  wp (onCancel o) any_fault (λ _ s', Inv X s' ∧ handles s' = handles s) s.
Proof.
  intros HI HX. apply wp_bind, wp_get_object. intros ds _. by eapply wp_terminal.
Qed.

Lemma keeps_mapLocalResponseToError o (hm : HM) :
  keeps (mapLocalResponseToError o hm : M (state HM B) unit).
Proof.
  unfold mapLocalResponseToError. preserve.
Qed.

(** The tail of a frame that may end the stream: the callback, then completion. *)
Lemma wp_deliver o ev (end_stream : bool) X s :
  (if end_stream then X !! o = None ∧ Inv (<[o := Open]> X) s else live o s ∧ Inv X s) →
  spec_step Open ev = Some (if end_stream then Ending else Open) →
  wp (bridge o ev ;; when end_stream (onComplete o)) any_fault
    (λ _ s', Inv X s' ∧ handles s' = handles s) s.
Proof.
  intros HI Hev. apply wp_bind, wp_modify. destruct end_stream; cbn.
  - destruct HI as [HX HI]. eapply wp_conseq.
    { apply wp_onComplete; [|done]. by eapply Inv_bridge_limbo. }
    done.
  - destruct HI as [Hl HI]. apply wp_ret. split; [by apply Inv_bridge_live|done].
Qed.

Lemma wp_close_if o (end_stream : bool) X s :
  Inv X s → live o s →
  wp (when end_stream (closeStream o)) any_fault (λ _ s',
    (if end_stream then X !! o = None ∧ Inv (<[o := Open]> X) s' else live o s' ∧ Inv X s') ∧
    handles s' = handles s) s.
Proof.
  intros HI Hl. destruct end_stream; [|by apply wp_ret].
  eapply wp_conseq; [by apply wp_closeStream|]. cbn. intros _ s' (? & ? & ?).
  split_and!; try done. by eapply live_unlimbo.
Qed.

Lemma ended_view o (end_stream : bool) X s s' :
  same_view s s' →
  (if end_stream then X !! o = None ∧ Inv (<[o := Open]> X) s else live o s ∧ Inv X s) →
  (if end_stream then X !! o = None ∧ Inv (<[o := Open]> X) s' else live o s' ∧ Inv X s').
Proof.
  intros V. destruct end_stream; intros [H1 H2]; split; try done; try by eapply Inv_view.
  by eapply live_view.
Qed.

Lemma wp_keeps_view {A} (m : M (state HM B) A) s :
  keeps m → wp m any_fault (λ _ s', same_view s s') s.
Proof. intros Hm. unfold wp. destruct (m s) as [[a s']|f] eqn:Hr; [by eapply Hm|done]. Qed.
End handlers.

(** Skip a computation, keeping only the view relation. *)
Ltac wp_view a s V :=
  apply wp_bind; eapply wp_conseq; [apply wp_keeps_view; solve [preserve]|];
  intros a s V; cbv beta in V.
#[export] Hint Resolve keeps_mapLocalResponseToError : preservesdb.

Section handlers2.
#[local] Existing Instance debug_build.
Context `{Allocator} {HM : Type} `{!HeaderMap HM} `{!EnvoyCodec HM}
  {B : Type} `{!BufferInstance B}.
Implicit Types (s : state HM B) (o : nat) (X : gmap nat phase).

Lemma wp_encodeHeaders o hm es X s :
  Inv X s → wp (encodeHeaders o hm es) any_fault (λ _ s', Inv X s' ∧ handles s' = handles s) s.
Proof.
  intros HI. apply wp_bind. eapply wp_assert_present; [done|]. intros Hl.
  destruct (getResponseStatus hm) as [st|]; [|done].
  wp_view u0 s0 V0. wp_view u s1 V01. assert (V1 := transitivity V0 V01).
  apply wp_bind.
  eapply wp_conseq; [apply wp_close_if; [exact (Inv_view _ _ _ V1 HI)|exact (live_view _ _ _ V1 Hl)]|].
  intros [] s2 [Hend Hh2]. rewrite (sv_handles _ _ V1) in Hh2.
  destruct (negb _ && _).
  - wp_view u' s3 V3. eapply ended_view in Hend; [|exact V3]. clear u u'.
    rewrite <- (sv_handles _ _ V3) in Hh2.
    destruct es.
    + destruct Hend as [HX HI']. eapply wp_conseq; [by apply wp_onError|].
      intros _ s' [? Hh]. split; [done|congruence].
    + destruct Hend as [_ HI']. by apply wp_ret.
  - wp_view u' s3 V3. wp_view br s4 V4. clear u u'.
    assert (V := transitivity V3 V4). eapply ended_view in Hend; [|exact V].
    rewrite <- (sv_handles _ _ V) in Hh2.
    eapply wp_conseq; [apply wp_deliver; [done|by destruct es]|].
    intros _ s' [? Hh]. split; [done|congruence].
Qed.

Lemma wp_encodeData o (b : B) es X s :
  Inv X s → wp (encodeData o b es) any_fault (λ _ s', Inv X s' ∧ handles s' = handles s) s.
Proof.
  intros HI. apply wp_bind. eapply wp_assert_present; [done|]. intros Hl.
  apply wp_bind. eapply wp_conseq; [by apply wp_close_if|].
  intros [] s2 [Hend Hh2]. apply wp_bind, wp_get_object. intros ds Hds.
  case_bool_decide.
  - apply wp_bind, wp_ASSERT; [|by intros]. intros [->|?]; [|done].
    wp_view md s3 V3. destruct md as [msg data]. wp_view u s4 V4. clear u.
    assert (V := transitivity V3 V4). apply (ended_view o true X _ _ V) in Hend.
    rewrite <- (sv_handles _ _ V) in Hh2. destruct Hend as [HX HI'].
    apply wp_bind. eapply wp_conseq; [by apply wp_onError|].
    intros _ s' [? Hh]. apply wp_ret. split; [done|congruence].
  - wp_view u s3 V3. wp_view md s4 V4. destruct md as [msg data]. clear u.
    assert (V := transitivity V3 V4). eapply ended_view in Hend; [|exact V].
    rewrite <- (sv_handles _ _ V) in Hh2.
    assert (Hd := wp_deliver o (OnData msg es) es X s4 Hend ltac:(by destruct es)).
    revert Hd. unfold wp, mbind, M_bind, mret, M_ret.
    destruct (bridge o (OnData msg es) s4) as [[[] s5]|]; [|done].
    destruct (when es (onComplete o) s5) as [[[] s6]|]; [|done].
    intros [? ?]. split; [done|congruence].
Qed.

Lemma wp_encodeTrailers o hm X s :
  Inv X s → wp (encodeTrailers o hm) any_fault (λ _ s', Inv X s' ∧ handles s' = handles s) s.
Proof.
  intros HI. apply wp_bind. eapply wp_assert_present; [done|]. intros Hl.
  apply wp_bind. eapply wp_conseq; [apply (wp_close_if o true); done|].
  intros [] s2 [Hend Hh2]. wp_view br s3 V3.
  apply (ended_view o true X _ _ V3) in Hend.
  rewrite <- (sv_handles _ _ V3) in Hh2.
  eapply wp_conseq; [by apply (wp_deliver o (OnTrailers br) true)|].
  intros _ s' [? Hh]. split; [done|congruence].
Qed.

(** An external computation is tame when it preserves the invariant. *)
Definition tame {A} (m : M (state HM B) A) : Prop :=
  ∀ X s, Inv X s → wp m any_fault (λ _ s', Inv X s' ∧ handles s' = handles s) s.

Lemma tame_bind {A A'} (m : M (state HM B) A) (k : A → M (state HM B) A') :
  tame m → (∀ a, tame (k a)) → tame (m ≫= k).
Proof.
  intros Hm Hk X s HI. apply wp_bind. eapply wp_conseq; [by apply Hm|].
  intros a s1 [HI1 H1]. eapply wp_conseq; [by apply Hk|].
  intros a' s2 [HI2 H2]. split; [done|congruence].
Qed.

Lemma tame_keeps {A} (m : M (state HM B) A) : keeps m → tame m.
Proof.
  intros Hm X s HI. eapply wp_conseq; [by apply wp_keeps|]. intros a s' [? V].
  split; [done|apply V].
Qed.

Lemma tame_for_each {A} (l : list A) (f : A → M (state HM B) unit) :
  Forall (λ a, tame (f a)) l → tame (for_each l f).
Proof.
  induction 1; [apply tame_keeps, preserves_ret, _|].
  apply tame_bind; [done|]. by intros [].
Qed.

Lemma wp_resetStream (run : StreamResetReason → M (state HM B) unit) o r :
  (∀ r, tame (run r)) → tame (resetStream run o r).
Proof.
  intros Hrun X s HI. apply wp_bind, wp_get_object. intros ds0 _.
  apply wp_bind. eapply wp_conseq; [by apply Hrun|]. intros [] s1 [HI1 Hh1].
  apply wp_bind, wp_get_object. intros ds Hds.
  apply wp_bind, wp_gets.
  destruct (streams_ s1 !! stream_handle_ ds) as [o'|] eqn:Hs; [|by apply wp_ret].
  apply wp_bind. eapply wp_conseq; [by apply wp_removeStream|].
  intros [] s2 (o2 & Ho2 & HI2 & Hh2). apply handles_object in Hds.
  destruct (inv_streams _ _ HI1 _ _ Ho2) as (Hh & HX & _).
  rewrite (inv_unique _ _ HI1 _ _ _ Hds Hh) in *.
  eapply wp_conseq; [by apply wp_onError|].
  intros _ s' [? ?]. split; [done|congruence].
Qed.

Lemma exec_hcm_tame (c : hcm_call HM B) : tame (exec_hcm c).
Proof.
  revert c. fix IH 1. intros [o hm es|o b es|o hm|o r during|o hm|o]; cbn [exec_hcm].
  - intros X s HI. by apply wp_encodeHeaders.
  - apply tame_bind; [intros X s HI; by apply wp_encodeData|].
    intros. apply tame_keeps, preserves_ret, _.
  - intros X s HI. by apply wp_encodeTrailers.
  - apply wp_resetStream. intros r'. apply tame_bind.
    + apply tame_keeps. by apply keeps_emit.
    + intros []. apply tame_for_each. induction during; constructor; [apply IH|done].
  - by intros X s HI.
  - by intros X s HI.
Qed.

Lemma hcm_reset_tame during o r : tame (hcm_reset during o r).
Proof.
  apply tame_bind; [by apply tame_keeps, keeps_emit|]. intros [].
  apply tame_for_each, Forall_true. apply exec_hcm_tame.
Qed.

Lemma hcm_newStream_tame d during o b : tame (hcm_newStream d during o b).
Proof.
  apply tame_bind; [by apply tame_keeps, keeps_emit|]. intros [].
  apply tame_bind; [apply tame_for_each, Forall_true, exec_hcm_tame|].
  intros []. apply tame_keeps, preserves_ret, _.
Qed.
End handlers2.

(** ** The posted functors, the API and the event loop *)

Section moves2.
Context `{Allocator} {HM : Type} `{!HeaderMap HM} `{!EnvoyCodec HM}
  {B : Type} `{!BufferInstance B}.
Implicit Types (s : state HM B) (o : nat) (X : gmap nat phase).

(** A new object starts in limbo. *)
Lemma Inv_alloc X s ds :
  Inv X s → stream_handle_ ds ∈ used_handles s →
  (∀ o, handles s !! o ≠ Some (stream_handle_ ds)) →
  let o := next_object s in
  Inv (<[o := Open]> X) (set_next_object (S o) (set_objects (<[o := ds]> (objects s)) s)).
Proof.
  intros [I1 I2 I3 I4 I5 I6 I7 I8] Hused Hnew o.
  destruct (I4 o) as (Hb & Hh & HX); [lia|].
  assert (Hhs : ∀ o', handles (set_next_object (S o) (set_objects (<[o := ds]> (objects s)) s)) !! o'
    = if decide (o = o') then Some (stream_handle_ ds) else handles s !! o').
  { intros o'. unfold handles. cbn. rewrite fmap_insert, lookup_insert. by case_decide. }
  split; try done.
  - intros h o' Hs. destruct (I1 h o' Hs) as (Hh' & ? & ?). rewrite Hhs.
    rewrite decide_False by congruence. rewrite lookup_insert_ne by congruence. done.
  - intros o' p HX'. rewrite Hhs. rewrite lookup_insert in HX'. case_decide.
    + injection HX' as <-. subst o'. split_and!; [|done|by eexists].
      change (spec_run (bridge_trace o (trace s)) = Some Open). by rewrite Hb.
    + by apply I2.
  - intros o' Hlt HX' Hs. cbn in Hlt. rewrite lookup_insert in HX'. case_decide; [done|].
    apply I3; [unfold o in *; lia|done|done].
  - intros o' Hlt. cbn in Hlt. rewrite Hhs, lookup_insert_ne, decide_False by lia.
    apply I4. unfold o in *. lia.
  - intros o1 o2 h. rewrite !Hhs. intros H1 H2.
    destruct (decide (o = o1)), (decide (o = o2)); [congruence| | |by eapply I5].
    + destruct (Hnew o2). congruence.
    + destruct (Hnew o1). congruence.
  - intros o' h. rewrite Hhs. case_decide; [|apply I6]. by intros [= <-].
Qed.

(** Entering the map takes an open object out of limbo. *)
Lemma Inv_emplace X s h o :
  Inv (<[o := Open]> X) s → X !! o = None → handles s !! o = Some h →
  streams_ s !! h = None →
  Inv X (set_streams (<[h := o]> (streams_ s)) s).
Proof.
  intros [I1 I2 I3 I4 I5 I6 I7 I8] HXo Hh Hnone. split; try done.
  - intros h' o' Hs. cbn in Hs. rewrite lookup_insert in Hs. case_decide.
    + injection Hs as <-. subst h'. destruct (I2 o Open) as (? & _ & _); [by simplify_map_eq|done].
    + destruct (I1 h' o' Hs) as (? & HX & ?). split_and!; [done| |done].
      rewrite lookup_insert in HX. by case_decide.
  - intros o' p HX. apply I2. rewrite lookup_insert_ne; [done|congruence].
  - intros o' Hlt HX Hs. cbn in Hs. assert (o ≠ o').
    { intros ->. apply (Hs h). by rewrite lookup_insert_eq. }
    apply I3; [done|by rewrite lookup_insert_ne|]. intros h' Hs'. apply (Hs h').
    rewrite lookup_insert_ne; [done|congruence].
  - intros o' Hlt. destruct (I4 o' Hlt) as (? & ? & HX). split_and!; [done..|].
    rewrite lookup_insert in HX. by case_decide.
Qed.

(** Running a functor moves its handle from the queue to the used ones. *)
Lemma Inv_pop X s n f :
  Inv X s → loop_queue s !! n = Some f →
  let s' := set_trace (trace s ++ [EvRan f]) (set_loop_queue (delete n (loop_queue s)) s) in
  Inv X s' ∧ ∀ h cb, f = PostStartStream h cb →
    h ∈ used_handles s' ∧ ∀ o, handles s' !! o ≠ Some h.
Proof.
  intros [I1 I2 I3 I4 I5 I6 I7 I8] Hf s'.
  assert (Hed : event_dispatcher_ s = true).
  { destruct (event_dispatcher_ s) eqn:E; [done|]. by rewrite (I8 eq_refl) in Hf. }
  assert (Hbt : ∀ o, bridge_trace o (trace s') = bridge_trace o (trace s)).
  { intros o. unfold bridge_trace. cbn. rewrite omap_app. cbn. by rewrite app_nil_r. }
  assert (Hph : ∀ o, phase_of o s' = phase_of o s) by (intros o; unfold phase_of; by rewrite Hbt).
  assert (Hus : used_handles s' = used_handles s ++ start_handles [f]).
  { unfold used_handles, ran, start_handles. cbn. by rewrite !omap_app. }
  assert (Hperm : used_handles s' ++ start_handles (pending s') ≡ₚ
                  used_handles s ++ start_handles (pending s)).
  { rewrite Hus, <- app_assoc. f_equiv. unfold start_handles. rewrite <- omap_app.
    apply omap_Permutation. unfold pending. cbn. rewrite Hed. symmetry.
    by apply delete_Permutation. }
  split.
  - split; try done.
    + intros h o. rewrite Hph. apply I1.
    + intros o p. rewrite Hph. apply I2.
    + intros o. rewrite Hph. apply I3.
    + intros o. rewrite Hbt. apply I4.
    + intros o h Hh. rewrite Hus. apply elem_of_app. left. by eapply I6.
    + by rewrite Hperm.
    + cbn. by rewrite Hed.
  - intros h cb ->. split; [rewrite Hus; apply elem_of_app; right; left|].
    intros o Hh. apply I6 in Hh. rewrite <- Hperm, Hus in I7.
    cbn in I7. rewrite <- app_assoc in I7. apply NoDup_app in I7 as (_ & Hd & _).
    by destruct (Hd h Hh); left.
Qed.

Lemma Inv_post X s f :
  Inv X s → fresh_start f s →
  wp (post f) any_fault (λ _ s', Inv X s') s.
Proof.
  intros [I1 I2 I3 I4 I5 I6 I7 I8] Hfresh.
  assert (HN : ∀ s' : state HM B, used_handles s' = used_handles s → pending s' = pending s ++ [f] →
    NoDup (used_handles s' ++ start_handles (pending s'))).
  { intros s' -> ->. unfold start_handles at 1. rewrite omap_app. fold (start_handles (pending s)).
    rewrite app_assoc. destruct f; cbn in *; try by rewrite app_nil_r.
    apply NoDup_app. split_and!; [done| |apply NoDup_singleton].
    intros x Hx ->%list_elem_of_singleton. by apply Hfresh. }
  unfold post. apply wp_bind, wp_gets. destruct (event_dispatcher_ s) eqn:Hed; apply wp_modify.
  - split; try done.
    + apply HN; [done|]. unfold pending. cbn. by rewrite Hed.
    + cbn. by rewrite Hed.
  - split; try done; [|by intros; apply I8].
    apply HN; [done|]. unfold pending. cbn. by rewrite Hed.
Qed.
End moves2.

Section functors.
#[local] Existing Instance debug_build.
Context `{Allocator} {HM : Type} `{!HeaderMap HM} `{!EnvoyCodec HM}
  {B : Type} `{!BufferInstance B}.
Implicit Types (s : state HM B) (o : nat) (X : gmap nat phase).

Lemma wp_startStream_cb (new : nat → bool → M (state HM B) positive) h cb X s :
  (∀ o b, tame (new o b)) → Inv X s → h ∈ used_handles s → (∀ o, handles s !! o ≠ Some h) →
  wp (startStream_cb new h cb) any_fault (λ _ s', Inv X s') s.
Proof.
  intros Hnew HI Hused Hfresh. unfold startStream_cb, new_object.
  set (ds := Stream h None (new_callbacks cb) "").
  destruct (inv_fresh _ _ HI (next_object s)) as (_ & _ & HX); [lia|].
  pose proof (Inv_alloc X s ds HI Hused Hfresh) as HI1. cbn in HI1.
  apply wp_bind, wp_bind, wp_gets, wp_bind, wp_modify, wp_bind, wp_modify, wp_ret.
  set (s1 := set_next_object _ _). set (o := next_object s) in *.
  assert (Ho1 : handles s1 !! o = Some h).
  { unfold handles. cbn. by rewrite fmap_insert, lookup_insert_eq. }
  wp_view api s2 V2. wp_view u s3 V3. apply wp_bind.
  assert (V := transitivity V2 V3).
  eapply wp_conseq; [by eapply Hnew, Inv_view|]. intros d s4 [HI4 Hh4].
  wp_view u' s5 V5. apply wp_bind, wp_gets.
  assert (HI5 := Inv_view _ _ _ V5 HI4).
  assert (Ho5 : handles s5 !! o = Some h).
  { by rewrite (sv_handles _ _ V5), Hh4, (sv_handles _ _ V). }
  destruct (streams_ s5 !! h) as [o'|] eqn:Hs; apply wp_modify.
  - destruct (inv_streams _ _ HI5 h o' Hs) as (Ho' & _).
    rewrite (inv_unique _ _ HI5 _ _ _ Ho' Ho5) in Hs.
    destruct (limbo_not_live _ _ o Open h HI5); [by simplify_map_eq|done].
  - by apply Inv_emplace.
Qed.

Lemma wp_cancelStream_cb (run : nat → StreamResetReason → M (state HM B) unit) h X s :
  (∀ o r, tame (run o r)) → Inv X s →
  wp (cancelStream_cb run h) any_fault (λ _ s', Inv X s') s.
Proof.
  intros Hrun HI. apply wp_bind, wp_gets.
  destruct (streams_ s !! h) as [o|] eqn:Hs; [|by apply wp_ret].
  destruct (inv_streams _ _ HI h o Hs) as (Ho & HX & _).
  apply wp_bind, wp_get_object. intros ds Hds%handles_object.
  rewrite Ho in Hds. injection Hds as <-.
  apply wp_bind. eapply wp_conseq; [by apply wp_removeStream|].
  intros [] s1 (o1 & Ho1 & HI1 & Hh1). assert (o1 = o) as -> by congruence.
  wp_skip u s2 HI2 V2. apply wp_bind. eapply wp_conseq; [by apply wp_onCancel|].
  intros [] s3 [HI3 _]. wp_skip u' s4 HI4 V4.
  eapply wp_conseq; [by apply Hrun|]. by intros _ s5 [? _].
Qed.

Lemma keeps_setDestinationCluster (hm : HM) :
  keeps (setDestinationCluster hm : M (state HM B) HM).
Proof.
  unfold setDestinationCluster. preserve.
Qed.

#[local] Hint Resolve keeps_setDestinationCluster : preservesdb.

Lemma keeps_sendHeaders_cb h hs b : keeps (sendHeaders_cb h hs b : M (state HM B) unit).
Proof.
  unfold sendHeaders_cb. preserve.
Qed.
Lemma keeps_sendData_cb h d b : keeps (sendData_cb h d b : M (state HM B) unit).
Proof. unfold sendData_cb. preserve. Qed.
Lemma keeps_sendTrailers_cb h hs : keeps (sendTrailers_cb h hs : M (state HM B) unit).
Proof. unfold sendTrailers_cb. preserve. Qed.

Lemma wp_run_posted n d during X s :
  Inv X s → wp (run_posted n d during) any_fault (λ _ s', Inv X s') s.
Proof.
  intros HI. apply wp_bind, wp_gets.
  destruct (loop_queue s !! n) as [f|] eqn:Hf; [|by apply wp_ret].
  apply wp_bind, wp_modify, wp_bind, wp_modify.
  destruct (Inv_pop X s n f HI Hf) as [HI' Hst].
  set (s1 := set_trace _ _) in *.
  assert (Hk : ∀ m : M (state HM B) unit, keeps m →
    wp m any_fault (λ _ s', Inv X s') s1).
  { intros m Hm. eapply wp_conseq; [apply (wp_keeps X); [exact Hm|exact HI'|done]|]. by intros ? ? []. }
  destruct f as [h cb|h hs b|h dt b|h hs|h]; cbn [run_functor].
  - destruct (Hst h cb eq_refl). apply wp_startStream_cb; try done.
    intros. apply hcm_newStream_tame.
  - apply Hk, keeps_sendHeaders_cb.
  - apply Hk, keeps_sendData_cb.
  - apply Hk, keeps_sendTrailers_cb.
  - apply wp_cancelStream_cb; [|done]. intros. apply hcm_reset_tame.
Qed.

(** Deferred deletion destroys only objects that the map no longer holds. *)
Lemma clear_lookup (live : list nat) d (objs : gmap nat DirectStream) o :
  foldr (λ o objs, if decide (o ∈ live) then objs else delete o objs) objs d !! o =
  if decide (o ∈ d ∧ o ∉ live) then None else objs !! o.
Proof.
  induction d as [|o' d IH]; cbn [foldr].
  - rewrite decide_False; [done|]. intros [?%not_elem_of_nil _]. done.
  - destruct (decide (o' ∈ live)) as [Ho'|Ho']; [rewrite IH|rewrite lookup_delete, IH];
      repeat case_decide; try done; set_solver.
Qed.

Lemma Inv_clear_deferred s :
  Inv ∅ s → wp clear_deferred any_fault (λ _ s', Inv ∅ s') s.
Proof.
  intros [I1 I2 I3 I4 I5 I6 I7 I8]. apply wp_modify.
  set (s' := set_deferred _ _).
  assert (Hsub : ∀ o h, handles s' !! o = Some h → handles s !! o = Some h).
  { intros o h. unfold handles. cbn. rewrite !lookup_fmap, clear_lookup. by case_decide. }
  split; try done.
  - intros h o Hs. destruct (I1 h o Hs) as (Hh & ? & ?). split_and!; try done.
    unfold handles in *. cbn. rewrite lookup_fmap, clear_lookup, decide_False, <- lookup_fmap; [done|].
    intros [_ []]. apply list_elem_of_fmap. exists (h, o). split; [done|]. by apply elem_of_map_to_list.
  - intros o Hlt. destruct (I4 o Hlt) as (? & Hn & ?). split_and!; [done| |done].
    destruct (handles s' !! o) as [h|] eqn:E; [|done]. apply Hsub in E. congruence.
  - intros o1 o2 h H1%Hsub H2%Hsub. by eapply I5.
  - intros o h Hh%Hsub. by eapply I6.
Qed.

Lemma Inv_ready X s scope :
  Inv X s → event_dispatcher_ s = false → wp (ready scope) any_fault (λ _ s', Inv X s') s.
Proof.
  intros [I1 I2 I3 I4 I5 I6 I7 I8] Hed. unfold ready. apply wp_bind, wp_gets.
  apply wp_bind. eapply (wp_for_each (λ l s', ∃ lq, lq ++ l = init_queue_ s ∧ s' = set_loop_queue lq s)).
  - exists []. split; [done|]. specialize (I8 Hed). destruct s; cbn in *. by rewrite I8.
  - intros a l s1 (lq & Hl & ->). apply wp_modify. exists (lq ++ [a]).
    rewrite <- app_assoc. by split.
  - intros s1 (lq & Hl & ->). rewrite app_nil_r in Hl. subst lq.
    apply wp_bind, wp_modify, wp_bind, wp_modify, wp_modify.
    split; try done. unfold pending in *. cbn. by rewrite Hed in I7.
Qed.
End functors.

(** ** Reachable states *)

Section reach.
#[local] Existing Instance debug_build.
Context `{Allocator} {HM : Type} `{!HeaderMap HM} `{!EnvoyCodec HM}
  {B : Type} `{!BufferInstance B}.
Implicit Types (s : state HM B) (o : nat).

Lemma Inv_init m : Inv ∅ (init_state m : state HM B).
Proof.
  split; try done.
  - intros o ? ? ?. cbn in *. lia.
  - constructor.
Qed.

Lemma same_view_on_loop_thread b s : same_view s (set_on_loop_thread b s).
Proof. by split. Qed.

Lemma Inv_on_loop_thread b X s : Inv X s → Inv X (set_on_loop_thread b s).
Proof. apply Inv_view, same_view_on_loop_thread. Qed.

Lemma step_Inv scope s l s' : step scope s l s' → Inv ∅ s → Inv ∅ s'.
Proof.
  intros Hst HI.
  assert (Hfin : ∀ m : M (state HM B) unit, (∀ b, wp m any_fault (λ _ s', Inv ∅ s') (set_on_loop_thread b s)) →
    ∀ b, (modify (set_on_loop_thread b) ;; m) s = Ok (tt, s') → Inv ∅ s').
  { intros m Hm b Hr. apply bind_Ok in Hr as (? & s1 & [= <- <-] & Hr).
    exact (wp_Ok _ _ _ _ _ _ (Hm b) Hr). }
  assert (HIb := λ b, Inv_on_loop_thread b ∅ s HI).
  destruct Hst as [f s s' Hf Hr|s s' Hed Hr|n d dur s s' Hr|c s s' Hr|s s' Hr|n s s' Hr]; cbn in Hr.
  - eapply Hfin; [|exact Hr]. intros b. apply wp_bind.
    eapply (wp_conseq _ _ (λ _ s', Inv ∅ s')).
    + assert (Hp : wp (post f) any_fault (λ _ s', Inv ∅ s') (set_on_loop_thread b s)).
      { apply Inv_post; [done|]. by destruct f. }
      destruct f; cbn; apply wp_bind; (eapply wp_conseq; [exact Hp|]); intros; by apply wp_ret.
    + intros. by apply wp_ret.
  - eapply Hfin; [|exact Hr]. intros b. by apply Inv_ready.
  - eapply Hfin; [|exact Hr]. intros b. by apply wp_run_posted.
  - eapply Hfin; [|exact Hr]. intros b. eapply wp_conseq; [by apply exec_hcm_tame|]. by intros _ ? [? _].
  - eapply Hfin; [|exact Hr]. intros b. by apply Inv_clear_deferred.
  - injection Hr as <-. eapply Inv_view; [|exact HI]. by split.
Qed.

Lemma steps_Inv scope s ls s' : steps scope s ls s' → Inv ∅ s → Inv ∅ s'.
Proof. induction 1; [done|]. intros HI. eapply step_Inv; eauto. Qed.

Lemma reachable_Inv scope ls s : reachable scope ls s → Inv ∅ s.
Proof. intros [m Hs]. eapply steps_Inv; [done|apply Inv_init]. Qed.

(** Where a stream is decides whether its callbacks are over. *)
Lemma reachable_phase scope ls s o :
  reachable scope ls s → o < next_object s →
  phase_of o s = Some (if bool_decide (o ∈ (map_to_list (streams_ s)).*2) then Open else Closed).
Proof.
  intros HI%reachable_Inv Ho. case_bool_decide as Hin.
  - apply list_elem_of_fmap in Hin as ([h o'] & -> & Hin). apply elem_of_map_to_list in Hin.
    by apply (inv_streams _ _ HI h).
  - apply (inv_closed _ _ HI); [done..|]. intros h Hs. apply Hin.
    apply list_elem_of_fmap. exists (h, o). split; [done|]. by apply elem_of_map_to_list.
Qed.
End reach.
