(* ===== verification/DispatcherOrder.v ===== *)
(** * Builds, queues and counters of the dispatcher

    Three facts that hold of every handler and need no invariant: a run of a build
    with ASSERTs is also a run of a release build; no handler touches the queues of
    posted functors; and the counters move with the terminal callbacks. *)

From S2P Require Export DispatcherInv.
(** ** Release builds *)

Section release.
Context `{Allocator} {HM : Type} `{!HeaderMap HM} `{!EnvoyCodec HM}
  {B : Type} `{!BufferInstance B}.
Implicit Types (s : state HM B) (o : nat).

(** Every debug run is also a release run. *)
Definition agrees {A} (m : BuildMode → M (state HM B) A) : Prop :=
  m debug_build ⊑ₘ m release_build.

Lemma agrees_bind {A A'} (m : BuildMode → M (state HM B) A)
    (k : BuildMode → A → M (state HM B) A') :
  agrees m → (∀ a, agrees (λ mode, k mode a)) → agrees (λ mode, m mode ≫= k mode).
Proof. intros Hm Hk. by apply refines_bind. Qed.
Lemma agrees_const {A} (m : M (state HM B) A) : agrees (λ _, m).
Proof. by intros s r. Qed.
Lemma agrees_when b (m : BuildMode → M (state HM B) unit) :
  agrees m → agrees (λ mode, when b (m mode)).
Proof. apply refines_when. Qed.
Lemma agrees_ASSERT b what : agrees (λ mode, ASSERT b what).
Proof. apply refines_ASSERT. Qed.
Lemma agrees_for_each {A} (l : list A) (f : BuildMode → A → M (state HM B) unit) :
  (∀ a, agrees (λ mode, f mode a)) → agrees (λ mode, for_each l (f mode)).
Proof. intros Hf. by apply refines_for_each. Qed.

Create HintDb agreesdb.
#[local] Hint Resolve agrees_when agrees_ASSERT agrees_for_each : agreesdb.
#[local] Hint Extern 0 (agrees (λ _, ?m)) => apply agrees_const : agreesdb.
#[local] Hint Extern 1 (agrees (λ _, _ ≫= _)) => apply agrees_bind : agreesdb.
#[local] Hint Extern 2 (agrees (λ _, match ?x with _ => _ end)) => destruct x : agreesdb.
#[local] Hint Extern 2 (∀ _, agrees _) => intro : agreesdb.

Lemma inc_stat_agrees f : agrees (λ mode, inc_stat f).
Proof. unfold inc_stat. eauto 20 with agreesdb. Qed.
#[local] Hint Resolve inc_stat_agrees : agreesdb.
Lemma removeStream_agrees h : agrees (λ mode, removeStream h).
Proof. unfold removeStream. eauto 20 with agreesdb. Qed.
#[local] Hint Resolve removeStream_agrees : agreesdb.
Lemma closeStream_agrees o : agrees (λ mode, closeStream o).
Proof. unfold closeStream. eauto 20 with agreesdb. Qed.
#[local] Hint Resolve closeStream_agrees : agreesdb.
Lemma onComplete_agrees o : agrees (λ mode, onComplete o).
Proof. unfold onComplete. eauto 20 with agreesdb. Qed.
Lemma onError_agrees o : agrees (λ mode, onError o).
Proof. unfold onError. eauto 20 with agreesdb. Qed.
Lemma onCancel_agrees o : agrees (λ mode, onCancel o).
Proof. unfold onCancel. eauto 20 with agreesdb. Qed.
#[local] Hint Resolve onComplete_agrees onError_agrees onCancel_agrees : agreesdb.
Lemma assert_present_agrees o : agrees (λ mode, assert_present o).
Proof. unfold assert_present. eauto 20 with agreesdb. Qed.
#[local] Hint Resolve assert_present_agrees : agreesdb.
Lemma setDestinationCluster_agrees (hm : HM) : agrees (λ mode, setDestinationCluster hm).
Proof. unfold setDestinationCluster. eauto 20 with agreesdb. Qed.
#[local] Hint Resolve setDestinationCluster_agrees : agreesdb.

Lemma encodeHeaders_agrees o hm es : agrees (λ mode, encodeHeaders o hm es).
Proof. unfold encodeHeaders. eauto 20 with agreesdb. Qed.
Lemma encodeData_agrees o b es : agrees (λ mode, encodeData o b es).
Proof. unfold encodeData. eauto 20 with agreesdb. Qed.
Lemma encodeTrailers_agrees o hm : agrees (λ mode, encodeTrailers o hm).
Proof. unfold encodeTrailers. eauto 20 with agreesdb. Qed.
Lemma resetStream_agrees (run : BuildMode → StreamResetReason → M (state HM B) unit) o r :
  (∀ r, agrees (λ mode, run mode r)) → agrees (λ mode, resetStream (run mode) o r).
Proof. intros Hrun. unfold resetStream. eauto 20 with agreesdb. Qed.
#[local] Hint Resolve encodeHeaders_agrees encodeData_agrees encodeTrailers_agrees : agreesdb.

Lemma exec_hcm_agrees (c : hcm_call HM B) : agrees (λ mode, exec_hcm c).
Proof.
  revert c. fix IH 1. intros [o hm es|o b es|o hm|o r during|o hm|o]; cbn [exec_hcm];
    eauto 20 with agreesdb.
  apply (resetStream_agrees (λ mode r, emit (EvResetCallbacks o r) ;; for_each during exec_hcm)).
  intros r'. apply agrees_bind; [apply agrees_const|]. intros [].
  induction during as [|c during IHd]; [apply agrees_const|].
  cbn. apply agrees_bind; [apply IH|]. by intros [].
Qed.
#[local] Hint Resolve exec_hcm_agrees : agreesdb.

Lemma run_posted_agrees n d during : agrees (λ mode, run_posted n d during).
Proof.
  assert (Hd : agrees (λ mode, for_each during exec_hcm)).
  { apply (agrees_for_each during (λ mode, exec_hcm)). eauto with agreesdb. }
  unfold run_posted. apply agrees_bind; [apply agrees_const|]. intros q.
  destruct (q !! n) as [f|]; [|apply agrees_const].
  apply agrees_bind; [apply agrees_const|]. intros _.
  apply agrees_bind; [apply agrees_const|]. intros _.
  destruct f; cbn [run_functor]; unfold startStream_cb, sendHeaders_cb, sendData_cb,
    sendTrailers_cb, cancelStream_cb, hcm_newStream, hcm_reset; eauto 30 with agreesdb.
Qed.
#[local] Hint Resolve run_posted_agrees : agreesdb.

Lemma exec_label_agrees l : agrees (λ mode, exec_label l).
Proof. destruct l; cbn [exec_label]; eauto 20 with agreesdb. Qed.
End release.

(** The handlers' small helpers, for [autounfold]. *)
Create HintDb dispatcherdb.
#[export] Hint Unfold bridge syncPoint get_object getStream update_object update_callbacks
  inc_stat closeStream mapLocalResponseToError setDestinationCluster assert_present
  encode100ContinueHeaders encodeMetadata new_object startStream_cb sendHeaders_cb
  sendData_cb sendTrailers_cb cancelStream_cb hcm_newStream hcm_reset : dispatcherdb.

(** ** The queues *)

Section queue.
Context {mode : BuildMode} `{Allocator} {HM : Type} `{!HeaderMap HM} `{!EnvoyCodec HM}
  {B : Type} `{!BufferInstance B}.
Implicit Types (s : state HM B) (o : nat).

(** The queues, the readiness and the functors that ran are the same. *)
Definition same_queue s s' : Prop :=
  ran (trace s') = ran (trace s) ∧ event_dispatcher_ s' = event_dispatcher_ s ∧
  init_queue_ s' = init_queue_ s ∧ loop_queue s' = loop_queue s.

#[export] Instance same_queue_preorder : PreOrder same_queue.
Proof.
  split; [by intros s|]. intros s1 s2 s3 (A1 & B1 & C1 & D1) (A2 & B2 & C2 & D2).
  unfold same_queue. split_and!; congruence.
Qed.

Lemma same_queue_emit ev :
  match ev with EvRan _ => False | _ => True end → preserves same_queue (emit ev).
Proof.
  intros Hev. apply preserves_modify. intros s. split_and!; try done.
  unfold ran. cbn. rewrite omap_app. destruct ev; try done; cbn; by rewrite app_nil_r.
Qed.

Lemma same_queue_zoom {A} (m : M mem A) : preserves same_queue (zoom m).
Proof. apply preserves_zoom. by intros s t. Qed.

#[local] Hint Resolve same_queue_zoom : preservesdb.
#[local] Hint Extern 1 (preserves same_queue (emit _)) => apply same_queue_emit; exact I : preservesdb.
#[local] Hint Extern 1 (preserves same_queue (modify _)) =>
  apply preserves_modify; by intros : preservesdb.
Lemma onComplete_queue o : preserves same_queue (onComplete o).
Proof. unfold onComplete. autounfold with dispatcherdb. preserve. Qed.
Lemma onError_queue o : preserves same_queue (onError o).
Proof. unfold onError. autounfold with dispatcherdb. preserve. Qed.
Lemma onCancel_queue o : preserves same_queue (onCancel o).
Proof. unfold onCancel. autounfold with dispatcherdb. preserve. Qed.
Lemma removeStream_queue h : preserves same_queue (removeStream h).
Proof. unfold removeStream. autounfold with dispatcherdb. preserve. Qed.
#[local] Hint Resolve onComplete_queue onError_queue onCancel_queue removeStream_queue : preservesdb.

Lemma resetStream_queue (run : StreamResetReason → M (state HM B) unit) o r :
  (∀ r, preserves same_queue (run r)) → preserves same_queue (resetStream run o r).
Proof. intros Hrun. unfold resetStream. autounfold with dispatcherdb. preserve. Qed.

Lemma exec_hcm_queue (c : hcm_call HM B) : preserves same_queue (exec_hcm c).
Proof.
  revert c. fix IH 1. intros [o hm es|o b es|o hm|o r during|o hm|o]; cbn [exec_hcm].
  - unfold encodeHeaders. autounfold with dispatcherdb. preserve.
  - unfold encodeData. autounfold with dispatcherdb. preserve.
  - unfold encodeTrailers. autounfold with dispatcherdb. preserve.
  - apply resetStream_queue. intros r'. apply preserves_bind; [exact _|preserve|].
    intros []. apply preserves_for_each; [exact _|].
    induction during; constructor; [apply IH|done].
  - autounfold with dispatcherdb. preserve.
  - autounfold with dispatcherdb. preserve.
Qed.

Lemma during_queue (l : list (hcm_call HM B)) : preserves same_queue (for_each l exec_hcm).
Proof. apply preserves_for_each; [exact _|]. apply Forall_true, exec_hcm_queue. Qed.
#[local] Hint Resolve during_queue : preservesdb.

Lemma run_functor_queue d during f :
  preserves same_queue (run_functor (hcm_newStream d during) (hcm_reset during) f).
Proof.
  destruct f; cbn [run_functor]; autounfold with dispatcherdb; preserve.
Qed.
End queue.

(** The counters the environment sees, as the trace accounts for them: every cancel,
    error and completion counts once, and a completion is a success when the last
    status its stream got was one of the 2xx, else a failure. *)
Section tally.
Context {mode : BuildMode} `{Allocator} {HM : Type} `{!HeaderMap HM} `{!EnvoyCodec HM}
  {B : Type} `{!BufferInstance B}.
Implicit Types (s : state HM B) (o : nat).

(** The counters, and whether the last status of each stream was a 2xx. *)
Record account := Account {
  ac_stats : DispatcherStats;
  ac_2xx : gmap nat bool
}.

Definition succeeding (a : account) (o : nat) : bool := default false (ac_2xx a !! o).

Definition account_event (a : account) (ev : event HM B) : account :=
  let '(Stats success failure cancel) := ac_stats a in
  match ev with
  | EvResponseStatus o status => Account (ac_stats a) (<[o := is2xx (HM := HM) status]> (ac_2xx a))
  | EvBridge o OnComplete =>
      Account (if succeeding a o then Stats (success + 1) failure cancel
               else Stats success (failure + 1) cancel) (ac_2xx a)
  | EvBridge _ (OnError _) => Account (Stats success (failure + 1) cancel) (ac_2xx a)
  | EvBridge _ OnCancel => Account (Stats success failure (cancel + 1)) (ac_2xx a)
  | _ => a
  end%N.

(** From the counters [scope] of the stats scope. *)
Definition accounts (scope : DispatcherStats) (tr : list (event HM B)) : account :=
  foldl account_event (Account scope ∅) tr.

#[local] Arguments accounts _ _ : simpl never.

Lemma accounts_snoc scope tr ev :
  accounts scope (tr ++ [ev]) = account_event (accounts scope tr) ev.
Proof. unfold accounts. by rewrite foldl_app. Qed.

(** The books: the counters are those of the trace once they exist, and none moves
    before; each live stream object knows whether it is succeeding. *)
Record books (scope : DispatcherStats) s : Prop := {
  bk_stats : ac_stats (accounts scope (trace s)) = default scope (stats_ s);
  bk_live o ds : objects s !! o = Some ds →
    o < next_object s ∧ success_ (callbacks_ ds) = succeeding (accounts scope (trace s)) o;
  bk_fresh o : next_object s ≤ o → ac_2xx (accounts scope (trace s)) !! o = None
}.

Section scope.
Context (scope : DispatcherStats).

(** Handlers keep the books, and do not make the counters. *)
Definition tallied s s' : Prop :=
  (books scope s → books scope s') ∧ (stats_ s = None ↔ stats_ s' = None).

#[export] Instance tallied_preorder : PreOrder tallied.
Proof. split; [by intros s|]. unfold tallied. intros s1 s2 s3. naive_solver. Qed.

(** Objects may change or go, as long as their success flags stay. *)
Lemma tallied_modify (f : state HM B → state HM B) :
  (∀ s, trace (f s) = trace s ∧ stats_ (f s) = stats_ s ∧ next_object (f s) = next_object s) →
  (∀ s o ds', objects (f s) !! o = Some ds' → ∃ ds, objects s !! o = Some ds ∧
    success_ (callbacks_ ds') = success_ (callbacks_ ds)) →
  preserves tallied (modify f).
Proof.
  intros Hf Ho. apply preserves_modify. intros s. destruct (Hf s) as (Ht & Hs & Hn).
  unfold tallied. rewrite Hs. split; [|done]. intros [Hst Hl Hfr].
  split; rewrite Ht; [by rewrite Hs| |by rewrite Hn].
  intros o ds' (ds & Hds & ->)%Ho. rewrite Hn. by apply Hl.
Qed.

Lemma tallied_alter o f :
  (∀ cb, success_ (f cb) = success_ cb) →
  preserves tallied (modify (λ s, set_objects (alter (on_callbacks f) o (objects s)) s)).
Proof.
  intros Hf. apply tallied_modify; [done|]. intros s o' ds'. cbn. rewrite lookup_alter_Some.
  intros [(<- & ds & -> & ->)|[_ ?]]; [|by exists ds']. exists ds. split; [done|apply Hf].
Qed.

(** An event that moves no counter and says nothing of a status. *)
Lemma tallied_emit ev :
  match ev with
  | EvBridge _ e => terminal e = false | EvResponseStatus _ _ => False | _ => True
  end → preserves tallied (emit ev).
Proof.
  intros Hev. apply preserves_modify. intros s. split; [|done]. intros HB.
  assert (accounts scope (trace s ++ [ev]) = accounts scope (trace s)) as Ha.
  { rewrite accounts_snoc. unfold account_event. destruct (accounts scope (trace s)) as [[] ?].
    by destruct ev as [? []| | | | | | | |]. }
  destruct HB as [Hst Hl Hfr]. split; cbn; by rewrite Ha.
Qed.

Lemma tallied_zoom {A} (m : M mem A) : preserves tallied (zoom m).
Proof. apply preserves_zoom. intros s t. split; [|done]. by intros []; split. Qed.

(** A counter and the terminal callback of a stream. *)
Lemma books_terminal f o e s st :
  stats_ s = Some st → f st = ac_stats (account_event (Account st (ac_2xx (accounts scope (trace s)))) (EvBridge o e)) →
  books scope s → books scope (set_trace (trace s ++ [EvBridge o e]) (set_stats (Some (f st)) s)).
Proof.
  intros Hs Hf [Hst Hl Hfr]. rewrite Hs in Hst. cbn in Hst.
  assert (ac_2xx (accounts scope (trace s ++ [EvBridge o e])) = ac_2xx (accounts scope (trace s))) as H2.
  { rewrite accounts_snoc. unfold account_event. destruct (accounts scope (trace s)) as [[] ?].
    by destruct e. }
  split; cbn; unfold succeeding; rewrite ?H2; [|exact Hl|exact Hfr].
  rewrite Hf, accounts_snoc, <- Hst. by destruct (accounts scope (trace s)).
Qed.

Lemma terminal_tallied f o e s a s' :
  (inc_stat f ;; bridge o e) s = Ok (a, s') →
  (∀ st, books scope s → stats_ s = Some st →
    f st = ac_stats (account_event (Account st (ac_2xx (accounts scope (trace s)))) (EvBridge o e))) →
  tallied s s'.
Proof.
  unfold inc_stat. rewrite !bind_Ok.
  intros ([] & s1 & H1 & [= <- <-]) Hf. rewrite !bind_Ok in H1.
  destruct H1 as (st & s2 & [= <- <-] & H1). rewrite !bind_Ok in H1.
  destruct H1 as ([] & s3 & HA & H1).
  assert (s3 = s) as ->.
  { revert HA. unfold ASSERT. destruct ASSERT_enabled; [case_bool_decide|]; by intros [= <-]. }
  destruct (stats_ s) as [st|] eqn:Hst; [|done]. injection H1 as <-.
  split; [|by rewrite Hst]. intros HB. exact (books_terminal f o e s st Hst (Hf st HB eq_refl) HB).
Qed.

Lemma get_object_inv o s ds s' : get_object o s = Ok (ds, s') → s' = s ∧ objects s !! o = Some ds.
Proof.
  unfold get_object. rewrite bind_Ok. intros (objs & s1 & [= <- <-] & Hd).
  destruct (objects s !! o); [|done]. by injection Hd as <- <-.
Qed.

(** A response's status is noted in the trace and in the object. *)
Lemma status_tallied o status (k : M (state HM B) unit) :
  preserves tallied k →
  preserves tallied (assert_present o ;; emit (EvResponseStatus o status) ;;
    update_callbacks o (set_success (is2xx (HM := HM) status)) ;; k).
Proof.
  intros Hk s a s'. rewrite bind_Ok. intros ([] & s1 & Ha & Hr).
  assert (s1 = s ∧ is_Some (objects s !! o)) as [-> [ds Ho]].
  { unfold assert_present in Ha. rewrite bind_Ok in Ha. destruct Ha as (ds & s2 & Hg & Ha).
    apply get_object_inv in Hg as [-> Ho]. split; [|by eexists].
    unfold getStream in Ha. rewrite bind_Ok in Ha. destruct Ha as (p & s3 & [= <- <-] & Ha).
    revert Ha. unfold ASSERT. destruct ASSERT_enabled; [case_bool_decide|]; by intros [= <-]. }
  rewrite bind_Ok in Hr. destruct Hr as ([] & s1 & [= <-] & Hr).
  rewrite bind_Ok in Hr. destruct Hr as ([] & s2 & [= <-] & Hr).
  apply Hk in Hr. etrans; [|exact Hr]. split; [|done]. intros [Hst Hl Hfr].
  destruct (Hl _ _ Ho) as [Hlt _].
  assert (accounts scope (trace s ++ [EvResponseStatus o status]) =
    Account (ac_stats (accounts scope (trace s)))
      (<[o := is2xx (HM := HM) status]> (ac_2xx (accounts scope (trace s))))) as Hacc.
  { rewrite accounts_snoc. unfold account_event. by destruct (accounts scope (trace s)) as [[] ?]. }
  split; cbn; unfold succeeding; rewrite Hacc; cbn; [done| |].
  - intros o' ds'. rewrite lookup_alter_Some. intros [(<- & d & Hd & ->)|[Hne Hd]].
    + by rewrite lookup_insert_eq.
    + rewrite lookup_insert_ne by done. by apply Hl.
  - intros o' Ho'. rewrite lookup_insert_ne by lia. by apply Hfr.
Qed.

(** A new stream object has seen no status. *)
Lemma new_object_tallied ds :
  success_ (callbacks_ ds) = false → preserves tallied (new_object ds : M (state HM B) nat).
Proof.
  intros Hds s o s'. unfold new_object. rewrite bind_Ok. intros (o1 & s1 & [= <- <-] & Hr).
  rewrite bind_Ok in Hr. destruct Hr as ([] & s1 & [= <-] & Hr).
  rewrite bind_Ok in Hr. destruct Hr as ([] & s2 & [= <-] & [= <- <-]).
  split; [|done]. intros [Hst Hl Hfr]. split; cbn; [done| |].
  - intros o ds'. rewrite lookup_insert_Some. intros [[<- <-]|[_ Hd]].
    + split; [lia|]. unfold succeeding. by rewrite Hfr.
    + destruct (Hl _ _ Hd). split; [lia|done].
  - intros o Ho. apply Hfr. lia.
Qed.

Lemma tallied_post cb : preserves tallied (post cb : M (state HM B) unit).
Proof.
  unfold post. apply preserves_bind; [exact _|apply preserves_gets; exact _|].
  intros []; apply tallied_modify; (done || by intros s o ds; exists ds).
Qed.

#[local] Hint Resolve tallied_zoom tallied_post new_object_tallied : preservesdb.
#[local] Hint Extern 1 (preserves tallied (emit _)) =>
  apply tallied_emit; reflexivity || exact I : preservesdb.
#[local] Hint Extern 2 (preserves tallied (modify _)) =>
  apply tallied_modify; [done|by intros ? ? ?; eexists] : preservesdb.
#[local] Hint Extern 1 (preserves tallied (update_callbacks _ _)) =>
  apply tallied_alter; done : preservesdb.

Lemma onComplete_tallied o : preserves tallied (onComplete o).
Proof.
  intros s a s'. unfold onComplete. rewrite bind_Ok. intros (ds & s1 & Hg & Hr).
  apply get_object_inv in Hg as [-> Ho].
  assert (Hrun : (inc_stat (if success_ (callbacks_ ds) then inc_success else inc_failure) ;;
    bridge o OnComplete) s = Ok (a, s')) by (by destruct (success_ _)).
  eapply terminal_tallied; [exact Hrun|]. intros st [_ Hl _] Hst.
  destruct (Hl _ _ Ho) as [_ ->]. unfold account_event, succeeding. cbn.
  destruct st. destruct (default false _); cbn; unfold inc_success, inc_failure; cbn;
    by rewrite N.add_1_r.
Qed.
Lemma onError_tallied o : preserves tallied (onError o).
Proof.
  unfold onError, get_object, getStream, syncPoint.
  repeat (apply preserves_bind; [exact _|solve [preserve]|intros; cbv beta zeta]).
  intros s r s' Hrun. eapply terminal_tallied; [exact Hrun|].
  intros [] _ _. cbn. unfold inc_failure. cbn. by rewrite N.add_1_r.
Qed.
Lemma onCancel_tallied o : preserves tallied (onCancel o).
Proof.
  unfold onCancel, get_object.
  apply preserves_bind; [exact _|solve [preserve]|intros _].
  intros s r s' Hrun. eapply terminal_tallied; [exact Hrun|].
  intros [] _ _. cbn. unfold inc_cancel. cbn. by rewrite N.add_1_r.
Qed.
Lemma removeStream_tallied h : preserves tallied (removeStream h : M (state HM B) unit).
Proof. unfold removeStream, getStream. preserve. Qed.
#[local] Hint Resolve onComplete_tallied onError_tallied onCancel_tallied
  removeStream_tallied : preservesdb.

Lemma mapLocalResponseToError_tallied o hm : preserves tallied (mapLocalResponseToError o hm).
Proof. unfold mapLocalResponseToError. preserve. Qed.
#[local] Hint Resolve mapLocalResponseToError_tallied : preservesdb.

Lemma encodeHeaders_tallied o hm es : preserves tallied (encodeHeaders o hm es).
Proof.
  unfold encodeHeaders. destruct (getResponseStatus hm) as [status|].
  2:{ apply preserves_bind; [exact _| |intros; apply preserves_fail].
      unfold assert_present, get_object, getStream. preserve. }
  cbv zeta. apply status_tallied. unfold closeStream, get_object, syncPoint, bridge. preserve.
Qed.
#[local] Hint Resolve encodeHeaders_tallied : preservesdb.

Lemma encodeData_tallied o (b : B) es : preserves tallied (encodeData o b es).
Proof. unfold encodeData, assert_present, closeStream, get_object, getStream, syncPoint, bridge. preserve. Qed.
Lemma encodeTrailers_tallied o hm : preserves tallied (encodeTrailers o hm).
Proof. unfold encodeTrailers, assert_present, closeStream, get_object, getStream, bridge. preserve. Qed.

Lemma resetStream_tallied (run : StreamResetReason → M (state HM B) unit) o r :
  (∀ r, preserves tallied (run r)) → preserves tallied (resetStream run o r).
Proof. intros Hrun. unfold resetStream, get_object, getStream. preserve. Qed.

Lemma exec_hcm_tallied (c : hcm_call HM B) : preserves tallied (exec_hcm c).
Proof.
  revert c. fix IH 1. intros [o hm es|o b es|o hm|o r during|o hm|o]; cbn [exec_hcm].
  - apply encodeHeaders_tallied.
  - apply preserves_bind; [exact _|apply encodeData_tallied|preserve].
  - apply encodeTrailers_tallied.
  - apply resetStream_tallied. intros r'. apply preserves_bind; [exact _|preserve|].
    intros []. apply preserves_for_each; [exact _|].
    induction during; constructor; [apply IH|done].
  - apply preserves_fail.
  - apply preserves_fail.
Qed.

Lemma during_tallied (l : list (hcm_call HM B)) : preserves tallied (for_each l exec_hcm).
Proof. apply preserves_for_each; [exact _|]. apply Forall_true, exec_hcm_tallied. Qed.
#[local] Hint Resolve during_tallied : preservesdb.

Lemma startStream_tallied d during h cb :
  preserves tallied (startStream_cb (hcm_newStream d during) h cb).
Proof.
  unfold startStream_cb, hcm_newStream.
  apply preserves_bind; [exact _|by apply new_object_tallied|]. intros o.
  do 3 (apply preserves_bind; [exact _|preserve|intros ?]).
  apply preserves_bind; [exact _| |intros _].
  { apply tallied_modify; [done|]. intros s o' ds'. cbn. rewrite lookup_alter_Some.
    intros [(<- & ds & -> & ->)|[_ ?]]; [by exists ds|by exists ds']. }
  apply preserves_bind; [exact _|preserve|intros streams]. destruct (streams !! h); [|preserve].
  apply tallied_modify; [done|]. intros s o' ds'. cbn. rewrite lookup_delete_Some.
  intros [_ ?]. by exists ds'.
Qed.

Lemma run_posted_tallied n d during : preserves tallied (run_posted n d during).
Proof.
  unfold run_posted. preserve.
  destruct f; cbn [run_functor]; intros _; [apply startStream_tallied|..];
    unfold sendHeaders_cb, sendData_cb, sendTrailers_cb, cancelStream_cb, hcm_reset,
      getStream, get_object, setDestinationCluster, syncPoint; preserve.
  apply tallied_modify; [done|]. intros s o' ds'. cbn. rewrite lookup_alter_Some.
  intros [(<- & ds & -> & ->)|[_ ?]]; [by exists ds|by exists ds'].
Qed.
#[local] Hint Resolve exec_hcm_tallied run_posted_tallied : preservesdb.

Lemma lookup_dropped (P : nat → Prop) `{!∀ o, Decision (P o)} (l : list nat)
    (objs : gmap nat DirectStream) o ds :
  foldr (λ o objs, if decide (P o) then objs else delete o objs) objs l !! o = Some ds →
  objs !! o = Some ds.
Proof.
  induction l as [|x l IH]; [done|]. cbn. case_decide; [done|].
  rewrite lookup_delete_Some. intros [_ ?]. by apply IH.
Qed.

(** Every label but ready, which creates the counters. *)
Lemma exec_label_tallied l :
  match l with LReady _ => False | _ => True end → preserves tallied (exec_label l).
Proof.
  destruct l; intros Hl; try done; cbn [exec_label]; try solve [preserve].
  - destruct f; cbn [api_call]; unfold startStream, sendHeaders, sendData, sendTrailers,
      cancelStream; preserve.
  - apply preserves_bind; [exact _|preserve|intros _]. unfold clear_deferred.
    apply tallied_modify; [done|]. intros s o ds. cbn. intros Hd%lookup_dropped. by exists ds.
Qed.
End scope.
End tally.

(** ** Whole runs *)

Section runs.
Context {mode : BuildMode} `{Allocator} {HM : Type} `{!HeaderMap HM} `{!EnvoyCodec HM}
  {B : Type} `{!BufferInstance B}.
Implicit Types (s : state HM B) (o : nat) (l : label HM B).

Lemma step_run_label scope s l s' : step scope s l s' → exec_label l s = Ok (tt, s').
Proof. by destruct 1. Qed.

(** The API calls of a run, in order. *)
Definition api_calls (ls : list (label HM B)) : list functor :=
  omap (λ l, if l is LApi f then Some f else None) ls.

(** The event loop runs its queue in order. *)
Definition in_order (l : label HM B) : Prop :=
  match l with LRun n _ _ => n = 0 | _ => True end.

(** What a label does to the queues. *)
Record queue_step (l : label HM B) s s' : Prop := {
  qs_ed : event_dispatcher_ s' = (if l is LReady _ then true else event_dispatcher_ s);
  qs_ran : ran (trace s') ++ pending s' =
    match l with
    | LApi f => ran (trace s) ++ pending s ++ [f]
    | LRun (S n) _ _ => ran (trace s') ++ pending s'
    | _ => ran (trace s) ++ pending s
    end;
  qs_empty : event_dispatcher_ s' = false → loop_queue s' = []
}.

Lemma exec_api_queue s f s' :
  (event_dispatcher_ s = false → loop_queue s = []) →
  exec_label (LApi f) s = Ok (tt, s') → queue_step (LApi f) s s'.
Proof.
  intros Hempty He.
  assert (s' = let s1 := set_on_loop_thread false s in
    if event_dispatcher_ s then set_loop_queue (loop_queue s ++ [f]) s1
    else set_init_queue (init_queue_ s ++ [f]) s1) as ->.
  { destruct s as [[] ? ? ? ? ? ? ? ? ? ? ? ?]; destruct f; cbn in He; by injection He as <-. }
  destruct (event_dispatcher_ s) eqn:Hed; split; cbn; rewrite ?Hed; try done;
    unfold pending; cbn; by rewrite Hed.
Qed.

Lemma exec_ready_queue s scope s' :
  event_dispatcher_ s = false → loop_queue s = [] →
  exec_label (LReady scope) s = Ok (tt, s') → queue_step (LReady scope) s s'.
Proof.
  intros Hed Hlq He. cbn in He. apply bind_Ok in He as ([] & s1 & [= <-] & He).
  unfold ready in He. apply bind_Ok in He as (q & s2 & [= <- <-] & He).
  apply bind_Ok in He as ([] & s3 & Hl & He).
  assert (∀ q s1 s2, for_each q (λ cb, modify (λ s, set_loop_queue (loop_queue s ++ [cb]) s)) s1
    = Ok (tt, s2) → s2 = set_loop_queue (loop_queue s1 ++ q) s1) as Hpush.
  { clear. intros q. induction q as [|a q IH]; intros s1 s2 Hl.
    - injection Hl as <-. rewrite app_nil_r. by destruct s1.
    - cbn in Hl. apply bind_Ok in Hl as ([] & s3 & [= <-] & Hl). apply IH in Hl as ->.
      cbn. by rewrite <- app_assoc. }
  apply Hpush in Hl as ->. cbn in He. injection He as <-.
  split; cbn; try done. unfold pending. cbn. by rewrite Hed, Hlq.
Qed.

Lemma exec_run_queue n d during s s' :
  (event_dispatcher_ s = false → loop_queue s = []) →
  exec_label (LRun n d during) s = Ok (tt, s') → queue_step (LRun n d during) s s'.
Proof.
  intros Hempty He. cbn in He. apply bind_Ok in He as ([] & s1 & [= <-] & He).
  unfold run_posted in He. apply bind_Ok in He as (q & s2 & [= <- <-] & He). cbn in He.
  destruct (loop_queue s !! n) as [f|] eqn:Hf.
  2:{ injection He as <-. by split; destruct n. }
  assert (Hed : event_dispatcher_ s = true).
  { destruct (event_dispatcher_ s) eqn:E; [done|]. by rewrite (Hempty eq_refl) in Hf. }
  apply bind_Ok in He as ([] & s3 & [= <-] & He).
  apply bind_Ok in He as ([] & s4 & [= <-] & He).
  apply run_functor_queue in He as (Hr & Hd & _ & Hq). cbn in *.
  split; [done| |by rewrite Hd, Hed].
  destruct n as [|n]; [|done]. rewrite Hr. unfold pending. rewrite Hd, Hed, Hq.
  unfold ran. rewrite omap_app, <- app_assoc. cbn. f_equal.
  by destruct (loop_queue s) as [|f' q]; [|injection Hf as ->].
Qed.

Lemma same_queue_step l s s' :
  match l with LApi _ | LReady _ | LRun _ _ _ => False | _ => True end →
  (event_dispatcher_ s = false → loop_queue s = []) → same_queue s s' → queue_step l s s'.
Proof.
  intros Hl Hempty (Hr & Hd & Hi & Hq).
  assert (pending s' = pending s) by (unfold pending; by rewrite Hd, Hi, Hq).
  split; [by destruct l; try rewrite Hd| |rewrite Hd, Hq; done].
  rewrite Hr. destruct l; try done; congruence.
Qed.

Lemma step_queue scope s l s' :
  (event_dispatcher_ s = false → loop_queue s = []) → step scope s l s' → queue_step l s s'.
Proof.
  intros Hempty Hst.
  destruct Hst as [f s s' _ He|s s' Hed He|n d dur s s' He|c s s' He|s s' He|n s s' He].
  - by apply exec_api_queue.
  - apply exec_ready_queue; auto.
  - by apply exec_run_queue.
  - apply same_queue_step; [done..|].
    cbn in He. apply bind_Ok in He as ([] & s1 & [= <-] & He).
    etrans; [|by eapply exec_hcm_queue]. done.
  - apply same_queue_step; [done..|]. cbn in He. by injection He as <-.
  - apply same_queue_step; [done..|]. cbn in He. by injection He as <-.
Qed.

Lemma steps_queue scope m ls s :
  steps scope (init_state m) ls s →
  (event_dispatcher_ s = false → loop_queue s = []) ∧
  (Forall in_order ls → api_calls ls = ran (trace s) ++ pending s).
Proof.
  remember (init_state m) as s0 eqn:Hs0. intros Hsteps. revert Hs0.
  induction Hsteps as [s|s ls l s1 s2 Hs IH Hst]; intros ->; [done|].
  destruct (IH eq_refl) as [Hempty Hord]. destruct (step_queue _ _ _ _ Hempty Hst) as [He Hr Hq].
  split; [done|]. intros [Hls Hl]%Forall_app.
  unfold api_calls. rewrite omap_app. fold (api_calls ls). rewrite (Hord Hls).
  inversion Hl as [|? ? Hl' _]; subst. rewrite Hr.
  destruct l as [f|sc|[|n] d dur|c| |n]; cbn in *; rewrite ?app_nil_r; try done.
  by rewrite app_assoc.
Qed.

(** The books are kept through whole runs, and the counters exist once the dispatcher is
    ready. *)
Definition tally (scope : DispatcherStats) s : Prop :=
  books scope s ∧ (event_dispatcher_ s = false ↔ stats_ s = None).

Lemma ready_tally scope s s' :
  event_dispatcher_ s = false → exec_label (LReady scope) s = Ok (tt, s') →
  tally scope s → tally scope s'.
Proof.
  intros Hed He [[Hst Hl Hfr] Hs]. apply Hs in Hed. rewrite Hed in Hst.
  cbn in He. apply bind_Ok in He as ([] & s1 & [= <-] & He).
  unfold ready in He. apply bind_Ok in He as (q & s2 & [= <- <-] & He).
  apply bind_Ok in He as ([] & s3 & Hq & He). injection He as <-.
  assert (trace s3 = trace s ∧ objects s3 = objects s ∧ next_object s3 = next_object s) as (Ht & Ho & Hn).
  { assert (PreOrder (λ s s', trace s' = trace s ∧ objects s' = objects s ∧
      next_object s' = next_object s)) by (split; [by intros ?|intros ? ? ? ? ?; naive_solver congruence]).
    eapply (preserves_for_each (λ s s', trace s' = trace s ∧ objects s' = objects s ∧
      next_object s' = next_object s)) in Hq; [exact Hq|].
    apply Forall_true. intros f. by apply preserves_modify. }
  split; [|done]. split; cbn; by rewrite Ht, ?Ho, ?Hn.
Qed.

Lemma step_tally scope s l s' :
  (event_dispatcher_ s = false → loop_queue s = []) → step scope s l s' →
  tally scope s → tally scope s'.
Proof.
  intros Hempty Hst HT. pose proof (qs_ed _ _ _ (step_queue _ _ _ _ Hempty Hst)) as Hed.
  pose proof (step_run_label _ _ _ _ Hst) as He.
  destruct l as [f|sc|n d dur|c| |n].
  2:{ inversion Hst; subst. by eapply ready_tally. }
  all: destruct HT as [HB Hs]; apply (exec_label_tallied (mode := mode) scope) in He as [HB' Hs'];
    [|exact I]; split; [by apply HB'|]; by rewrite Hed, Hs.
Qed.

Lemma init_tally scope m : tally scope (init_state m).
Proof. split; [|done]. split; [done|by intros o ds|by intros o]. Qed.

Lemma steps_tally scope m ls s : steps scope (init_state m) ls s → tally scope s.
Proof.
  remember (init_state m) as s0 eqn:Hs0. intros Hsteps. revert Hs0.
  induction Hsteps as [s|s ls l s1 s2 Hs IH Hst]; intros ->; [apply init_tally|].
  eapply step_tally; [|done|by apply IH]. by apply (steps_queue _ _ _ _ Hs).
Qed.
End runs.
