(* ===== verification/DispatcherProps.v ===== *)
(** * What the dispatcher promises

    The theorems about whole runs of the dispatcher: the order and number of the
    callbacks a stream gets, the order of the platform's calls, the counters, and
    the agreement of release builds with builds that check their ASSERTs. *)

From S2P Require Export DispatcherOrder Reference.

(** ** A concrete environment for the witnesses *)

Definition ref_label : Type := label ref_map ref_buffer.
Definition ref_state : Type := state ref_map ref_buffer.

Definition no_stats : DispatcherStats := Stats 0 0 0.
Definition platform_callbacks : envoy_http_callbacks := EnvoyHttpCallbacks 1 2 3 4 5 6 7 NULL.
Definition response_ok : ref_map := RefMap ResponseHeaderMapImpl [(":status", "200")].
Definition response_local_reply : ref_map :=
  RefMap ResponseHeaderMapImpl [(":status", "503"); ("x-envoy-attempt-count", "3")].

(** Two streams: the first is started before the engine is ready and completes
    with trailers; the second is reset and then cancelled too late. *)
Definition two_streams : list ref_label :=
  [ LApi (PostStartStream 1 platform_callbacks);
    LReady no_stats;
    LRun 0 7 [];
    LHcm (HcmEncodeHeaders 0 response_ok false);
    LApi (PostStartStream 2 platform_callbacks);
    LRun 0 8 [];
    LHcm (HcmEncodeTrailers 0 (RefMap ResponseTrailerMapImpl [("t", "v")]));
    LHcm (HcmResetStream 1 RemoteReset []);
    LApi (PostCancelStream 2);
    LRun 0 9 [];
    LClearDeferredDeleteList ].

Definition two_streams_end {mode : BuildMode} : ref_state :=
  default (init_state mem_empty) (run_labels no_stats two_streams (init_state mem_empty)).

(** The same run, with a build whose ASSERTs are checked. *)
Lemma two_streams_reachable :
  reachable (mode := debug_build) no_stats two_streams (two_streams_end (mode := debug_build)).
Proof. apply run_labels_reachable with mem_empty. vm_compute. reflexivity. Qed.

Section system_props.
#[local] Existing Instance debug_build.
Context `{Allocator} {HM : Type} `{!HeaderMap HM} `{!EnvoyCodec HM}
  {B : Type} `{!BufferInstance B}.
Implicit Types (s : state HM B) (o : nat).

Lemma spec_run_snoc evs ev : spec_run (evs ++ [ev]) = spec_run evs ≫= λ p, spec_step p ev.
Proof. unfold spec_run. by rewrite foldl_app. Qed.

(** The shape of an accepted trace: at most one terminal callback, at the end. *)
Lemma spec_run_shape evs p :
  spec_run evs = Some p →
  if decide (p = Closed) then
    ∃ pre ev, evs = pre ++ [ev] ∧ terminal ev = true ∧ Forall (λ e, terminal e = false) pre
  else Forall (λ e, terminal e = false) evs.
Proof.
  revert p. induction evs as [|ev evs IH] using rev_ind; intros p.
  { intros [= <-]. by constructor. }
  rewrite spec_run_snoc. destruct (spec_run evs) as [q|] eqn:Hq; [|done]. cbn.
  specialize (IH q eq_refl). intros Hstep.
  assert (q ≠ Closed) as Hq' by (intros ->; by destruct ev).
  rewrite decide_False in IH by done.
  destruct (decide (p = Closed)) as [->|Hp].
  - exists evs, ev. split_and!; [done| |done]. by destruct q, ev as [? []|? []| | | |].
  - apply Forall_app. split; [done|]. constructor; [|constructor].
    destruct q, ev as [? []|? []| | | |]; try done; by injection Hstep as <-.
Qed.

(** C1: Refinement of the stream contract. In every reachable state of a build
    with ASSERTs, whatever the platform, the event loop and the connection
    manager did, the callbacks issued for each stream object so far are a run of
    the abstract stream; the run is still open exactly when the stream is in
    [streams_], and closed (terminal callback issued) exactly when it is not. *)
Theorem stream_contract scope ls s o :
  reachable scope ls s → o < next_object s →
  phase_of o s = Some (if bool_decide (o ∈ (map_to_list (streams_ s)).*2) then Open else Closed).
Proof. apply reachable_phase. Qed.

(** C2: Exactly one terminal callback. A stream that has left [streams_] got one
    of on_error, on_complete and on_cancel, once, as its last callback; a stream
    still in [streams_] got none. *)
Theorem one_terminal_callback scope ls s o :
  reachable scope ls s → o < next_object s →
  let evs := bridge_trace o (trace s) in
  ((∃ h, streams_ s !! h = Some o) → Forall (λ e, terminal e = false) evs) ∧
  ((∀ h, streams_ s !! h ≠ Some o) →
    ∃ pre ev, evs = pre ++ [ev] ∧ terminal ev = true ∧ Forall (λ e, terminal e = false) pre).
Proof.
  intros HI%reachable_Inv Ho evs. split.
  - intros [h Hs]. destruct (inv_streams _ _ HI _ _ Hs) as (_ & _ & Hp).
    apply (spec_run_shape _ _ Hp).
  - intros Hs. apply (spec_run_shape evs Closed). by apply (inv_closed _ _ HI).
Qed.
End system_props.

Lemma stream_contract_witness :
  let s := two_streams_end (mode := debug_build) in
  0 < next_object s ∧ phase_of 0 s = Some Closed.
Proof.
  split; [vm_compute; lia|].
  etrans; [apply (stream_contract no_stats two_streams)|].
  - apply two_streams_reachable.
  - vm_compute. lia.
  - vm_compute. reflexivity.
Defined.

Lemma one_terminal_callback_witness :
  let evs := bridge_trace 1 (trace (two_streams_end (mode := debug_build))) in
  ∃ pre ev, evs = pre ++ [ev] ∧ terminal ev = true ∧ Forall (λ e, terminal e = false) pre.
Proof.
  apply (one_terminal_callback no_stats two_streams two_streams_end 1).
  - apply two_streams_reachable.
  - vm_compute. lia.
  - intros h. vm_compute. by destruct h.
Defined.

(** ** Runs of any build *)

(** Release builds agree with debug builds. Every run of the dispatcher that a
    build with ASSERTs can make, a build without them makes with the same states:
    so what holds of the states of debug runs holds of release runs in which the
    environment keeps its side of the ASSERTs. *)
Theorem release_build_agrees `{Allocator} {HM B} `{!HeaderMap HM} `{!EnvoyCodec HM}
    `{!BufferInstance B} scope ls (s : state HM B) :
  reachable (mode := debug_build) scope ls s → reachable (mode := release_build) scope ls s.
Proof.
  intros [m Hs]. exists m. induction Hs as [s|s ls l s1 s2 Hs IH Hst]; [constructor|].
  econstructor; [exact IH|].
  destruct Hst as [f s1 s2 Hf He|s1 s2 Hed He|n d dur s1 s2 He|c s1 s2 He|s1 s2 He|n s1 s2 He];
    apply exec_label_agrees in He; by constructor.
Qed.

Lemma release_build_agrees_witness :
  reachable (mode := release_build) no_stats two_streams (two_streams_end (mode := debug_build)).
Proof. apply release_build_agrees. apply two_streams_reachable. Defined.

Section any_build.
Context {mode : BuildMode} `{Allocator} {HM : Type} `{!HeaderMap HM} `{!EnvoyCodec HM}
  {B : Type} `{!BufferInstance B}.

(** C35: The platform's calls run once and in order. If the event loop runs its queue
    from the front, then at any time, whether the engine became ready in between or
    not, the calls made so far are the functors that ran followed by the ones that
    wait: none is lost, repeated or reordered across ready(). *)
Theorem calls_run_in_order scope ls (s : state HM B) :
  reachable scope ls s → Forall in_order ls → api_calls ls = ran (trace s) ++ pending s.
Proof. intros [m Hs] Hord. by apply (steps_queue _ _ _ _ Hs). Qed.

(** C36: The counters. In every reachable state of a ready dispatcher, its counters are
    what the trace so far accounts for, from the stats scope's initial ones: one cancel
    for each on_cancel, one failure for each on_error, and for each on_complete one
    success if the last status the connection manager encoded for that stream was a 2xx,
    and one failure if it was another, or if there was none. *)
Theorem counters_match_callbacks scope ls (s : state HM B) st :
  reachable scope ls s → stats_ s = Some st → st = ac_stats (accounts scope (trace s)).
Proof.
  intros [m Hs] Hst. destruct (steps_tally _ _ _ _ Hs) as [[Hb _ _] _].
  by rewrite Hb, Hst.
Qed.
End any_build.

Lemma calls_run_in_order_witness :
  let s := two_streams_end (mode := debug_build) in
  [PostStartStream 1 platform_callbacks; PostStartStream 2 platform_callbacks; PostCancelStream 2] =
  ran (trace s) ++ pending s.
Proof.
  refine (eq_trans _ (calls_run_in_order (mode := debug_build) no_stats two_streams _ _ _)).
  - reflexivity.
  - apply two_streams_reachable.
  - unfold two_streams. repeat constructor.
Defined.

Lemma counters_match_callbacks_witness :
  let s := two_streams_end (mode := debug_build) in
  Stats 1 1 0 = ac_stats (accounts no_stats (trace s)).
Proof.
  apply (counters_match_callbacks (mode := debug_build) no_stats two_streams).
  - apply two_streams_reachable.
  - vm_compute. reflexivity.
Defined.
