(* ===== verification/DispatcherOps.v ===== *)
(** * What each handler of the dispatcher does

    Exact results of the handlers on a stream that is in the map, in any build: the
    equations the theorems about single operations are made of. *)

From S2P Require Export DispatcherOrder.

(** Rewrite with the result of the leading computation of a bind. *)
Tactic Notation "run" uconstr(lem) := rewrite (bind_run _ _ _ _ _ lem).

Section ops.
Context {mode : BuildMode} `{Allocator} {HM : Type} `{!HeaderMap HM} `{!EnvoyCodec HM}
  {B : Type} `{!BufferInstance B}.
Implicit Types (s : state HM B) (o : nat) (ds : DirectStream) (st : DispatcherStats).

(** The stream [ds] is the object [o], in the map of a ready dispatcher, and the
    event loop's thread is running. *)
Record open_stream s o ds st : Prop := {
  os_ready : event_dispatcher_ s = true;
  os_thread : on_loop_thread s = true;
  os_stats : stats_ s = Some st;
  os_object : objects s !! o = Some ds;
  os_map : streams_ s !! stream_handle_ ds = Some o
}.

(** *** Equations *)

Lemma get_object_run s o ds : objects s !! o = Some ds → get_object o s = Ok (ds, s).
Proof. intros Ho. unfold get_object, mbind, M_bind. cbn. by rewrite Ho. Qed.

Lemma assert_present_run s o ds st : open_stream s o ds st → assert_present o s = Ok (tt, s).
Proof.
  intros [_ _ _ Ho Hm]. unfold assert_present. run (get_object_run _ _ _ Ho).
  unfold getStream, mbind, M_bind. cbn. rewrite Hm. unfold ASSERT. by destruct ASSERT_enabled.
Qed.

(** The state after the stream left the map for the deferred deletion list. *)
Definition removed (h : Z) (o : nat) s : state HM B :=
  set_streams (delete h (streams_ s)) (set_deferred (deferred s ++ [o]) s).

Lemma removeStream_run s o ds st :
  open_stream s o ds st →
  removeStream (stream_handle_ ds) s = Ok (tt, removed (stream_handle_ ds) o s).
Proof.
  intros [Hed Hth _ _ Hm].
  unfold removeStream, getStream, RELEASE_ASSERT, mbind, M_bind, gets, deref.
  rewrite Hed. cbn. rewrite Hth. cbn. rewrite Hm. cbn. rewrite Hm. unfold ASSERT. by destruct ASSERT_enabled.
Qed.

Lemma closeStream_run s o ds st :
  open_stream s o ds st → closeStream o s = Ok (tt, removed (stream_handle_ ds) o s).
Proof.
  intros Hos. unfold closeStream. run (get_object_run _ _ _ (os_object _ _ _ _ Hos)).
  by eapply removeStream_run.
Qed.

Lemma inc_stat_run s st f : stats_ s = Some st → inc_stat f s = Ok (tt, set_stats (Some (f st)) s).
Proof.
  intros Hs. unfold inc_stat, mbind, M_bind. cbn -[ASSERT]. rewrite Hs.
  unfold ASSERT. by destruct ASSERT_enabled.
Qed.

(** The state after counting and issuing a terminal callback. *)
Definition terminated (st : DispatcherStats) (pre : list (event HM B)) (o : nat)
    (ev : bridge_event) s : state HM B :=
  set_trace (trace s ++ pre ++ [EvBridge o ev]) (set_stats (Some st) s).

Lemma terminal_run s o st f ev :
  stats_ s = Some st → (inc_stat f ;; bridge o ev) s = Ok (tt, terminated (f st) [] o ev s).
Proof. intros Hs. by run (inc_stat_run _ _ _ Hs). Qed.

Definition completed (success : bool) (st : DispatcherStats) : DispatcherStats :=
  if success then inc_success st else inc_failure st.

Lemma onComplete_run s o ds st :
  objects s !! o = Some ds → stats_ s = Some st →
  onComplete o s =
  Ok (tt, terminated (completed (success_ (callbacks_ ds)) st) [] o OnComplete s).
Proof.
  intros Ho Hs. unfold onComplete. run (get_object_run _ _ _ Ho).
  destruct (success_ (callbacks_ ds)); by apply terminal_run.
Qed.

(** The envoy_error a stream reports. *)
Definition stream_error (cb : DirectStreamCallbacks) : envoy_error :=
  EnvoyError (default ENVOY_STREAM_RESET (error_code_ cb))
    (default envoy_nodata (error_message_ cb)) (default (-1)%Z (error_attempt_count_ cb)).

Lemma onError_run s o ds st :
  objects s !! o = Some ds → stats_ s = Some st → streams_ s !! stream_handle_ ds = None →
  onError o s = Ok (tt, terminated (inc_failure st) [EvSyncPoint "dispatch_on_error"] o
                      (OnError (stream_error (callbacks_ ds))) s).
Proof.
  intros Ho Hs Hn. unfold onError. run (get_object_run _ _ _ Ho).
  unfold getStream. rewrite (bind_run _ _ s None s); [|by unfold gets; rewrite Hn].
  rewrite (bind_run _ _ s tt s).
  2:{ unfold ASSERT. by destruct ASSERT_enabled. }
  rewrite (bind_run _ _ s tt (set_trace (trace s ++ [EvSyncPoint "dispatch_on_error"]) s)) by done.
  rewrite (terminal_run _ _ st) by done. unfold terminated. cbn. by rewrite <- app_assoc.
Qed.

Lemma onCancel_run s o ds st :
  objects s !! o = Some ds → stats_ s = Some st →
  onCancel o s = Ok (tt, terminated (inc_cancel st) [] o OnCancel s).
Proof. intros Ho Hs. unfold onCancel. run (get_object_run _ _ _ Ho). by apply terminal_run. Qed.

Definition with_callbacks (f : DirectStreamCallbacks → DirectStreamCallbacks) (o : nat) s
    : state HM B := set_objects (alter (on_callbacks f) o (objects s)) s.

(** A handler's own bookkeeping on an open stream leaves it open. *)
Lemma open_update_callbacks s o ds st f :
  open_stream s o ds st →
  open_stream (with_callbacks f o s) o (on_callbacks f ds) st.
Proof.
  intros [? ? ? Ho ?]. split; try done. cbn. by rewrite lookup_alter_eq, Ho.
Qed.

Lemma removed_object s o ds st h : open_stream s o ds st → objects (removed h o s) !! o = Some ds.
Proof. by intros []. Qed.

Lemma removed_absent s h o : streams_ (removed h o s) !! h = None.
Proof. cbn. apply lookup_delete_eq. Qed.

(** *** The local reply that stands for an error *)

Definition reply_code (status : Z) : envoy_error_code_t :=
  if decide (status = 503%Z) then ENVOY_CONNECTION_FAILURE else ENVOY_UNDEFINED_ERROR.
Definition reply_attempts (headers : HM) : option Z :=
  s32 <$> (EnvoyAttemptCount headers ≫= SimpleAtoi_uint32).

(** What mapLocalResponseToError stores in the callbacks. *)
Definition local_reply (status : Z) (headers : HM) (cb : DirectStreamCallbacks)
    : DirectStreamCallbacks :=
  StreamCallbacks (bridge_callbacks_ cb) (Some (reply_code status)) (error_message_ cb)
    (match reply_attempts headers with Some n => Some n | None => error_attempt_count_ cb end)
    (success_ cb).

Lemma on_callbacks_compose f g (ds : DirectStream) :
  on_callbacks f (on_callbacks g ds) = on_callbacks (λ cb, f (g cb)) ds.
Proof. done. Qed.

Lemma update_callbacks_run s o f :
  update_callbacks o f s = Ok (tt, set_objects (alter (on_callbacks f) o (objects s)) s).
Proof. done. Qed.

Lemma alter_alter_callbacks f g o (objs : gmap nat DirectStream) :
  alter (on_callbacks f) o (alter (on_callbacks g) o objs) =
  alter (on_callbacks (λ cb, f (g cb))) o objs.
Proof.
  apply map_eq. intros o'. rewrite !lookup_alter. repeat case_decide; try done.
  by destruct (objs !! o).
Qed.

Lemma alter_callbacks_ext f g o (objs : gmap nat DirectStream) :
  (∀ cb, f cb = g cb) → alter (on_callbacks f) o objs = alter (on_callbacks g) o objs.
Proof. intros Hfg. apply alter_ext. intros ds _. unfold on_callbacks. by rewrite Hfg. Qed.

Lemma mapLocalResponseToError_run s o (headers : HM) status :
  getResponseStatus headers = Some status →
  mapLocalResponseToError o headers s =
  Ok (tt, set_objects (alter (on_callbacks (local_reply status headers)) o (objects s)) s).
Proof.
  intros Hst. unfold mapLocalResponseToError. rewrite Hst.
  run (update_callbacks_run _ _ _). unfold local_reply, reply_attempts.
  destruct (EnvoyAttemptCount headers) as [v|]; cbn; [|done].
  destruct (SimpleAtoi_uint32 v) as [n|]; cbn; [|done].
  rewrite update_callbacks_run. cbn. by rewrite alter_alter_callbacks.
Qed.

(** The local replies: not a success, and no upstream answered. *)
Definition is_local_reply (headers : HM) (status : Z) : bool :=
  negb (is2xx (HM := HM) status) && bool_decide (hm_get EnvoyUpstreamServiceTime headers = []).

(** The callbacks once encodeHeaders has looked at the status. *)
Definition after_status (status : Z) : DirectStreamCallbacks → DirectStreamCallbacks :=
  set_success (is2xx (HM := HM) status).

(** The state once the status was looked at. *)
Definition status_seen (o : nat) (status : Z) s : state HM B :=
  set_trace (trace s ++ [EvResponseStatus o status]) s.

Lemma open_status_seen s o ds st status :
  open_stream s o ds st → open_stream (status_seen o status s) o ds st.
Proof. by intros []; split. Qed.

Definition removed_if (b : bool) (h : Z) (o : nat) s : state HM B :=
  if b then removed h o s else s.

Lemma close_if_run s o ds st (b : bool) :
  open_stream s o ds st →
  when b (closeStream o) s = Ok (tt, removed_if b (stream_handle_ ds) o s).
Proof. intros Hos. destruct b; [by eapply closeStream_run|done]. Qed.

Lemma encodeHeaders_prefix s o ds st (headers : HM) end_stream status :
  open_stream s o ds st → getResponseStatus headers = Some status →
  let s1 := removed_if end_stream (stream_handle_ ds) o (with_callbacks (after_status status) o (status_seen o status s)) in
  encodeHeaders o headers end_stream s =
  (if is_local_reply headers status then
     mapLocalResponseToError o headers ;; when end_stream (onError o)
   else
     syncPoint "dispatch_encode_headers" ;;
     bridged ← zoom (toBridgeHeaders headers);
     bridge o (OnHeaders bridged end_stream) ;;
     when end_stream (onComplete o)) s1.
Proof.
  intros Hos Hst s1. unfold encodeHeaders.
  run (assert_present_run _ _ _ _ Hos). rewrite Hst.
  rewrite (bind_run _ _ s tt (status_seen o status s)) by done.
  run (update_callbacks_run _ _ _).
  by run (close_if_run _ _ _ _ end_stream (open_update_callbacks _ _ _ _ (after_status status)
    (open_status_seen _ _ _ _ status Hos))).
Qed.
End ops.
