(* ===== verification/DispatcherSpecs.v ===== *)
(** * Functional results of the dispatcher's handlers

    For each handler on a stream in the map: the callbacks it issues, what they
    carry, and everything it changes; and what it does when the stream is gone. *)

From S2P Require Export DispatcherOps Reference.

(** ** Outgoing: the platform's frames *)

Section outgoing.
Context {mode : BuildMode} `{Allocator} {HM : Type} `{!HeaderMap HM} `{!EnvoyCodec HM}
  {B : Type} `{!BufferInstance B} `{!HeaderMapLaws HM} `{!BufferLaws B}.
Implicit Types (s : state HM B) (o : nat).

(** The cluster of a request, by network and protocol. *)
Definition cluster_name (network : envoy_network_t) (use_h2 : bool) : string :=
  match network with
  | ENVOY_NET_GENERIC => if use_h2 then BaseClusterH2 else BaseCluster
  | ENVOY_NET_WLAN => if use_h2 then BaseWlanClusterH2 else BaseWlanCluster
  | ENVOY_NET_WWAN => if use_h2 then BaseWwanClusterH2 else BaseWwanCluster
  end.

(** The upstream protocol header is absent, or one of the two known values. *)
Definition known_protocol (es : list (string * string)) : Prop :=
  values H2UpstreamHeader es ∈ [[]; ["http1"]; ["http2"]].

Definition uses_h2 (es : list (string * string)) : bool :=
  bool_decide (values H2UpstreamHeader es = ["http2"]).

(** The entries of a routed request. *)
Definition routed (network : envoy_network_t) (es : list (string * string))
    : list (string * string) :=
  filter (λ e, e.1 ≠ H2UpstreamHeader) es ++ [(ClusterHeader, cluster_name network (uses_h2 es))].

Lemma filter_absent k es : values k es = [] → filter (λ e : string * string, e.1 ≠ k) es ≡ₕ es.
Proof.
  intros Hv k'. rewrite values_filter_ne. case_decide; [|done]. by subst.
Qed.

Lemma add_cluster network b (hm : HM) :
  hm_inline hm ClusterHeader = false →
  hm_entries (match network with
     | ENVOY_NET_WLAN => hm_addReference ClusterHeader (if b : bool then BaseWlanClusterH2 else BaseWlanCluster) hm
     | ENVOY_NET_WWAN => hm_addReference ClusterHeader (if b : bool then BaseWwanClusterH2 else BaseWwanCluster) hm
     | ENVOY_NET_GENERIC => hm_addReference ClusterHeader (if b : bool then BaseClusterH2 else BaseCluster) hm
     end) ≡ₕ hm_entries hm ++ [(ClusterHeader, cluster_name network b)].
Proof. intros Hi. destruct network; rewrite addReference_addCopy; apply addCopy_new; by left. Qed.

Lemma setDestinationCluster_run s (hm : HM) :
  known_protocol (hm_entries hm) →
  ∃ hm', setDestinationCluster hm s = Ok (hm', s) ∧
    (hm_inline hm ClusterHeader = false →
      hm_entries hm' ≡ₕ routed (preferred_network_ s) (hm_entries hm)).
Proof.
  intros Hk. unfold setDestinationCluster. rewrite get_values.
  unfold known_protocol, routed, uses_h2 in *.
  assert (HA : ∀ w, @ASSERT mode (state HM B) true w s = Ok (tt, s))
    by (intros; unfold ASSERT; by destruct ASSERT_enabled).
  rewrite !elem_of_cons, elem_of_nil in Hk. destruct Hk as [Hv|[Hv|[Hv|[]]]]; rewrite Hv.
  - eexists. split; [done|]. intros Hi. rewrite add_cluster by done. by rewrite (filter_absent _ _ Hv).
  - rewrite !bind_assoc. cbn [length]. unfold mbind, M_bind. rewrite bool_decide_eq_true_2 by done.
    rewrite HA, decide_False, bool_decide_eq_true_2, HA by done.
    eexists. split; [done|]. intros Hi.
    rewrite add_cluster by (by rewrite inline_remove). by rewrite remove_entries.
  - rewrite !bind_assoc. cbn [length]. unfold mbind, M_bind. rewrite bool_decide_eq_true_2 by done.
    rewrite HA, decide_True by done.
    eexists. split; [done|]. intros Hi.
    rewrite add_cluster by (by rewrite inline_remove). by rewrite remove_entries.
Qed.

Lemma routed_proper network es1 es2 : es1 ≡ₕ es2 → routed network es1 ≡ₕ routed network es2.
Proof.
  intros Heq. unfold routed, uses_h2. rewrite (Heq H2UpstreamHeader).
  apply app_headers_equiv; [by apply filter_ne_proper|done].
Qed.

(** The request Envoy decodes for the platform's headers [es]. *)
Definition request_entries (network : envoy_network_t) (es : list (list byte * list byte))
    : list (string * string) :=
  filter (λ e, e.1 ≠ ForwardedProto) (routed network (lower_entries (HM := HM) es))
    ++ [(ForwardedProto, SchemeHttps (HM := HM))].

(** sendHeaders on an open stream. The decoder gets one header map: the
    platform's headers with lower-cased names, without the protocol selector, plus
    the cluster for the preferred network and protocol, and x-forwarded-proto set to
    https. Exactly the blocks the envoy_headers owns are freed, and nothing else in
    the dispatcher changes. *)
Theorem sendHeaders_request s o ds st d eh hs es end_stream :
  open_stream s o ds st → request_decoder_ ds = Some d →
  headers_ok (st_mem s) eh hs es →
  known_protocol (lower_entries (HM := HM) es) →
  inline_once (hm_create RequestHeaderMapImpl) (lower_entries (HM := HM) es) →
  hm_inline (hm_create (HM := HM) RequestHeaderMapImpl) ClusterHeader = false →
  ∃ hm, sendHeaders_cb (stream_handle_ ds) eh end_stream s =
      Ok (tt, set_trace (trace s ++ [EvDecodeHeaders d hm end_stream])
        (set_st_mem (mem_release (headers_owned eh hs) (headers_external hs) (st_mem s)) s)) ∧
    hm_entries hm ≡ₕ request_entries (preferred_network_ s) es.
Proof.
  intros Hos Hd Hok Hk Honce Hi.
  pose proof (toRequestHeaders_run (HM := HM) eh hs es (st_mem s) Hok) as Hconv.
  set (hm0 := add_entries _ _) in Hconv.
  assert (He0 : hm_entries hm0 ≡ₕ lower_entries (HM := HM) es).
  { unfold hm0. by rewrite add_entries_equiv, create_entries. }
  set (m' := mem_release _ _ _) in *.
  assert (Hz : (zoom (toRequestHeaders eh) : M (state HM B) HM) s = Ok (hm0, set_st_mem m' s)).
  { unfold zoom. cbn. by rewrite Hconv. }
  destruct (setDestinationCluster_run (set_st_mem m' s) hm0) as (hm1 & Hrun & He1).
  { unfold known_protocol. by rewrite He0. }
  specialize (He1 ltac:(unfold hm0; by rewrite inline_add_entries)).
  exists (hm_setReferenceForwardedProto SchemeHttps hm1). split.
  - unfold sendHeaders_cb, getStream.
    rewrite (bind_run _ _ s (Some o) s) by (unfold gets; by rewrite (os_map _ _ _ _ Hos)).
    run Hz. run Hrun.
    run (get_object_run (set_st_mem m' s) o ds (os_object _ _ _ _ Hos)). by rewrite Hd.
  - rewrite setForwardedProto_entries. unfold request_entries.
    apply app_headers_equiv; [|done]. apply filter_ne_proper. rewrite He1.
    by apply routed_proper.
Qed.

(** sendData on an open stream. The decoder gets one buffer with the platform's
    bytes, backed by the platform's storage (one fragment that will release it):
    nothing is copied or freed, and nothing else in the dispatcher changes. *)
Theorem sendData_frame s o ds st d data bs end_stream :
  open_stream s o ds st → request_decoder_ ds = Some d → reads_data (heap (st_mem s)) data bs →
  ∃ buf, sendData_cb (stream_handle_ ds) data end_stream s =
      Ok (tt, set_trace (trace s ++ [EvDecodeData d buf end_stream]) s) ∧
    buf_bytes buf = bs ∧ buf_fragments buf = [data].
Proof.
  intros Hos Hd Hr. exists (buf_addBufferFragment data bs buf_create). split_and!.
  - unfold sendData_cb, getStream.
    rewrite (bind_run _ _ s (Some o) s) by (unfold gets; by rewrite (os_map _ _ _ _ Hos)).
    rewrite (bind_run _ _ s (buf_addBufferFragment data bs buf_create) s).
    + run (get_object_run s o ds (os_object _ _ _ _ Hos)). by rewrite Hd.
    + unfold zoom, toInternalData. cbn. rewrite (addBridgeFragment_run _ _ _ _ Hr). by destruct s.
  - by rewrite add_bytes, create_bytes.
  - by rewrite add_fragments, create_fragments.
Qed.

(** The stream a functor works on. *)
Definition target (f : functor) : option Z :=
  match f with
  | PostStartStream _ _ => None
  | PostSendHeaders h _ _ | PostSendData h _ _ | PostSendTrailers h _ | PostCancelStream h => Some h
  end.

(** Calls for a stream that is gone. Headers, data, trailers and cancellation for
    a handle that is not in the map (closed, reset, or never started) are swallowed:
    the state is exactly the same afterwards. In particular what the platform handed
    over is never released. *)
Theorem late_calls_dropped newStream runResetCallbacks f h s :
  target f = Some h → streams_ s !! h = None →
  run_functor newStream runResetCallbacks f s = Ok (tt, s).
Proof.
  intros Hf Hs. destruct f as [h' cb|h' hs b|h' dt b|h' hs|h']; try done;
    injection Hf as ->; cbn [run_functor];
    unfold sendHeaders_cb, sendData_cb, sendTrailers_cb, cancelStream_cb, getStream;
    rewrite (bind_run _ _ s None s); (done || by unfold gets; rewrite Hs).
Qed.
End outgoing.

(** ** Incoming: the response *)

Section incoming.
Context {mode : BuildMode} `{Allocator} {HM : Type} `{!HeaderMap HM} `{!EnvoyCodec HM}
  {B : Type} `{!BufferInstance B} `{!HeaderMapLaws HM} `{!BufferLaws B}.
Implicit Types (s : state HM B) (o : nat).

(** The rest of the dispatcher after a handler: what it may change is given. *)
Record after (s s' : state HM B) (end_stream : bool) (o : nat) (h : Z) (st' : DispatcherStats)
    (evs : list (event HM B)) : Prop := {
  af_streams : streams_ s' = if end_stream then delete h (streams_ s) else streams_ s;
  af_deferred : deferred s' = deferred s ++ (if end_stream then [o] else []);
  af_stats : stats_ s' = Some st';
  af_trace : trace s' = trace s ++ evs;
  af_queues : same_queue s s'
}.

(** The tail of the normal response path: the frame, then completion at its end. *)
Lemma deliver_run s o ds st ev (end_stream : bool) :
  objects s !! o = Some ds → stats_ s = Some st →
  (bridge o ev ;; when end_stream (onComplete o)) s =
  Ok (tt, if end_stream
          then terminated (completed (success_ (callbacks_ ds)) st) [EvBridge o ev] o OnComplete s
          else set_trace (trace s ++ [EvBridge o ev]) s).
Proof.
  intros Ho Hst.
  rewrite (bind_run _ _ s tt (set_trace (trace s ++ [EvBridge o ev]) s)) by done.
  destruct end_stream; [|done].
  transitivity (onComplete o (set_trace (trace s ++ [EvBridge o ev]) s)); [done|].
  rewrite (onComplete_run _ _ ds st) by done. unfold terminated. cbn. by rewrite <- app_assoc.
Qed.

Lemma wp_zoom_bind {A A'} (m : M mem A) (k : A → M (state HM B) A') E Q R s :
  wp m E R (st_mem s) →
  (∀ a m', R a m' → wp (k a) E Q (set_st_mem m' s)) →
  wp (x ← zoom m; k x) E Q s.
Proof.
  intros Hm Hk. apply wp_bind, wp_zoom. eapply wp_conseq; [exact Hm|]. intros a m' HR. by apply Hk.
Qed.

(** A fresh envoy_headers in [m'] holding [entries], and nothing else new. *)
Definition fresh_headers (m m' : mem) (eh : envoy_headers) (entries : list (string * string))
    : Prop :=
  ∃ hs, reads_headers (heap m') eh hs (bytes_entries entries) ∧ Forall header_contained hs ∧
    grows (headers_owned eh hs) m m'.

Lemma same_queue_trace s tr :
  ran tr = [] → same_queue s (set_trace (trace s ++ tr) s).
Proof. intros Htr. split_and!; try done. cbn. unfold ran in *. by rewrite omap_app, Htr, app_nil_r. Qed.


(** encodeHeaders for a response (a success, or an upstream that answered). If
    memory lasts, it returns; the platform gets exactly one on_headers with a fresh
    copy of the header pairs, which it owns, followed by on_complete when the stream
    ends; the stream then leaves the map for the deferred deletion list and the
    counter for the status' class moves. *)
Theorem encodeHeaders_response s o ds st (headers : HM) end_stream status :
  open_stream s o ds st → getResponseStatus headers = Some status →
  is_local_reply headers status = false →
  mem_wf (st_mem s) → (hm_size headers ≤ INT_MAX)%Z →
  wp (encodeHeaders o headers end_stream) oom (λ _ s', ∃ eh,
    fresh_headers (st_mem s) (st_mem s') eh (hm_entries headers) ∧
    after s s' end_stream o (stream_handle_ ds)
      (if end_stream then completed (is2xx (HM := HM) status) st else st)
      ([EvResponseStatus o status; EvSyncPoint "dispatch_encode_headers";
        EvBridge o (OnHeaders eh end_stream)] ++
       (if end_stream then [EvBridge o OnComplete] else []))) s.
Proof.
  intros Hos Hst Hlocal Hwf Hsize. unfold wp at 1.
  rewrite (encodeHeaders_prefix _ _ _ _ _ _ _ Hos Hst), Hlocal.
  set (s1 := removed_if _ _ _ _).
  assert (Hs1 : st_mem s1 = st_mem s ∧ trace s1 = trace s ++ [EvResponseStatus o status] ∧
    stats_ s1 = Some st ∧ objects s1 !! o = Some (on_callbacks (after_status (HM := HM) status) ds) ∧
    streams_ s1 = (if end_stream then delete (stream_handle_ ds) (streams_ s) else streams_ s) ∧
    deferred s1 = deferred s ++ (if end_stream then [o] else []) ∧
    same_queue (status_seen o status s) s1).
  { pose proof (open_update_callbacks _ _ _ _ (after_status (HM := HM) status)
      (open_status_seen _ _ _ _ status Hos)) as [].
    destruct end_stream; unfold s1; cbn; rewrite ?app_nil_r; by split_and!. }
  destruct Hs1 as (Hm & Ht & Hstats & Ho & Hstr & Hdef & Hq). clearbody s1.
  change (wp (syncPoint "dispatch_encode_headers" ;; bridged ← zoom (toBridgeHeaders headers);
    bridge o (OnHeaders bridged end_stream) ;; when end_stream (onComplete o)) oom
    (λ _ s', ∃ eh, fresh_headers (st_mem s) (st_mem s') eh (hm_entries headers) ∧
      after s s' end_stream o (stream_handle_ ds)
        (if end_stream then completed (is2xx (HM := HM) status) st else st)
        ([EvResponseStatus o status; EvSyncPoint "dispatch_encode_headers";
          EvBridge o (OnHeaders eh end_stream)] ++
         (if end_stream then [EvBridge o OnComplete] else []))) s1).
  apply wp_bind, wp_modify. eapply wp_zoom_bind.
  { cbn. rewrite Hm. by apply wp_toBridgeHeaders. }
  intros eh m' Hfresh. eapply wp_run; [eapply deliver_run; [exact Ho|exact Hstats]|]. exists eh.
  split; [by destruct end_stream|].
  pose proof (transitivity (same_queue_trace s [EvResponseStatus o status] eq_refl) Hq) as (Hq1 & Hq2 & Hq3 & Hq4).
  destruct end_stream; split; cbn; rewrite ?Ht, <- ?app_assoc; try done; split_and!; try done;
    unfold ran; cbn; rewrite ?Ht, <- ?app_assoc, omap_app; cbn; by rewrite app_nil_r.
Qed.

(** What the handlers up to a frame leave: an open stream, or one just removed. *)
Record closing (s s' : state HM B) (end_stream : bool) (o : nat) (ds : DirectStream)
    (st : DispatcherStats) : Prop := {
  cl_mem : st_mem s' = st_mem s;
  cl_trace : trace s' = trace s;
  cl_stats : stats_ s' = Some st;
  cl_object : objects s' !! o = Some ds;
  cl_streams : streams_ s' =
    if end_stream then delete (stream_handle_ ds) (streams_ s) else streams_ s;
  cl_deferred : deferred s' = deferred s ++ (if end_stream then [o] else []);
  cl_queues : same_queue s s';
  cl_thread : on_loop_thread s' = on_loop_thread s
}.

Lemma closing_removed s o ds st end_stream :
  open_stream s o ds st →
  closing s (removed_if end_stream (stream_handle_ ds) o s) end_stream o ds st.
Proof. intros []. destruct end_stream; split; cbn; rewrite ?app_nil_r; done. Qed.

(** The memory once [data] holds a fresh copy of the buffer's bytes and the
    buffer's own fragments are released. *)
Definition moved_data (m m' : mem) (b : B) (data : envoy_data) : Prop :=
  ∃ m1, grows (data_owned data) m m1 ∧ self_contained data ∧
    reads_data (heap m1) data (buf_bytes b) ∧
    m' = mem_release (fragments_owned b) (fragments_external b) m1.

(** encodeData on a stream that is not failing. If memory lasts, it returns; the
    platform gets exactly one on_data with a fresh copy of the bytes, which it owns,
    then on_complete when the stream ends; the caller's buffer is drained and each of
    its fragments released once; the stream leaves the map at its end. *)
Theorem encodeData_response s o ds st (data : B) end_stream :
  open_stream s o ds st → error_code_ (callbacks_ ds) = None →
  mem_wf (st_mem s) → allocated (st_mem s) (fragments_owned data) →
  wp (encodeData o data end_stream) oom (λ data' s', ∃ bridged,
    moved_data (st_mem s) (st_mem s') data bridged ∧
    buf_bytes data' = [] ∧ buf_fragments data' = [] ∧
    after s s' end_stream o (stream_handle_ ds)
      (if end_stream then completed (success_ (callbacks_ ds)) st else st)
      ((if end_stream then [EvSyncPoint "dispatch_encode_final_data"] else []) ++
       [EvBridge o (OnData bridged end_stream)] ++
       (if end_stream then [EvBridge o OnComplete] else []))) s.
Proof.
  intros Hos Herr Hwf Hown. unfold encodeData.
  apply wp_bind. eapply wp_run; [by eapply assert_present_run|].
  apply wp_bind. eapply wp_run; [by eapply close_if_run|].
  destruct (closing_removed _ _ _ _ end_stream Hos) as [Hm Ht Hst Ho Hstr Hdef Hq Hth].
  set (s1 := removed_if _ _ _ _) in *. clearbody s1.
  apply wp_bind. eapply wp_run; [by apply get_object_run|].
  rewrite Herr, bool_decide_eq_false_2 by (by intros [? ?]).
  set (pre := if end_stream then [EvSyncPoint "dispatch_encode_final_data"] else [] : list (event HM B)).
  assert (Hsync : when end_stream (syncPoint "dispatch_encode_final_data") s1 =
    Ok (tt, set_trace (trace s1 ++ pre) s1)).
  { unfold pre. destruct end_stream; [done|]. rewrite app_nil_r. by destruct s1. }
  apply wp_bind. eapply wp_run; [exact Hsync|]. eapply wp_zoom_bind.
  { cbn. rewrite Hm. by apply wp_toBridgeData. }
  intros [bridged data'] m' (m1 & Hg & Hx & Hr & -> & Hb & Hf). cbn in Hb, Hf, Hg, Hx, Hr.
  pose proof (deliver_run (set_st_mem (mem_release (fragments_owned data) (fragments_external data) m1)
    (set_trace (trace s1 ++ pre) s1)) o ds st (OnData bridged end_stream) end_stream Ho Hst) as Hd.
  rewrite bind_Ok in Hd. destruct Hd as ([] & s2 & Hd1 & Hd2).
  apply wp_bind. eapply wp_run; [exact Hd1|].
  apply wp_bind. eapply wp_run; [exact Hd2|]. apply wp_ret.
  exists bridged. split; [by destruct end_stream; exists m1|]. split_and!; [done..|].
  destruct Hq as (Hq1 & Hq2 & Hq3 & Hq4).
  destruct end_stream; split; cbn; rewrite ?Ht, <- ?app_assoc; try done; split_and!; try done;
    unfold ran; cbn; rewrite ?Ht, <- ?app_assoc, omap_app; cbn; by rewrite app_nil_r.
Qed.

(** encodeTrailers. If memory lasts, it returns; the stream leaves the map, and
    the platform gets on_trailers with a fresh copy of the trailers and on_complete. *)
Theorem encodeTrailers_response s o ds st (trailers : HM) :
  open_stream s o ds st → mem_wf (st_mem s) → (hm_size trailers ≤ INT_MAX)%Z →
  wp (encodeTrailers o trailers) oom (λ _ s', ∃ eh,
    fresh_headers (st_mem s) (st_mem s') eh (hm_entries trailers) ∧
    after s s' true o (stream_handle_ ds) (completed (success_ (callbacks_ ds)) st)
      [EvBridge o (OnTrailers eh); EvBridge o OnComplete]) s.
Proof.
  intros Hos Hwf Hsize. unfold encodeTrailers.
  apply wp_bind. eapply wp_run; [by eapply assert_present_run|].
  apply wp_bind. eapply wp_run; [by eapply closeStream_run|].
  destruct (closing_removed _ _ _ _ true Hos) as [Hm Ht Hst Ho Hstr Hdef Hq Hth].
  cbn [removed_if] in *. set (s1 := removed _ _ _) in *. clearbody s1.
  eapply wp_zoom_bind; [rewrite Hm; by apply wp_toBridgeHeaders|]. intros eh m' Hfresh.
  eapply wp_run; [apply (deliver_run _ _ ds st _ true); [exact Ho|exact Hst]|]. exists eh.
  split; [done|]. destruct Hq as (Hq1 & Hq2 & Hq3 & Hq4).
  split; cbn; rewrite ?Ht, <- ?app_assoc; try done; split_and!; try done;
    unfold ran; cbn; rewrite ?Ht, <- ?app_assoc, omap_app; cbn; by rewrite app_nil_r.
Qed.

(** The error a local reply turns into, with [message] as its body. *)
Definition reply_error (status : Z) (headers : HM) (message : envoy_data)
    (cb : DirectStreamCallbacks) : envoy_error :=
  EnvoyError (reply_code status) message
    (default (default (-1)%Z (error_attempt_count_ cb)) (reply_attempts headers)).

Lemma local_reply_prefix s o ds st (headers : HM) status end_stream :
  open_stream s o ds st → getResponseStatus headers = Some status →
  is_local_reply headers status = true →
  ∃ s1, encodeHeaders o headers end_stream s = when end_stream (onError o) s1 ∧
    closing (status_seen o status s) s1 end_stream o
      (on_callbacks (λ cb, local_reply status headers (after_status (HM := HM) status cb)) ds) st.
Proof.
  intros Hos Hst Hlocal.
  rewrite (encodeHeaders_prefix _ _ _ _ _ _ _ Hos Hst), Hlocal. cbv zeta.
  rewrite (bind_run _ _ _ _ _ (mapLocalResponseToError_run _ _ _ _ Hst)).
  eexists. split; [reflexivity|].
  pose proof (closing_removed _ _ _ _ end_stream
    (open_update_callbacks _ _ _ _ (after_status (HM := HM) status)
      (open_status_seen _ _ _ _ status Hos))) as [Hm Ht Hs Ho Hstr Hdef Hq Hth].
  set (s1 := removed_if _ _ _ _) in *. clearbody s1.
  split; try done. cbn. by rewrite lookup_alter_eq, Ho.
Qed.

Lemma onError_closing s s1 o ds st :
  closing s s1 true o ds st →
  ∃ s', onError o s1 = Ok (tt, s') ∧ st_mem s' = st_mem s ∧
    after s s' true o (stream_handle_ ds) (inc_failure st)
      [EvSyncPoint "dispatch_on_error"; EvBridge o (OnError (stream_error (callbacks_ ds)))].
Proof.
  intros [Hm Ht Hs Ho Hstr Hdef Hq Hth]. eexists.
  split; [apply (onError_run _ _ ds st); [done..|]|split; [done|]].
  { rewrite Hstr. apply lookup_delete_eq. }
  destruct Hq as (Hq1 & Hq2 & Hq3 & Hq4).
  split; cbn; rewrite ?Ht; try done. split_and!; try done. cbn. unfold ran.
  by rewrite omap_app, app_nil_r, Ht.
Qed.

Lemma after_status_seen s s' end_stream o h st evs status :
  after (status_seen o status s) s' end_stream o h st evs →
  after s s' end_stream o h st (EvResponseStatus o status :: evs).
Proof.
  intros [? ? ? Ht Hq]. split; try done; [by rewrite Ht; cbn; rewrite <- app_assoc|].
  etrans; [|exact Hq]. by apply same_queue_trace.
Qed.

(** A local reply without a body. A response that is no success and that no
    upstream answered, ending the stream with its headers, reaches the platform as
    one on_error (connection failure for 503, undefined otherwise; no message; the
    attempt count Envoy gives), and nothing else: no on_headers, no on_complete. *)
Theorem local_reply_headers_only s o ds st (headers : HM) status :
  open_stream s o ds st → getResponseStatus headers = Some status →
  is_local_reply headers status = true →
  error_message_ (callbacks_ ds) = None →
  ∃ s', encodeHeaders o headers true s = Ok (tt, s') ∧ st_mem s' = st_mem s ∧
    after s s' true o (stream_handle_ ds) (inc_failure st)
      [EvResponseStatus o status; EvSyncPoint "dispatch_on_error";
       EvBridge o (OnError (reply_error status headers envoy_nodata (callbacks_ ds)))].
Proof.
  intros Hos Hst Hlocal Hmsg.
  destruct (local_reply_prefix _ _ _ _ _ _ true Hos Hst Hlocal) as (s1 & -> & Hcl).
  destruct (onError_closing _ _ _ _ _ Hcl) as (s' & Hrun & Hm & Haf).
  exists s'. split; [exact Hrun|]. split; [done|]. apply after_status_seen.
  cbn in Haf. unfold stream_error, local_reply, after_status in Haf. cbn in Haf.
  rewrite Hmsg in Haf. unfold reply_error. by destruct (reply_attempts headers).
Qed.

Lemma closing_open s s1 o ds ds1 st :
  open_stream s o ds st → stream_handle_ ds1 = stream_handle_ ds →
  closing s s1 false o ds1 st → open_stream s1 o ds1 st.
Proof.
  intros [Hed Hth Hs Ho Hmap] Hh [Hm Ht Hs1 Ho1 Hstr Hdef (Hq1 & Hq2 & Hq3 & Hq4) Hth1].
  split; congruence.
Qed.

Lemma closing_twice s s1 s2 o ds1 ds2 st :
  closing s s1 false o ds1 st → stream_handle_ ds2 = stream_handle_ ds1 →
  closing s1 s2 true o ds2 st → closing s s2 true o ds2 st.
Proof.
  intros [Hm Ht Hs Ho Hstr Hdef Hq Hth] Hh [Hm2 Ht2 Hs2 Ho2 Hstr2 Hdef2 Hq2 Hth2].
  split; try congruence; [|by etrans].
  rewrite Hdef2, Hdef, app_nil_r. done.
Qed.

Lemma encodeData_error_run s o ds st (body : B) :
  open_stream s o ds st → is_Some (error_code_ (callbacks_ ds)) →
  ∃ s1, closing s s1 true o ds st ∧
    encodeData o body true s =
    ('(message, data) ← zoom (toBridgeData body);
     update_callbacks o (set_error_message (Some message)) ;;
     onError o ;;
     mret data) s1.
Proof.
  intros Hos Herr. exists (removed (stream_handle_ ds) o s).
  pose proof (closing_removed _ _ _ _ true Hos) as Hcl. cbn [removed_if] in Hcl.
  split; [done|]. unfold encodeData.
  run (assert_present_run _ _ _ _ Hos). run (close_if_run _ _ _ _ true Hos). cbn [removed_if].
  run (get_object_run _ _ _ (cl_object _ _ _ _ _ _ Hcl)).
  rewrite bool_decide_eq_true_2 by done.
  rewrite (bind_run _ _ (removed (stream_handle_ ds) o s) tt (removed (stream_handle_ ds) o s)); [done|].
  unfold ASSERT. by destruct ASSERT_enabled.
Qed.

(** A local reply with a body. Its headers, then its single data frame, reach
    the platform as one on_error whose message is a fresh copy of the body; the
    body's buffer is drained; nothing else is called. *)
Theorem local_reply_with_body s o ds st (headers : HM) status (body : B) :
  open_stream s o ds st → getResponseStatus headers = Some status →
  is_local_reply headers status = true →
  mem_wf (st_mem s) → allocated (st_mem s) (fragments_owned body) →
  wp (encodeHeaders o headers false ;; encodeData o body true) oom (λ body' s', ∃ message,
    moved_data (st_mem s) (st_mem s') body message ∧
    buf_bytes body' = [] ∧ buf_fragments body' = [] ∧
    after s s' true o (stream_handle_ ds) (inc_failure st)
      [EvResponseStatus o status; EvSyncPoint "dispatch_on_error";
       EvBridge o (OnError (reply_error status headers message (callbacks_ ds)))]) s.
Proof.
  intros Hos Hst Hlocal Hwf Hown.
  destruct (local_reply_prefix _ _ _ _ _ _ false Hos Hst Hlocal) as (s1 & Hrun1 & Hcl1).
  apply wp_bind. eapply wp_run; [exact Hrun1|].
  set (ds1 := on_callbacks _ ds) in *.
  assert (Hos1 : open_stream s1 o ds1 st)
    by (eapply closing_open; [exact (open_status_seen _ _ _ _ status Hos)|done|exact Hcl1]).
  destruct (encodeData_error_run s1 o ds1 st body Hos1) as (s2 & Hcl2 & Hrun2); [by eexists|].
  unfold wp at 1. rewrite Hrun2.
  assert (Hcl := closing_twice _ _ _ _ _ _ _ Hcl1 eq_refl Hcl2).
  clear Hcl1 Hcl2 Hos1 Hrun1 Hrun2. fold (wp (A := B) (St := state HM B)).
  enough (Hgoal : wp ('(message, data) ← zoom (toBridgeData body);
    update_callbacks o (set_error_message (Some message)) ;; onError o ;; mret data) oom
    (λ body' s', ∃ message, moved_data (st_mem s) (st_mem s') body message ∧
      buf_bytes body' = [] ∧ buf_fragments body' = [] ∧
      after s s' true o (stream_handle_ ds) (inc_failure st)
        [EvResponseStatus o status; EvSyncPoint "dispatch_on_error";
         EvBridge o (OnError (reply_error status headers message (callbacks_ ds)))]) s2)
    by exact Hgoal.
  eapply wp_zoom_bind; [rewrite (cl_mem _ _ _ _ _ _ Hcl); by apply wp_toBridgeData|].
  intros [message data'] m' (m1 & Hg & Hx & Hr & -> & Hb & Hf). cbn in Hb, Hf, Hg, Hx, Hr.
  apply wp_bind, wp_modify.
  set (s3 := set_objects _ _).
  set (s0 := set_st_mem (st_mem s3) (status_seen o status s)).
  assert (Hcl3 : closing s0 s3 true o (on_callbacks (set_error_message (Some message)) ds1) st).
  { destruct Hcl as [Hm Ht Hs Ho Hstr Hdef Hq Hth]. split; try done. cbn. by rewrite lookup_alter_eq, Ho. }
  destruct (onError_closing _ _ _ _ _ Hcl3) as (s' & Hrun & Hm & Haf).
  apply wp_bind. eapply wp_run; [exact Hrun|]. apply wp_ret. exists message.
  rewrite Hm. split; [by exists m1|]. split_and!; [done..|].
  assert (after (status_seen o status s) s' true o (stream_handle_ ds) (inc_failure st)
    [EvSyncPoint "dispatch_on_error";
     EvBridge o (OnError (reply_error status headers message (callbacks_ ds)))]) as Haf'.
  { destruct Haf as [H1 H2 H3 H4 H5]. split; try done.
    rewrite H4. unfold stream_error, reply_error, ds1, local_reply. cbn.
    by destruct (reply_attempts headers). }
  by apply after_status_seen.
Qed.

(** The width of the attempt count. Envoy's count is a uint32; what a local reply
    reports to the platform is its two's complement 32-bit reading, so counts from
    2^31 on are reported negative, and the largest one as the "unknown" value -1. *)
Theorem attempt_count_width (headers : HM) v n `{!EnvoyCodecLaws HM} :
  EnvoyAttemptCount headers = Some v → SimpleAtoi_uint32 (HM := HM) v = Some n →
  reply_attempts headers = Some (if bool_decide (n < 2 ^ 31)%Z then n else n - 2 ^ 32)%Z.
Proof.
  intros Hc Hn. unfold reply_attempts. rewrite Hc. cbn. rewrite Hn. cbn. f_equal.
  pose proof (SimpleAtoi_range _ _ Hn). case_bool_decide; [apply s32_small; lia|].
  unfold s32, wrap_signed.
  replace (n + 2 ^ (32 - 1))%Z with (n - 2 ^ 31 + 1 * 2 ^ 32)%Z by lia.
  rewrite Z.mod_add, Z.mod_small; lia.
Qed.

(** cancelStream on an open stream. The stream leaves the map first, then the
    platform gets on_cancel and the counter moves, the response details say who
    cancelled, and only then the HCM's reset callbacks run, once, with RemoteReset,
    in that state. *)
Theorem cancelStream_open s o ds st (runResetCallbacks : nat → StreamResetReason → M (state HM B) unit) :
  open_stream s o ds st →
  cancelStream_cb runResetCallbacks (stream_handle_ ds) s =
  runResetCallbacks o RemoteReset
    (set_objects (alter (setResponseDetails getCancelDetails) o (objects s))
      (terminated (inc_cancel st) [EvSyncPoint "dispatch_on_cancel"] o OnCancel
        (removed (stream_handle_ ds) o s))).
Proof.
  intros Hos. unfold cancelStream_cb, getStream.
  rewrite (bind_run _ _ s (Some o) s) by (unfold gets; by rewrite (os_map _ _ _ _ Hos)).
  run (get_object_run _ _ _ (os_object _ _ _ _ Hos)). run (removeStream_run _ _ _ _ Hos).
  set (s1 := removed _ _ _).
  rewrite (bind_run _ _ s1 tt (set_trace (trace s1 ++ [EvSyncPoint "dispatch_on_cancel"]) s1)) by done.
  set (s2 := set_trace _ s1).
  rewrite (bind_run _ _ _ _ _ (onCancel_run s2 o ds st (os_object _ _ _ _ Hos) (os_stats _ _ _ _ Hos))).
  match goal with |- (_ ≫= _) ?s3 = _ =>
    rewrite (bind_run _ _ s3 tt (set_objects (alter (setResponseDetails getCancelDetails) o (objects s)) s3))
      by done end.
  unfold terminated. cbn. by rewrite <- app_assoc.
Qed.

(** resetStream. The HCM's reset callbacks run first. If they leave the stream
    open it is removed and reported by one on_error; if they, or an earlier end of
    the stream, have removed it, nothing more happens. *)
Theorem resetStream_once s s1 o ds0 ds st run reason :
  objects s !! o = Some ds0 → run reason s = Ok (tt, s1) → objects s1 !! o = Some ds →
  (open_stream s1 o ds st →
   resetStream run o reason s =
   Ok (tt, terminated (inc_failure st) [EvSyncPoint "dispatch_on_error"] o
       (OnError (stream_error (callbacks_ ds))) (removed (stream_handle_ ds) o s1))) ∧
  (streams_ s1 !! stream_handle_ ds = None → resetStream run o reason s = Ok (tt, s1)).
Proof.
  intros Ho0 Hrun Ho. unfold resetStream. run (get_object_run _ _ _ Ho0). run Hrun.
  run (get_object_run _ _ _ Ho). unfold getStream. split.
  - intros Hos. rewrite (bind_run _ _ s1 (Some o) s1) by (unfold gets; by rewrite (os_map _ _ _ _ Hos)).
    run (removeStream_run _ _ _ _ Hos).
    apply onError_run; [done|by destruct Hos|apply removed_absent].
  - intros Hn. by rewrite (bind_run _ _ s1 None s1) by (unfold gets; by rewrite Hn).
Qed.
End incoming.

(** ready posts what waited, and keeps it. The queue of calls made before the
    engine was ready is posted to the event loop in order, and the dispatcher posts
    directly from then on; the queue itself is not emptied, so a second call of
    ready would post the same functors again. *)
Theorem ready_posts_init_queue {HM B} (scope : DispatcherStats) (s : state HM B) :
  ∃ s', ready scope s = Ok (tt, s') ∧ loop_queue s' = loop_queue s ++ init_queue_ s ∧
    event_dispatcher_ s' = true ∧ api_listener_ s' = true ∧ stats_ s' = Some scope ∧
    init_queue_ s' = init_queue_ s.
Proof.
  assert (Hpush : ∀ q (s1 : state HM B),
    for_each q (λ cb, modify (λ s, set_loop_queue (loop_queue s ++ [cb]) s)) s1 =
    Ok (tt, set_loop_queue (loop_queue s1 ++ q) s1)).
  { intros q. induction q as [|f q IH]; intros s1; [rewrite app_nil_r; by destruct s1|].
    transitivity (for_each q (λ cb, modify (λ s, set_loop_queue (loop_queue s ++ [cb]) s))
      (set_loop_queue (loop_queue s1 ++ [f]) s1)); [done|].
    rewrite IH. cbn. by rewrite <- app_assoc. }
  exists (set_api_listener true (set_event_dispatcher true (set_stats (Some scope)
    (set_loop_queue (loop_queue s ++ init_queue_ s) s)))).
  split; [|by split_and!].
  unfold ready. rewrite (bind_run _ _ s (init_queue_ s) s) by done. by run (Hpush _ _).
Qed.

(** ** Witnesses *)

Definition witness_stream : DirectStream := Stream 1 (Some 7%positive) (new_callbacks (EnvoyHttpCallbacks 1 2 3 4 5 6 7 NULL)) "".
Definition witness_state : state ref_map ref_buffer :=
  State true true (Some (Stats 0 0 0)) [] {[1%Z := 0]} ENVOY_NET_WLAN {[0 := witness_stream]} 1
    [] [] true ref_mem [].

Lemma witness_open : open_stream witness_state 0 witness_stream (Stats 0 0 0).
Proof. by split. Qed.

Definition ok_headers : ref_map := RefMap ResponseHeaderMapImpl [(":status", "200"); ("a", "b")].
Definition local_headers : ref_map :=
  RefMap ResponseHeaderMapImpl [(":status", "503"); ("x-envoy-attempt-count", "4294967295")].
Definition witness_body : ref_buffer := RefBuffer (bytes_of "ab") [ref_value].

Lemma witness_body_allocated : allocated (st_mem witness_state) (fragments_owned witness_body).
Proof.
  split; [apply NoDup_singleton|]. intros l ->%list_elem_of_singleton. by eexists.
Qed.

Lemma sendHeaders_request_witness :
  ∃ hm, sendHeaders_cb (mode := release_build) 1 ref_headers true witness_state =
      Ok (tt, set_trace [EvDecodeHeaders 7%positive hm true]
        (set_st_mem (mem_release [1; 2; 3]%positive [] ref_mem) witness_state)) ∧
    hm_entries hm ≡ₕ
      [("key", "ab"); ("x-envoy-mobile-cluster", "base_wlan"); ("x-forwarded-proto", "https")].
Proof.
  refine (sendHeaders_request (mode := release_build) witness_state 0 witness_stream _ 7
    ref_headers [ref_header] ref_pairs true witness_open _ ref_headers_ok _ _ _).
  - reflexivity.
  - vm_compute. left.
  - intros k _. change (length (values k [("key", "ab")]) ≤ 1). rewrite values_cons. cbn.
    case_decide; cbn; lia.
  - reflexivity.
Defined.

Lemma sendData_frame_witness :
  ∃ buf, sendData_cb 1 ref_value true witness_state =
      Ok (tt, set_trace [EvDecodeData 7%positive buf true] witness_state) ∧
    buf_bytes buf = bytes_of "ab" ∧ buf_fragments buf = [ref_value].
Proof.
  apply (sendData_frame witness_state 0 witness_stream _ 7 ref_value _ true witness_open);
    [reflexivity|apply ref_value_reads].
Defined.

Lemma late_calls_dropped_witness :
  run_functor (mode := debug_build) (λ _ _, fail (Panic "")) (λ _ _, fail (Panic ""))
    (PostSendData 9 ref_value true) witness_state = Ok (tt, witness_state).
Proof. apply (late_calls_dropped _ _ _ 9); reflexivity. Defined.

Lemma witness_sizes (hm : ref_map) : length (rm_entries hm) ≤ 10 → (hm_size hm ≤ INT_MAX)%Z.
Proof. intros Hl. change (Z.of_nat (length (rm_entries hm)) ≤ INT_MAX)%Z. unfold INT_MAX. lia. Qed.

Lemma ok_headers_size : (hm_size ok_headers ≤ INT_MAX)%Z.
Proof. apply witness_sizes. cbn. lia. Qed.

Lemma encodeHeaders_response_witness :
  wp (encodeHeaders (mode := debug_build) 0 ok_headers true) oom (λ _ s', ∃ eh,
    fresh_headers (st_mem witness_state) (st_mem s') eh (hm_entries ok_headers) ∧
    after witness_state s' true 0 1 (Stats 1 0 0)
      [EvResponseStatus 0 200; EvSyncPoint "dispatch_encode_headers";
       EvBridge 0 (OnHeaders eh true); EvBridge 0 OnComplete]) witness_state.
Proof.
  exact (encodeHeaders_response (mode := debug_build) witness_state 0 witness_stream _ ok_headers true 200 witness_open
    eq_refl eq_refl ref_mem_wf ok_headers_size).
Defined.

Lemma encodeData_response_witness :
  wp (encodeData (mode := debug_build) 0 witness_body true) oom (λ data' s', ∃ bridged,
    moved_data (st_mem witness_state) (st_mem s') witness_body bridged ∧
    buf_bytes data' = [] ∧ buf_fragments data' = [] ∧
    after witness_state s' true 0 1 (Stats 0 1 0)
      [EvSyncPoint "dispatch_encode_final_data"; EvBridge 0 (OnData bridged true);
       EvBridge 0 OnComplete]) witness_state.
Proof.
  exact (encodeData_response (mode := debug_build) witness_state 0 witness_stream _ witness_body true witness_open
    eq_refl ref_mem_wf witness_body_allocated).
Defined.

Lemma encodeTrailers_response_witness :
  wp (encodeTrailers (mode := debug_build) 0 ok_headers) oom (λ _ s', ∃ eh,
    fresh_headers (st_mem witness_state) (st_mem s') eh (hm_entries ok_headers) ∧
    after witness_state s' true 0 1 (Stats 0 1 0)
      [EvBridge 0 (OnTrailers eh); EvBridge 0 OnComplete]) witness_state.
Proof.
  exact (encodeTrailers_response (mode := debug_build) witness_state 0 witness_stream _ ok_headers witness_open
    ref_mem_wf ok_headers_size).
Defined.

Lemma local_reply_headers_only_witness :
  ∃ s', encodeHeaders (mode := debug_build) 0 local_headers true witness_state = Ok (tt, s') ∧
    st_mem s' = ref_mem ∧
    after witness_state s' true 0 1 (Stats 0 1 0)
      [EvResponseStatus 0 503; EvSyncPoint "dispatch_on_error";
       EvBridge 0 (OnError (reply_error 503 local_headers envoy_nodata (callbacks_ witness_stream)))].
Proof.
  exact (local_reply_headers_only (mode := debug_build) witness_state 0 witness_stream _ local_headers 503 witness_open
    eq_refl eq_refl eq_refl).
Defined.

Lemma local_reply_with_body_witness :
  wp (encodeHeaders (mode := debug_build) 0 local_headers false ;;
      encodeData (mode := debug_build) 0 witness_body true) oom (λ body' s', ∃ message,
    moved_data (st_mem witness_state) (st_mem s') witness_body message ∧
    buf_bytes body' = [] ∧ buf_fragments body' = [] ∧
    after witness_state s' true 0 1 (Stats 0 1 0)
      [EvResponseStatus 0 503; EvSyncPoint "dispatch_on_error";
       EvBridge 0 (OnError (reply_error 503 local_headers message (callbacks_ witness_stream)))])
    witness_state.
Proof.
  exact (local_reply_with_body (mode := debug_build) witness_state 0 witness_stream _ local_headers 503 witness_body
    witness_open eq_refl eq_refl ref_mem_wf witness_body_allocated).
Defined.

Lemma attempt_count_width_witness : reply_attempts local_headers = Some (-1)%Z.
Proof.
  exact (attempt_count_width local_headers "4294967295" 4294967295 eq_refl eq_refl).
Defined.

Lemma cancelStream_open_witness :
  cancelStream_cb (mode := debug_build) (λ _ _, mret tt) 1 witness_state =
  Ok (tt, set_objects {[0 := setResponseDetails getCancelDetails witness_stream]}
      (terminated (Stats 0 0 1) [EvSyncPoint "dispatch_on_cancel"] 0 OnCancel
        (removed 1 0 witness_state))).
Proof.
  refine (eq_trans (cancelStream_open (mode := debug_build) witness_state 0 witness_stream _ _ witness_open) _).
  vm_compute. reflexivity.
Defined.

Lemma resetStream_once_witness :
  resetStream (mode := debug_build) (λ _, mret tt) 0 RemoteReset witness_state =
  Ok (tt, terminated (Stats 0 1 0) [EvSyncPoint "dispatch_on_error"] 0
      (OnError (EnvoyError ENVOY_STREAM_RESET envoy_nodata (-1))) (removed 1 0 witness_state)).
Proof.
  exact (proj1 (resetStream_once (mode := debug_build) witness_state witness_state 0 witness_stream witness_stream
    _ (λ _, mret tt : M (state ref_map ref_buffer) unit) RemoteReset eq_refl eq_refl eq_refl) witness_open).
Defined.
