(* ===== verification/DispatcherSafety.v ===== *)
(** * The dispatcher never faults

    Progress of the dispatcher in a build with ASSERTs: from every state it can
    reach, a call by a well-behaved environment runs to its end unless malloc runs
    out of memory. No ASSERT or RELEASE_ASSERT fires, no empty optional or pointer
    is dereferenced, no exception leaves a handler. Two invariants carry it: the
    allocator's bookkeeping stays sound, and every stream of the map is [Wired] to an
    object with a request decoder inside a ready dispatcher. *)

From S2P Require Export DispatcherSpecs DispatcherProps.

(** ** The memory invariant *)

(** Sound bookkeeping of the heap survives. *)
Definition wf_kept (m m' : mem) : Prop := mem_wf m → mem_wf m'.

#[export] Instance wf_kept_preorder : PreOrder wf_kept.
Proof. split; [by intros m Hm|]. intros m1 m2 m3 H1 H2 Hm. by apply H2, H1. Qed.

Section memory.
Context `{Allocator} {HM : Type} `{!HeaderMap HM} {B : Type} `{!BufferInstance B}.

Lemma wf_insert l (old new : block) m :
  heap m !! l = Some old → wf_kept m (set_heap (<[l := new]> (heap m)) m).
Proof.
  intros Hold Hwf l'. cbn. rewrite lookup_insert. case_decide; [|apply Hwf].
  subst l'. intros _. apply Hwf. by rewrite Hold.
Qed.

Lemma wf_alloc b m : wf_kept m (alloc_block b m).
Proof.
  intros Hwf l. cbn. rewrite lookup_insert. case_decide; [lia|].
  intros Hl%Hwf. lia.
Qed.

Lemma wf_c_malloc size b : preserves wf_kept (c_malloc size b).
Proof.
  intros m p m'. unfold c_malloc. destruct (malloc_ok m size); intros [= <- <-]; [|done].
  apply wf_alloc.
Qed.

Lemma wf_c_free p : preserves wf_kept (c_free p).
Proof.
  intros m [] m'. unfold c_free. destruct p as [l|]; [|by intros [= <-]]. unfold mbind, M_bind, gets; cbn -[heap set_heap].
  destruct (heap m !! l) as [b|]; [|done]. intros [= <-] Hwf l'. cbn.
  rewrite lookup_delete. case_decide; [by intros []|apply Hwf].
Qed.

Lemma wf_write_bytes p bs : preserves wf_kept (write_bytes p bs).
Proof.
  intros m [] m'. unfold write_bytes. case_decide; [by intros [= <-]|].
  destruct p as [l|]; [|done]. unfold mbind, M_bind, gets; cbn -[heap set_heap].
  destruct (heap m !! l) as [[old|hs|d|eh]|] eqn:Hl; try done.
  case_decide; [|done]. intros [= <-]. by eapply wf_insert.
Qed.

Lemma wf_store_header p i hd : preserves wf_kept (store_header p i hd).
Proof.
  intros m [] m'. unfold store_header. destruct p as [l|]; [|done].
  unfold mbind, M_bind, gets; cbn -[heap set_heap].
  destruct (heap m !! l) as [[bs|hs|d|eh]|] eqn:Hl; try done.
  case_decide; [|done]. intros [= <-]. by eapply wf_insert.
Qed.

Lemma wf_release_data d : preserves wf_kept (release_data d).
Proof.
  unfold release_data.
  destruct (data_release d); [apply preserves_ret; exact _|apply wf_c_free|..];
    apply preserves_modify; intros m Hm; exact Hm.
Qed.

#[local] Hint Resolve wf_c_malloc wf_c_free wf_write_bytes wf_store_header
  wf_release_data : preservesdb.

Lemma wf_fold_upto {A} i n (body : Z → A → M mem A) acc :
  (∀ j a, preserves wf_kept (body j a)) → preserves wf_kept (fold_upto i n body acc).
Proof. intros Hb. revert i acc. induction n; intros i acc; cbn; preserve. Qed.

Lemma wf_read_bytes p n : preserves wf_kept (read_bytes p n).
Proof. unfold read_bytes. preserve. Qed.
Lemma wf_load_header p i : preserves wf_kept (load_header p i).
Proof. unfold load_header. preserve. Qed.
Lemma wf_safe_malloc size layout : preserves wf_kept (safe_malloc size layout).
Proof. unfold safe_malloc. preserve. Qed.
#[local] Hint Resolve wf_read_bytes wf_load_header wf_safe_malloc : preservesdb.

Lemma wf_copy_view s : preserves wf_kept (copy_view s).
Proof. unfold copy_view, copy_envoy_data_from. preserve. Qed.
Lemma wf_release_envoy_headers eh : preserves wf_kept (release_envoy_headers eh).
Proof.
  unfold release_envoy_headers. apply preserves_bind; [exact _| |preserve].
  apply wf_fold_upto. preserve.
Qed.
Lemma wf_addCopies eh (hm : HM) : preserves wf_kept (addCopies eh hm).
Proof. apply wf_fold_upto. unfold convertToString. preserve. Qed.
#[local] Hint Resolve wf_copy_view wf_release_envoy_headers wf_addCopies : preservesdb.

Lemma wf_toRequestHeaders eh : preserves wf_kept (toRequestHeaders eh : M mem HM).
Proof. unfold toRequestHeaders. preserve. Qed.
Lemma wf_toRequestTrailers eh : preserves wf_kept (toRequestTrailers eh : M mem HM).
Proof. unfold toRequestTrailers. preserve. Qed.
Lemma wf_toInternalData d : preserves wf_kept (toInternalData d : M mem B).
Proof. unfold toInternalData, addBridgeFragment. preserve. Qed.
Lemma wf_toBridgeData (b : B) : preserves wf_kept (toBridgeData b).
Proof.
  unfold toBridgeData, drain_all, BridgeFragment_done. preserve.
  apply Forall_true. preserve.
Qed.
Lemma wf_toBridgeHeaders (hm : HM) : preserves wf_kept (toBridgeHeaders hm).
Proof.
  unfold toBridgeHeaders. apply preserves_bind; [exact _|preserve|]. intros p.
  generalize (EnvoyHeaders 0 p). induction (hm_entries hm) as [|e es IH]; intros acc; cbn; preserve.
Qed.
End memory.

#[export] Hint Resolve wf_toRequestHeaders wf_toRequestTrailers wf_toInternalData
  wf_toBridgeData wf_toBridgeHeaders : preservesdb.

(** ** Wired streams *)

Section wired.
Context {mode : BuildMode} `{Allocator} {HM : Type} `{!HeaderMap HM} `{!EnvoyCodec HM}
  {B : Type} `{!BufferInstance B}.
Implicit Types (s : state HM B) (o : nat).

(** The stream [h] is the object [o], which has its request decoder. *)
Definition wired_to (objs : gmap nat DirectStream) (h : Z) (o : nat) : Prop :=
  ∃ ds, objs !! o = Some ds ∧ stream_handle_ ds = h ∧ is_Some (request_decoder_ ds).

Record Wired s : Prop := {
  w_ready : event_dispatcher_ s = true → api_listener_ s = true ∧ is_Some (stats_ s);
  w_early h : is_Some (streams_ s !! h) → event_dispatcher_ s = true;
  w_stream h o : streams_ s !! h = Some o → wired_to (objects s) h o;
  w_mem : mem_wf (st_mem s)
}.

(** What every handler but startStream guarantees: streams only leave the map, and the
    objects stay, with their handle and decoder. *)
Record evolves s s' : Prop := {
  ev_ready : event_dispatcher_ s' = event_dispatcher_ s;
  ev_api : api_listener_ s' = api_listener_ s;
  ev_thread : on_loop_thread s' = on_loop_thread s;
  ev_stats : is_Some (stats_ s) → is_Some (stats_ s');
  ev_streams : streams_ s' ⊆ streams_ s;
  ev_object o ds : objects s !! o = Some ds →
    ∃ ds', objects s' !! o = Some ds' ∧ stream_handle_ ds' = stream_handle_ ds ∧
      request_decoder_ ds' = request_decoder_ ds;
  ev_mem : wf_kept (st_mem s) (st_mem s')
}.

#[export] Instance evolves_preorder : PreOrder evolves.
Proof.
  split.
  - intros s. split; try done. eauto.
  - intros s1 s2 s3 E1 E2. split.
    + by rewrite (ev_ready _ _ E2), (ev_ready _ _ E1).
    + by rewrite (ev_api _ _ E2), (ev_api _ _ E1).
    + by rewrite (ev_thread _ _ E2), (ev_thread _ _ E1).
    + intros Hs. by apply (ev_stats _ _ E2), (ev_stats _ _ E1).
    + etrans; [apply (ev_streams _ _ E2)|apply (ev_streams _ _ E1)].
    + intros o ds (ds2 & Ho & Hh & Hd)%(ev_object _ _ E1).
      apply (ev_object _ _ E2) in Ho as (ds3 & Ho & Hh' & Hd').
      exists ds3. split_and!; [done|congruence..].
    + intros Hm. by apply (ev_mem _ _ E2), (ev_mem _ _ E1).
Qed.

Lemma wired_evolves s s' : evolves s s' → Wired s → Wired s'.
Proof.
  intros E W. split.
  - rewrite (ev_ready _ _ E), (ev_api _ _ E). intros [Ha Hs]%(w_ready _ W).
    split; [done|]. by apply (ev_stats _ _ E).
  - intros h [o Ho]. rewrite (ev_ready _ _ E). apply (w_early _ W h). exists o.
    by eapply lookup_weaken, ev_streams.
  - intros h o Ho. eapply lookup_weaken in Ho; [|apply (ev_streams _ _ E)].
    apply (w_stream _ W) in Ho as (ds & Ho & Hh & Hd).
    apply (ev_object _ _ E) in Ho as (ds' & Ho & Hh' & Hd').
    exists ds'. split_and!; [done|congruence|by rewrite Hd'].
  - apply (ev_mem _ _ E), (w_mem _ W).
Qed.

Lemma exists_evolves s s' o : evolves s s' → is_Some (objects s !! o) → is_Some (objects s' !! o).
Proof. intros E [ds Ho]. destruct (ev_object _ _ E o ds Ho) as (ds' & -> & _). by eexists. Qed.

(** *** The handlers evolve the state *)

Lemma evolves_modify (f : state HM B → state HM B) :
  (∀ s, event_dispatcher_ (f s) = event_dispatcher_ s ∧ api_listener_ (f s) = api_listener_ s ∧
    on_loop_thread (f s) = on_loop_thread s ∧ stats_ (f s) = stats_ s ∧
    streams_ (f s) = streams_ s ∧ objects (f s) = objects s ∧ st_mem (f s) = st_mem s) →
  preserves evolves (modify f).
Proof.
  intros Hf. apply preserves_modify. intros s. destruct (Hf s) as (H1 & H2 & H3 & H4 & H5 & H6 & H7).
  split; rewrite ?H1, ?H2, ?H3, ?H4, ?H5, ?H6, ?H7; try done. eauto.
Qed.

Lemma evolves_update_object o f :
  (∀ ds, stream_handle_ (f ds) = stream_handle_ ds ∧ request_decoder_ (f ds) = request_decoder_ ds) →
  preserves evolves (update_object o f : M (state HM B) unit).
Proof.
  intros Hf. apply preserves_modify. intros s. split; try done. intros o' ds Ho. cbn.
  rewrite lookup_alter. case_decide as Heq; [|by eauto]. subst o'. rewrite Ho. cbn.
  exists (f ds). split; [done|apply Hf].
Qed.

Lemma evolves_inc_stat f : preserves evolves (inc_stat f : M (state HM B) unit).
Proof.
  unfold inc_stat. apply preserves_bind; [exact _|preserve|]. intros st.
  apply preserves_bind; [exact _|preserve|]. intros [].
  destruct st; [|apply preserves_fail]. apply preserves_modify.
  intros s. split; try done. eauto.
Qed.

Lemma evolves_zoom {A} (m : M mem A) :
  preserves wf_kept m → preserves evolves (zoom m : M (state HM B) A).
Proof.
  intros Hm s a s'. rewrite zoom_Ok. intros (a' & t & Hr & [= <- ->]).
  split; try done; [eauto|]. by eapply Hm.
Qed.

Lemma evolves_removeStream h : preserves evolves (removeStream h : M (state HM B) unit).
Proof.
  unfold removeStream, getStream.
  repeat (apply preserves_bind; [exact _| |intros ?]); try solve [preserve];
    [apply evolves_modify; by intros|].
  apply preserves_modify. intros s. split; try done; [apply delete_subseteq|eauto].
Qed.
End wired.

#[export] Hint Resolve evolves_inc_stat evolves_zoom evolves_removeStream : preservesdb.
#[export] Hint Extern 1 (preserves evolves (modify _)) =>
  apply evolves_modify; by intros : preservesdb.
#[export] Hint Extern 1 (preserves evolves (emit _)) =>
  apply evolves_modify; by intros : preservesdb.
#[export] Hint Extern 1 (preserves evolves (update_object _ _)) =>
  apply evolves_update_object; by intros : preservesdb.

(** The helpers that are unfolded: the others have lemmas. *)
Create HintDb safetydb.
#[export] Hint Unfold bridge syncPoint get_object getStream update_callbacks closeStream
  mapLocalResponseToError setDestinationCluster assert_present encode100ContinueHeaders
  encodeMetadata sendHeaders_cb sendData_cb sendTrailers_cb hcm_newStream hcm_reset : safetydb.

Section handlers.
Context {mode : BuildMode} `{Allocator} {HM : Type} `{!HeaderMap HM} `{!EnvoyCodec HM}
  {B : Type} `{!BufferInstance B}.
Implicit Types (s : state HM B) (o : nat).

Lemma onComplete_evolves o : preserves evolves (onComplete o : M (state HM B) unit).
Proof. unfold onComplete. autounfold with safetydb. preserve. Qed.
Lemma onError_evolves o : preserves evolves (onError o : M (state HM B) unit).
Proof. unfold onError. autounfold with safetydb. preserve. Qed.
Lemma onCancel_evolves o : preserves evolves (onCancel o : M (state HM B) unit).
Proof. unfold onCancel. autounfold with safetydb. preserve. Qed.
#[local] Hint Resolve onComplete_evolves onError_evolves onCancel_evolves : preservesdb.

Lemma resetStream_evolves (run : StreamResetReason → M (state HM B) unit) o r :
  (∀ r, preserves evolves (run r)) → preserves evolves (resetStream run o r).
Proof. intros Hrun. unfold resetStream. autounfold with safetydb. preserve. Qed.

Lemma exec_hcm_evolves (c : hcm_call HM B) : preserves evolves (exec_hcm c).
Proof.
  revert c. fix IH 1. intros [o hm es|o b es|o hm|o r during|o hm|o]; cbn [exec_hcm].
  - unfold encodeHeaders. autounfold with safetydb. preserve.
  - unfold encodeData. autounfold with safetydb. preserve.
  - unfold encodeTrailers. autounfold with safetydb. preserve.
  - apply resetStream_evolves. intros r'. apply preserves_bind; [exact _|preserve|].
    intros []. apply preserves_for_each; [exact _|].
    induction during; constructor; [apply IH|done].
  - autounfold with safetydb. preserve.
  - autounfold with safetydb. preserve.
Qed.

Lemma during_evolves (l : list (hcm_call HM B)) : preserves evolves (for_each l exec_hcm).
Proof. apply preserves_for_each; [exact _|]. apply Forall_true, exec_hcm_evolves. Qed.
#[local] Hint Resolve during_evolves : preservesdb.

Lemma run_functor_evolves d during f :
  match f with PostStartStream _ _ => False | _ => True end →
  preserves evolves (run_functor (hcm_newStream d during) (hcm_reset during) f : M (state HM B) unit).
Proof.
  destruct f; intros Hf; [done|..]; cbn [run_functor]; [..|unfold cancelStream_cb];
    autounfold with safetydb; preserve.
Qed.

Lemma evolves_queue (q : list functor) s : evolves s (set_loop_queue q s).
Proof. split; try done. eauto. Qed.
Lemma evolves_init_queue (q : list functor) s : evolves s (set_init_queue q s).
Proof. split; try done. eauto. Qed.

Lemma wired_on_loop_thread b s : Wired s → Wired (set_on_loop_thread b s).
Proof. intros [W1 W2 W3 W4]. by split. Qed.

(** startStream: the new object is wired before it enters the map. *)
Lemma startStream_wired (new : nat → bool → M (state HM B) positive) h cb s s' :
  (∀ o b, preserves evolves (new o b)) →
  objects s !! next_object s = None → event_dispatcher_ s = true → Wired s →
  startStream_cb new h cb s = Ok (tt, s') → Wired s'.
Proof.
  intros Hnew Hfresh Hed [W1 W2 W3 W4]. unfold startStream_cb, new_object.
  set (o := next_object s) in *. set (ds := Stream h None (new_callbacks cb) "").
  set (s1 := set_next_object (S o) (set_objects (<[o := ds]> (objects s)) s)).
  assert (Hold : ∀ h' o', streams_ s !! h' = Some o' → o' ≠ o ∧ wired_to (objects s1) h' o').
  { intros h' o' (ds' & Ho' & Hds')%W3.
    assert (o' ≠ o) by (intros ->; by rewrite Hfresh in Ho'). split; [done|].
    exists ds'. cbn. by rewrite lookup_insert_ne. }
  assert (W : Wired s1) by (split; try done; by intros h' o' [_ ?]%Hold).
  rewrite !bind_Ok. intros (o0 & s0 & Ho0 & Hrun). injection Ho0 as <- <-.
  destruct (W1 Hed) as [Hapi _]. apply bind_Ok in Hrun as (a & s2 & [= <- <-] & Hrun).
  cbn in Hrun. rewrite Hapi in Hrun. apply bind_Ok in Hrun as ([] & s2 & [= <-] & Hrun).
  apply bind_Ok in Hrun as (d & s2 & Hd & Hrun). fold s1 in Hd. apply Hnew in Hd as E.
  apply (wired_evolves _ _ E) in W as [X1 X2 X3 X4].
  assert (Hsub : ∀ h' o', streams_ s2 !! h' = Some o' → o' ≠ o).
  { intros h' o' Hs. by eapply Hold, lookup_weaken, (ev_streams _ _ E). }
  destruct (ev_object _ _ E o ds) as (ds2 & Ho2 & Hh2 & _); [apply lookup_insert_eq|].
  apply bind_Ok in Hrun as ([] & s3 & [= <-] & Hrun).
  apply bind_Ok in Hrun as (str & s3 & [= <- <-] & Hrun). cbn in Hrun.
  assert (Hw : ∀ h' o', streams_ s2 !! h' = Some o' →
    wired_to (delete o (alter (set_request_decoder (Some d)) o (objects s2))) h' o' ∧
    wired_to (alter (set_request_decoder (Some d)) o (objects s2)) h' o').
  { intros h' o' Hs. pose proof (Hsub _ _ Hs). destruct (X3 _ _ Hs) as (ds' & Ho' & ?).
    split; exists ds'; by rewrite ?lookup_delete_ne, lookup_alter_ne by done. }
  destruct (streams_ s2 !! h) as [o'|] eqn:Hs2; injection Hrun as <-.
  - split; try done. intros h' o'' Hs. by apply Hw.
  - split; try done; cbn.
    + intros h' _. by rewrite (ev_ready _ _ E).
    + intros h' o''. rewrite lookup_insert. case_decide; [|intros Hs; by apply Hw].
      subst h'. intros [= <-]. exists (set_request_decoder (Some d) ds2).
      rewrite lookup_alter_eq. unfold o in Ho2. by rewrite Ho2.
Qed.

Lemma clear_deferred_wired s s' : clear_deferred s = Ok (tt, s') → Wired s → Wired s'.
Proof.
  intros [= <-] [W1 W2 W3 W4]. split; try done. intros h o Hs. cbn in Hs.
  destruct (W3 _ _ Hs) as (ds & Ho & Hds). exists ds. split; [|done]. cbn.
  rewrite clear_lookup, decide_False; [done|]. intros [_ []].
  apply list_elem_of_fmap. exists (h, o). split; [done|]. by apply elem_of_map_to_list.
Qed.

(** ready queues what waited, and readies the dispatcher. *)
Lemma ready_run scope s :
  ready scope s = Ok (tt, set_api_listener true (set_event_dispatcher true
    (set_stats (Some scope) (set_loop_queue (loop_queue s ++ init_queue_ s) s)))).
Proof.
  unfold ready. rewrite (bind_run _ _ s (init_queue_ s) s) by done.
  rewrite (bind_run _ _ s tt (set_loop_queue (loop_queue s ++ init_queue_ s) s)); [done|].
  generalize (init_queue_ s). intros q. revert s. induction q as [|f q IH]; intros s.
  - cbn. rewrite app_nil_r. by destruct s.
  - cbn [for_each foldr]. rewrite (bind_run _ _ s tt (set_loop_queue (loop_queue s ++ [f]) s)) by done.
    etrans; [apply IH|]. cbn. by rewrite <- app_assoc.
Qed.
End handlers.

Section reach.
#[local] Existing Instance debug_build.
Context `{Allocator} {HM : Type} `{!HeaderMap HM} `{!EnvoyCodec HM}
  {B : Type} `{!BufferInstance B}.
Implicit Types (s : state HM B) (o : nat).

Lemma Inv_no_object X s o : Inv X s → next_object s ≤ o → objects s !! o = None.
Proof.
  intros HI (_ & Hh & _)%(inv_fresh _ _ HI). unfold handles in Hh.
  rewrite lookup_fmap in Hh. by destruct (objects s !! o).
Qed.

Lemma Inv_queue_ready X s n f : Inv X s → loop_queue s !! n = Some f → event_dispatcher_ s = true.
Proof.
  intros HI Hf. destruct (event_dispatcher_ s) eqn:He; [done|].
  by rewrite (inv_queue _ _ HI He) in Hf.
Qed.

Lemma run_posted_wired n d during s s' :
  Inv ∅ s → run_posted n d during s = Ok (tt, s') → Wired s → Wired s'.
Proof.
  intros HI. unfold run_posted. intros Hrun W. apply bind_Ok in Hrun as (q & s1 & [= <- <-] & Hrun).
  destruct (loop_queue s !! n) as [f|] eqn:Hf; [|by injection Hrun as <-].
  pose proof (Inv_queue_ready _ _ _ _ HI Hf) as Hed.
  apply bind_Ok in Hrun as ([] & s1 & [= <-] & Hrun).
  apply bind_Ok in Hrun as ([] & s1 & [= <-] & Hrun).
  set (s1 := set_trace _ _) in Hrun.
  assert (W1 : Wired s1) by (destruct W; by split).
  destruct f as [h cb|h hs b|h dt b|h hs|h].
  { eapply startStream_wired; [..|exact Hrun]; try done.
    2:{ by apply (Inv_no_object ∅ s). }
    intros o b. pose proof during_evolves. unfold hcm_newStream. preserve. }
  all: eapply wired_evolves; [|exact W1]; eapply run_functor_evolves; [|exact Hrun]; exact I.
Qed.

Lemma post_wired f s s' : post f s = Ok (tt, s') → Wired s → Wired s'.
Proof.
  unfold post. intros (ed & s1 & [= <- <-] & Hrun)%bind_Ok.
  destruct (event_dispatcher_ s); injection Hrun as <-;
    apply wired_evolves; [apply evolves_queue|apply evolves_init_queue].
Qed.

Lemma step_wired scope s l s' : step scope s l s' → Inv ∅ s → Wired s → Wired s'.
Proof.
  intros Hst HI W.
  assert (Hrun : ∀ b m, (modify (set_on_loop_thread b) ;; m) s = Ok (tt, s') →
    m (set_on_loop_thread b s) = Ok (tt, s')).
  { intros b m. by intros ([] & s1 & [= <-] & Hm)%bind_Ok. }
  assert (HIb := λ b, Inv_on_loop_thread b ∅ s HI).
  assert (Wb := λ b, wired_on_loop_thread b s W).
  destruct Hst as [f s s' Hf Hr|s s' Hed Hr|n d dur s s' Hr|c s s' Hr|s s' Hr|n s s' Hr]; cbn in Hr.
  - apply Hrun, bind_Ok in Hr as (r & s1 & Hc & [= <-]).
    apply (post_wired f (set_on_loop_thread false s) s1); [|done].
    destruct f; cbn in Hc; by apply bind_Ok in Hc as ([] & s2 & Hp & [= <- <-]).
  - apply Hrun in Hr. rewrite ready_run in Hr. injection Hr as <-.
    destruct W as [W1 W2 W3 W4]. by split.
  - apply Hrun in Hr. by eapply run_posted_wired in Hr.
  - apply Hrun, exec_hcm_evolves in Hr. by eapply wired_evolves.
  - apply Hrun in Hr. by eapply clear_deferred_wired.
  - injection Hr as <-. destruct W; by split.
Qed.

Lemma init_wired m : mem_wf m → Wired (init_state m : state HM B).
Proof. intros Hm. split; try done. intros h [o Ho]. done. Qed.

Lemma steps_wired scope s ls s' : steps scope s ls s' → Inv ∅ s → Wired s → Wired s'.
Proof.
  induction 1 as [|s ls l s' s'' Hss IH Hst]; [done|]. intros HI W.
  eapply step_wired; [done| |by apply IH]. by eapply steps_Inv.
Qed.
End reach.

(** ** Progress *)

Section progress.
Context {mode : BuildMode} `{Allocator} {HM : Type} `{!HeaderMap HM} `{!EnvoyCodec HM}
  {B : Type} `{!BufferInstance B} `{!HeaderMapLaws HM} `{!BufferLaws B}.
Implicit Types (s : state HM B) (o : nat).

(** Returns, or ran out of memory. *)
Definition safe {A} (m : M (state HM B) A) s : Prop := wp m oom (λ _ _, True) s.

Lemma wired_open s h o :
  Wired s → on_loop_thread s = true → streams_ s !! h = Some o →
  ∃ ds st d, open_stream s o ds st ∧ stream_handle_ ds = h ∧ request_decoder_ ds = Some d.
Proof.
  intros W Hth Hs. destruct (w_stream _ W _ _ Hs) as (ds & Ho & <- & [d Hd]).
  assert (Hed : event_dispatcher_ s = true) by (apply (w_early _ W (stream_handle_ ds)); eauto).
  destruct (w_ready _ W Hed) as [_ [st Hst]]. exists ds, st, d. by split_and!.
Qed.

Lemma live_open s o :
  Wired s → on_loop_thread s = true → live o s → ∃ ds st, open_stream s o ds st.
Proof.
  intros W Hth (h & _ & Hs). destruct (wired_open _ _ _ W Hth Hs) as (ds & st & _ & Hos & _).
  by exists ds, st.
Qed.

(** *** The response handlers *)

Lemma deliver_safe s o ds st ev (end_stream : bool) :
  objects s !! o = Some ds → stats_ s = Some st →
  safe (bridge o ev ;; when end_stream (onComplete o)) s.
Proof. intros Ho Hst. unfold safe. eapply wp_run; [by eapply deliver_run|done]. Qed.

Lemma failing_safe s o ds st f (end_stream : bool) :
  open_stream s o ds st →
  let s1 := removed_if end_stream (stream_handle_ ds) o s in
  safe (when end_stream (onError o)) (set_objects (alter (on_callbacks f) o (objects s1)) s1).
Proof.
  intros Hos s1. destruct end_stream; [|done]. unfold safe.
  eapply wp_run; [|done]. apply (onError_run _ _ (on_callbacks f ds) st).
  - cbn. by rewrite lookup_alter_eq, (os_object _ _ _ _ Hos).
  - apply (os_stats _ _ _ _ Hos).
  - apply removed_absent.
Qed.

Lemma encodeHeaders_safe s o ds st (headers : HM) end_stream status :
  open_stream s o ds st → getResponseStatus headers = Some status →
  mem_wf (st_mem s) → (hm_size headers ≤ INT_MAX)%Z →
  safe (encodeHeaders o headers end_stream) s.
Proof.
  intros Hos Hst Hwf Hsize. unfold safe, wp.
  rewrite (encodeHeaders_prefix _ _ _ _ _ _ _ Hos Hst).
  pose proof (open_update_callbacks _ _ _ _ (after_status (HM := HM) status)
    (open_status_seen _ _ _ _ status Hos)) as Hos1.
  set (s0 := with_callbacks _ o _) in *. set (ds1 := on_callbacks _ ds) in *.
  change (stream_handle_ ds) with (stream_handle_ ds1).
  destruct (is_local_reply headers status).
  - rewrite (bind_run _ _ _ _ _ (mapLocalResponseToError_run _ _ _ _ Hst)).
    by apply (failing_safe s0 o ds1 st).
  - destruct (closing_removed _ _ _ _ end_stream Hos1) as [Hm _ Hst1 Ho _ _ _ _].
    set (s1 := removed_if _ _ _ _) in *. clearbody s1.
    match goal with |- match ?m s1 with _ => _ end => change (safe m s1) end.
    apply wp_bind, wp_modify. eapply wp_zoom_bind.
    { cbn. rewrite Hm. by apply wp_toBridgeHeaders. }
    intros eh m' _. by apply (deliver_safe _ _ ds1 st).
Qed.

Lemma encodeData_safe s o ds st (data : B) end_stream :
  open_stream s o ds st →
  (is_Some (error_code_ (callbacks_ ds)) → end_stream = true) →
  mem_wf (st_mem s) → allocated (st_mem s) (fragments_owned data) →
  safe (encodeData o data end_stream) s.
Proof.
  intros Hos Herr Hwf Hown. unfold encodeData.
  apply wp_bind. eapply wp_run; [by eapply assert_present_run|].
  apply wp_bind. eapply wp_run; [by eapply close_if_run|].
  destruct (closing_removed _ _ _ _ end_stream Hos) as [Hm _ Hst Ho Hstr _ _ _].
  set (s1 := removed_if _ _ _ _) in *. clearbody s1.
  apply wp_bind. eapply wp_run; [by apply get_object_run|].
  case_bool_decide as He.
  - rewrite (Herr He) in *. apply wp_bind, wp_ASSERT; [intros _|done].
    eapply wp_zoom_bind; [rewrite Hm; by apply wp_toBridgeData|].
    intros [message data'] m' _. apply wp_bind, wp_modify, wp_bind.
    eapply wp_run; [|by apply wp_ret].
    apply (onError_run _ _ (on_callbacks (set_error_message (Some message)) ds) st); [|done|].
    + cbn. by rewrite lookup_alter_eq, Ho.
    + cbn. by rewrite Hstr, lookup_delete_eq.
  - apply wp_bind, wp_when; intros Hes; [apply wp_modify|].
    all: eapply wp_zoom_bind; [cbn; rewrite Hm; by apply wp_toBridgeData|].
    all: intros [bridged data'] m' _; cbn.
    all: apply wp_bind, wp_modify, wp_bind.
    all: apply wp_when; intros _; [|by apply wp_ret].
    all: eapply wp_run; [by apply (onComplete_run _ _ ds st)|by apply wp_ret].
Qed.

(** *** Resets, and what runs inside them *)

(** The HCM resets objects that exist; while their callbacks run, it only resets
    others. *)
Fixpoint reset_call (objs : gmap nat DirectStream) (c : hcm_call HM B) : Prop :=
  match c with
  | HcmResetStream o _ during =>
      is_Some (objs !! o) ∧ foldr (λ c P, reset_call objs c ∧ P) True during
  | _ => False
  end.
Definition reset_calls objs (l : list (hcm_call HM B)) : Prop :=
  foldr (λ c P, reset_call objs c ∧ P) True l.

(** Total, and the state evolves: what lets the handler around it go on. *)
Definition carries_on (m : M (state HM B) unit) s : Prop :=
  wp m no_fault (λ _ s', evolves s s') s.

Lemma carries_on_run m s :
  preserves evolves m → wp m no_fault (λ _ _, True) s → carries_on m s.
Proof.
  intros Hm (a & s' & Hr & _)%wp_total. eapply wp_run; [done|]. by eapply Hm.
Qed.

(** A stream that is removed reports its error. *)
Lemma remove_error_safe s o o' ds :
  Wired s → on_loop_thread s = true →
  streams_ s !! stream_handle_ ds = Some o' → objects s !! o = Some ds →
  wp (removeStream (stream_handle_ ds) ;; onError o) no_fault (λ _ _, True) s.
Proof.
  intros W Hth Hs Ho. destruct (wired_open _ _ _ W Hth Hs) as (ds' & st & _ & Hos & Hh & _).
  rewrite <- Hh. apply wp_bind. eapply wp_run; [by eapply removeStream_run|].
  eapply wp_run; [|done]. apply (onError_run _ _ ds st); [done|apply Hos|].
  rewrite Hh. apply removed_absent.
Qed.

(** resetStream on any object that exists, in the map or not. *)
Lemma resetStream_safe (run : StreamResetReason → M (state HM B) unit) o r s :
  Wired s → on_loop_thread s = true → is_Some (objects s !! o) → carries_on (run r) s →
  wp (resetStream run o r) no_fault (λ _ _, True) s.
Proof.
  intros W Hth [ds0 Ho0] Hrun. unfold resetStream.
  apply wp_bind. eapply wp_run; [by apply get_object_run|].
  apply wp_bind. eapply wp_conseq; [exact Hrun|]. intros [] s1 E.
  destruct (ev_object _ _ E _ _ Ho0) as (ds & Ho & _).
  apply wp_bind. eapply wp_run; [by apply get_object_run|].
  apply wp_bind, wp_gets. destruct (streams_ s1 !! stream_handle_ ds) as [o'|] eqn:Hs; [|done].
  eapply remove_error_safe; [by eapply wired_evolves| |done..].
  by rewrite (ev_thread _ _ E).
Qed.

Lemma for_each_carries_on {A} (l : list A) (body : A → M (state HM B) unit) s :
  (∀ a s', a ∈ l → evolves s s' → carries_on (body a) s') → carries_on (for_each l body) s.
Proof.
  intros Hbody. unfold carries_on.
  apply (wp_for_each (λ l' s', evolves s s' ∧ ∀ a, a ∈ l' → a ∈ l)); [by split| |by intros ? []].
  intros a l' s' [E Hl]. eapply wp_conseq; [apply Hbody; [|done]; apply Hl; left|].
  intros [] s'' E'. split; [by etrans|]. intros a' Ha'. apply Hl. by right.
Qed.

Lemma reset_calls_elem objs (l : list (hcm_call HM B)) c :
  reset_calls objs l → c ∈ l → reset_call objs c.
Proof.
  unfold reset_calls. induction l as [|c' l IH]; cbn; [by intros _ ?%not_elem_of_nil|].
  intros [Hc Hl] [->|Hin]%elem_of_cons; [done|by apply IH].
Qed.

Lemma reset_call_carries_on s c s' :
  Wired s → on_loop_thread s = true → reset_call (objects s) c → evolves s s' → carries_on (exec_hcm c) s'.
Proof.
  intros W Hth. revert c s'. fix IH 1. intros [o hm es|o b es|o hm|o r during|o hm|o] s' Hc E;
    try done. destruct Hc as [Ho Hd]. apply carries_on_run; [apply exec_hcm_evolves|].
  assert (Hall : ∀ s1, evolves s s1 → carries_on (for_each during exec_hcm) s1).
  { intros s1 E01. apply for_each_carries_on. intros c s2 Hin E12.
    assert (E02 : evolves s s2) by (by etrans). clear Ho E E01 E12. revert c Hin.
    induction during as [|c during IHd]; [by intros ? ?%not_elem_of_nil|].
    destruct Hd as [Hc Hd]. intros c' Hin. apply elem_of_cons in Hin as [->|Hin].
    - by apply IH.
    - by apply IHd. }
  cbn [exec_hcm]. apply resetStream_safe; [by eapply wired_evolves| | |].
  - by rewrite (ev_thread _ _ E).
  - by eapply exists_evolves.
  - assert (E1 : evolves s' (set_trace (trace s' ++ [EvResetCallbacks o r]) s'))
      by (split; try done; eauto).
    apply wp_bind, wp_modify. eapply wp_conseq; [apply Hall; by etrans|].
    intros [] s2 E2. etrans; [exact E1|exact E2].
Qed.

Lemma reset_calls_carry_on s l s' :
  Wired s → on_loop_thread s = true → reset_calls (objects s) l → evolves s s' →
  carries_on (for_each l exec_hcm) s'.
Proof.
  intros W Hth Hl E. apply for_each_carries_on. intros c s2 Hin E2.
  apply (reset_call_carries_on s); [done..| |by etrans]. by eapply reset_calls_elem.
Qed.

(** *** The posted functors *)

(** What a functor finds when it runs: payloads that are valid storage (if the
    stream is still there to take them), and a supported upstream protocol. *)
Definition functor_ok s (f : functor) : Prop :=
  match f with
  | PostStartStream _ _ | PostCancelStream _ => True
  | PostSendHeaders h eh _ => is_Some (streams_ s !! h) → ∃ hs es,
      headers_ok (st_mem s) eh hs es ∧
      known_protocol (hm_entries
        (add_entries (lower_entries (HM := HM) es) (hm_create (HM := HM) RequestHeaderMapImpl)))
  | PostSendData h d _ => is_Some (streams_ s !! h) → ∃ bs, reads_data (heap (st_mem s)) d bs
  | PostSendTrailers h eh => is_Some (streams_ s !! h) → ∃ hs es, headers_ok (st_mem s) eh hs es
  end.

Lemma sendHeaders_safe s h eh es :
  Wired s → on_loop_thread s = true → functor_ok s (PostSendHeaders h eh es) →
  safe (sendHeaders_cb h eh es) s.
Proof.
  intros W Hth Hok. apply wp_bind, wp_gets. cbn in Hok.
  destruct (streams_ s !! h) as [o|] eqn:Hs; [|done].
  destruct (wired_open _ _ _ W Hth Hs) as (ds & st & d & Hos & Hh & Hd).
  destruct Hok as (hs & es' & Hok & Hk); [by eexists|].
  eapply (wp_zoom_bind _ _ _ _ (λ hm _, hm = add_entries _ _));
    [eapply wp_run; [by apply toRequestHeaders_run|reflexivity]|].
  intros hm m' ->. set (s1 := set_st_mem m' s).
  destruct (setDestinationCluster_run s1 _ Hk) as (hm' & Hrun & _).
  apply wp_bind. eapply wp_run; [exact Hrun|].
  apply wp_bind. eapply wp_run; [apply get_object_run, (os_object _ _ _ _ Hos)|].
  rewrite Hd. by apply wp_bind, wp_ret.
Qed.

Lemma sendData_safe s h data es :
  Wired s → on_loop_thread s = true → functor_ok s (PostSendData h data es) →
  safe (sendData_cb h data es) s.
Proof.
  intros W Hth Hok. apply wp_bind, wp_gets. cbn in Hok.
  destruct (streams_ s !! h) as [o|] eqn:Hs; [|done].
  destruct (wired_open _ _ _ W Hth Hs) as (ds & st & d & Hos & Hh & Hd).
  destruct Hok as (bs & Hok); [by eexists|].
  eapply (wp_zoom_bind _ _ _ _ (λ _ _, True)); [eapply wp_run; [by apply addBridgeFragment_run|exact I]|].
  intros buf m' _. apply wp_bind.
  eapply wp_run; [apply get_object_run, (os_object _ _ _ _ Hos)|].
  rewrite Hd. by apply wp_bind, wp_ret.
Qed.

Lemma sendTrailers_safe s h eh :
  Wired s → on_loop_thread s = true → functor_ok s (PostSendTrailers h eh) →
  safe (sendTrailers_cb h eh) s.
Proof.
  intros W Hth Hok. apply wp_bind, wp_gets. cbn in Hok.
  destruct (streams_ s !! h) as [o|] eqn:Hs; [|done].
  destruct (wired_open _ _ _ W Hth Hs) as (ds & st & d & Hos & Hh & Hd).
  destruct Hok as (hs & es' & Hok); [by eexists|].
  eapply (wp_zoom_bind _ _ _ _ (λ _ _, True)); [eapply wp_run; [by apply toRequestTrailers_run|exact I]|].
  intros hm m' _. apply wp_bind.
  eapply wp_run; [apply get_object_run, (os_object _ _ _ _ Hos)|].
  rewrite Hd. by apply wp_bind, wp_ret.
Qed.

Lemma cancelStream_safe s h during :
  Wired s → on_loop_thread s = true → reset_calls (objects s) during →
  safe (cancelStream_cb (hcm_reset during) h) s.
Proof.
  intros W Hth Hd. apply wp_bind, wp_gets.
  destruct (streams_ s !! h) as [o|] eqn:Hs; [|done].
  destruct (wired_open _ _ _ W Hth Hs) as (ds & st & d & Hos & <- & _).
  apply wp_bind. eapply wp_run; [apply get_object_run, (os_object _ _ _ _ Hos)|].
  apply wp_bind. eapply wp_run; [by eapply removeStream_run|].
  apply wp_bind, wp_modify. set (s1 := set_trace _ _).
  assert (Hon : onCancel o s1 = Ok (tt, terminated (inc_cancel st) [] o OnCancel s1))
    by (apply (onCancel_run _ _ ds st); apply Hos).
  apply wp_bind. eapply wp_run; [exact Hon|].
  apply wp_bind, wp_modify, wp_bind, wp_modify. set (s2 := set_trace _ _).
  eapply wp_mono; [apply (reset_calls_carry_on s during s2); [done..|]|done|done].
  assert (E1 : evolves s (removed (stream_handle_ ds) o s)).
  { eapply evolves_removeStream. by eapply removeStream_run. }
  assert (E2 : evolves (removed (stream_handle_ ds) o s) s1) by (split; try done; eauto).
  assert (E3 : evolves s1 (terminated (inc_cancel st) [] o OnCancel s1))
    by (by eapply onCancel_evolves).
  etrans; [exact E1|]. etrans; [exact E2|]. etrans; [exact E3|].
  etrans; [by eapply (evolves_update_object o (setResponseDetails getCancelDetails))|].
  by split; eauto.
Qed.

Lemma startStream_safe s h cb d during :
  objects s !! next_object s = None → event_dispatcher_ s = true →
  Wired s → on_loop_thread s = true → reset_calls (objects s) during →
  safe (startStream_cb (hcm_newStream d during) h cb) s.
Proof.
  intros Hfresh Hed W Hth Hd. destruct (w_ready _ W Hed) as [Hapi _].
  unfold startStream_cb, new_object.
  apply wp_bind, wp_bind, wp_gets, wp_bind, wp_modify, wp_bind, wp_modify, wp_ret.
  apply wp_bind, wp_gets. cbn. rewrite Hapi. apply wp_bind, wp_ret.
  apply wp_bind, wp_bind, wp_modify, wp_bind. set (s1 := set_trace _ _).
  eapply wp_mono; [apply (reset_calls_carry_on s during s1); [done..|]|done|].
  - split; try done. intros o ds Ho. exists ds. split; [|done]. cbn.
    rewrite lookup_insert_ne; [done|]. intros Heq. by rewrite Heq, Ho in Hfresh.
  - intros [] s2 _. apply wp_ret, wp_bind, wp_modify, wp_bind, wp_gets.
    by case_match; apply wp_modify.
Qed.

(** ** Well-behaved environments *)

Definition hcm_ok s (c : hcm_call HM B) : Prop :=
  match c with
  | HcmEncodeHeaders o headers _ =>
      live o s ∧ is_Some (getResponseStatus headers) ∧ (hm_size headers ≤ INT_MAX)%Z
  | HcmEncodeData o data end_stream =>
      live o s ∧ allocated (st_mem s) (fragments_owned data) ∧
      (end_stream = false →
        ∀ ds, objects s !! o = Some ds → error_code_ (callbacks_ ds) = None)
  | HcmEncodeTrailers o trailers => live o s ∧ (hm_size trailers ≤ INT_MAX)%Z
  | HcmResetStream _ _ _ => reset_call (objects s) c
  | HcmEncode100Continue _ _ | HcmEncodeMetadata _ => False
  end.

(** A functor that starts or cancels a stream may have the HCM reset others inside. *)
Definition well_behaved s (l : label HM B) : Prop :=
  match l with
  | LRun n _ during =>
      reset_calls (objects s) during ∧ ∀ f, loop_queue s !! n = Some f → functor_ok s f
  | LHcm c => hcm_ok s c
  | LApi _ | LReady _ | LClearDeferredDeleteList | LSetPreferredNetwork _ => True
  end.

Lemma exec_hcm_safe s c :
  Wired s → on_loop_thread s = true → hcm_ok s c → safe (exec_hcm c) s.
Proof.
  intros W Hth. destruct c as [o hm es|o b es|o hm|o r during|o hm|o]; cbn [exec_hcm]; intros Hok.
  - destruct Hok as (Hl & [status Hst] & Hsize).
    destruct (live_open _ _ W Hth Hl) as (ds & st & Hos).
    by eapply encodeHeaders_safe; [..|apply (w_mem _ W)|].
  - destruct Hok as (Hl & Hown & Herr).
    destruct (live_open _ _ W Hth Hl) as (ds & st & Hos). apply wp_bind.
    eapply wp_conseq; [eapply (encodeData_safe _ _ ds st); [done| |apply (w_mem _ W)|done]|done].
    intros [e He]. destruct es; [done|].
    by rewrite (Herr eq_refl ds (os_object _ _ _ _ Hos)) in He.
  - destruct Hok as (Hl & Hsize). destruct (live_open _ _ W Hth Hl) as (ds & st & Hos).
    eapply wp_conseq; [by apply (encodeTrailers_response _ _ ds st); [|apply (w_mem _ W)|]|done].
  - eapply wp_mono; [apply (reset_call_carries_on s (HcmResetStream o r during)); done| |done].
    by intros f [].
  - destruct Hok.
  - destruct Hok.
Qed.
End progress.

Section never_faults.
#[local] Existing Instance debug_build.
Context `{Allocator} {HM : Type} `{!HeaderMap HM} `{!EnvoyCodec HM}
  {B : Type} `{!BufferInstance B} `{!HeaderMapLaws HM} `{!BufferLaws B}.
Implicit Types (s : state HM B).

Lemma run_posted_safe n d during s :
  Inv ∅ s → Wired s → on_loop_thread s = true → reset_calls (objects s) during →
  (∀ f, loop_queue s !! n = Some f → functor_ok s f) → safe (run_posted n d during) s.
Proof.
  intros HI W Hth Hd Hok. apply wp_bind, wp_gets.
  destruct (loop_queue s !! n) as [f|] eqn:Hf; [|done]. specialize (Hok f eq_refl).
  apply wp_bind, wp_modify, wp_bind, wp_modify. set (s1 := set_trace _ _).
  assert (W1 : Wired s1) by (destruct W; by split).
  assert (Hd1 : reset_calls (objects s1) during) by done.
  destruct f as [h cb|h eh es|h dt es|h eh|h]; cbn [run_functor].
  - apply startStream_safe; [|by apply (Inv_queue_ready ∅ s n _ HI Hf)|done..]. by apply (Inv_no_object ∅ s).
  - by apply sendHeaders_safe.
  - by apply sendData_safe.
  - by apply sendTrailers_safe.
  - by apply cancelStream_safe.
Qed.

(** C4: The dispatcher never faults. From any state it reaches in a build with
    ASSERTs, every move of a well-behaved environment (an API call, ready, any queued
    functor with valid payloads, a response call on an open stream, a reset of any
    object that exists, with resets of others nested in it, deferred deletion) runs
    to its end unless malloc fails: no ASSERT or RELEASE_ASSERT fires, no null or
    empty optional is dereferenced, nothing is thrown. Release builds do the same. *)
Theorem dispatcher_never_faults scope m ls s l :
  steps scope (init_state m) ls s → mem_wf m → allowed scope l s = true → well_behaved s l →
  wp (exec_label l) oom (λ _ s',
    step scope s l s' ∧ exec_label (mode := release_build) l s = Ok (tt, s')) s.
Proof.
  intros Hs Hm Hall Hok. assert (HI : Inv ∅ s) by (eapply steps_Inv; [exact Hs|apply Inv_init]).
  assert (W : Wired s) by (eapply steps_wired; [done|apply Inv_init|by apply init_wired]).
  assert (Hsafe : safe (exec_label l) s).
  { assert (HIb := λ b, Inv_on_loop_thread b ∅ s HI).
    assert (Wb := λ b, wired_on_loop_thread b s W).
    destruct l as [f|sc|n d during|c| |net]; cbn [exec_label].
    - apply wp_bind, wp_modify, wp_bind. destruct f; apply wp_bind, wp_bind, wp_gets;
        case_match; repeat (cbv beta; first [apply wp_modify|apply wp_ret|exact I]).
    - apply wp_bind, wp_modify. eapply wp_run; [apply ready_run|done].
    - apply wp_bind, wp_modify. destruct Hok as [Hd Hf]. by apply run_posted_safe.
    - apply wp_bind, wp_modify. apply exec_hcm_safe; [done..|]. by destruct c.
    - apply wp_bind, wp_modify, wp_modify. done.
    - by apply wp_modify. }
  revert Hsafe. unfold safe, wp. destruct (exec_label l s) as [[[] s']|f] eqn:He; [|done].
  intros _. split; [by apply allowed_step|]. by apply exec_label_agrees.
Qed.

(** The dispatcher's state is well-formed: the streams, their objects and the callbacks
    issued agree, and every stream of the map has what its calls need. *)
Definition well_formed s : Prop := Inv ∅ s ∧ Wired s.

Lemma well_formed_stream s h o :
  well_formed s → streams_ s !! h = Some o →
  wired_to (objects s) h o ∧ o < next_object s ∧ phase_of o s = Some Open ∧
  ∀ h', streams_ s !! h' = Some o → h' = h.
Proof.
  intros [HI W] Hs. destruct (inv_streams _ _ HI h o Hs) as (Hh & _ & Hp).
  split; [by apply (w_stream _ W)|]. split; [by eapply next_above|]. split; [done|].
  intros h' Hs'. destruct (inv_streams _ _ HI h' o Hs') as (Hh' & _). congruence.
Qed.

(** C16: The dispatcher's state keeps its type, in a build with ASSERTs. There the empty
    dispatcher is well-formed, and every step of it that completes (no ASSERT fails, no
    exception, no undefined behaviour), whatever the environment does (calls of the API in
    any order, handles never used twice, any response and any reset), leads from a
    well-formed state to a well-formed one, in which each handle of the map designates an object that
    was made, that has this handle and its request decoder, that no other handle
    designates, and whose callbacks are open; and the map has entries only once the
    dispatcher is ready and has its stats. *)
Theorem dispatcher_keeps_type scope m s l s' :
  mem_wf m → step scope s l s' → well_formed s →
  well_formed (init_state m : state HM B) ∧ well_formed s' ∧
  ∀ h o, streams_ s' !! h = Some o →
    wired_to (objects s') h o ∧ o < next_object s' ∧ phase_of o s' = Some Open ∧
    (∀ h', streams_ s' !! h' = Some o → h' = h) ∧
    event_dispatcher_ s' = true ∧ api_listener_ s' = true ∧ is_Some (stats_ s').
Proof.
  intros Hm Hst [HI W].
  assert (Hwf : well_formed s') by (split; [by eapply step_Inv|by eapply step_wired]).
  split; [split; [apply Inv_init|by apply init_wired]|]. split; [done|].
  intros h o Ho. destruct (well_formed_stream s' h o Hwf Ho) as (H1 & H2 & H3 & H4).
  destruct Hwf as [_ W']. assert (Hed : event_dispatcher_ s' = true) by (eapply w_early; eauto).
  by destruct (w_ready _ W' Hed).
Qed.
End never_faults.

(** Two streams in flight, the first with its response headers. *)
Definition both_open : ref_state :=
  default (init_state mem_empty)
    (run_labels (mode := debug_build) no_stats (take 6 two_streams) (init_state mem_empty)).

Lemma both_open_steps :
  steps (mode := debug_build) no_stats (init_state mem_empty) (take 6 two_streams) both_open.
Proof.
  apply (run_labels_steps (mode := debug_build) no_stats (take 6 two_streams) (init_state mem_empty) _
    [] (init_state mem_empty)); [constructor|]. vm_compute. reflexivity.
Qed.

(** The second stream is reset while the first one's reset is running. *)
Lemma dispatcher_never_faults_witness :
  let l : ref_label := LHcm (HcmResetStream 0 RemoteReset [HcmResetStream 1 RemoteReset []]) in
  wp (exec_label (mode := debug_build) l) oom (λ _ s',
    step (mode := debug_build) no_stats both_open l s' ∧
    exec_label (mode := release_build) l both_open = Ok (tt, s')) both_open.
Proof.
  apply (dispatcher_never_faults no_stats mem_empty (take 6 two_streams)).
  - apply both_open_steps.
  - apply mem_wf_empty.
  - reflexivity.
  - vm_compute. repeat (split || eexists).
Defined.

Lemma both_open_well_formed : well_formed both_open.
Proof.
  split.
  - eapply steps_Inv; [apply both_open_steps|apply Inv_init].
  - eapply steps_wired; [apply both_open_steps|apply Inv_init|apply init_wired, mem_wf_empty].
Qed.

(** The first stream is reset. *)
Lemma dispatcher_keeps_type_witness :
  ∃ s', step (mode := debug_build) no_stats both_open (LHcm (HcmResetStream 0 RemoteReset [])) s' ∧
    well_formed s' ∧ size (streams_ s') = 1.
Proof.
  destruct (exec_label (mode := debug_build) (LHcm (HcmResetStream 0 RemoteReset [])) both_open)
    as [[[] s']|f] eqn:Hrun; [|exfalso; vm_compute in Hrun; discriminate].
  assert (Hst : step (mode := debug_build) no_stats both_open (LHcm (HcmResetStream 0 RemoteReset [])) s').
  { apply allowed_step; [reflexivity|exact Hrun]. }
  exists s'. split; [exact Hst|]. split.
  - apply (dispatcher_keeps_type no_stats mem_empty both_open _ s' mem_wf_empty Hst both_open_well_formed).
  - vm_compute in Hrun. injection Hrun as <-. reflexivity.
Defined.
