(* ===== verification/PlatformBridge.v ===== *)
(** * PlatformBridgeFilter

    Models library/common/extensions/filters/http/platform_bridge: the HTTP filter
    that hands a stream's headers, data and trailers to a filter of the platform and
    applies what it answers. The platform's functions are arguments: they may do
    anything to the C memory and to the platform's own state. Header maps are
    objects of a store, so that the filter's pending pointers alias the maps Envoy
    passed; the buffers of the stream belong to its decoder and encoder callbacks. *)

From S2P Require Export Bridge.

(** ** c_types.h and c_type_definitions.h *)

(** The numbers of the enumerators, which are Envoy's. *)
Class EnvoyFilterEnums := {
  FilterHeadersStatus_Continue : Z;
  FilterHeadersStatus_StopIteration : Z;
  FilterHeadersStatus_StopAllIterationAndBuffer : Z;
  FilterDataStatus_Continue : Z;
  FilterDataStatus_StopIterationAndBuffer : Z;
  FilterDataStatus_StopIterationNoBuffer : Z;
  FilterTrailersStatus_Continue : Z;
  FilterTrailersStatus_StopIteration : Z
}.

(** Continue is the first enumerator of each enum, the others follow it. *)
Class EnvoyFilterEnumsLaws `{!EnvoyFilterEnums} : Prop := {
  headers_enums : (FilterHeadersStatus_Continue < FilterHeadersStatus_StopIteration
    < FilterHeadersStatus_StopAllIterationAndBuffer)%Z;
  data_enums : (FilterDataStatus_Continue < FilterDataStatus_StopIterationAndBuffer
    < FilterDataStatus_StopIterationNoBuffer)%Z;
  trailers_enums : (FilterTrailersStatus_Continue < FilterTrailersStatus_StopIteration)%Z
}.

Section statuses.
Context `{!EnvoyFilterEnums}.
Definition kEnvoyFilterHeadersStatusContinue : Z := FilterHeadersStatus_Continue.
Definition kEnvoyFilterHeadersStatusStopIteration : Z := FilterHeadersStatus_StopIteration.
Definition kEnvoyFilterHeadersStatusStopAllIterationAndBuffer : Z :=
  FilterHeadersStatus_StopAllIterationAndBuffer.
Definition kEnvoyFilterHeadersStatusResumeIteration : Z := kEnvoyFilterHeadersStatusContinue - 1.
Definition kEnvoyFilterDataStatusContinue : Z := FilterDataStatus_Continue.
Definition kEnvoyFilterDataStatusStopIterationAndBuffer : Z :=
  FilterDataStatus_StopIterationAndBuffer.
Definition kEnvoyFilterDataStatusStopIterationNoBuffer : Z :=
  FilterDataStatus_StopIterationNoBuffer.
Definition kEnvoyFilterDataStatusResumeIteration : Z := kEnvoyFilterDataStatusContinue - 1.
Definition kEnvoyFilterTrailersStatusContinue : Z := FilterTrailersStatus_Continue.
Definition kEnvoyFilterTrailersStatusStopIteration : Z := FilterTrailersStatus_StopIteration.
Definition kEnvoyFilterTrailersStatusResumeIteration : Z := kEnvoyFilterTrailersStatusContinue - 1.
Definition kEnvoyFilterResumeStatusStopIteration : Z := 1.
Definition kEnvoyFilterResumeStatusResumeIteration : Z := -1.
End statuses.

Record envoy_filter_headers_status := FilterHeadersResult {
  headers_status : Z;
  result_headers : envoy_headers
}.
Record envoy_filter_data_status := FilterDataResult {
  data_status : Z;
  result_data : envoy_data;
  data_pending_headers : ptr
}.
Record envoy_filter_trailers_status := FilterTrailersResult {
  trailers_status : Z;
  result_trailers : envoy_headers;
  trailers_pending_headers : ptr;
  trailers_pending_data : ptr
}.
Record envoy_filter_resume_status := FilterResumeResult {
  resume_status : Z;
  resume_pending_headers : ptr;
  resume_pending_data : ptr;
  resume_pending_trailers : ptr
}.

(** A function pointer of envoy_http_filter_callbacks is one of the three static
    functions of filter.cc; its context is a heap-allocated weak pointer. *)
Inductive filter_callback_f :=
| envoy_filter_release_callbacks_f
| envoy_filter_callback_resume_decoding_f
| envoy_filter_callback_resume_encoding_f.

Record envoy_http_filter_callbacks := FilterCallbacks {
  resume_iteration : option filter_callback_f;
  release_callbacks : option filter_callback_f;
  callback_context : option positive
}.
Definition no_filter_callbacks : envoy_http_filter_callbacks := FilterCallbacks None None None.

(** The functions of a platform filter, over the C memory and the platform's state
    [P]. NULL is [None]. A pointer to a local variable is passed as an option. *)
Section platform.
Context (P : Type).
Abbreviation F := (M (mem * P)).
Definition envoy_filter_init_f : Type := ptr → F ptr.
Definition envoy_filter_on_headers_f : Type :=
  envoy_headers → bool → ptr → F envoy_filter_headers_status.
Definition envoy_filter_on_data_f : Type := envoy_data → bool → ptr → F envoy_filter_data_status.
Definition envoy_filter_on_trailers_f : Type :=
  envoy_headers → ptr → F envoy_filter_trailers_status.
Definition envoy_filter_on_resume_f : Type :=
  option envoy_headers → option envoy_data → option envoy_headers → bool → ptr →
  F envoy_filter_resume_status.
Definition envoy_filter_release_f : Type := ptr → F unit.
Definition envoy_filter_set_callbacks_f : Type := envoy_http_filter_callbacks → ptr → F unit.

Record envoy_http_filter := HttpFilter {
  init_filter : option envoy_filter_init_f;
  on_request_headers : option envoy_filter_on_headers_f;
  on_request_data : option envoy_filter_on_data_f;
  on_request_trailers : option envoy_filter_on_trailers_f;
  on_response_headers : option envoy_filter_on_headers_f;
  on_response_data : option envoy_filter_on_data_f;
  on_response_trailers : option envoy_filter_on_trailers_f;
  set_request_callbacks : option envoy_filter_set_callbacks_f;
  on_resume_request : option envoy_filter_on_resume_f;
  set_response_callbacks : option envoy_filter_set_callbacks_f;
  on_resume_response : option envoy_filter_on_resume_f;
  release_filter : option envoy_filter_release_f;
  static_context : ptr;
  instance_context : ptr
}.
End platform.
Arguments HttpFilter {P} _ _ _ _ _ _ _ _ _ _ _ _ _ _.
Arguments init_filter {P} _.
Arguments on_request_headers {P} _.
Arguments on_request_data {P} _.
Arguments on_request_trailers {P} _.
Arguments on_response_headers {P} _.
Arguments on_response_data {P} _.
Arguments on_response_trailers {P} _.
Arguments set_request_callbacks {P} _.
Arguments on_resume_request {P} _.
Arguments set_response_callbacks {P} _.
Arguments on_resume_response {P} _.
Arguments release_filter {P} _.
Arguments static_context {P} _.
Arguments instance_context {P} _.

Definition null_filter {P} : envoy_http_filter P :=
  HttpFilter None None None None None None None None None None None None NULL NULL.
Definition set_instance_context {P} (c : ptr) (f : envoy_http_filter P) : envoy_http_filter P :=
  HttpFilter (init_filter f) (on_request_headers f) (on_request_data f) (on_request_trailers f) (on_response_headers f) (on_response_data f) (on_response_trailers f) (set_request_callbacks f) (on_resume_request f) (set_response_callbacks f) (on_resume_response f) (release_filter f) (static_context f) c.

(** ** State *)

(** An uninitialised [iteration_state_] is [None] in the state. *)
Inductive IterationState := Ongoing | Stopped.

#[export] Instance iteration_state_eq_dec : EqDecision IterationState.
Proof. solve_decision. Defined.

(** The filter object before a shared_ptr owns it, while one does, and after. *)
Inductive lifetime := UnderConstruction | Owned | Expired.

(** The functors posted to the dispatcher; the captured weak pointer designates the
    filter or nothing. *)
Inductive resume_functor :=
| PostOnResumeDecoding (weak_self : bool)
| PostOnResumeEncoding (weak_self : bool).

(** Calls on the decoder and encoder callbacks that resume the stream. *)
Inductive pb_event (B : Type) :=
| EvAddDecodedData (data : B)
| EvContinueDecoding
| EvAddEncodedData (data : B)
| EvContinueEncoding.
Arguments EvAddDecodedData {B} data.
Arguments EvContinueDecoding {B}.
Arguments EvAddEncodedData {B} data.
Arguments EvContinueEncoding {B}.

(** A Buffer::Instance* the filter holds: the stream's decoding or encoding buffer. *)
Inductive buffer_ref := DecodingBuffer | EncodingBuffer.
(** A Http::HeaderMap** : the address of one of the filter's pending fields. *)
Inductive pending_ref := PendingRequestHeaders | PendingResponseHeaders.

(** The filter's fields; then the header maps, the stream's buffers, the lifetime of
    the filter object, the heap-allocated weak pointers, the dispatcher's queue, the
    C memory, the platform's state and the calls that resume the stream. *)
Section filter_state.
Context (HM B P : Type).
Record filter_state := FilterState {
  pending_request_headers_ : option nat;
  pending_response_headers_ : option nat;
  pending_request_trailers_ : option nat;
  pending_response_trailers_ : option nat;
  iteration_state_ : option IterationState;
  platform_filter_ : envoy_http_filter P;
  platform_request_callbacks_ : envoy_http_filter_callbacks;
  platform_response_callbacks_ : envoy_http_filter_callbacks;
  request_complete_ : bool;
  response_complete_ : bool;
  header_maps : gmap nat HM;
  decoding_buffer : option B;
  encoding_buffer : option B;
  filter_lifetime : lifetime;
  weak_boxes : gmap positive bool;
  next_box : positive;
  posted : list resume_functor;
  pb_mem : mem;
  pb_platform : P;
  pb_trace : list (pb_event B)
}.
End filter_state.
Arguments FilterState {HM B P} _ _ _ _ _ _ _ _ _ _ _ _ _ _ _ _ _ _ _ _.
Arguments pending_request_headers_ {HM B P} _.
Arguments pending_response_headers_ {HM B P} _.
Arguments pending_request_trailers_ {HM B P} _.
Arguments pending_response_trailers_ {HM B P} _.
Arguments iteration_state_ {HM B P} _.
Arguments platform_filter_ {HM B P} _.
Arguments platform_request_callbacks_ {HM B P} _.
Arguments platform_response_callbacks_ {HM B P} _.
Arguments request_complete_ {HM B P} _.
Arguments response_complete_ {HM B P} _.
Arguments header_maps {HM B P} _.
Arguments decoding_buffer {HM B P} _.
Arguments encoding_buffer {HM B P} _.
Arguments filter_lifetime {HM B P} _.
Arguments weak_boxes {HM B P} _.
Arguments next_box {HM B P} _.
Arguments posted {HM B P} _.
Arguments pb_mem {HM B P} _.
Arguments pb_platform {HM B P} _.
Arguments pb_trace {HM B P} _.

Section setters.
Context {HM B P : Type}.
Abbreviation filter_state := (filter_state HM B P).
Definition set_pending_request_headers (v : option nat) (s : filter_state) : filter_state :=
  FilterState v (pending_response_headers_ s) (pending_request_trailers_ s) (pending_response_trailers_ s) (iteration_state_ s) (platform_filter_ s) (platform_request_callbacks_ s) (platform_response_callbacks_ s) (request_complete_ s) (response_complete_ s) (header_maps s) (decoding_buffer s) (encoding_buffer s) (filter_lifetime s) (weak_boxes s) (next_box s) (posted s) (pb_mem s) (pb_platform s) (pb_trace s).
Definition set_pending_response_headers (v : option nat) (s : filter_state) : filter_state :=
  FilterState (pending_request_headers_ s) v (pending_request_trailers_ s) (pending_response_trailers_ s) (iteration_state_ s) (platform_filter_ s) (platform_request_callbacks_ s) (platform_response_callbacks_ s) (request_complete_ s) (response_complete_ s) (header_maps s) (decoding_buffer s) (encoding_buffer s) (filter_lifetime s) (weak_boxes s) (next_box s) (posted s) (pb_mem s) (pb_platform s) (pb_trace s).
Definition set_pending_request_trailers (v : option nat) (s : filter_state) : filter_state :=
  FilterState (pending_request_headers_ s) (pending_response_headers_ s) v (pending_response_trailers_ s) (iteration_state_ s) (platform_filter_ s) (platform_request_callbacks_ s) (platform_response_callbacks_ s) (request_complete_ s) (response_complete_ s) (header_maps s) (decoding_buffer s) (encoding_buffer s) (filter_lifetime s) (weak_boxes s) (next_box s) (posted s) (pb_mem s) (pb_platform s) (pb_trace s).
Definition set_pending_response_trailers (v : option nat) (s : filter_state) : filter_state :=
  FilterState (pending_request_headers_ s) (pending_response_headers_ s) (pending_request_trailers_ s) v (iteration_state_ s) (platform_filter_ s) (platform_request_callbacks_ s) (platform_response_callbacks_ s) (request_complete_ s) (response_complete_ s) (header_maps s) (decoding_buffer s) (encoding_buffer s) (filter_lifetime s) (weak_boxes s) (next_box s) (posted s) (pb_mem s) (pb_platform s) (pb_trace s).
Definition set_iteration_state (v : option IterationState) (s : filter_state) : filter_state :=
  FilterState (pending_request_headers_ s) (pending_response_headers_ s) (pending_request_trailers_ s) (pending_response_trailers_ s) v (platform_filter_ s) (platform_request_callbacks_ s) (platform_response_callbacks_ s) (request_complete_ s) (response_complete_ s) (header_maps s) (decoding_buffer s) (encoding_buffer s) (filter_lifetime s) (weak_boxes s) (next_box s) (posted s) (pb_mem s) (pb_platform s) (pb_trace s).
Definition set_platform_filter (v : envoy_http_filter P) (s : filter_state) : filter_state :=
  FilterState (pending_request_headers_ s) (pending_response_headers_ s) (pending_request_trailers_ s) (pending_response_trailers_ s) (iteration_state_ s) v (platform_request_callbacks_ s) (platform_response_callbacks_ s) (request_complete_ s) (response_complete_ s) (header_maps s) (decoding_buffer s) (encoding_buffer s) (filter_lifetime s) (weak_boxes s) (next_box s) (posted s) (pb_mem s) (pb_platform s) (pb_trace s).
Definition set_platform_request_callbacks (v : envoy_http_filter_callbacks) (s : filter_state) : filter_state :=
  FilterState (pending_request_headers_ s) (pending_response_headers_ s) (pending_request_trailers_ s) (pending_response_trailers_ s) (iteration_state_ s) (platform_filter_ s) v (platform_response_callbacks_ s) (request_complete_ s) (response_complete_ s) (header_maps s) (decoding_buffer s) (encoding_buffer s) (filter_lifetime s) (weak_boxes s) (next_box s) (posted s) (pb_mem s) (pb_platform s) (pb_trace s).
Definition set_platform_response_callbacks (v : envoy_http_filter_callbacks) (s : filter_state) : filter_state :=
  FilterState (pending_request_headers_ s) (pending_response_headers_ s) (pending_request_trailers_ s) (pending_response_trailers_ s) (iteration_state_ s) (platform_filter_ s) (platform_request_callbacks_ s) v (request_complete_ s) (response_complete_ s) (header_maps s) (decoding_buffer s) (encoding_buffer s) (filter_lifetime s) (weak_boxes s) (next_box s) (posted s) (pb_mem s) (pb_platform s) (pb_trace s).
Definition set_request_complete (v : bool) (s : filter_state) : filter_state :=
  FilterState (pending_request_headers_ s) (pending_response_headers_ s) (pending_request_trailers_ s) (pending_response_trailers_ s) (iteration_state_ s) (platform_filter_ s) (platform_request_callbacks_ s) (platform_response_callbacks_ s) v (response_complete_ s) (header_maps s) (decoding_buffer s) (encoding_buffer s) (filter_lifetime s) (weak_boxes s) (next_box s) (posted s) (pb_mem s) (pb_platform s) (pb_trace s).
Definition set_response_complete (v : bool) (s : filter_state) : filter_state :=
  FilterState (pending_request_headers_ s) (pending_response_headers_ s) (pending_request_trailers_ s) (pending_response_trailers_ s) (iteration_state_ s) (platform_filter_ s) (platform_request_callbacks_ s) (platform_response_callbacks_ s) (request_complete_ s) v (header_maps s) (decoding_buffer s) (encoding_buffer s) (filter_lifetime s) (weak_boxes s) (next_box s) (posted s) (pb_mem s) (pb_platform s) (pb_trace s).
Definition set_header_maps (v : gmap nat HM) (s : filter_state) : filter_state :=
  FilterState (pending_request_headers_ s) (pending_response_headers_ s) (pending_request_trailers_ s) (pending_response_trailers_ s) (iteration_state_ s) (platform_filter_ s) (platform_request_callbacks_ s) (platform_response_callbacks_ s) (request_complete_ s) (response_complete_ s) v (decoding_buffer s) (encoding_buffer s) (filter_lifetime s) (weak_boxes s) (next_box s) (posted s) (pb_mem s) (pb_platform s) (pb_trace s).
Definition set_decoding_buffer (v : option B) (s : filter_state) : filter_state :=
  FilterState (pending_request_headers_ s) (pending_response_headers_ s) (pending_request_trailers_ s) (pending_response_trailers_ s) (iteration_state_ s) (platform_filter_ s) (platform_request_callbacks_ s) (platform_response_callbacks_ s) (request_complete_ s) (response_complete_ s) (header_maps s) v (encoding_buffer s) (filter_lifetime s) (weak_boxes s) (next_box s) (posted s) (pb_mem s) (pb_platform s) (pb_trace s).
Definition set_encoding_buffer (v : option B) (s : filter_state) : filter_state :=
  FilterState (pending_request_headers_ s) (pending_response_headers_ s) (pending_request_trailers_ s) (pending_response_trailers_ s) (iteration_state_ s) (platform_filter_ s) (platform_request_callbacks_ s) (platform_response_callbacks_ s) (request_complete_ s) (response_complete_ s) (header_maps s) (decoding_buffer s) v (filter_lifetime s) (weak_boxes s) (next_box s) (posted s) (pb_mem s) (pb_platform s) (pb_trace s).
Definition set_lifetime (v : lifetime) (s : filter_state) : filter_state :=
  FilterState (pending_request_headers_ s) (pending_response_headers_ s) (pending_request_trailers_ s) (pending_response_trailers_ s) (iteration_state_ s) (platform_filter_ s) (platform_request_callbacks_ s) (platform_response_callbacks_ s) (request_complete_ s) (response_complete_ s) (header_maps s) (decoding_buffer s) (encoding_buffer s) v (weak_boxes s) (next_box s) (posted s) (pb_mem s) (pb_platform s) (pb_trace s).
Definition set_weak_boxes (v : gmap positive bool) (s : filter_state) : filter_state :=
  FilterState (pending_request_headers_ s) (pending_response_headers_ s) (pending_request_trailers_ s) (pending_response_trailers_ s) (iteration_state_ s) (platform_filter_ s) (platform_request_callbacks_ s) (platform_response_callbacks_ s) (request_complete_ s) (response_complete_ s) (header_maps s) (decoding_buffer s) (encoding_buffer s) (filter_lifetime s) v (next_box s) (posted s) (pb_mem s) (pb_platform s) (pb_trace s).
Definition set_next_box (v : positive) (s : filter_state) : filter_state :=
  FilterState (pending_request_headers_ s) (pending_response_headers_ s) (pending_request_trailers_ s) (pending_response_trailers_ s) (iteration_state_ s) (platform_filter_ s) (platform_request_callbacks_ s) (platform_response_callbacks_ s) (request_complete_ s) (response_complete_ s) (header_maps s) (decoding_buffer s) (encoding_buffer s) (filter_lifetime s) (weak_boxes s) v (posted s) (pb_mem s) (pb_platform s) (pb_trace s).
Definition set_posted (v : list resume_functor) (s : filter_state) : filter_state :=
  FilterState (pending_request_headers_ s) (pending_response_headers_ s) (pending_request_trailers_ s) (pending_response_trailers_ s) (iteration_state_ s) (platform_filter_ s) (platform_request_callbacks_ s) (platform_response_callbacks_ s) (request_complete_ s) (response_complete_ s) (header_maps s) (decoding_buffer s) (encoding_buffer s) (filter_lifetime s) (weak_boxes s) (next_box s) v (pb_mem s) (pb_platform s) (pb_trace s).
Definition set_pb_mem (v : mem) (s : filter_state) : filter_state :=
  FilterState (pending_request_headers_ s) (pending_response_headers_ s) (pending_request_trailers_ s) (pending_response_trailers_ s) (iteration_state_ s) (platform_filter_ s) (platform_request_callbacks_ s) (platform_response_callbacks_ s) (request_complete_ s) (response_complete_ s) (header_maps s) (decoding_buffer s) (encoding_buffer s) (filter_lifetime s) (weak_boxes s) (next_box s) (posted s) v (pb_platform s) (pb_trace s).
Definition set_pb_platform (v : P) (s : filter_state) : filter_state :=
  FilterState (pending_request_headers_ s) (pending_response_headers_ s) (pending_request_trailers_ s) (pending_response_trailers_ s) (iteration_state_ s) (platform_filter_ s) (platform_request_callbacks_ s) (platform_response_callbacks_ s) (request_complete_ s) (response_complete_ s) (header_maps s) (decoding_buffer s) (encoding_buffer s) (filter_lifetime s) (weak_boxes s) (next_box s) (posted s) (pb_mem s) v (pb_trace s).
Definition set_pb_trace (v : list (pb_event B)) (s : filter_state) : filter_state :=
  FilterState (pending_request_headers_ s) (pending_response_headers_ s) (pending_request_trailers_ s) (pending_response_trailers_ s) (iteration_state_ s) (platform_filter_ s) (platform_request_callbacks_ s) (platform_response_callbacks_ s) (request_complete_ s) (response_complete_ s) (header_maps s) (decoding_buffer s) (encoding_buffer s) (filter_lifetime s) (weak_boxes s) (next_box s) (posted s) (pb_mem s) (pb_platform s) v.
End setters.

#[export] Instance filter_state_part {HM B P} : Part (filter_state HM B P) (mem * P) :=
  { part_get s := (pb_mem s, pb_platform s);
    part_set t s := set_pb_platform t.2 (set_pb_mem t.1 s) }.
#[export] Instance filter_state_part_laws {HM B P} : PartLaws (filter_state HM B P) (mem * P).
Proof. split; [by intros [] []|by intros []|by intros [] []]. Qed.

#[export] Instance filter_state_mem {HM B P} : Part (filter_state HM B P) mem :=
  { part_get := pb_mem; part_set := set_pb_mem }.
#[export] Instance filter_state_mem_laws {HM B P} : PartLaws (filter_state HM B P) mem.
Proof. split; [done|by intros []|done]. Qed.

(** ** Operations *)

Section filter.
Context {mode : BuildMode} `{Allocator} {HM : Type} `{!HeaderMap HM} {B : Type}
  `{!BufferInstance B} {P : Type} `{!EnvoyFilterEnums}.
Abbreviation S := (filter_state HM B P).

(** *** Access *)

Definition get_map (id : nat) : M S HM :=
  maps ← gets header_maps; deref "the header map was destroyed" (maps !! id).
Definition put_map (id : nat) (hm : HM) : M S unit :=
  modify (λ s, set_header_maps (<[id := hm]> (header_maps s)) s).
Definition get_iteration_state : M S IterationState :=
  st ← gets iteration_state_; deref "iteration_state_ was not initialised" st.
Definition emit_pb (ev : pb_event B) : M S unit := modify (λ s, set_pb_trace (pb_trace s ++ [ev]) s).

Definition load_buffer (r : buffer_ref) : M S B :=
  b ← gets (λ s, match r with DecodingBuffer => decoding_buffer s | EncodingBuffer => encoding_buffer s end);
  deref "internal_buffer" b.
Definition store_buffer (r : buffer_ref) (b : B) : M S unit :=
  modify (λ s, match r with
               | DecodingBuffer => set_decoding_buffer (Some b) s
               | EncodingBuffer => set_encoding_buffer (Some b) s
               end).
Definition load_pending (r : pending_ref) : M S (option nat) :=
  gets (λ s, match r with
             | PendingRequestHeaders => pending_request_headers_ s
             | PendingResponseHeaders => pending_response_headers_ s
             end).
Definition clear_pending (r : pending_ref) : M S unit :=
  modify (λ s, match r with
               | PendingRequestHeaders => set_pending_request_headers None s
               | PendingResponseHeaders => set_pending_response_headers None s
               end).

(** [*p] on a heap-allocated envoy_headers or envoy_data. *)
Definition load_headers_box (p : ptr) : M mem envoy_headers :=
  l ← deref "pending headers" p;
  h ← gets heap;
  match h !! l with
  | Some (BHeadersBox v) => mret v
  | _ => fail (Undefined "envoy_headers is not allocated")
  end.
Definition load_data_box (p : ptr) : M mem envoy_data :=
  l ← deref "pending data" p;
  h ← gets heap;
  match h !! l with
  | Some (BDataBox v) => mret v
  | _ => fail (Undefined "envoy_data is not allocated")
  end.

(** *** The weak pointers and the constructor *)

(** weak_from_this(): empty until a shared_ptr owns the object. *)
Definition weak_from_this : M S bool :=
  l ← gets filter_lifetime;
  mret (match l with UnderConstruction => false | Owned | Expired => true end).

(** [new PlatformBridgeFilterWeakPtr{weak_from_this()}] *)
Definition new_weak : M S positive :=
  w ← weak_from_this;
  b ← gets next_box;
  modify (λ s, set_weak_boxes (<[b := w]> (weak_boxes s)) s) ;;
  modify (set_next_box (b + 1)) ;;
  mret b.

(** weak_filter->lock() *)
Definition lock_weak (w : bool) : M S bool :=
  l ← gets filter_lifetime;
  mret (w && match l with Owned => true | _ => false end).

Definition envoy_filter_release_callbacks (context : option positive) : M S unit :=
  match context with
  | None => mret tt
  | Some b =>
      boxes ← gets weak_boxes;
      match boxes !! b with
      | Some _ => modify (set_weak_boxes (delete b boxes))
      | None => fail (Undefined "delete of a weak pointer that is not allocated")
      end
  end.

Definition resumeDecoding : M S unit :=
  weak_self ← weak_from_this;
  modify (λ s, set_posted (posted s ++ [PostOnResumeDecoding weak_self]) s).
Definition resumeEncoding : M S unit :=
  weak_self ← weak_from_this;
  modify (λ s, set_posted (posted s ++ [PostOnResumeEncoding weak_self]) s).

Definition load_weak (context : option positive) : M S bool :=
  b ← deref "weak_filter" context;
  boxes ← gets weak_boxes;
  deref "weak pointer is not allocated" (boxes !! b).

Definition envoy_filter_callback_resume_decoding (context : option positive) : M S unit :=
  weak_filter ← load_weak context;
  filter ← lock_weak weak_filter;
  when filter resumeDecoding.
Definition envoy_filter_callback_resume_encoding (context : option positive) : M S unit :=
  weak_filter ← load_weak context;
  filter ← lock_weak weak_filter;
  when filter resumeEncoding.

Definition call_filter_callback (f : filter_callback_f) : option positive → M S unit :=
  match f with
  | envoy_filter_release_callbacks_f => envoy_filter_release_callbacks
  | envoy_filter_callback_resume_decoding_f => envoy_filter_callback_resume_decoding
  | envoy_filter_callback_resume_encoding_f => envoy_filter_callback_resume_encoding
  end.

(** The constructor, on an object whose members have their default initialisers. *)
Definition PlatformBridgeFilter_new (platform_filter : envoy_http_filter P) : M S unit :=
  modify (set_platform_filter platform_filter) ;;
  match init_filter platform_filter with
  | None => modify (set_platform_filter null_filter)
  | Some init =>
      instance ← zoom (init (static_context platform_filter));
      modify (set_platform_filter (set_instance_context instance platform_filter)) ;;
      ASSERT (bool_decide (instance ≠ NULL)) "init_filter unsuccessful" ;;
      modify (set_iteration_state (Some Ongoing)) ;;
      match set_request_callbacks platform_filter with
      | None => mret tt
      | Some set_callbacks =>
          context ← new_weak;
          let callbacks := FilterCallbacks (Some envoy_filter_callback_resume_decoding_f)
            (Some envoy_filter_release_callbacks_f) (Some context) in
          modify (set_platform_request_callbacks callbacks) ;;
          zoom (set_callbacks callbacks instance)
      end ;;
      match set_response_callbacks platform_filter with
      | None => mret tt
      | Some set_callbacks =>
          context ← new_weak;
          let callbacks := FilterCallbacks (Some envoy_filter_callback_resume_encoding_f)
            (Some envoy_filter_release_callbacks_f) (Some context) in
          modify (set_platform_response_callbacks callbacks) ;;
          zoom (set_callbacks callbacks instance)
      end
  end.

(** The factory callback of config.cc: make_shared runs the constructor and then
    owns the object. *)
Definition make_shared_filter (platform_filter : envoy_http_filter P) : M S unit :=
  PlatformBridgeFilter_new platform_filter ;; modify (set_lifetime Owned).

Definition onDestroy : M S unit :=
  f ← gets platform_filter_;
  match release_filter f with
  | None => ASSERT (bool_decide (instance_context f = NULL)) "release_filter required"
  | Some release =>
      zoom (release (instance_context f)) ;;
      modify (λ s, set_platform_filter (set_instance_context NULL (platform_filter_ s)) s)
  end.

(** *** Shared by the request and the response path *)

Definition replaceHeaders (headers : nat) (c_headers : envoy_headers) : M S unit :=
  hm ← get_map headers;
  hm ← zoom (addCopies c_headers (hm_clear hm));
  put_map headers hm ;;
  zoom (release_envoy_headers c_headers).

Definition onHeaders (headers : nat) (end_stream : bool)
    (on_headers : option (envoy_filter_on_headers_f P)) : M S FilterHeadersStatus :=
  match on_headers with
  | None => mret HeadersContinue
  | Some on_headers =>
      hm ← get_map headers;
      in_headers ← zoom (toBridgeHeaders hm);
      context ← gets (λ s, instance_context (platform_filter_ s));
      result ← zoom (on_headers in_headers end_stream context);
      if decide (headers_status result = kEnvoyFilterHeadersStatusContinue) then
        replaceHeaders headers (result_headers result) ;;
        mret HeadersContinue
      else if decide (headers_status result = kEnvoyFilterHeadersStatusStopIteration) then
        modify (set_iteration_state (Some Stopped)) ;;
        mret HeadersStopIteration
      else fail (Panic "invalid filter state: unsupported status for platform filters")
  end.

(** [b.drain(b.length())] then [b.addBufferFragment( *createBridgeFragment(d))]. *)
Definition replace_buffer (d : envoy_data) (b : B) : M mem B :=
  b ← drain_all b; addBridgeFragment d b.

(** [if (p) { replaceHeaders( **pending, *p); *pending = nullptr; free(p); }] *)
Definition update_pending (pending_headers : pending_ref) (p : ptr) : M S unit :=
  match p with
  | None => mret tt
  | Some _ =>
      pending ← load_pending pending_headers;
      headers ← deref "*pending_headers is null" pending;
      c_headers ← zoom (load_headers_box p);
      replaceHeaders headers c_headers ;;
      clear_pending pending_headers ;;
      zoom (c_free p)
  end.

(** The first half of onData: whether data is being buffered already, the copy the
    platform is shown, and the caller's buffer. *)
Definition onData_present (data : B) (internal_buffer : option buffer_ref)
    : M S (bool * envoy_data * B) :=
  state ← get_iteration_state;
  already_buffering ←
    (match state, internal_buffer with
     | Stopped, Some r => b ← load_buffer r; mret (bool_decide (0 < buf_length b)%Z)
     | _, _ => mret false
     end);
  '(in_data, data) ←
    (match internal_buffer with
     | Some r =>
         if already_buffering : bool then
           b ← load_buffer r;
           let '(b, data) := buf_move b data in
           store_buffer r b ;;
           in_data ← zoom (copyToBridgeData b);
           mret (in_data, data)
         else
           in_data ← zoom (copyToBridgeData data);
           mret (in_data, data)
     | None =>
         in_data ← zoom (copyToBridgeData data);
         mret (in_data, data)
     end);
  mret (already_buffering : bool, in_data, data).

(** The second half: what the platform's answer does. *)
Definition onData_answered (data : B) (internal_buffer : option buffer_ref)
    (pending_headers : pending_ref) (already_buffering : bool) (result : envoy_filter_data_status)
    : M S (FilterDataStatus * B) :=
  if decide (data_status result = kEnvoyFilterDataStatusContinue) then
    state ← get_iteration_state;
    RELEASE_ASSERT (bool_decide (state ≠ Stopped))
      "invalid filter state: filter iteration must be resumed with ResumeIteration" ;;
    data ← zoom (replace_buffer (result_data result) data);
    mret (DataContinue, data)
  else if decide (data_status result = kEnvoyFilterDataStatusStopIterationAndBuffer) then
    if already_buffering then mret (DataStopIterationNoBuffer, data)
    else
      modify (set_iteration_state (Some Stopped)) ;;
      mret (DataStopIterationAndBuffer, data)
  else if decide (data_status result = kEnvoyFilterDataStatusStopIterationNoBuffer) then
    (match internal_buffer with
     | Some r => b ← load_buffer r; b ← zoom (drain_all b); store_buffer r b
     | None => mret tt
     end) ;;
    modify (set_iteration_state (Some Stopped)) ;;
    mret (DataStopIterationNoBuffer, data)
  else if decide (data_status result = kEnvoyFilterDataStatusResumeIteration) then
    state ← get_iteration_state;
    RELEASE_ASSERT (bool_decide (state = Stopped))
      "invalid filter state: ResumeIteration may only be used when filter iteration is stopped" ;;
    update_pending pending_headers (data_pending_headers result) ;;
    data ←
      (match internal_buffer with
       | Some r =>
           b ← load_buffer r;
           b ← zoom (replace_buffer (result_data result) b);
           store_buffer r b ;;
           mret data
       | None => zoom (replace_buffer (result_data result) data)
       end);
    modify (set_iteration_state (Some Ongoing)) ;;
    mret (DataContinue, data)
  else fail (Panic "invalid filter state: unsupported status for platform filters").

(** The caller's buffer is returned with the status. *)
Definition onData (data : B) (end_stream : bool) (internal_buffer : option buffer_ref)
    (pending_headers : pending_ref) (on_data : option (envoy_filter_on_data_f P))
    : M S (FilterDataStatus * B) :=
  match on_data with
  | None => mret (DataContinue, data)
  | Some on_data =>
      '(already_buffering, in_data, data) ← onData_present data internal_buffer;
      context ← gets (λ s, instance_context (platform_filter_ s));
      result ← zoom (on_data in_data end_stream context);
      onData_answered data internal_buffer pending_headers already_buffering result
  end.

Definition onTrailers (trailers : nat) (internal_buffer : option buffer_ref)
    (pending_headers : pending_ref) (on_trailers : option (envoy_filter_on_trailers_f P))
    : M S FilterTrailersStatus :=
  match on_trailers with
  | None => mret TrailersContinue
  | Some on_trailers =>
      hm ← get_map trailers;
      in_trailers ← zoom (toBridgeHeaders hm);
      context ← gets (λ s, instance_context (platform_filter_ s));
      result ← zoom (on_trailers in_trailers context);
      if decide (trailers_status result = kEnvoyFilterTrailersStatusContinue) then
        state ← get_iteration_state;
        RELEASE_ASSERT (bool_decide (state ≠ Stopped))
          "invalid filter state: ResumeIteration may only be used when filter iteration is stopped" ;;
        replaceHeaders trailers (result_trailers result) ;;
        mret TrailersContinue
      else if decide (trailers_status result = kEnvoyFilterTrailersStatusStopIteration) then
        modify (set_iteration_state (Some Stopped)) ;;
        mret TrailersStopIteration
      else if decide (trailers_status result = kEnvoyFilterTrailersStatusResumeIteration) then
        state ← get_iteration_state;
        RELEASE_ASSERT (bool_decide (state = Stopped))
          "invalid filter state: ResumeIteration may only be used when filter iteration is stopped" ;;
        update_pending pending_headers (trailers_pending_headers result) ;;
        match trailers_pending_data result with
        | None => mret tt
        | Some _ =>
            r ← deref "internal_buffer is null" internal_buffer;
            b ← load_buffer r;
            b ← zoom (drain_all b);
            d ← zoom (load_data_box (trailers_pending_data result));
            b ← zoom (addBridgeFragment d b);
            store_buffer r b ;;
            zoom (c_free (trailers_pending_data result))
        end ;;
        replaceHeaders trailers (result_trailers result) ;;
        modify (set_iteration_state (Some Ongoing)) ;;
        mret TrailersContinue
      else fail (Panic "invalid filter state: unsupported status for platform filters")
  end.

(** *** The filter's entry points *)

(** [&mutable_buffer] of the callbacks' buffer, or null. *)
Definition internal_decoding_buffer : M S (option buffer_ref) :=
  gets (λ s, match decoding_buffer s with Some _ => Some DecodingBuffer | None => None end).
Definition internal_encoding_buffer : M S (option buffer_ref) :=
  gets (λ s, match encoding_buffer s with Some _ => Some EncodingBuffer | None => None end).

Definition decodeHeaders (headers : nat) (end_stream : bool) : M S FilterHeadersStatus :=
  f ← gets platform_filter_;
  status ← onHeaders headers end_stream (on_request_headers f);
  (if status is HeadersStopIteration then modify (set_pending_request_headers (Some headers))
   else mret tt) ;;
  modify (set_request_complete end_stream) ;;
  mret status.

Definition encodeHeaders (headers : nat) (end_stream : bool) : M S FilterHeadersStatus :=
  f ← gets platform_filter_;
  status ← onHeaders headers end_stream (on_response_headers f);
  (if status is HeadersStopIteration then modify (set_pending_response_headers (Some headers))
   else mret tt) ;;
  modify (set_response_complete end_stream) ;;
  mret status.

Definition decodeData (data : B) (end_stream : bool) : M S (FilterDataStatus * B) :=
  internal_buffer ← internal_decoding_buffer;
  f ← gets platform_filter_;
  result ← onData data end_stream internal_buffer PendingRequestHeaders (on_request_data f);
  modify (set_request_complete end_stream) ;;
  mret result.

Definition encodeData (data : B) (end_stream : bool) : M S (FilterDataStatus * B) :=
  internal_buffer ← internal_encoding_buffer;
  f ← gets platform_filter_;
  result ← onData data end_stream internal_buffer PendingResponseHeaders (on_response_data f);
  modify (set_response_complete end_stream) ;;
  mret result.

Definition decodeTrailers (trailers : nat) : M S FilterTrailersStatus :=
  internal_buffer ← internal_decoding_buffer;
  f ← gets platform_filter_;
  status ← onTrailers trailers internal_buffer PendingRequestHeaders (on_request_trailers f);
  (if status is TrailersStopIteration then modify (set_pending_request_trailers (Some trailers))
   else mret tt) ;;
  modify (set_request_complete true) ;;
  mret status.

Definition encodeTrailers (trailers : nat) : M S FilterTrailersStatus :=
  internal_buffer ← internal_encoding_buffer;
  f ← gets platform_filter_;
  status ← onTrailers trailers internal_buffer PendingResponseHeaders (on_response_trailers f);
  (if status is TrailersStopIteration then modify (set_pending_response_trailers (Some trailers))
   else mret tt) ;;
  modify (set_response_complete true) ;;
  mret status.

(** *** Asynchronous resumption *)

(** A snapshot of the pending headers or trailers, for the platform. *)
Definition bridge_pending (pending : option nat) : M S (option envoy_headers) :=
  match pending with
  | Some id => hm ← get_map id; h ← zoom (toBridgeHeaders hm); mret (Some h)
  | None => mret None
  end.
Definition bridge_buffer (internal_buffer : option buffer_ref) : M S (option envoy_data) :=
  match internal_buffer with
  | Some r => b ← load_buffer r; d ← zoom (copyToBridgeData b); mret (Some d)
  | None => mret None
  end.

(** What the platform returned replaces the pending map, and its box is freed. *)
Definition consume_headers (id : nat) (p : ptr) (clear : M S unit) (what : string) : M S unit :=
  RELEASE_ASSERT (bool_decide (p ≠ NULL)) what ;;
  c_headers ← zoom (load_headers_box p);
  replaceHeaders id c_headers ;;
  clear ;;
  zoom (c_free p).

(** The buffered data is replaced; data that was not buffered is injected. *)
Definition consume_data (internal_buffer : option buffer_ref) (p : ptr) (inject : B → pb_event B)
    : M S unit :=
  match internal_buffer, p with
  | Some r, _ =>
      RELEASE_ASSERT (bool_decide (p ≠ NULL))
        "invalid filter state: data is pending and must be returned to resume filter iteration" ;;
      b ← load_buffer r;
      b ← zoom (drain_all b);
      d ← zoom (load_data_box p);
      b ← zoom (addBridgeFragment d b);
      store_buffer r b ;;
      zoom (c_free p)
  | None, Some _ =>
      d ← zoom (load_data_box p);
      inject_data ← zoom (addBridgeFragment d (buf_create : B));
      emit_pb (inject inject_data) ;;
      zoom (c_free p)
  | None, None => mret tt
  end.

Definition headers_pending : string := "invalid filter state: headers are pending and must be returned to resume filter iteration".
Definition trailers_pending : string := "invalid filter state: trailers are pending and must be returned to resume filter iteration".

Definition onResumeDecoding : M S unit :=
  state ← get_iteration_state;
  if decide (state = Ongoing) then mret tt
  else
    internal_buffer ← internal_decoding_buffer;
    headers ← gets pending_request_headers_;
    pending_headers ← bridge_pending headers;
    pending_data ← bridge_buffer internal_buffer;
    trailers ← gets pending_request_trailers_;
    pending_trailers ← bridge_pending trailers;
    f ← gets platform_filter_;
    on_resume ← deref "on_resume_request is null" (on_resume_request f);
    request_complete ← gets request_complete_;
    result ← zoom (on_resume pending_headers pending_data pending_trailers request_complete
                     (instance_context f));
    if decide (resume_status result = kEnvoyFilterResumeStatusStopIteration) then mret tt
    else
      pending ← gets pending_request_headers_;
      match pending with
      | Some id => consume_headers id (resume_pending_headers result)
          (modify (set_pending_request_headers None)) headers_pending
      | None => mret tt
      end ;;
      consume_data internal_buffer (resume_pending_data result) EvAddDecodedData ;;
      pending ← gets pending_request_trailers_;
      match pending with
      | Some id => consume_headers id (resume_pending_trailers result)
          (modify (set_pending_request_trailers None)) trailers_pending
      | None => mret tt
      end ;;
      modify (set_iteration_state (Some Ongoing)) ;;
      emit_pb EvContinueDecoding.

Definition onResumeEncoding : M S unit :=
  state ← get_iteration_state;
  if decide (state = Ongoing) then mret tt
  else
    internal_buffer ← internal_encoding_buffer;
    headers ← gets pending_response_headers_;
    pending_headers ← bridge_pending headers;
    pending_data ← bridge_buffer internal_buffer;
    trailers ← gets pending_response_trailers_;
    pending_trailers ← bridge_pending trailers;
    f ← gets platform_filter_;
    on_resume ← deref "on_resume_response is null" (on_resume_response f);
    response_complete ← gets response_complete_;
    result ← zoom (on_resume pending_headers pending_data pending_trailers response_complete
                     (instance_context f));
    pending ← gets pending_response_headers_;
    match pending with
    | Some id => consume_headers id (resume_pending_headers result)
        (modify (set_pending_response_headers None)) headers_pending
    | None => mret tt
    end ;;
    consume_data internal_buffer (resume_pending_data result) EvAddEncodedData ;;
    pending ← gets pending_response_trailers_;
    match pending with
    | Some id => consume_headers id (resume_pending_trailers result)
        (modify (set_pending_response_trailers None)) trailers_pending
    | None => mret tt
    end ;;
    modify (set_iteration_state (Some Ongoing)) ;;
    emit_pb EvContinueEncoding.

(** The dispatcher runs a posted functor. *)
Definition run_resume (f : resume_functor) : M S unit :=
  match f with
  | PostOnResumeDecoding weak_self => self ← lock_weak weak_self; when self onResumeDecoding
  | PostOnResumeEncoding weak_self => self ← lock_weak weak_self; when self onResumeEncoding
  end.
End filter.
