(* ===== verification/PlatformBridgeOps.v ===== *)
(** * What the operations of the platform bridge filter do

    Exact results of the filter's building blocks, for any platform: how a header map
    or a buffer is replaced, and how a frame is presented to the platform. *)

From S2P Require Export PlatformBridge.

Section ops.
Context {mode : BuildMode} `{Allocator} {HM : Type} `{!HeaderMap HM} {B : Type}
  `{!BufferInstance B} {P : Type} `{!EnvoyFilterEnums}.
Abbreviation S := (filter_state HM B P).
Implicit Types (s : S).

(** The filter's state with another memory and platform state. *)
Definition with_mem (m : mem) s : S := set_pb_mem m s.
Definition with_platform (t : mem * P) s : S := part_set t s.

Lemma zoom_mem_run {A} (m : M mem A) s a m' :
  m (pb_mem s) = Ok (a, m') → (zoom m : M S A) s = Ok (a, with_mem m' s).
Proof. intros Hm. unfold zoom. cbn. by rewrite Hm. Qed.

Lemma zoom_platform_run {A} (m : M (mem * P) A) s a t :
  m (pb_mem s, pb_platform s) = Ok (a, t) → (zoom m : M S A) s = Ok (a, with_platform t s).
Proof. intros Hm. unfold zoom. cbn. by rewrite Hm. Qed.

Lemma get_map_run s id hm : header_maps s !! id = Some hm → get_map id s = Ok (hm, s).
Proof. intros Hm. unfold get_map, mbind, M_bind. cbn. by rewrite Hm. Qed.

Lemma get_iteration_state_run s st :
  iteration_state_ s = Some st → get_iteration_state s = Ok (st, s).
Proof. intros Hst. unfold get_iteration_state, mbind, M_bind. cbn. by rewrite Hst. Qed.

(** The buffer a reference designates, as a field. *)
Definition buffer_at (r : buffer_ref) s : option B :=
  match r with DecodingBuffer => decoding_buffer s | EncodingBuffer => encoding_buffer s end.
Definition with_buffer (r : buffer_ref) (b : B) s : S :=
  match r with
  | DecodingBuffer => set_decoding_buffer (Some b) s
  | EncodingBuffer => set_encoding_buffer (Some b) s
  end.
Definition pending_at (r : pending_ref) s : option nat :=
  match r with
  | PendingRequestHeaders => pending_request_headers_ s
  | PendingResponseHeaders => pending_response_headers_ s
  end.
Definition without_pending (r : pending_ref) s : S :=
  match r with
  | PendingRequestHeaders => set_pending_request_headers None s
  | PendingResponseHeaders => set_pending_response_headers None s
  end.

Lemma load_buffer_run s r b : buffer_at r s = Some b → load_buffer r s = Ok (b, s).
Proof. intros Hb. unfold load_buffer, mbind, M_bind. destruct r; cbn in *; by rewrite Hb. Qed.

(** The map [id] with the pairs of a consumed envoy_headers, names lower-cased. *)
Definition with_headers (id : nat) (hm : HM) (es : list (list byte * list byte)) s : S :=
  set_header_maps (<[id := add_entries (lower_entries es) (hm_clear hm)]> (header_maps s)) s.

Lemma replaceHeaders_run s id hm eh hs es `{!HeaderMapLaws HM} :
  header_maps s !! id = Some hm → headers_ok (pb_mem s) eh hs es →
  replaceHeaders id eh s =
  Ok (tt, with_mem (mem_release (headers_owned eh hs) (headers_external hs) (pb_mem s))
            (with_headers id hm es s)).
Proof.
  intros Hm [Hr Hown]. unfold replaceHeaders.
  rewrite (bind_run _ _ _ _ _ (get_map_run _ _ _ Hm)).
  pose proof (addCopies_run eh hs es (hm_clear hm) (pb_mem s) Hr) as Hc.
  rewrite (bind_run _ _ _ _ _ (zoom_mem_run _ _ _ _ Hc)).
  set (s1 := with_mem (pb_mem s) s).
  assert (s1 = s) as Hs1 by (unfold s1; by destruct s). clearbody s1. subst s1.
  rewrite (bind_run _ _ s tt (with_headers id hm es s)) by done.
  destruct Hr as (Hlen & Harr & _).
  apply zoom_mem_run. by apply release_envoy_headers_run.
Qed.

(** A buffer whose fragments are released, then holding [bs] in the storage of [d]. *)
Lemma replace_buffer_run d bs (b : B) m `{!BufferLaws B} :
  allocated m (fragments_owned b) →
  reads_data (heap (mem_release (fragments_owned b) (fragments_external b) m)) d bs →
  ∃ b', replace_buffer d b m =
      Ok (b', mem_release (fragments_owned b) (fragments_external b) m) ∧
    buf_bytes b' = bs ∧ buf_fragments b' = [d].
Proof.
  intros Hown Hr. destruct (drain_all_run b m Hown) as (b0 & Hrun & Hb & Hf).
  exists (buf_addBufferFragment d bs b0). unfold replace_buffer.
  rewrite (bind_run _ _ _ _ _ Hrun), (addBridgeFragment_run _ _ _ _ Hr).
  rewrite add_bytes, add_fragments, Hb, Hf. done.
Qed.

(** *** Consuming what the platform returned by pointer *)

Lemma load_headers_box_run m l eh :
  heap m !! l = Some (BHeadersBox eh) → load_headers_box (Some l) m = Ok (eh, m).
Proof. intros Hl. unfold load_headers_box, mbind, M_bind. cbn. by rewrite Hl. Qed.

Lemma load_data_box_run m l d :
  heap m !! l = Some (BDataBox d) → load_data_box (Some l) m = Ok (d, m).
Proof. intros Hl. unfold load_data_box, mbind, M_bind. cbn. by rewrite Hl. Qed.

(** A heap-allocated envoy_headers the filter may consume: it holds [eh], whose
    blocks and the box itself are distinct. *)
Definition boxed_headers (m : mem) (l : positive) (eh : envoy_headers) (hs : list envoy_header)
    (es : list (list byte * list byte)) : Prop :=
  heap m !! l = Some (BHeadersBox eh) ∧ headers_ok m eh hs es ∧ l ∉ headers_owned eh hs.

Lemma free_after_release m ls ext l :
  is_Some (heap m !! l) → l ∉ ls →
  c_free (Some l) (mem_release ls ext m) = Ok (tt, mem_release (ls ++ [l]) ext m).
Proof.
  intros Hl Hn. rewrite (c_free_run l).
  - do 2 f_equal. rewrite <- (app_nil_r ext) at 2. rewrite <- mem_release_app.
    unfold mem_release, set_heap. cbn. by rewrite app_nil_r.
  - by rewrite lookup_mem_release, decide_False.
Qed.

Lemma consume_headers_run s id hm l eh hs es clear (clear_state : S → S) what `{!HeaderMapLaws HM} :
  header_maps s !! id = Some hm → boxed_headers (pb_mem s) l eh hs es →
  (∀ s, clear s = Ok (tt, clear_state s)) → (∀ s, pb_mem (clear_state s) = pb_mem s) →
  consume_headers id (Some l) clear what s =
  Ok (tt, with_mem (mem_release (headers_owned eh hs ++ [l]) (headers_external hs) (pb_mem s))
            (clear_state (with_mem (mem_release (headers_owned eh hs) (headers_external hs) (pb_mem s))
              (with_headers id hm es s)))).
Proof.
  intros Hm (Hl & Hok & Hn) Hclear Hcm. unfold consume_headers.
  rewrite (bind_run _ _ s tt s) by (unfold RELEASE_ASSERT; by rewrite bool_decide_eq_true_2).
  rewrite (bind_run _ _ _ _ _ (zoom_mem_run _ _ _ _ (load_headers_box_run _ _ _ Hl))).
  assert (with_mem (pb_mem s) s = s) as -> by (by destruct s).
  rewrite (bind_run _ _ _ _ _ (replaceHeaders_run s id hm eh hs es Hm Hok)).
  rewrite (bind_run _ _ _ _ _ (Hclear _)). apply zoom_mem_run. rewrite Hcm.
  apply free_after_release; [by eexists|done].
Qed.

(** A heap-allocated envoy_data that stays readable, and allocated, while the
    fragments of the buffer it replaces are released. *)
Definition boxed_data (m : mem) (l : positive) (d : envoy_data) (bs : list byte) (b : B) : Prop :=
  heap m !! l = Some (BDataBox d) ∧ (l ∉ fragments_owned b) ∧ allocated m (fragments_owned b) ∧
  reads_data (heap (mem_release (fragments_owned b) (fragments_external b) m)) d bs.

Lemma consume_data_run s r l d bs (b : B) inject `{!BufferLaws B} :
  buffer_at r s = Some b → boxed_data (pb_mem s) l d bs b →
  ∃ b', consume_data (Some r) (Some l) inject s =
      Ok (tt, with_mem (mem_release (fragments_owned b ++ [l]) (fragments_external b) (pb_mem s))
                (with_buffer r b' s)) ∧
    buf_bytes b' = bs ∧ buf_fragments b' = [d].
Proof.
  intros Hb (Hl & Hn & Hown & Hr).
  destruct (drain_all_run b (pb_mem s) Hown) as (b0 & Hdrain & Hb0 & Hf0).
  set (m1 := mem_release (fragments_owned b) (fragments_external b) (pb_mem s)) in *.
  exists (buf_addBufferFragment d bs b0).
  split; [|by rewrite add_bytes, add_fragments, Hb0, Hf0]. unfold consume_data.
  rewrite (bind_run _ _ s tt s) by (unfold RELEASE_ASSERT; by rewrite bool_decide_eq_true_2).
  rewrite (bind_run _ _ _ _ _ (load_buffer_run _ _ _ Hb)).
  rewrite (bind_run _ _ _ _ _ (zoom_mem_run _ _ _ _ Hdrain)).
  assert (Hl1 : heap m1 !! l = Some (BDataBox d)).
  { unfold m1. by rewrite lookup_mem_release, decide_False. }
  rewrite (bind_run _ _ _ _ _ (zoom_mem_run (load_data_box (Some l)) (with_mem m1 s) _ _
    (load_data_box_run _ _ _ Hl1))).
  rewrite (bind_run _ _ _ _ _ (zoom_mem_run (addBridgeFragment d b0) (with_mem m1 (with_mem m1 s)) _ _
    (addBridgeFragment_run _ _ _ _ Hr))).
  set (s1 := with_mem m1 _).
  rewrite (bind_run _ _ s1 tt (with_buffer r (buf_addBufferFragment d bs b0) s1)) by (by destruct r).
  rewrite (zoom_mem_run (c_free (Some l)) _ tt (mem_release (fragments_owned b ++ [l]) (fragments_external b) (pb_mem s))).
  - by destruct r.
  - transitivity (c_free (Some l) m1); [by destruct r|].
    apply free_after_release; [by eexists|done].
Qed.

(** *** Computations that change only the C memory and the platform *)

Definition only_memory s s' : Prop := s' = with_platform (pb_mem s', pb_platform s') s.

#[export] Instance only_memory_preorder : PreOrder only_memory.
Proof.
  unfold only_memory. split; [by intros []|]. intros s1 s2 s3 H1 H2. rewrite H2, H1. by destruct s1.
Qed.

Lemma only_memory_zoom_mem {A} (m : M mem A) : preserves only_memory (zoom m : M S A).
Proof. apply preserves_zoom. intros s t. by destruct s. Qed.
Lemma only_memory_zoom_platform {A} (m : M (mem * P) A) : preserves only_memory (zoom m : M S A).
Proof. apply preserves_zoom. intros s []. by destruct s. Qed.
#[local] Hint Resolve only_memory_zoom_mem only_memory_zoom_platform : preservesdb.

Lemma only_memory_get_map id : preserves only_memory (get_map id : M S HM).
Proof. unfold get_map. preserve. Qed.
Lemma only_memory_load_buffer r : preserves only_memory (load_buffer r : M S B).
Proof. unfold load_buffer. preserve. Qed.
#[local] Hint Resolve only_memory_get_map only_memory_load_buffer : preservesdb.

Lemma only_memory_bridge_pending o : preserves only_memory (bridge_pending o : M S _).
Proof. unfold bridge_pending. preserve. Qed.
Lemma only_memory_bridge_buffer r : preserves only_memory (bridge_buffer r : M S _).
Proof. unfold bridge_buffer. preserve. Qed.

(** *** The constructor's weak pointers *)

(** Every weak pointer handed out so far designates nothing, and the callbacks the
    filter stores use the pointers it allocated. *)
Definition empty_weak (cb : envoy_http_filter_callbacks) s : Prop :=
  ∀ f, resume_iteration cb = Some f →
    (f = envoy_filter_callback_resume_decoding_f ∨ f = envoy_filter_callback_resume_encoding_f) ∧
    ∃ b, callback_context cb = Some b ∧ weak_boxes s !! b = Some false.

Lemma call_empty_weak cb f s :
  empty_weak cb s → resume_iteration cb = Some f →
  call_filter_callback f (callback_context cb) s = Ok (tt, s).
Proof.
  intros He Hf. destruct (He f Hf) as (Hcase & b & Hb & Hw).
  assert (load_weak (Some b) s = Ok (false, s)) as Hl.
  { unfold load_weak, mbind, M_bind. cbn. by rewrite Hw. }
  destruct Hcase as [-> | ->]; cbn [call_filter_callback];
    unfold envoy_filter_callback_resume_decoding, envoy_filter_callback_resume_encoding;
    rewrite Hb, (bind_run _ _ _ _ _ Hl); done.
Qed.

Lemma empty_weak_stable cb s s' :
  (∀ b, weak_boxes s !! b = Some false → weak_boxes s' !! b = Some false) →
  empty_weak cb s → empty_weak cb s'.
Proof. intros Hb He f Hf. destruct (He f Hf) as (? & b & ? & ?). split; [done|]. exists b. auto. Qed.

(** A weak pointer made in the constructor is empty; others keep their value. *)
Lemma new_weak_constructing s b s' :
  filter_lifetime s = UnderConstruction → new_weak s = Ok (b, s') →
  s' = set_next_box (b + 1) (set_weak_boxes (<[b := false]> (weak_boxes s)) s) ∧ b = next_box s.
Proof.
  intros Hl. unfold new_weak, weak_from_this, mbind, M_bind. cbn. rewrite Hl. by intros [= <- <-].
Qed.

Lemma zoom_platform_inv {A} (m : M (mem * P) A) s a s' :
  (zoom m : M S A) s = Ok (a, s') → ∃ t, s' = with_platform t s.
Proof. rewrite zoom_Ok. intros (a' & t & _ & [= -> ->]). by exists t. Qed.

(** The invariant of the constructor: no shared pointer owns the filter yet. *)
Definition constructing s : Prop :=
  filter_lifetime s = UnderConstruction ∧ empty_weak (platform_request_callbacks_ s) s ∧
  empty_weak (platform_response_callbacks_ s) s.

Lemma constructing_same s s' :
  filter_lifetime s' = filter_lifetime s → weak_boxes s' = weak_boxes s →
  platform_request_callbacks_ s' = platform_request_callbacks_ s →
  platform_response_callbacks_ s' = platform_response_callbacks_ s →
  constructing s → constructing s'.
Proof.
  intros Hl Hw Hq Hr (H1 & H2 & H3). unfold constructing. rewrite Hl, Hq, Hr.
  split_and!; [done|..]; (eapply empty_weak_stable; [|done]); by rewrite Hw.
Qed.

(** [if (set_callbacks) { ... }] of the constructor, for either direction. *)
Lemma wp_give_callbacks (set : envoy_http_filter_callbacks → S → S) resume
    (set_callbacks : envoy_filter_set_callbacks_f P) instance s :
  (resume = envoy_filter_callback_resume_decoding_f ∧ set = set_platform_request_callbacks ∨
   resume = envoy_filter_callback_resume_encoding_f ∧ set = set_platform_response_callbacks) →
  constructing s →
  wp (context ← new_weak;
      let callbacks := FilterCallbacks (Some resume) (Some envoy_filter_release_callbacks_f)
        (Some context) in
      modify (set callbacks) ;; zoom (set_callbacks callbacks instance))
    any_fault (λ _ s', constructing s') s.
Proof.
  intros Hset (Hl & Hq & Hr). apply wp_bind.
  assert (Hnew : wp (new_weak : M S positive) any_fault (λ b s', s' = set_next_box (b + 1)
    (set_weak_boxes (<[b := false]> (weak_boxes s)) s)) s).
  { unfold wp. destruct (new_weak s) as [[b s']|] eqn:Hn; [|done].
    by apply new_weak_constructing in Hn as [? _]. }
  eapply wp_conseq; [exact Hnew|]. cbv beta. intros b s' ->.
  apply wp_bind, wp_modify. cbv zeta.
  assert (Hkeep : ∀ cb s2, weak_boxes s2 = <[b := false]> (weak_boxes s) →
    empty_weak cb s → empty_weak cb s2).
  { intros cb s2 Hw. apply empty_weak_stable. intros b'. rewrite Hw, lookup_insert. by case_decide. }
  set (s1 := set _ _).
  assert (Hs1 : constructing s1).
  { unfold s1. destruct Hset as [[-> ->]|[-> ->]]; (split; [done|split]).
    all: try (by apply Hkeep).
    all: intros f [= <-]; (split; [tauto|]); exists b; (split; [done|]); cbn; by rewrite lookup_insert_eq. }
  clearbody s1. unfold wp. destruct (zoom _ s1) as [[[] s2]|] eqn:Hz; [|done].
  apply zoom_platform_inv in Hz as [t ->]. by eapply constructing_same.
Qed.

Lemma wp_PlatformBridgeFilter_new f s :
  constructing s → wp (PlatformBridgeFilter_new f) any_fault (λ _ s', constructing s') s.
Proof.
  intros HC. unfold PlatformBridgeFilter_new. apply wp_bind, wp_modify.
  assert (HC1 : constructing (set_platform_filter f s)) by (by eapply constructing_same).
  destruct (init_filter f) as [init|].
  2:{ apply wp_modify. by eapply constructing_same. }
  apply wp_bind. unfold wp at 1.
  destruct (zoom (init (static_context f)) _) as [[instance s2]|] eqn:Hz; [|done].
  apply zoom_platform_inv in Hz as [t ->].
  apply wp_bind, wp_modify, wp_bind, wp_ASSERT; [|done]. intros _.
  apply wp_bind, wp_modify. set (s3 := set_iteration_state _ _).
  assert (HC3 : constructing s3) by (by eapply constructing_same). clearbody s3.
  apply wp_bind. eapply (wp_conseq _ _ (λ _ s', constructing s')).
  - destruct (set_request_callbacks f) as [sc|]; [|by apply wp_ret].
    apply (wp_give_callbacks set_platform_request_callbacks); [by left|done].
  - intros [] s4 HC4. destruct (set_response_callbacks f) as [sc|]; [|by apply wp_ret].
    apply (wp_give_callbacks set_platform_response_callbacks); [by right|done].
Qed.
End ops.
