(* ===== verification/PlatformBridgeData.v ===== *)
(** * The data path of the platform bridge filter against its specification

    An abstract account of what a platform filter is promised about data: which
    bytes it is shown, and what its answer makes of the frame, of what is buffered
    and of the iteration. [wp_onData] shows that onData implements it. *)

From S2P Require Export PlatformBridgeOps.

(** ** The specification *)

(** The data path of a stream: whether iteration is stopped, the bytes buffered so
    far (if there is a buffer), and the frame at hand. *)
Record data_view := DataView {
  dv_state : IterationState;
  dv_buffered : option (list byte);
  dv_frame : list byte
}.

(** What the platform may answer; with ResumeIteration it may return headers that
    replace the pending ones. The last stands for every status the filter does not
    support. *)
Inductive data_answer :=
| AnswerContinue (bs : list byte)
| AnswerStopAndBuffer
| AnswerStopNoBuffer
| AnswerResume (bs : list byte) (pending : option (list (list byte * list byte)))
| AnswerUnsupported.

(** Stopped with data waiting: the frame joins the buffer before the platform sees it. *)
Definition buffering (v : data_view) : bool :=
  match dv_state v, dv_buffered v with
  | Stopped, Some (_ :: _) => true
  | _, _ => false
  end.
Definition joined (v : data_view) : data_view :=
  if buffering v
  then DataView (dv_state v) ((λ bs, bs ++ dv_frame v) <$> dv_buffered v) []
  else v.
Definition presented (v : data_view) : list byte :=
  if buffering v then default [] (dv_buffered (joined v)) else dv_frame v.

Definition data_spec (v : data_view) (a : data_answer) : option (FilterDataStatus * data_view) :=
  let j := joined v in
  match a, dv_state v with
  | AnswerContinue bs, Ongoing => Some (DataContinue, DataView Ongoing (dv_buffered j) bs)
  | AnswerContinue _, Stopped => None
  | AnswerStopAndBuffer, _ =>
      Some (if buffering v then DataStopIterationNoBuffer else DataStopIterationAndBuffer,
            DataView Stopped (dv_buffered j) (dv_frame j))
  | AnswerStopNoBuffer, _ =>
      Some (DataStopIterationNoBuffer, DataView Stopped ((λ _, []) <$> dv_buffered j) (dv_frame j))
  | AnswerResume bs _, Stopped =>
      Some (DataContinue,
        match dv_buffered j with
        | Some _ => DataView Ongoing (Some bs) (dv_frame j)
        | None => DataView Ongoing None bs
        end)
  | AnswerResume _ _, Ongoing => None
  | AnswerUnsupported, _ => None
  end.

(** ** The implementation *)

Section data.
Context {mode : BuildMode} `{Allocator} {HM : Type} `{!HeaderMap HM, !HeaderMapLaws HM} {B : Type}
  `{!BufferInstance B, !BufferLaws B} {P : Type} `{!EnvoyFilterEnums, !EnvoyFilterEnumsLaws}.
Abbreviation S := (filter_state HM B P).
Implicit Types (s : S).

(** The four statuses the filter supports. *)
Definition supported_statuses : list Z :=
  [kEnvoyFilterDataStatusContinue; kEnvoyFilterDataStatusStopIterationAndBuffer;
   kEnvoyFilterDataStatusStopIterationNoBuffer; kEnvoyFilterDataStatusResumeIteration].

Definition answer_status (a : data_answer) (status : Z) : Prop :=
  match a with
  | AnswerContinue _ => status = kEnvoyFilterDataStatusContinue
  | AnswerStopAndBuffer => status = kEnvoyFilterDataStatusStopIterationAndBuffer
  | AnswerStopNoBuffer => status = kEnvoyFilterDataStatusStopIterationNoBuffer
  | AnswerResume _ _ => status = kEnvoyFilterDataStatusResumeIteration
  | AnswerUnsupported => status ∉ supported_statuses
  end.

Definition answer_pending (a : data_answer) : option (list (list byte * list byte)) :=
  match a with AnswerResume _ pending => pending | _ => None end.

Definition buffer_of (r : option buffer_ref) s : option B := r ≫= λ r, buffer_at r s.
Definition view (st : IterationState) (r : option buffer_ref) (data : B) s : data_view :=
  DataView st (buf_bytes <$> buffer_of r s) (buf_bytes data).

(** The pointer to the headers the platform returns: NULL, or a box the filter may
    consume, which with its contents takes the blocks [blocks]. *)
Definition returns_headers (m : mem) (p : ptr) (pending : option (list (list byte * list byte)))
    (blocks : list positive) : Prop :=
  match pending with
  | None => p = NULL ∧ blocks = []
  | Some es => ∃ l eh hs, p = Some l ∧ boxed_headers m l eh hs es ∧
      blocks = headers_owned eh hs ++ [l]
  end.

(** What the platform leaves with its answer. The data it gives back reads as the
    answer's bytes even after the blocks [held] and those of the returned headers are
    freed; all these are allocated and distinct. Without ResumeIteration the filter
    does not look at the returned headers, nor at the data when iteration stops. *)
Definition answer_memory (a : data_answer) (result : envoy_filter_data_status) (m : mem)
    (held : list positive) : Prop :=
  match a with
  | AnswerContinue bs =>
      allocated m held ∧ reads_data (foldr delete (heap m) held) (result_data result) bs
  | AnswerResume bs pending =>
      ∃ blocks, returns_headers m (data_pending_headers result) pending blocks ∧
        allocated m (blocks ++ held) ∧
        reads_data (foldr delete (heap m) (blocks ++ held)) (result_data result) bs
  | _ => allocated m held
  end.

(** A platform function that, shown [bytes] in a fresh envoy_data, returns with the
    answer [a]. *)
Definition platform_answers (f : envoy_filter_on_data_f P) (bytes : list byte)
    (end_stream : bool) s (a : data_answer) (held : list positive) : Prop :=
  ∀ in_data m1,
    grows (data_owned in_data) (pb_mem s) m1 → reads_data (heap m1) in_data bytes →
    wp (f in_data end_stream (instance_context (platform_filter_ s))) no_fault
      (λ result t, answer_status a (data_status result) ∧ answer_memory a result t.1 held)
      (m1, pb_platform s).

(** The buffers' fragments, which must still be allocated when they are drained. *)
Definition held_blocks (r : option buffer_ref) (data : B) s : list positive :=
  match buffer_of r s with
  | Some b => fragments_owned b ++ fragments_owned data
  | None => fragments_owned data
  end.

(** The frame condition: only the iteration state, the buffer at [r], the C memory
    and the platform's own state may differ. *)
Definition same_rest (r : option buffer_ref) s s' : Prop :=
  s' = with_platform (pb_mem s', pb_platform s') (set_iteration_state (iteration_state_ s')
    (match r with
     | None => s
     | Some DecodingBuffer => set_decoding_buffer (decoding_buffer s') s
     | Some EncodingBuffer => set_encoding_buffer (encoding_buffer s') s
     end)).

Ltac unfold_frame r s := unfold same_rest; destruct r as [[]|], s.

#[export] Instance same_rest_preorder r : PreOrder (same_rest r).
Proof.
  unfold same_rest. split; [by destruct r as [[]|]; intros []|].
  intros s1 s2 s3 Ha Hb. rewrite Hb, Ha. by destruct r as [[]|], s1.
Qed.

Lemma same_rest_fields r s s' :
  same_rest r s s' →
  platform_filter_ s' = platform_filter_ s ∧ header_maps s' = header_maps s ∧
  ∀ pending, pending_at pending s' = pending_at pending s.
Proof. intros ->. destruct r as [[]|]; (split_and!; [done|done|by intros []]). Qed.

(** The filter once the headers returned with the answer have replaced those that
    were pending, which no longer are. Nothing if no header map was pending. *)
Definition pending_replaced (pending : pending_ref) (a : data_answer) s : option S :=
  match answer_pending a with
  | None => Some s
  | Some es =>
      id ← pending_at pending s;
      hm ← header_maps s !! id;
      Some (without_pending pending (with_headers id hm es s))
  end.

Lemma pending_replaced_rest pending a r s s' :
  same_rest r s s' →
  option_Forall2 (same_rest r) (pending_replaced pending a s) (pending_replaced pending a s').
Proof.
  intros Hr. destruct (same_rest_fields _ _ _ Hr) as (_ & Hm & Hp). unfold pending_replaced.
  destruct (answer_pending a) as [es|]; [|by constructor].
  rewrite Hp. destruct (pending_at pending s) as [id|]; cbn; [|constructor].
  rewrite Hm. destruct (header_maps s !! id) as [hm|]; cbn; constructor.
  assert (Heq : without_pending pending (with_headers id hm es s') = without_pending pending
    (with_headers id hm es (with_platform (pb_mem s', pb_platform s')
      (set_iteration_state (iteration_state_ s') (match r with
        | None => s
        | Some DecodingBuffer => set_decoding_buffer (decoding_buffer s') s
        | Some EncodingBuffer => set_encoding_buffer (encoding_buffer s') s
        end))))) by (f_equal; f_equal; exact Hr).
  unfold same_rest. rewrite Heq at 1. unfold with_headers. by destruct pending, r as [[]|].
Qed.

Lemma resume_status_distinct :
  kEnvoyFilterDataStatusResumeIteration ≠ kEnvoyFilterDataStatusContinue ∧
  kEnvoyFilterDataStatusResumeIteration ≠ kEnvoyFilterDataStatusStopIterationAndBuffer ∧
  kEnvoyFilterDataStatusResumeIteration ≠ kEnvoyFilterDataStatusStopIterationNoBuffer ∧
  kEnvoyFilterDataStatusStopIterationAndBuffer ≠ kEnvoyFilterDataStatusContinue ∧
  kEnvoyFilterDataStatusStopIterationNoBuffer ≠ kEnvoyFilterDataStatusContinue ∧
  kEnvoyFilterDataStatusStopIterationNoBuffer ≠ kEnvoyFilterDataStatusStopIterationAndBuffer.
Proof.
  pose proof data_enums. unfold kEnvoyFilterDataStatusResumeIteration,
    kEnvoyFilterDataStatusContinue, kEnvoyFilterDataStatusStopIterationAndBuffer,
    kEnvoyFilterDataStatusStopIterationNoBuffer in *. lia.
Qed.


Lemma buffering_length st (b : B) data s x :
  buffer_at x s = Some b →
  buffering (view st (Some x) data s) =
  match st with Stopped => bool_decide (0 < buf_length b)%Z | Ongoing => false end.
Proof.
  intros Hb. unfold buffering, view, buffer_of. cbn. rewrite Hb. cbn.
  destruct st; [done|]. unfold buf_length.
  destruct (buf_bytes b); cbn; [done|]. by rewrite bool_decide_eq_true_2 by lia.
Qed.

Lemma held_blocks_move (b data : B) :
  fragments_owned (buf_move b data).1 ++ fragments_owned (buf_move b data).2 =
  fragments_owned b ++ fragments_owned data.
Proof.
  unfold fragments_owned. rewrite move_dst_fragments, move_src_fragments.
  by rewrite fmap_app, concat_app, app_nil_r.
Qed.

(** What onData_present leaves. *)
Record presented_state (st : IterationState) (ir : option buffer_ref) (data : B) s
    (already_buffering : bool) (in_data : envoy_data) (data' : B) s' : Prop := {
  ps_buffering : already_buffering = buffering (view st ir data s);
  ps_grows : grows (data_owned in_data) (pb_mem s) (pb_mem s');
  ps_reads : reads_data (heap (pb_mem s')) in_data (presented (view st ir data s));
  ps_view : view st ir data' s' = joined (view st ir data s);
  ps_held : held_blocks ir data' s' = held_blocks ir data s;
  ps_state : iteration_state_ s' = Some st;
  ps_platform : pb_platform s' = pb_platform s;
  ps_rest : same_rest ir s s'
}.

Lemma wp_present_copy st ir data s s0 (b : B) ab :
  same_rest ir s s0 → iteration_state_ s0 = Some st → pb_platform s0 = pb_platform s →
  pb_mem s0 = pb_mem s → ab = buffering (view st ir data s) →
  buf_bytes b = presented (view st ir data s) →
  ∀ data', view st ir data' s0 = joined (view st ir data s) →
  held_blocks ir data' s0 = held_blocks ir data s →
  wp (in_data ← zoom (copyToBridgeData b); mret (in_data, data')) oom
    (λ p s', presented_state st ir data s ab p.1 p.2 s') s0.
Proof.
  intros Hrest Hst Hp Hm Hab Hb data' Hview Hheld. apply wp_bind, wp_zoom. cbn. rewrite Hm.
  eapply wp_conseq; [apply wp_copyToBridgeData|]. intros in_data m1 (Hr & Hx & Hg).
  rewrite Hb in Hr. apply wp_ret. split; cbn; try (by destruct ir as [[]|]).
  etrans; [exact Hrest|]. by unfold_frame ir s0.
Qed.

Lemma wp_onData_present st ir data s :
  iteration_state_ s = Some st → (∀ x, ir = Some x → is_Some (buffer_at x s)) →
  wp (onData_present data ir) oom (λ p s',
    presented_state st ir data s p.1.1 p.1.2 p.2 s') s.
Proof.
  intros Hst Hir. unfold onData_present.
  apply wp_bind. eapply wp_run; [by apply get_iteration_state_run|].
  assert (Hfin : ∀ ab s0 (m : M S (envoy_data * B)),
    wp m oom (λ p s', presented_state st ir data s ab p.1 p.2 s') s0 →
    wp ('(in_data, data0) ← m; mret (ab, in_data, data0)) oom (λ p s',
      presented_state st ir data s p.1.1 p.1.2 p.2 s') s0).
  { intros ab s0 m Hm. apply wp_bind. eapply wp_conseq; [exact Hm|]. by intros []. }
  destruct ir as [x|].
  2:{ apply wp_bind. eapply (wp_run _ _ _ _ false s); [by destruct st|].
      apply Hfin, wp_present_copy; unfold buffering, joined, presented, view; try done;
        by destruct st. }
  destruct (Hir x eq_refl) as [b Hb].
  pose proof (buffering_length st b data s x Hb) as Hab.
  apply wp_bind. eapply (wp_run _ _ _ _ (buffering (view st (Some x) data s)) s).
  { rewrite Hab. destruct st; [done|]. by rewrite (bind_run _ _ _ _ _ (load_buffer_run _ _ _ Hb)). }
  apply Hfin. destruct (buffering (view st (Some x) data s)) eqn:Hbuf.
  - apply wp_bind. eapply wp_run; [by apply load_buffer_run|].
    pose proof (move_dst_bytes b data) as Hd. pose proof (move_src_bytes b data) as Hs.
    pose proof (held_blocks_move b data) as Hheld.
    destruct (buf_move b data) as [b' data']. cbn in Hd, Hs, Hheld.
    apply wp_bind. apply wp_modify.
    apply wp_present_copy; try (by destruct x).
    + rewrite Hd. unfold presented, joined. rewrite Hbuf. unfold view, buffer_of. cbn. by rewrite Hb.
    + unfold joined. rewrite Hbuf. unfold view, buffer_of. cbn. rewrite Hb, Hs. by destruct x; cbn; rewrite Hd.
    + unfold held_blocks, buffer_of. cbn. rewrite Hb. by destruct x; cbn.
  - apply wp_present_copy; try done; unfold presented, joined; by rewrite Hbuf.
Qed.

Lemma reads_data_mono (h1 h2 : gmap positive block) d bs :
  reads_data h1 d bs → (∀ l v, h1 !! l = Some v → h2 !! l = Some v) → reads_data h2 d bs.
Proof.
  intros [Hl [->|(l & rest & Hp & Hb)]] Hsub; split; [done|by left|done|].
  right. exists l, rest. split; [done|]. by apply Hsub.
Qed.

Lemma reads_data_fewer (h : gmap positive block) l1 l2 d bs :
  reads_data (foldr delete h (l1 ++ l2)) d bs →
  reads_data (foldr delete h l1) d bs ∧ reads_data (foldr delete h l2) d bs.
Proof.
  intros Hr. split; (eapply reads_data_mono; [exact Hr|]); intros l v;
    rewrite !lookup_foldr_delete_dec; repeat case_decide; try done; set_solver.
Qed.

(** The ways the answered half may end, against the specification. *)
Definition implements (v : data_view) (a : data_answer) (ir : option buffer_ref)
    (pending : pending_ref) s (p : FilterDataStatus * B) s' : Prop :=
  ∃ st' s0, iteration_state_ s' = Some st' ∧ data_spec v a = Some (p.1, view st' ir p.2 s') ∧
    pending_replaced pending a s = Some s0 ∧ same_rest ir s0 s'.

(** The only faults of the answered half: where the specification forbids the answer,
    a PANIC for an unsupported status and else a RELEASE_ASSERT; and where headers are
    returned but none are pending, a null pointer. *)
Definition forbidden (v : data_view) (a : data_answer) (pending : pending_ref) s
    (f : fault) : Prop :=
  (data_spec v a = None ∧ ∃ what, f = match a with
     | AnswerUnsupported => Panic what
     | _ => ReleaseAssert what
     end) ∨
  (data_spec v a ≠ None ∧ pending_replaced pending a s = None ∧ ∃ what, f = Undefined what).

Lemma update_pending_run r l eh hs es id hm s :
  pending_at r s = Some id → header_maps s !! id = Some hm →
  boxed_headers (pb_mem s) l eh hs es →
  update_pending r (Some l) s =
  Ok (tt, with_mem (mem_release (headers_owned eh hs ++ [l]) (headers_external hs) (pb_mem s))
            (without_pending r (with_headers id hm es s))).
Proof.
  intros Hp Hm (Hl & Hok & Hn). unfold update_pending.
  rewrite (bind_run _ _ s (Some id) s) by (by destruct r; cbn in *; rewrite <- Hp).
  rewrite (bind_run _ _ s id s) by done.
  rewrite (bind_run _ _ _ _ _ (zoom_mem_run _ _ _ _ (load_headers_box_run _ _ _ Hl))).
  assert (with_mem (pb_mem s) s = s) as -> by (by destruct s).
  rewrite (bind_run _ _ _ _ _ (replaceHeaders_run s id hm eh hs es Hm Hok)).
  set (m1 := mem_release _ _ _).
  rewrite (bind_run _ _ _ tt (without_pending r (with_mem m1 (with_headers id hm es s)))) by (by destruct r).
  erewrite (zoom_mem_run (c_free (Some l)));
    [|transitivity (c_free (Some l) m1); [by destruct r|]; apply free_after_release; [by eexists|done]].
  by destruct r.
Qed.

(** Headers are returned, but none are pending. *)
Lemma update_pending_missing r l eh hs es s :
  boxed_headers (pb_mem s) l eh hs es → pending_at r s ≫= (λ id, header_maps s !! id) = None →
  ∃ what, update_pending r (Some l) s = Fault (Undefined what).
Proof.
  intros (Hl & _ & _) Hnone. unfold update_pending.
  rewrite (bind_run _ _ s (pending_at r s) s) by (by destruct r).
  destruct (pending_at r s) as [id|]; [|by eexists]. cbn in Hnone.
  rewrite (bind_run _ _ s id s) by done.
  rewrite (bind_run _ _ _ _ _ (zoom_mem_run _ _ _ _ (load_headers_box_run _ _ _ Hl))).
  assert (with_mem (pb_mem s) s = s) as -> by (by destruct s).
  eexists. unfold replaceHeaders, get_map, mbind, M_bind. cbn. by rewrite Hnone.
Qed.

Section answered.
Context (v : data_view) (st : IterationState) (ir : option buffer_ref) (pending : pending_ref)
  (data : B) (result : envoy_filter_data_status) (s : S).
Context (Hv : dv_state v = st) (Hj : view st ir data s = joined v)
  (Hst : iteration_state_ s = Some st) (Hir : ∀ x, ir = Some x → is_Some (buffer_at x s)).

Lemma wp_answered_continue bs :
  answer_status (AnswerContinue bs) (data_status result) →
  answer_memory (AnswerContinue bs) result (pb_mem s) (held_blocks ir data s) →
  wp (onData_answered data ir pending (buffering v) result)
    (forbidden v (AnswerContinue bs) pending s) (implements v (AnswerContinue bs) ir pending s) s.
Proof.
  intros Hs [Hheld Hr]. unfold onData_answered. rewrite decide_True by done.
  apply wp_bind. eapply wp_run; [by apply get_iteration_state_run|].
  apply wp_bind, wp_RELEASE_ASSERT.
  2:{ intros Hb. apply bool_decide_eq_false in Hb. left. split; [|by eexists].
      unfold data_spec. rewrite Hv. by destruct st; [destruct Hb|]. }
  intros Hb%bool_decide_eq_true. assert (st = Ongoing) as Hon by (by destruct st).
  assert (Hd : allocated (pb_mem s) (fragments_owned data) ∧
    reads_data (foldr delete (heap (pb_mem s)) (fragments_owned data)) (result_data result) bs).
  { unfold held_blocks in *. destruct (buffer_of ir s); [|done].
    split; [by eapply allocated_app|by eapply reads_data_fewer]. }
  destruct (replace_buffer_run (result_data result) bs data (pb_mem s)) as (b' & Hrun & Hb' & _);
    [apply Hd..|].
  apply wp_bind. eapply wp_run; [exact (zoom_mem_run _ _ _ _ Hrun)|]. apply wp_ret.
  exists Ongoing, s. split; [by rewrite <- Hon|]. split_and!; [|done|by unfold_frame ir s].
  unfold data_spec. rewrite Hv, Hon. cbn. f_equal. f_equal. rewrite <- Hj.
  unfold view. cbn. rewrite Hb'. by destruct ir as [[]|].
Qed.

Lemma wp_answered_stop_and_buffer :
  answer_status AnswerStopAndBuffer (data_status result) →
  wp (onData_answered data ir pending (buffering v) result)
    (forbidden v AnswerStopAndBuffer pending s) (implements v AnswerStopAndBuffer ir pending s) s.
Proof.
  intros Hs. pose proof resume_status_distinct. unfold onData_answered. cbn in Hs.
  rewrite decide_False by (rewrite Hs; tauto). rewrite decide_True by done.
  assert (Hspec : data_spec v AnswerStopAndBuffer = Some (if buffering v
    then DataStopIterationNoBuffer else DataStopIterationAndBuffer, view Stopped ir data s)).
  { unfold data_spec. rewrite <- Hj. by destruct (dv_state v). }
  destruct (buffering v) eqn:Hb.
  - apply wp_ret. exists Stopped, s. split; [|by split_and!].
    rewrite Hst, <- Hv. unfold buffering in Hb. by destruct (dv_state v).
  - apply wp_bind, wp_modify, wp_ret. exists Stopped, s. split; [done|].
    split_and!; [|done|by unfold_frame ir s]. rewrite Hspec. by destruct ir as [[]|].
Qed.

Lemma wp_answered_stop_no_buffer :
  answer_status AnswerStopNoBuffer (data_status result) →
  allocated (pb_mem s) (held_blocks ir data s) →
  wp (onData_answered data ir pending (buffering v) result)
    (forbidden v AnswerStopNoBuffer pending s) (implements v AnswerStopNoBuffer ir pending s) s.
Proof.
  intros Hs Hheld. pose proof resume_status_distinct. unfold onData_answered. cbn in Hs.
  rewrite !decide_False by (rewrite Hs; tauto). rewrite decide_True by done.
  assert (Hspec : data_spec v AnswerStopNoBuffer = Some (DataStopIterationNoBuffer,
    DataView Stopped ((λ _, []) <$> buffer_of ir s) (buf_bytes data))).
  { unfold data_spec. rewrite <- Hj. cbn. destruct (dv_state v); by destruct (buffer_of ir s). }
  apply wp_bind. destruct ir as [x|] eqn:Hx.
  - destruct (Hir x eq_refl) as [b Hb].
    apply wp_bind. eapply wp_run; [by apply load_buffer_run|].
    assert (Hown : allocated (pb_mem s) (fragments_owned b)).
    { unfold held_blocks, buffer_of in Hheld. cbn in Hheld. rewrite Hb in Hheld.
      by apply allocated_app in Hheld as [? _]. }
    destruct (drain_all_run b (pb_mem s) Hown) as (b' & Hrun & Hb' & _).
    apply wp_bind. eapply wp_run; [exact (zoom_mem_run _ _ _ _ Hrun)|].
    apply wp_modify, wp_bind, wp_modify, wp_ret.
    exists Stopped, s. split; [by destruct x|]. split_and!; [|done|by destruct x, s].
    rewrite Hspec. unfold view, buffer_of. cbn. rewrite Hb. cbn.
    destruct x; cbn; by rewrite Hb'.
  - apply wp_ret, wp_bind, wp_modify, wp_ret.
    exists Stopped, s. split; [done|]. split_and!; [|done|by destruct s]. by rewrite Hspec.
Qed.

Lemma wp_answered_unsupported :
  answer_status AnswerUnsupported (data_status result) →
  wp (onData_answered data ir pending (buffering v) result)
    (forbidden v AnswerUnsupported pending s) (implements v AnswerUnsupported ir pending s) s.
Proof.
  intros Hs. unfold onData_answered. cbn in Hs. unfold supported_statuses in Hs.
  rewrite !not_elem_of_cons in Hs. rewrite !decide_False by tauto.
  apply wp_fail. left. split; [by destruct v as [[]]|by eexists].
Qed.

(** The rest of ResumeIteration, once what was pending has been replaced. *)
Lemma wp_resume_tail bs returned E :
  dv_state v = Stopped → allocated (pb_mem s) (held_blocks ir data s) →
  reads_data (foldr delete (heap (pb_mem s)) (held_blocks ir data s)) (result_data result) bs →
  wp (data ← (match ir with
       | Some r =>
           b ← load_buffer r;
           b ← zoom (replace_buffer (result_data result) b);
           store_buffer r b ;;
           mret data
       | None => zoom (replace_buffer (result_data result) data)
       end);
      modify (set_iteration_state (Some Ongoing)) ;;
      mret (DataContinue, data)) E
    (λ p s', iteration_state_ s' = Some Ongoing ∧
      data_spec v (AnswerResume bs returned) = Some (p.1, view Ongoing ir p.2 s') ∧
      same_rest ir s s') s.
Proof.
  intros Hstop Hheld Hr.
  assert (Hspec : data_spec v (AnswerResume bs returned) = Some (DataContinue,
    match buffer_of ir s with
    | Some _ => DataView Ongoing (Some bs) (buf_bytes data)
    | None => DataView Ongoing None bs
    end)).
  { unfold data_spec. rewrite Hstop, <- Hj. cbn. by destruct (buffer_of ir s). }
  unfold held_blocks in *. apply wp_bind. destruct ir as [x|] eqn:Hx.
  - destruct (Hir x eq_refl) as [b Hbuf].
    change (buffer_of (Some x) s) with (buffer_at x s) in *. rewrite Hbuf in Hr, Hheld, Hspec.
    apply wp_bind. eapply wp_run; [by apply load_buffer_run|].
    destruct (replace_buffer_run (result_data result) bs b (pb_mem s)) as (b' & Hrun & Hb' & _).
    { by apply allocated_app in Hheld as [? _]. }
    { exact (proj1 (reads_data_fewer _ _ _ _ _ Hr)). }
    apply wp_bind. eapply wp_run; [exact (zoom_mem_run _ _ _ _ Hrun)|].
    apply wp_bind, wp_modify, wp_ret, wp_bind, wp_modify, wp_ret.
    split; [done|]. split; [|by destruct x, s].
    rewrite Hspec. unfold view, buffer_of. destruct x; cbn; by rewrite Hb'.
  - destruct (replace_buffer_run (result_data result) bs data (pb_mem s)) as (b' & Hrun & Hb' & _);
      [done..|].
    eapply wp_run; [exact (zoom_mem_run _ _ _ _ Hrun)|].
    apply wp_bind, wp_modify, wp_ret.
    split; [done|]. split; [|by destruct s]. rewrite Hspec. unfold view. cbn. by rewrite Hb'.
Qed.
End answered.

Lemma wp_answered_resume v st ir pending data result s bs returned :
  dv_state v = st → view st ir data s = joined v → iteration_state_ s = Some st →
  (∀ x, ir = Some x → is_Some (buffer_at x s)) →
  answer_status (AnswerResume bs returned) (data_status result) →
  answer_memory (AnswerResume bs returned) result (pb_mem s) (held_blocks ir data s) →
  wp (onData_answered data ir pending (buffering v) result)
    (forbidden v (AnswerResume bs returned) pending s)
    (implements v (AnswerResume bs returned) ir pending s) s.
Proof.
  intros Hv Hj Hst Hir Hs (blocks & Hret & Hheld & Hr). pose proof resume_status_distinct.
  unfold onData_answered. cbn in Hs.
  rewrite !decide_False by (rewrite Hs; tauto). rewrite decide_True by done.
  apply wp_bind. eapply wp_run; [by apply get_iteration_state_run|].
  apply wp_bind, wp_RELEASE_ASSERT.
  2:{ intros Hb. apply bool_decide_eq_false in Hb. left. split; [|by eexists].
      unfold data_spec. rewrite Hv. by destruct st. }
  intros Hb%bool_decide_eq_true. apply wp_bind.
  assert (Hdone : ∀ s1 p s', pending_replaced pending (AnswerResume bs returned) s = Some s1 →
    iteration_state_ s' = Some Ongoing ∧
      data_spec v (AnswerResume bs returned) = Some (p.1, view Ongoing ir p.2 s') ∧
      same_rest ir s1 s' → implements v (AnswerResume bs returned) ir pending s p s').
  { intros s1 p s' Hp (? & ? & ?). by exists Ongoing, s1. }
  destruct returned as [es|].
  2:{ destruct Hret as [-> ->]. apply wp_ret.
      eapply wp_conseq; [by eapply wp_resume_tail; try done; rewrite Hv|].
      intros p s'. by apply Hdone. }
  destruct Hret as (l & eh & hs & Hl & Hbox & ->). rewrite Hl.
  destruct (pending_at pending s ≫= λ id, header_maps s !! id) as [hm|] eqn:Hpm.
  2:{ destruct (update_pending_missing _ _ _ _ _ _ Hbox Hpm) as [what Hu].
      unfold wp. rewrite Hu. right. split_and!; [|unfold pending_replaced; cbn|by eexists].
      - unfold data_spec. by rewrite Hv, Hb.
      - revert Hpm. by destruct (pending_at pending s); cbn; [intros ->|]. }
  destruct (pending_at pending s) as [id|] eqn:Hp; [cbn in Hpm|done].
  eapply wp_run; [by eapply update_pending_run|].
  set (s0 := without_pending pending (with_headers id hm es s)).
  set (m1 := mem_release _ _ _). set (s1 := with_mem m1 s0).
  assert (Hbuf : ∀ x, buffer_at x s1 = buffer_at x s) by (by intros []; destruct pending).
  assert (Hbo : buffer_of ir s1 = buffer_of ir s) by (destruct ir; [apply Hbuf|done]).
  assert (Hh1 : held_blocks ir data s1 = held_blocks ir data s) by (unfold held_blocks; by rewrite Hbo).
  eapply wp_conseq.
  - apply (wp_resume_tail v st ir data result s1); try done.
    + rewrite <- Hj. unfold view. by rewrite Hbo.
    + by destruct pending.
    + intros x. rewrite Hbuf. apply Hir.
    + by rewrite Hv.
    + rewrite Hh1. destruct pending; by apply (allocated_release _ _ _ (headers_external hs)) in Hheld.
    + rewrite Hh1. eapply reads_data_mono; [exact Hr|]. intros k b.
      assert (pb_mem s1 = m1) as -> by (by destruct pending). unfold m1.
      rewrite !lookup_foldr_delete_dec, lookup_mem_release. repeat case_decide; set_solver.
  - intros p s' (? & ? & Hrest). apply (Hdone s0); [unfold pending_replaced; cbn; by rewrite Hp; cbn; rewrite Hpm|].
    split_and!; [done..|]. etrans; [|exact Hrest]. unfold s1. clearbody s0. unfold_frame ir s0; reflexivity.
Qed.

Lemma answer_memory_held a result m held : answer_memory a result m held → allocated m held.
Proof. destruct a; [by intros []|done|done|intros (? & _ & (_ & Ha & _)%allocated_app & _); exact Ha|done]. Qed.

Lemma wp_onData_answered v st ir pending data result s a :
  dv_state v = st → view st ir data s = joined v → iteration_state_ s = Some st →
  (∀ x, ir = Some x → is_Some (buffer_at x s)) → answer_status a (data_status result) →
  answer_memory a result (pb_mem s) (held_blocks ir data s) →
  wp (onData_answered data ir pending (buffering v) result)
    (forbidden v a pending s) (implements v a ir pending s) s.
Proof.
  intros ? ? ? ? ? Hm. pose proof (answer_memory_held _ _ _ _ Hm). destruct a.
  - by eapply wp_answered_continue.
  - by eapply wp_answered_stop_and_buffer.
  - by eapply wp_answered_stop_no_buffer.
  - by eapply wp_answered_resume.
  - by eapply wp_answered_unsupported.
Qed.

Lemma implements_rest v a ir pending s s2 p s' :
  same_rest ir s s2 → implements v a ir pending s2 p s' → implements v a ir pending s p s'.
Proof.
  intros Hrest (st' & s0 & Hi & Hsp & Hp & Hr).
  pose proof (pending_replaced_rest pending a _ _ _ Hrest) as Hpr. rewrite Hp in Hpr.
  inversion Hpr as [x y Hxy Hx Hy|]; subst. exists st', x. split_and!; [done..|]. by etrans.
Qed.

Lemma forbidden_rest v a ir pending s s2 f :
  same_rest ir s s2 → forbidden v a pending s2 f → forbidden v a pending s f.
Proof.
  intros Hrest [?|(? & Hp & ?)]; [by left|right]. split_and!; [done| |done].
  pose proof (pending_replaced_rest pending a _ _ _ Hrest) as Hpr. rewrite Hp in Hpr. by inversion Hpr.
Qed.

(** onData implements the specification for every answer of the platform. *)
Lemma wp_onData st ir pending data end_stream f s a :
  iteration_state_ s = Some st → (∀ x, ir = Some x → is_Some (buffer_at x s)) →
  platform_answers f (presented (view st ir data s)) end_stream s a (held_blocks ir data s) →
  wp (onData data end_stream ir pending (Some f))
    (λ e, oom e ∨ forbidden (view st ir data s) a pending s e)
    (implements (view st ir data s) a ir pending s) s.
Proof.
  intros Hst Hir Hf. unfold onData. apply wp_bind.
  eapply wp_mono; [by apply wp_onData_present|auto|].
  intros [[ab in_data] data'] s1 [Hab Hg Hr Hview Hheld Hst1 Hp1 Hrest1].
  cbn in Hab, Hg, Hr, Hview, Hheld. subst ab.
  apply wp_bind, wp_gets, wp_bind, wp_zoom. cbn.
  destruct (same_rest_fields _ _ _ Hrest1) as (Hpf & _). rewrite Hpf, Hp1.
  specialize (Hf in_data (pb_mem s1) Hg Hr).
  eapply wp_mono; [exact Hf|by intros|]. cbv beta. intros result [m2 p2] [Hstatus Hmem].
  set (s2 := with_platform (m2, p2) s1). change (part_set (m2, p2) s1) with s2.
  assert (Hbuf : buffer_of ir s2 = buffer_of ir s1) by (by destruct ir as [[]|]).
  assert (Hj : view st ir data' s2 = joined (view st ir data s)).
  { rewrite <- Hview. unfold view. by rewrite Hbuf. }
  assert (Hheld2 : held_blocks ir data' s2 = held_blocks ir data s).
  { rewrite <- Hheld. unfold held_blocks. by rewrite Hbuf. }
  assert (Hir2 : ∀ x, ir = Some x → is_Some (buffer_at x s2)).
  { intros x ->. destruct (Hir x eq_refl) as [b Hb].
    assert (buffer_at x s2 = buffer_at x s1) as -> by (by destruct x).
    apply (f_equal dv_buffered) in Hview. revert Hview.
    unfold joined, view, buffer_of. cbn. rewrite Hb. cbn.
    destruct (buffering _); cbn; (destruct (buffer_at x s1); [intros; by eexists|done]). }
  assert (Hrest2 : same_rest ir s s2) by (etrans; [exact Hrest1|]; by unfold_frame ir s1).
  eapply wp_mono.
  - apply (wp_onData_answered (view st ir data s) st ir pending data' result s2 a); try done.
    by rewrite Hheld2.
  - intros e He. right. by eapply forbidden_rest.
  - intros p s'. by apply implements_rest.
Qed.
End data.
