(* ===== verification/PlatformBridgeMirror.v ===== *)
(** * The two directions of the platform bridge filter

    The request and the response path of the filter are the same code on different
    fields. [swap] exchanges the fields; two computations mirror each other when one
    does on the swapped state what the other does. *)

From S2P Require Export PlatformBridgeOps.

Section swap.
Context {HM B P : Type}.
Abbreviation S := (filter_state HM B P).
Implicit Types (s : S).

Definition swap_filter (f : envoy_http_filter P) : envoy_http_filter P :=
  HttpFilter (init_filter f) (on_response_headers f) (on_response_data f)
    (on_response_trailers f) (on_request_headers f) (on_request_data f) (on_request_trailers f)
    (set_response_callbacks f) (on_resume_response f) (set_request_callbacks f)
    (on_resume_request f) (release_filter f) (static_context f) (instance_context f).
Definition swap_event (ev : pb_event B) : pb_event B :=
  match ev with
  | EvAddDecodedData b => EvAddEncodedData b
  | EvContinueDecoding => EvContinueEncoding
  | EvAddEncodedData b => EvAddDecodedData b
  | EvContinueEncoding => EvContinueDecoding
  end.
Definition swap_functor (f : resume_functor) : resume_functor :=
  match f with
  | PostOnResumeDecoding w => PostOnResumeEncoding w
  | PostOnResumeEncoding w => PostOnResumeDecoding w
  end.
Definition swap_buffer (r : buffer_ref) : buffer_ref :=
  match r with DecodingBuffer => EncodingBuffer | EncodingBuffer => DecodingBuffer end.
Definition swap_pending (r : pending_ref) : pending_ref :=
  match r with
  | PendingRequestHeaders => PendingResponseHeaders
  | PendingResponseHeaders => PendingRequestHeaders
  end.

Definition swap s : S :=
  FilterState (pending_response_headers_ s) (pending_request_headers_ s)
    (pending_response_trailers_ s) (pending_request_trailers_ s) (iteration_state_ s)
    (swap_filter (platform_filter_ s)) (platform_response_callbacks_ s)
    (platform_request_callbacks_ s) (response_complete_ s) (request_complete_ s)
    (header_maps s) (encoding_buffer s) (decoding_buffer s) (filter_lifetime s) (weak_boxes s)
    (next_box s) (swap_functor <$> posted s) (pb_mem s) (pb_platform s) (swap_event <$> pb_trace s).

Definition swap_result {A} (r : result (A * S)) : result (A * S) :=
  match r with Ok (a, s) => Ok (a, swap s) | Fault f => Fault f end.

(** [m2] does on the swapped state what [m1] does. *)
Definition mirrors {A} (m1 m2 : M S A) : Prop := ∀ s, m2 (swap s) = swap_result (m1 s).

Lemma mirrors_bind {A A'} (m1 m2 : M S A) (k1 k2 : A → M S A') :
  mirrors m1 m2 → (∀ a, mirrors (k1 a) (k2 a)) → mirrors (m1 ≫= k1) (m2 ≫= k2).
Proof.
  intros Hm Hk s. unfold mbind, M_bind. rewrite Hm.
  destruct (m1 s) as [[a s']|]; [apply Hk|done].
Qed.
Lemma mirrors_ret {A} (a : A) : mirrors (mret a) (mret a).
Proof. done. Qed.
Lemma mirrors_fail {A} f : mirrors (A := A) (fail f) (fail f).
Proof. done. Qed.
Lemma mirrors_gets {A} (f1 f2 : S → A) : (∀ s, f2 (swap s) = f1 s) → mirrors (gets f1) (gets f2).
Proof. intros Hf s. unfold gets. cbn. by rewrite Hf. Qed.
Lemma mirrors_modify (f1 f2 : S → S) :
  (∀ s, f2 (swap s) = swap (f1 s)) → mirrors (modify f1) (modify f2).
Proof. intros Hf s. unfold modify. cbn. by rewrite Hf. Qed.
Lemma mirrors_RELEASE_ASSERT b what : mirrors (RELEASE_ASSERT b what) (RELEASE_ASSERT b what).
Proof. by destruct b. Qed.
Lemma mirrors_deref {A} what (o : option A) : mirrors (deref what o) (deref what o).
Proof. by destruct o. Qed.
Lemma mirrors_zoom_mem {A} (m : M mem A) : mirrors (zoom m) (zoom m).
Proof. intros s. unfold zoom. cbn. by destruct (m (pb_mem s)) as [[]|]. Qed.
Lemma mirrors_zoom_platform {A} (m : M (mem * P) A) : mirrors (zoom m) (zoom m).
Proof. intros s. unfold zoom. cbn. by destruct (m (pb_mem s, pb_platform s)) as [[]|]. Qed.
End swap.

Create HintDb mirrordb.
#[export] Hint Resolve mirrors_ret mirrors_fail mirrors_RELEASE_ASSERT mirrors_deref
  mirrors_zoom_mem mirrors_zoom_platform : mirrordb.

(** Walk through two computations of the same shape. *)
Ltac mirror :=
  repeat (intros; cbv beta; lazymatch goal with
  | |- mirrors (deref _ _ ≫= _) (deref _ (_ <$> _) ≫= _) => fail
  | |- mirrors (_ ≫= _) (_ ≫= _) => apply mirrors_bind
  | |- mirrors (gets _) (gets _) => apply mirrors_gets; intros s; try (by destruct s)
  | |- mirrors (modify _) (modify _) => apply mirrors_modify; intros s; try (by destruct s)
  | |- mirrors (match ?x with _ => _ end) (match ?x with _ => _ end) => destruct x
  | |- mirrors _ _ => solve [auto with mirrordb nocore]
  end).

Section filter_mirror.
Context {mode : BuildMode} `{Allocator} {HM : Type} `{!HeaderMap HM} {B : Type}
  `{!BufferInstance B} {P : Type} `{!EnvoyFilterEnums}.
Abbreviation S := (filter_state HM B P).

Lemma get_map_mirrors id : mirrors (get_map id : M S HM) (get_map id).
Proof. unfold get_map. mirror. Qed.
Lemma put_map_mirrors id hm : mirrors (put_map id hm : M S unit) (put_map id hm).
Proof. unfold put_map. mirror. Qed.
Lemma get_iteration_state_mirrors : mirrors (get_iteration_state : M S _) get_iteration_state.
Proof. unfold get_iteration_state. mirror. Qed.
Lemma load_buffer_mirrors r : mirrors (load_buffer r : M S B) (load_buffer (swap_buffer r)).
Proof. unfold load_buffer. mirror. by destruct r. Qed.
Lemma store_buffer_mirrors r b : mirrors (store_buffer r b : M S unit) (store_buffer (swap_buffer r) b).
Proof. unfold store_buffer. mirror. by destruct r. Qed.
Lemma load_pending_mirrors r : mirrors (load_pending r : M S _) (load_pending (swap_pending r)).
Proof. unfold load_pending. mirror. by destruct r. Qed.
Lemma clear_pending_mirrors r : mirrors (clear_pending r : M S _) (clear_pending (swap_pending r)).
Proof. unfold clear_pending. mirror. by destruct r. Qed.
#[local] Hint Resolve get_map_mirrors put_map_mirrors get_iteration_state_mirrors
  load_buffer_mirrors store_buffer_mirrors load_pending_mirrors clear_pending_mirrors : mirrordb.

Lemma replaceHeaders_mirrors id eh : mirrors (replaceHeaders id eh : M S unit) (replaceHeaders id eh).
Proof. unfold replaceHeaders. mirror. Qed.
#[local] Hint Resolve replaceHeaders_mirrors : mirrordb.

Lemma instance_context_mirrors :
  mirrors (gets (λ s : S, instance_context (platform_filter_ s)))
    (gets (λ s, instance_context (platform_filter_ s))).
Proof. mirror. Qed.
#[local] Hint Resolve instance_context_mirrors : mirrordb.

Lemma onHeaders_mirrors id es f : mirrors (onHeaders id es f : M S _) (onHeaders id es f).
Proof. unfold onHeaders. mirror. Qed.

Lemma update_pending_mirrors r p :
  mirrors (update_pending r p : M S unit) (update_pending (swap_pending r) p).
Proof. unfold update_pending. mirror. Qed.
#[local] Hint Resolve update_pending_mirrors : mirrordb.

Lemma onData_mirrors (data : B) es ir r f :
  mirrors (onData data es ir r f : M S _) (onData data es (swap_buffer <$> ir) (swap_pending r) f).
Proof. unfold onData, onData_present, onData_answered. destruct ir; cbn [fmap option_fmap option_map]; mirror. Qed.

(** Dereferencing a swapped buffer pointer gives the swapped buffer. *)
Lemma mirrors_deref_buffer {A} what (ir : option buffer_ref) (k1 k2 : buffer_ref → M S A) :
  (∀ r, mirrors (k1 r) (k2 (swap_buffer r))) →
  mirrors (deref what ir ≫= k1) (deref what (swap_buffer <$> ir) ≫= k2).
Proof. intros Hk. destruct ir; [|done]. exact (Hk _). Qed.

Lemma onTrailers_mirrors id ir r f :
  mirrors (onTrailers id ir r f : M S _) (onTrailers id (swap_buffer <$> ir) (swap_pending r) f).
Proof. unfold onTrailers. mirror. apply mirrors_deref_buffer. mirror. Qed.
End filter_mirror.
