(* ===== verification/PlatformBridgeProps.v ===== *)
(** * What the platform bridge filter promises

    The theorems about the filter: its data path implements the specification, what
    each answer of the platform does to headers and to a suspended stream, that the
    two directions are one code, and where they interfere. *)

From S2P Require Export PlatformBridgeData PlatformBridgeMirror Reference.

Section props.
Context {mode : BuildMode} `{Allocator} {HM : Type} `{!HeaderMap HM, !HeaderMapLaws HM} {B : Type}
  `{!BufferInstance B, !BufferLaws B} {P : Type} `{!EnvoyFilterEnums, !EnvoyFilterEnumsLaws}.
Abbreviation S := (filter_state HM B P).
Implicit Types (s : S).

(** The pointer decodeData computes. *)
Definition decoding_ref s : option buffer_ref :=
  match decoding_buffer s with Some _ => Some DecodingBuffer | None => None end.

Lemma decoding_ref_valid s x : decoding_ref s = Some x → is_Some (buffer_at x s).
Proof. unfold decoding_ref. destruct (decoding_buffer s) eqn:Hd; [|done]. intros [= <-]. by eexists. Qed.

Lemma decoding_ref_run s : internal_decoding_buffer s = Ok (decoding_ref s, s).
Proof. done. Qed.

(** The frame, the buffer and the iteration of the request direction. *)
Definition request_view (st : IterationState) (data : B) s : data_view :=
  view st (decoding_ref s) data s.

Lemma wp_decodeData st data end_stream f s a :
  iteration_state_ s = Some st → on_request_data (platform_filter_ s) = Some f →
  platform_answers f (presented (request_view st data s)) end_stream s a
    (held_blocks (decoding_ref s) data s) →
  wp (decodeData data end_stream)
    (λ e, oom e ∨ forbidden (request_view st data s) a PendingRequestHeaders s e)
    (λ p s', ∃ s1, implements (request_view st data s) a (decoding_ref s) PendingRequestHeaders s p s1 ∧
      s' = set_request_complete end_stream s1) s.
Proof.
  intros Hst Hf Ha. apply wp_bind. eapply wp_run; [apply decoding_ref_run|].
  apply wp_bind, wp_gets, wp_bind. rewrite Hf.
  eapply wp_conseq; [apply wp_onData; [done|apply decoding_ref_valid|done]|].
  intros p s1 Hi. apply wp_bind, wp_modify, wp_ret. by exists s1.
Qed.

(** C3: decodeData implements the data specification. Let the platform handle request
    data, iteration be ongoing or stopped, and the platform return with any answer: one
    of the four statuses, with headers to replace the pending ones or without where it
    resumes, or a status the filter does not support. The platform is shown exactly the
    bytes the specification says (the frame, or buffer and frame joined when data waits
    already), and afterwards the status returned, the caller's frame, the buffered data
    and the iteration state are the specification's. When headers came with
    ResumeIteration, the pending header map holds exactly those, and is no longer
    pending. No other field of the filter changes, the end-of-stream flag, the C memory
    and the platform's own state aside. It can fail only where memory runs out; where
    the specification forbids the answer, by RELEASE_ASSERT or, for an unsupported
    status, by PANIC; and, undefined behaviour, where headers are returned while no
    header map is pending. *)
Theorem decodeData_implements_spec st data end_stream f s a :
  iteration_state_ s = Some st → on_request_data (platform_filter_ s) = Some f →
  platform_answers f (presented (request_view st data s)) end_stream s a
    (held_blocks (decoding_ref s) data s) →
  wp (decodeData data end_stream)
    (λ e, oom e ∨ forbidden (request_view st data s) a PendingRequestHeaders s e)
    (λ p s', ∃ st' s0, iteration_state_ s' = Some st' ∧
      data_spec (request_view st data s) a = Some (p.1, view st' (decoding_ref s) p.2 s') ∧
      pending_replaced PendingRequestHeaders a s = Some s0 ∧
      same_rest (decoding_ref s) (set_request_complete end_stream s0) s') s.
Proof.
  intros Hst Hf Ha. eapply wp_conseq; [exact (wp_decodeData _ _ _ _ _ _ Hst Hf Ha)|].
  intros p s' (s1 & (st' & s0 & Hs & Hspec & Hp & Hrest) & ->). exists st', s0.
  split_and!; [done| |done|].
  - rewrite Hspec. by destruct (decoding_ref s) as [[]|].
  - apply (f_equal (set_request_complete end_stream)) in Hrest.
    unfold same_rest. rewrite Hrest at 1. by destruct (decoding_ref s) as [[]|].
Qed.

(** A frame that is forwarded twice. When iteration is stopped and the buffer
    exists but is empty (the previous data was dropped), and the platform resumes on
    the next frame with its own data, the platform's data goes into the buffer but
    the caller's frame, which it was meant to replace, is handed on as it came. *)
Theorem resume_leaves_frame data end_stream f s bs returned b :
  is_Some (pending_replaced PendingRequestHeaders (AnswerResume bs returned) s) →
  iteration_state_ s = Some Stopped → on_request_data (platform_filter_ s) = Some f →
  decoding_buffer s = Some b → buf_bytes b = [] →
  platform_answers f (buf_bytes data) end_stream s (AnswerResume bs returned)
    (held_blocks (Some DecodingBuffer) data s) →
  wp (decodeData data end_stream) oom
    (λ p s', p.1 = DataContinue ∧ buf_bytes <$> decoding_buffer s' = Some bs ∧
      buf_bytes p.2 = buf_bytes data) s.
Proof.
  intros [s2 Hs2] Hst Hf Hb Hempty Ha.
  assert (Hr : decoding_ref s = Some DecodingBuffer) by (unfold decoding_ref; by rewrite Hb).
  assert (Hv : request_view Stopped data s = DataView Stopped (Some []) (buf_bytes data)).
  { unfold request_view, view. rewrite Hr. unfold buffer_of. cbn. by rewrite Hb, <- Hempty. }
  pose proof (wp_decodeData Stopped data end_stream f s (AnswerResume bs returned) Hst Hf) as Hwp.
  rewrite Hv, Hr in Hwp. specialize (Hwp Ha).
  eapply wp_mono; [exact Hwp|..].
  - intros e [?|[[Hno _]|(_ & Hno & _)]]; [done|by cbn in Hno|by rewrite Hs2 in Hno].
  - intros [status data'] s' (s1 & (st' & s0 & _ & Hspec & _) & ->). cbn in Hspec.
    injection Hspec as <- _ Hbuf Hframe. done.
Qed.

(** *** Headers *)

Lemma bridge_headers_run id hm es_ f in_headers m1 s :
  header_maps s !! id = Some hm → toBridgeHeaders hm (pb_mem s) = Ok (in_headers, m1) →
  ∀ result t, f in_headers es_ (instance_context (platform_filter_ s)) (m1, pb_platform s) = Ok (result, t) →
  onHeaders id es_ (Some f) s =
  (if decide (headers_status result = kEnvoyFilterHeadersStatusContinue) then
     replaceHeaders id (result_headers result) ;; mret HeadersContinue
   else if decide (headers_status result = kEnvoyFilterHeadersStatusStopIteration) then
     modify (set_iteration_state (Some Stopped)) ;; mret HeadersStopIteration
   else fail (Panic "invalid filter state: unsupported status for platform filters"))
  (with_platform t s).
Proof.
  intros Hm Hb result t Hf. unfold onHeaders.
  rewrite (bind_run _ _ _ _ _ (get_map_run _ _ _ Hm)).
  rewrite (bind_run _ _ _ _ _ (zoom_mem_run _ _ _ _ Hb)).
  rewrite (bind_run _ _ (with_mem m1 s) (instance_context (platform_filter_ s)) (with_mem m1 s)) by done.
  rewrite (bind_run _ _ _ _ _ (zoom_platform_run _ (with_mem m1 s) _ _ Hf)). done.
Qed.

Lemma headers_status_distinct :
  kEnvoyFilterHeadersStatusStopIteration ≠ kEnvoyFilterHeadersStatusContinue.
Proof.
  pose proof headers_enums. unfold kEnvoyFilterHeadersStatusStopIteration,
    kEnvoyFilterHeadersStatusContinue. lia.
Qed.

(** decodeHeaders, by the platform's answer. The platform is shown a fresh bridge
    copy of the headers. On Continue the header map holds exactly the pairs it
    returned, lower-cased, and what it returned is freed; on StopIteration the map is
    untouched, pending and iteration stopped, and what it returned is not freed; any
    other status, ResumeIteration included, panics. Continue is accepted, and leaves
    iteration as it is, even while iteration is stopped. *)
Theorem decodeHeaders_answers id end_stream f hm in_headers m1 result m2 p2 s :
  on_request_headers (platform_filter_ s) = Some f →
  header_maps s !! id = Some hm → toBridgeHeaders hm (pb_mem s) = Ok (in_headers, m1) →
  f in_headers end_stream (instance_context (platform_filter_ s)) (m1, pb_platform s) =
    Ok (result, (m2, p2)) →
  (headers_status result = kEnvoyFilterHeadersStatusContinue → ∀ hs es,
   headers_ok m2 (result_headers result) hs es →
   decodeHeaders id end_stream s =
   Ok (HeadersContinue, set_request_complete end_stream
     (with_headers id hm es (with_platform (mem_release (headers_owned (result_headers result) hs)
        (headers_external hs) m2, p2) s)))) ∧
  (headers_status result = kEnvoyFilterHeadersStatusStopIteration →
   decodeHeaders id end_stream s =
   Ok (HeadersStopIteration, set_request_complete end_stream
     (set_pending_request_headers (Some id)
       (set_iteration_state (Some Stopped) (with_platform (m2, p2) s))))) ∧
  (headers_status result ≠ kEnvoyFilterHeadersStatusContinue →
   headers_status result ≠ kEnvoyFilterHeadersStatusStopIteration →
   ∃ what, decodeHeaders id end_stream s = Fault (Panic what)).
Proof.
  intros Hon Hm Hb Hf. unfold decodeHeaders.
  rewrite (bind_run _ _ s (platform_filter_ s) s) by done. rewrite Hon.
  pose proof (bridge_headers_run _ _ _ _ _ _ _ Hm Hb _ _ Hf) as Hrun. split_and!.
  - intros Hst hs es Hok. rewrite decide_True in Hrun by done.
    rewrite (bind_run _ _ _ _ _ (replaceHeaders_run (with_platform (m2, p2) s) id hm
      (result_headers result) hs es Hm Hok)) in Hrun.
    by rewrite (bind_run _ _ _ _ _ Hrun).
  - intros Hst. pose proof headers_status_distinct.
    rewrite decide_False in Hrun by congruence. rewrite decide_True in Hrun by done.
    rewrite (bind_run _ _ (with_platform (m2, p2) s) tt
      (set_iteration_state (Some Stopped) (with_platform (m2, p2) s))) in Hrun by done.
    by rewrite (bind_run _ _ _ _ _ Hrun).
  - intros Hne1 Hne2. rewrite !decide_False in Hrun by done. eexists. by apply bind_Fault.
Qed.

Lemma trailers_status_distinct :
  kEnvoyFilterTrailersStatusStopIteration ≠ kEnvoyFilterTrailersStatusContinue ∧
  kEnvoyFilterTrailersStatusResumeIteration ≠ kEnvoyFilterTrailersStatusContinue ∧
  kEnvoyFilterTrailersStatusResumeIteration ≠ kEnvoyFilterTrailersStatusStopIteration.
Proof.
  pose proof trailers_enums. unfold kEnvoyFilterTrailersStatusStopIteration,
    kEnvoyFilterTrailersStatusContinue, kEnvoyFilterTrailersStatusResumeIteration,
    kEnvoyFilterTrailersStatusContinue in *. lia.
Qed.

(** decodeTrailers, by the iteration state and the platform's answer (with no
    pending entity returned). StopIteration always suspends, with the trailers
    pending. Continue is accepted only while iteration is ongoing and ResumeIteration
    only while it is stopped, each replacing the trailers by what was returned and
    freeing that; in the other state each one aborts in every build. *)
Theorem decodeTrailers_answers id f tm in_trailers m1 result m2 p2 st s :
  on_request_trailers (platform_filter_ s) = Some f →
  iteration_state_ s = Some st →
  header_maps s !! id = Some tm → toBridgeHeaders tm (pb_mem s) = Ok (in_trailers, m1) →
  f in_trailers (instance_context (platform_filter_ s)) (m1, pb_platform s) = Ok (result, (m2, p2)) →
  trailers_pending_headers result = NULL → trailers_pending_data result = NULL →
  let s2 := with_platform (m2, p2) s in
  let accepts st' := ∀ hs es, headers_ok m2 (result_trailers result) hs es →
    decodeTrailers id s = Ok (TrailersContinue, set_request_complete true
      (set_iteration_state (Some st') (with_headers id tm es
        (with_mem (mem_release (headers_owned (result_trailers result) hs) (headers_external hs) m2) s2)))) in
  let aborts := ∃ what, decodeTrailers id s = Fault (ReleaseAssert what) in
  (trailers_status result = kEnvoyFilterTrailersStatusContinue →
   match st with Ongoing => accepts Ongoing | Stopped => aborts end) ∧
  (trailers_status result = kEnvoyFilterTrailersStatusResumeIteration →
   match st with Stopped => accepts Ongoing | Ongoing => aborts end) ∧
  (trailers_status result = kEnvoyFilterTrailersStatusStopIteration →
   decodeTrailers id s = Ok (TrailersStopIteration, set_request_complete true
     (set_pending_request_trailers (Some id) (set_iteration_state (Some Stopped) s2)))).
Proof.
  intros Hf Hst Hm Hb Hrun Hnh Hnd s2 accepts aborts.
  pose proof trailers_status_distinct as (Hd1 & Hd2 & Hd3).
  assert (Hst2 : iteration_state_ s2 = Some st) by done.
  unfold accepts, aborts, decodeTrailers.
  rewrite (bind_run _ _ _ _ _ (decoding_ref_run s)).
  rewrite (bind_run _ _ s (platform_filter_ s) s) by done. rewrite Hf. unfold onTrailers.
  rewrite bind_assoc, (bind_run _ _ _ _ _ (get_map_run _ _ _ Hm)).
  rewrite bind_assoc, (bind_run _ _ _ _ _ (zoom_mem_run _ _ _ _ Hb)).
  rewrite bind_assoc, (bind_run _ _ (with_mem m1 s) (instance_context (platform_filter_ s)) (with_mem m1 s)) by done.
  rewrite bind_assoc, (bind_run _ _ _ _ _ (zoom_platform_run _ (with_mem m1 s) _ _ Hrun)).
  change (with_platform (m2, p2) (with_mem m1 s)) with s2. split_and!.
  - intros Hs. rewrite decide_True by done.
    rewrite bind_assoc, (bind_run _ _ _ _ _ (get_iteration_state_run _ _ Hst2)).
    destruct st; [|by eexists]. intros hs es Hok.
    rewrite bind_assoc, (bind_run _ _ s2 tt s2) by done.
    rewrite bind_assoc, (bind_run _ _ _ _ _ (replaceHeaders_run s2 id tm _ hs es Hm Hok)).
    assert (Hself : ∀ x : S, iteration_state_ x = Some Ongoing →
      set_iteration_state (Some Ongoing) x = x) by (by intros [] [= ->]).
    by rewrite Hself.
  - intros Hs. rewrite Hs, !decide_False by done. rewrite decide_True by done.
    rewrite bind_assoc, (bind_run _ _ _ _ _ (get_iteration_state_run _ _ Hst2)).
    destruct st; [by eexists|]. intros hs es Hok. rewrite Hnh, Hnd.
    rewrite bind_assoc, (bind_run _ _ s2 tt s2) by done.
    rewrite bind_assoc, (bind_run _ _ s2 tt s2) by done.
    rewrite bind_assoc, (bind_run _ _ s2 tt s2) by done.
    rewrite bind_assoc, (bind_run _ _ _ _ _ (replaceHeaders_run s2 id tm _ hs es Hm Hok)). done.
  - intros Hs. rewrite decide_False by congruence. rewrite decide_True by done. done.
Qed.

(** One code for two directions. On a filter whose request and response fields
    (platform functions, pending maps, completion flags, buffers) are exchanged, the
    encode operations do what the decode operations do: same statuses, same data,
    same faults, and the exchanged state. *)
Theorem encode_mirrors_decode id end_stream (data : B) :
  mirrors (decodeHeaders id end_stream : M S _) (encodeHeaders id end_stream) ∧
  mirrors (decodeData data end_stream : M S _) (encodeData data end_stream) ∧
  mirrors (decodeTrailers id : M S _) (encodeTrailers id) ∧
  mirrors (resumeDecoding : M S _) resumeEncoding.
Proof.
  split_and!.
  - unfold decodeHeaders, encodeHeaders. intros s.
    pose proof (onHeaders_mirrors id end_stream (on_request_headers (platform_filter_ s)) s) as Hm.
    unfold mbind, M_bind, gets. cbn. rewrite Hm.
    by destruct (onHeaders _ _ _ s) as [[[] s']|].
  - unfold decodeData, encodeData. intros s.
    pose proof (onData_mirrors data end_stream (decoding_ref s) PendingRequestHeaders
      (on_request_data (platform_filter_ s)) s) as Hm.
    unfold mbind, M_bind, gets. cbn.
    assert ((match decoding_buffer s with Some _ => Some EncodingBuffer | None => None end) =
      swap_buffer <$> decoding_ref s) as -> by (unfold decoding_ref; by destruct (decoding_buffer s)).
    cbn in Hm. rewrite Hm. unfold decoding_ref.
    by destruct (onData _ _ _ _ _ s) as [[[] s']|].
  - unfold decodeTrailers, encodeTrailers. intros s.
    pose proof (onTrailers_mirrors id (decoding_ref s) PendingRequestHeaders
      (on_request_trailers (platform_filter_ s)) s) as Hm.
    unfold mbind, M_bind, gets. cbn.
    assert ((match decoding_buffer s with Some _ => Some EncodingBuffer | None => None end) =
      swap_buffer <$> decoding_ref s) as -> by (unfold decoding_ref; by destruct (decoding_buffer s)).
    cbn in Hm. rewrite Hm. unfold decoding_ref.
    by destruct (onTrailers _ _ _ _ s) as [[[] s']|].
  - unfold resumeDecoding, resumeEncoding, weak_from_this. intros s.
    unfold mbind, M_bind, gets, modify. cbn. unfold swap. cbn. by rewrite fmap_app.
Qed.

(** *** Asynchronous resumption *)

(** onResumeDecoding with everything pending. On a stopped filter with pending
    headers, buffered data and pending trailers, the platform is shown a snapshot of
    all three, and when it resumes, each is replaced by what it returned: the maps
    hold its pairs, lower-cased, the buffer its bytes; the returned structs and their
    boxes are freed, each once; nothing is pending any more, iteration is ongoing, and
    the last thing that happens is one call of continueDecoding. *)
Theorem onResumeDecoding_resumes s f idh hm b idt tm bh m1 bd m2 bt m3 result m4 p4
    lh eh hs es ld d bs lt et ts tes :
  iteration_state_ s = Some Stopped → on_resume_request (platform_filter_ s) = Some f →
  pending_request_headers_ s = Some idh → header_maps s !! idh = Some hm →
  decoding_buffer s = Some b →
  pending_request_trailers_ s = Some idt → header_maps s !! idt = Some tm → idh ≠ idt →
  toBridgeHeaders hm (pb_mem s) = Ok (bh, m1) → copyToBridgeData b m1 = Ok (bd, m2) →
  toBridgeHeaders tm m2 = Ok (bt, m3) →
  f (Some bh) (Some bd) (Some bt) (request_complete_ s) (instance_context (platform_filter_ s))
    (m3, pb_platform s) = Ok (result, (m4, p4)) →
  resume_status result ≠ kEnvoyFilterResumeStatusStopIteration →
  resume_pending_headers result = Some lh → resume_pending_data result = Some ld →
  resume_pending_trailers result = Some lt →
  boxed_headers m4 lh eh hs es →
  let m5 := mem_release (headers_owned eh hs ++ [lh]) (headers_external hs) m4 in
  boxed_data m5 ld d bs b →
  let m6 := mem_release (fragments_owned b ++ [ld]) (fragments_external b) m5 in
  boxed_headers m6 lt et ts tes →
  ∃ b' s', onResumeDecoding s = Ok (tt, s') ∧
    buf_bytes b' = bs ∧ buf_fragments b' = [d] ∧ decoding_buffer s' = Some b' ∧
    header_maps s' = <[idt := add_entries (lower_entries tes) (hm_clear tm)]>
      (<[idh := add_entries (lower_entries es) (hm_clear hm)]> (header_maps s)) ∧
    pb_mem s' = mem_release (headers_owned et ts ++ [lt]) (headers_external ts) m6 ∧
    pending_request_headers_ s' = None ∧ pending_request_trailers_ s' = None ∧
    iteration_state_ s' = Some Ongoing ∧ pb_trace s' = pb_trace s ++ [EvContinueDecoding].
Proof.
  intros Hst Hf Hph Hhm Hb Hpt Htm Hne Hbh Hbd Hbt Hrun Hres Hlh Hld Hlt Hbox m5 Hdata m6 Htbox.
  unfold onResumeDecoding.
  rewrite (bind_run _ _ _ _ _ (get_iteration_state_run _ _ Hst)).
  rewrite decide_False by done. rewrite (bind_run _ _ _ _ _ (decoding_ref_run s)).
  assert (Hr : decoding_ref s = Some DecodingBuffer) by (unfold decoding_ref; by rewrite Hb).
  rewrite Hr.
  rewrite (bind_run _ _ s (Some idh) s) by (unfold gets; by rewrite Hph).
  rewrite (bind_run _ _ s (Some bh) (with_mem m1 s)).
  2:{ cbn. rewrite (bind_run _ _ _ _ _ (get_map_run _ _ _ Hhm)).
      by rewrite (bind_run _ _ _ _ _ (zoom_mem_run _ _ _ _ Hbh)). }
  rewrite (bind_run _ _ (with_mem m1 s) (Some bd) (with_mem m2 s)).
  2:{ cbn. rewrite (bind_run _ _ _ _ _ (load_buffer_run (with_mem m1 s) DecodingBuffer b Hb)).
      by rewrite (bind_run _ _ _ _ _ (zoom_mem_run _ (with_mem m1 s) _ _ Hbd)). }
  rewrite (bind_run _ _ (with_mem m2 s) (Some idt) (with_mem m2 s)) by (unfold gets; cbn; by rewrite Hpt).
  rewrite (bind_run _ _ (with_mem m2 s) (Some bt) (with_mem m3 s)).
  2:{ cbn. rewrite (bind_run _ _ _ _ _ (get_map_run (with_mem m2 s) _ _ Htm)).
      by rewrite (bind_run _ _ _ _ _ (zoom_mem_run _ (with_mem m2 s) _ _ Hbt)). }
  rewrite (bind_run _ _ (with_mem m3 s) (platform_filter_ s) (with_mem m3 s)) by done.
  rewrite Hf. rewrite (bind_run _ _ (with_mem m3 s) f (with_mem m3 s)) by done.
  rewrite (bind_run _ _ (with_mem m3 s) (request_complete_ s) (with_mem m3 s)) by done.
  rewrite (bind_run _ _ _ _ _ (zoom_platform_run _ (with_mem m3 s) _ _ Hrun)).
  rewrite decide_False by done. rewrite Hlh, Hld, Hlt.
  set (s4 := with_platform (m4, p4) (with_mem m3 s)).
  rewrite (bind_run _ _ s4 (Some idh) s4) by (unfold gets; cbn; by rewrite Hph).
  rewrite (bind_run _ _ _ _ _ (consume_headers_run s4 idh hm lh eh hs es _
    (set_pending_request_headers None) _ Hhm Hbox (λ _, eq_refl) (λ _, eq_refl))).
  set (s5 := with_mem _ _).
  destruct (consume_data_run s5 DecodingBuffer ld d bs b EvAddDecodedData Hb Hdata)
    as (b' & Hcd & Hb' & Hf').
  rewrite (bind_run _ _ _ _ _ Hcd). set (s6 := with_mem _ _).
  rewrite (bind_run _ _ s6 (Some idt) s6) by (unfold gets; cbn; by rewrite Hpt).
  assert (Htm6 : header_maps s6 !! idt = Some tm) by (cbn; by rewrite lookup_insert_ne).
  rewrite (bind_run _ _ _ _ _ (consume_headers_run s6 idt tm lt et ts tes _
    (set_pending_request_trailers None) _ Htm6 Htbox (λ _, eq_refl) (λ _, eq_refl))).
  set (s7 := with_mem _ _).
  rewrite (bind_run _ _ s7 tt (set_iteration_state (Some Ongoing) s7)) by done.
  exists b'. eexists. split; [reflexivity|]. by split_and!.
Qed.

(** onResumeDecoding when there is nothing to resume, or the platform declines.
    While iteration is ongoing it does nothing at all, whatever is pending. On a
    stopped filter whose platform answers StopIteration, everything pending stays
    pending and the stream is not continued: only memory and the platform move. *)
Theorem onResumeDecoding_declined s :
  (iteration_state_ s = Some Ongoing → onResumeDecoding s = Ok (tt, s)) ∧
  (∀ f, iteration_state_ s = Some Stopped → on_resume_request (platform_filter_ s) = Some f →
   (∀ h d t c x m r m', f h d t c x m = Ok (r, m') →
      resume_status r = kEnvoyFilterResumeStatusStopIteration) →
   ∀ s', onResumeDecoding s = Ok (tt, s') →
   s' = with_platform (pb_mem s', pb_platform s') s).
Proof.
  split.
  - intros Hst. unfold onResumeDecoding.
    by rewrite (bind_run _ _ _ _ _ (get_iteration_state_run _ _ Hst)).
  - intros f Hst Hf Hstop s' Hrun.
    assert (Hfin : only_memory s s'); [|exact Hfin].
    unfold onResumeDecoding in Hrun.
    rewrite (bind_run _ _ _ _ _ (get_iteration_state_run _ _ Hst)), decide_False in Hrun by done.
    rewrite (bind_run _ _ _ _ _ (decoding_ref_run s)) in Hrun.
    rewrite (bind_run _ _ s (pending_request_headers_ s) s) in Hrun by done.
    inv_bind Hrun. apply only_memory_bridge_pending in Hrun0. etrans; [exact Hrun0|].
    inv_bind Hrest. apply only_memory_bridge_buffer in Hrun. etrans; [exact Hrun|].
    rewrite (bind_run _ _ st0 (pending_request_trailers_ st0) st0) in Hrest0 by done.
    inv_bind Hrest0. apply only_memory_bridge_pending in Hrun1. etrans; [exact Hrun1|].
    assert (platform_filter_ st1 = platform_filter_ s) as Hpf.
    { by rewrite Hrun1, Hrun, Hrun0. }
    rewrite (bind_run _ _ st1 (platform_filter_ st1) st1) in Hrest by done. rewrite Hpf, Hf in Hrest.
    rewrite (bind_run _ _ st1 f st1) in Hrest by done.
    rewrite (bind_run _ _ st1 (request_complete_ st1) st1) in Hrest by done.
    inv_bind Hrest. pose proof Hrun2 as Hz. apply only_memory_zoom_platform in Hz.
    etrans; [exact Hz|]. apply zoom_Ok in Hrun2 as (r & t & Hcall & [= -> _]).
    apply Hstop in Hcall. rewrite decide_True in Hrest0 by done. by injection Hrest0 as <-.
Qed.

(** The encode direction does not let the platform decline. onResumeEncoding
    never looks at the status the platform answers: with nothing pending, it
    continues the response even on StopIteration, where onResumeDecoding stays
    stopped. *)
Theorem onResumeEncoding_ignores_status s f result t :
  iteration_state_ s = Some Stopped → on_resume_response (platform_filter_ s) = Some f →
  pending_response_headers_ s = None → encoding_buffer s = None →
  pending_response_trailers_ s = None →
  f None None None (response_complete_ s) (instance_context (platform_filter_ s))
    (pb_mem s, pb_platform s) = Ok (result, t) →
  resume_pending_data result = NULL →
  onResumeEncoding s =
  Ok (tt, set_pb_trace (pb_trace s ++ [EvContinueEncoding])
    (set_iteration_state (Some Ongoing) (with_platform t s))).
Proof.
  intros Hst Hf Hph Hb Hpt Hrun Hnull. unfold onResumeEncoding, internal_encoding_buffer.
  rewrite (bind_run _ _ _ _ _ (get_iteration_state_run _ _ Hst)), decide_False by done.
  rewrite (bind_run _ _ s None s) by (unfold gets; by rewrite Hb).
  rewrite (bind_run _ _ s None s) by (unfold gets; by rewrite Hph).
  rewrite (bind_run _ _ s None s) by done. rewrite (bind_run _ _ s None s) by done.
  rewrite (bind_run _ _ s None s) by (unfold gets; by rewrite Hpt).
  rewrite (bind_run _ _ s None s) by done.
  rewrite (bind_run _ _ s (platform_filter_ s) s) by done. rewrite Hf.
  rewrite (bind_run _ _ s f s) by done.
  rewrite (bind_run _ _ s (response_complete_ s) s) by done.
  rewrite (bind_run _ _ _ _ _ (zoom_platform_run _ s _ _ Hrun)).
  set (s1 := with_platform t s).
  rewrite (bind_run _ _ s1 None s1) by (unfold gets; cbn; by rewrite Hph).
  rewrite (bind_run _ _ s1 tt s1) by done. rewrite Hnull.
  rewrite (bind_run _ _ s1 tt s1) by done.
  rewrite (bind_run _ _ s1 None s1) by (unfold gets; cbn; by rewrite Hpt).
  rewrite (bind_run _ _ s1 tt s1) by done. done.
Qed.

(** *** The constructor and the resume callbacks *)

(** The resume callbacks handed to the platform do nothing. The filter gives the
    platform weak pointers it takes in its constructor, when no shared pointer owns
    it: they are empty for ever. So after make_shared has returned the filter, calling
    the resume_iteration the platform was given, for the request or the response,
    leaves the whole state as it was; no resumption is ever posted. *)
Theorem resume_callbacks_are_inert platform_filter s s' :
  filter_lifetime s = UnderConstruction →
  platform_request_callbacks_ s = no_filter_callbacks →
  platform_response_callbacks_ s = no_filter_callbacks →
  make_shared_filter platform_filter s = Ok (tt, s') →
  ∀ cb f, cb = platform_request_callbacks_ s' ∨ cb = platform_response_callbacks_ s' →
    resume_iteration cb = Some f →
    call_filter_callback f (callback_context cb) s' = Ok (tt, s').
Proof.
  intros Hl Hq Hr Hmk cb f Hcb Hf.
  assert (HC : constructing s).
  { unfold constructing. rewrite Hq, Hr. by split_and!. }
  unfold make_shared_filter in Hmk. inv_bind Hmk.
  pose proof (wp_Ok _ _ _ _ _ _ (wp_PlatformBridgeFilter_new platform_filter s HC) Hrun)
    as (_ & He1 & He2).
  injection Hrest as <-. apply call_empty_weak; [|done].
  destruct Hcb as [-> | ->]; cbn; (eapply empty_weak_stable; [|done]); done.
Qed.

(** A platform filter that was never registered. When the platform has no
    init_filter the filter passes everything through: each of the six entry points
    continues and changes nothing but the end-of-stream flag, with no memory
    touched, and onDestroy does nothing. *)
Theorem missing_filter_passes_through s id (data : B) end_stream :
  (∀ f, init_filter f = None → ∃ s0, PlatformBridgeFilter_new f s = Ok (tt, s0) ∧
    platform_filter_ s0 = null_filter) ∧
  (platform_filter_ s = null_filter →
   decodeHeaders id end_stream s = Ok (HeadersContinue, set_request_complete end_stream s) ∧
   encodeHeaders id end_stream s = Ok (HeadersContinue, set_response_complete end_stream s) ∧
   decodeData data end_stream s = Ok (DataContinue, data, set_request_complete end_stream s) ∧
   encodeData data end_stream s = Ok (DataContinue, data, set_response_complete end_stream s) ∧
   decodeTrailers id s = Ok (TrailersContinue, set_request_complete true s) ∧
   encodeTrailers id s = Ok (TrailersContinue, set_response_complete true s) ∧
   onDestroy s = Ok (tt, s)).
Proof.
  split.
  - intros f Hf. unfold PlatformBridgeFilter_new. rewrite Hf. by eexists.
  - intros Hnull. unfold decodeHeaders, encodeHeaders, decodeData, encodeData, decodeTrailers,
      encodeTrailers, onDestroy, internal_decoding_buffer, internal_encoding_buffer,
      mbind, M_bind, gets. cbn. rewrite Hnull. cbn. split_and!; try done.
    unfold ASSERT. by destruct ASSERT_enabled.
Qed.

(** *** Interference of the two directions *)

(** C39: A request that is never resumed. Both directions share one iteration state.
    If the request is suspended with pending headers, and the response path, whose
    platform filter may resume whenever iteration is stopped, resumes on a data
    frame, then iteration counts as ongoing although the request is still suspended:
    its headers stay pending, and resuming it does nothing. *)
Theorem response_resume_strands_request s id (data : B) end_stream f result m1 in_data t b' :
  iteration_state_ s = Some Stopped → pending_request_headers_ s = Some id →
  encoding_buffer s = None → on_response_data (platform_filter_ s) = Some f →
  copyToBridgeData data (pb_mem s) = Ok (in_data, m1) →
  f in_data end_stream (instance_context (platform_filter_ s)) (m1, pb_platform s) = Ok (result, t) →
  data_status result = kEnvoyFilterDataStatusResumeIteration →
  data_pending_headers result = NULL →
  replace_buffer (result_data result) data t.1 = Ok b' →
  ∃ s', encodeData data end_stream s = Ok (DataContinue, b'.1, s') ∧
    pending_request_headers_ s' = Some id ∧ iteration_state_ s' = Some Ongoing ∧
    onResumeDecoding s' = Ok (tt, s').
Proof.
  intros Hst Hp Hb Hf Hcopy Hrun Hres Hnull Hrep. destruct b' as [b' m']. destruct t as [m2 p2].
  set (s2 := with_platform (m2, p2) s).
  exists (set_response_complete end_stream (set_iteration_state (Some Ongoing) (with_mem m' s2))).
  split_and!; try done.
  unfold encodeData, internal_encoding_buffer.
  rewrite (bind_run _ _ s None s) by (unfold gets; by rewrite Hb).
  rewrite (bind_run _ _ s (platform_filter_ s) s) by done. rewrite Hf. unfold onData.
  assert (Hpres : onData_present data None s = Ok (false, in_data, data, with_mem m1 s)).
  { unfold onData_present. rewrite (bind_run _ _ _ _ _ (get_iteration_state_run _ _ Hst)).
    rewrite (bind_run _ _ s false s) by done. rewrite !bind_assoc.
    by rewrite (bind_run _ _ _ _ _ (zoom_mem_run _ _ _ _ Hcopy)). }
  rewrite bind_assoc, (bind_run _ _ _ _ _ Hpres). rewrite bind_assoc.
  rewrite (bind_run _ _ (with_mem m1 s) (instance_context (platform_filter_ s)) (with_mem m1 s)) by done.
  rewrite bind_assoc, (bind_run _ _ _ _ _ (zoom_platform_run _ (with_mem m1 s) _ _ Hrun)).
  pose proof resume_status_distinct as (Hd1 & Hd2 & Hd3 & _).
  unfold onData_answered. rewrite Hres, !decide_False by done. rewrite decide_True by done.
  rewrite bind_assoc. rewrite (bind_run _ _ _ _ _ (get_iteration_state_run s2 _ Hst)).
  rewrite bind_assoc. rewrite (bind_run _ _ s2 tt s2) by done. rewrite Hnull.
  rewrite bind_assoc. rewrite (bind_run _ _ s2 tt s2) by done.
  rewrite bind_assoc. by rewrite (bind_run _ _ _ _ _ (zoom_mem_run _ s2 _ _ Hrep)).
Qed.

(** ResumeIteration cannot be mistaken. The status the platform uses to resume is
    none of the other statuses of its kind, and no status Envoy itself has, given
    that Continue is the first of Envoy's enumerators. *)
Theorem resume_status_is_unique :
  NoDup [kEnvoyFilterHeadersStatusResumeIteration; kEnvoyFilterHeadersStatusContinue;
    kEnvoyFilterHeadersStatusStopIteration; kEnvoyFilterHeadersStatusStopAllIterationAndBuffer] ∧
  NoDup [kEnvoyFilterDataStatusResumeIteration; kEnvoyFilterDataStatusContinue;
    kEnvoyFilterDataStatusStopIterationAndBuffer; kEnvoyFilterDataStatusStopIterationNoBuffer] ∧
  NoDup [kEnvoyFilterTrailersStatusResumeIteration; kEnvoyFilterTrailersStatusContinue;
    kEnvoyFilterTrailersStatusStopIteration] ∧
  kEnvoyFilterResumeStatusStopIteration ≠ kEnvoyFilterResumeStatusResumeIteration.
Proof.
  pose proof headers_enums. pose proof data_enums. pose proof trailers_enums.
  unfold kEnvoyFilterHeadersStatusResumeIteration, kEnvoyFilterDataStatusResumeIteration,
    kEnvoyFilterTrailersStatusResumeIteration, kEnvoyFilterHeadersStatusContinue,
    kEnvoyFilterDataStatusContinue, kEnvoyFilterTrailersStatusContinue,
    kEnvoyFilterHeadersStatusStopIteration, kEnvoyFilterHeadersStatusStopAllIterationAndBuffer,
    kEnvoyFilterDataStatusStopIterationAndBuffer, kEnvoyFilterDataStatusStopIterationNoBuffer,
    kEnvoyFilterTrailersStatusStopIteration.
  split_and!; try done; repeat (apply NoDup_cons; split; [rewrite ?elem_of_cons, elem_of_nil; lia|]);
    apply NoDup_nil_2.
Qed.
End props.

(** ** Witnesses *)

#[export] Instance ref_enums : EnvoyFilterEnums := {
  FilterHeadersStatus_Continue := 0;
  FilterHeadersStatus_StopIteration := 1;
  FilterHeadersStatus_StopAllIterationAndBuffer := 3;
  FilterDataStatus_Continue := 0;
  FilterDataStatus_StopIterationAndBuffer := 1;
  FilterDataStatus_StopIterationNoBuffer := 3;
  FilterTrailersStatus_Continue := 0;
  FilterTrailersStatus_StopIteration := 1
}.
#[export] Instance ref_enums_laws : EnvoyFilterEnumsLaws.
Proof. split; cbn; lia. Qed.

Abbreviation ref_filter_state := (filter_state ref_map ref_buffer unit).

(** Platform functions that answer [status] and give back what they were shown. *)
Definition echo_headers (status : Z) : envoy_filter_on_headers_f unit :=
  λ h _ _ t, Ok (FilterHeadersResult status h, t).
Definition echo_data (status : Z) : envoy_filter_on_data_f unit :=
  λ d _ _ t, Ok (FilterDataResult status d NULL, t).
Definition decline_resume : envoy_filter_on_resume_f unit :=
  λ _ _ _ _ _ t, Ok (FilterResumeResult 1 NULL NULL NULL, t).

Definition echo_filter (headers data : Z) : envoy_http_filter unit :=
  HttpFilter (Some (λ _ t, Ok (Some 9%positive, t))) (Some (echo_headers headers))
    (Some (echo_data data)) None (Some (echo_headers headers)) (Some (echo_data data)) None
    (Some (λ _ _ t, Ok (tt, t))) (Some decline_resume) (Some (λ _ _ t, Ok (tt, t)))
    (Some decline_resume) None NULL (Some 9%positive).

Definition witness_filter (headers data : Z) (st : IterationState) (buffered : option ref_buffer)
    (pending : option nat) : ref_filter_state :=
  FilterState pending None None None (Some st) (echo_filter headers data) no_filter_callbacks
    no_filter_callbacks false false {[0 := RefMap RequestHeaderMapImpl [("a", "b")]]} buffered None
    Owned ∅ 1 [] mem_empty tt [].

Definition frame : ref_buffer := RefBuffer (bytes_of "xy") [].

Lemma allocated_nil m : allocated m [].
Proof. split; [apply NoDup_nil_2|]. by intros l ?%not_elem_of_nil. Qed.

Lemma echo_resumes bytes (s : ref_filter_state) :
  platform_answers (echo_data (-1)) bytes true s (AnswerResume bytes None) [].
Proof.
  intros in_data m1 _ Hr. split; [done|]. exists []. split; [done|].
  split; [apply allocated_nil|done].
Qed.

(** A platform that resumes with the headers of [ref_mem], in a box, and no data. *)
Definition resume_with_headers : envoy_filter_on_data_f unit :=
  λ _ _ _ t, Ok (FilterDataResult (-1) (EnvoyData 0 NULL envoy_noop_release NULL) (Some 4%positive), t).

Definition resuming_filter : ref_filter_state :=
  FilterState (Some 0) None None None (Some Stopped)
    (HttpFilter None None (Some resume_with_headers) None None None None None None None None None
      NULL (Some 9%positive)) no_filter_callbacks no_filter_callbacks false false
    {[0 := RefMap RequestHeaderMapImpl [("a", "b")]]} None None Owned ∅ 1 []
    (Mem (<[4%positive := BHeadersBox ref_headers]> (heap ref_mem)) 5 []) tt [].

Lemma resume_with_headers_answers bytes :
  platform_answers resume_with_headers bytes true resuming_filter
    (AnswerResume [] (Some ref_pairs)) [].
Proof.
  intros in_data m1 Hg _. split; [done|].
  assert (Hold : ∀ l, (l < 5)%positive → heap m1 !! l = heap (pb_mem resuming_filter) !! l).
  { intros l Hl. apply (grows_old _ _ _ Hg). intros Hin.
    apply (grows_new _ _ _ Hg) in Hin as (_ & Hn & _). cbn in Hn. lia. }
  assert (Hbox : boxed_headers m1 4 ref_headers [ref_header] ref_pairs).
  { split; [by rewrite Hold|]. split; [apply ref_headers_ok_in; by rewrite Hold|].
    apply (bool_decide_unpack _). by vm_compute. }
  exists (headers_owned ref_headers [ref_header] ++ [4%positive]). split_and!.
  - by exists 4%positive, ref_headers, [ref_header].
  - rewrite app_nil_r. apply allocated_app. split_and!.
    + apply Hbox.
    + split; [apply NoDup_singleton|]. intros l ->%list_elem_of_singleton. by rewrite Hold.
    + intros l Hl ->%list_elem_of_singleton. by apply Hbox in Hl.
  - split; [done|by left].
Qed.

Lemma decodeData_implements_spec_witness :
  wp (decodeData frame true)
    (λ e, oom e ∨ forbidden (DataView Stopped None (bytes_of "xy"))
      (AnswerResume [] (Some ref_pairs)) PendingRequestHeaders resuming_filter e)
    (λ p s', ∃ st' s0, iteration_state_ s' = Some st' ∧
      Some (DataContinue, DataView Ongoing None []) = Some (p.1, view st' None p.2 s') ∧
      Some (set_pending_request_headers None (set_header_maps
        {[0 := RefMap RequestHeaderMapImpl [("key", "ab")]]} resuming_filter)) = Some s0 ∧
      same_rest None (set_request_complete true s0) s') resuming_filter.
Proof.
  exact (decodeData_implements_spec Stopped frame true resume_with_headers resuming_filter
    (AnswerResume [] (Some ref_pairs)) eq_refl eq_refl (resume_with_headers_answers _)).
Defined.

Lemma resume_leaves_frame_witness :
  wp (decodeData frame true) oom
    (λ p s', p.1 = DataContinue ∧ buf_bytes <$> decoding_buffer s' = Some (bytes_of "xy") ∧
      buf_bytes p.2 = bytes_of "xy")
    (witness_filter 0 (-1) Stopped (Some (RefBuffer [] [])) None).
Proof.
  exact (resume_leaves_frame frame true (echo_data (-1))
    (witness_filter 0 (-1) Stopped (Some (RefBuffer [] [])) None) (bytes_of "xy") None
    (RefBuffer [] []) (ex_intro _ _ eq_refl) eq_refl eq_refl eq_refl eq_refl
    (echo_resumes _ _)).
Defined.

Lemma decodeHeaders_answers_witness :
  ∃ s', decodeHeaders 0 true (witness_filter 1 0 Ongoing None None) = Ok (HeadersStopIteration, s') ∧
    iteration_state_ s' = Some Stopped ∧ pending_request_headers_ s' = Some 0.
Proof.
  eexists. split; [|split].
  - exact (proj1 (proj2 (decodeHeaders_answers 0 true (echo_headers 1)
      (RefMap RequestHeaderMapImpl [("a", "b")]) _ _ _ _ _ (witness_filter 1 0 Ongoing None None)
      eq_refl eq_refl eq_refl eq_refl)) eq_refl).
  - reflexivity.
  - reflexivity.
Defined.

Definition echo_trailers (status : Z) : envoy_filter_on_trailers_f unit :=
  λ h _ t, Ok (FilterTrailersResult status h NULL NULL, t).
Definition trailers_filter (status : Z) (st : IterationState) : ref_filter_state :=
  set_platform_filter (HttpFilter None None None (Some (echo_trailers status)) None None None None
    None None None None NULL NULL) (witness_filter 0 0 st None None).

Lemma decodeTrailers_answers_witness :
  ∃ what, decodeTrailers 0 (trailers_filter (-1) Ongoing) = Fault (ReleaseAssert what).
Proof.
  exact (proj1 (proj2 (decodeTrailers_answers 0 (echo_trailers (-1))
    (RefMap RequestHeaderMapImpl [("a", "b")]) _ _ _ _ _ Ongoing (trailers_filter (-1) Ongoing)
    eq_refl eq_refl eq_refl eq_refl eq_refl eq_refl eq_refl)) eq_refl).
Defined.

(** A platform that resumes a request with new headers, data and trailers. *)
Definition resumed_data : envoy_data := EnvoyData 2 (Some 23%positive) c_free_release (Some 23%positive).
Definition resume_mem : mem :=
  Mem (<[20%positive := BHeadersBox ref_headers]> (<[21%positive := BDataBox resumed_data]>
    (<[22%positive := BHeadersBox envoy_noheaders]>
    (<[23%positive := BBytes (Some <$> bytes_of "zz")]> (heap ref_mem))))) 24 [].
Definition resume_all : envoy_filter_on_resume_f unit :=
  λ _ _ _ _ _ _, Ok (FilterResumeResult (-1) (Some 20%positive) (Some 21%positive) (Some 22%positive),
                      (resume_mem, tt)).
Definition suspended : ref_filter_state :=
  FilterState (Some 0) None (Some 1) None (Some Stopped)
    (HttpFilter None None None None None None None None (Some resume_all) None None None NULL NULL)
    no_filter_callbacks no_filter_callbacks true false
    {[0 := RefMap RequestHeaderMapImpl [("a", "b")]; 1 := RefMap RequestTrailerMapImpl []]}
    (Some frame) None Owned ∅ 1 [] mem_empty tt [].

Lemma resume_boxes :
  let m5 := mem_release [1; 2; 3; 20]%positive [] resume_mem in
  let m6 := mem_release [21]%positive [] m5 in
  boxed_headers resume_mem 20 ref_headers [ref_header] ref_pairs ∧
  boxed_data m5 21 resumed_data (bytes_of "zz") frame ∧
  boxed_headers m6 22 envoy_noheaders [] [].
Proof.
  split_and!.
  - split_and!; [by vm_compute| |].
    + by apply ref_headers_ok_in; vm_compute.
    + apply (bool_decide_unpack _). by vm_compute.
  - split_and!; [by vm_compute|by apply not_elem_of_nil| |].
    + split; [apply NoDup_nil_2|]. by intros l ?%not_elem_of_nil.
    + split; [done|]. right. exists 23%positive, []. by vm_compute.
  - split_and!; [by vm_compute| |by apply not_elem_of_nil].
    split; [split_and!; [done|by left|constructor]|].
    split; [apply NoDup_nil_2|]. by intros l ?%not_elem_of_nil.
Qed.

Lemma onResumeDecoding_resumes_witness :
  ∃ b' s', onResumeDecoding suspended = Ok (tt, s') ∧
    buf_bytes b' = bytes_of "zz" ∧ decoding_buffer s' = Some b' ∧
    pb_trace s' = [EvContinueDecoding].
Proof.
  destruct resume_boxes as (H1 & H2 & H3).
  destruct (onResumeDecoding_resumes suspended resume_all 0 (RefMap RequestHeaderMapImpl [("a", "b")])
    frame 1 (RefMap RequestTrailerMapImpl []) _ _ _ _ _ _ _ resume_mem tt
    20 ref_headers [ref_header] ref_pairs 21 resumed_data (bytes_of "zz")
    22 envoy_noheaders [] [] eq_refl eq_refl eq_refl eq_refl eq_refl eq_refl eq_refl
    ltac:(discriminate) eq_refl eq_refl eq_refl eq_refl ltac:(discriminate) eq_refl eq_refl eq_refl
    H1 H2 H3) as (b' & s' & Hrun & Hb & _ & Hbuf & _ & _ & _ & _ & _ & Htr).
  exists b', s'. split; [exact Hrun|]. split; [exact Hb|]. split; [exact Hbuf|exact Htr].
Defined.

Lemma onResumeDecoding_declined_witness :
  onResumeDecoding (witness_filter 0 0 Ongoing None (Some 0)) =
    Ok (tt, witness_filter 0 0 Ongoing None (Some 0)).
Proof. exact (proj1 (onResumeDecoding_declined (witness_filter 0 0 Ongoing None (Some 0))) eq_refl). Defined.

Lemma onResumeEncoding_ignores_status_witness :
  let s := witness_filter 0 0 Stopped None None in
  onResumeEncoding s =
  Ok (tt, set_pb_trace [EvContinueEncoding] (set_iteration_state (Some Ongoing) s)).
Proof.
  exact (onResumeEncoding_ignores_status (witness_filter 0 0 Stopped None None) decline_resume
    (FilterResumeResult 1 NULL NULL NULL) (mem_empty, tt) eq_refl eq_refl eq_refl eq_refl eq_refl
    eq_refl eq_refl).
Defined.

Definition unconstructed : ref_filter_state :=
  FilterState None None None None None null_filter no_filter_callbacks no_filter_callbacks false
    false ∅ None None UnderConstruction ∅ 1 [] mem_empty tt [].
Definition constructed : ref_filter_state :=
  match make_shared_filter (mode := debug_build) (echo_filter 0 0) unconstructed with
  | Ok (_, s) => s
  | Fault _ => unconstructed
  end.

Lemma resume_callbacks_are_inert_witness :
  call_filter_callback envoy_filter_callback_resume_decoding_f (Some 1%positive) constructed =
    Ok (tt, constructed).
Proof.
  exact (resume_callbacks_are_inert (mode := debug_build) (echo_filter 0 0) unconstructed constructed
    eq_refl eq_refl eq_refl eq_refl (platform_request_callbacks_ constructed) _ (or_introl eq_refl) eq_refl).
Defined.

Lemma missing_filter_passes_through_witness :
  decodeHeaders 0 true unconstructed = Ok (HeadersContinue, set_request_complete true unconstructed).
Proof.
  exact (proj1 (proj2 (missing_filter_passes_through (mode := debug_build) unconstructed 0 frame true) eq_refl)).
Defined.

Lemma response_resume_strands_request_witness :
  ∃ s', encodeData frame true (witness_filter 0 (-1) Stopped None (Some 0)) =
      Ok (DataContinue, RefBuffer (bytes_of "xy") [EnvoyData 2 (Some 1%positive) c_free_release (Some 1%positive)], s') ∧
    pending_request_headers_ s' = Some 0 ∧ iteration_state_ s' = Some Ongoing ∧
    onResumeDecoding s' = Ok (tt, s').
Proof.
  exact (response_resume_strands_request (witness_filter 0 (-1) Stopped None (Some 0)) 0 frame true
    (echo_data (-1)) (FilterDataResult (-1) (EnvoyData 2 (Some 1%positive) c_free_release (Some 1%positive)) NULL)
    _ _ (_, tt) (_, _) eq_refl eq_refl eq_refl eq_refl eq_refl eq_refl eq_refl eq_refl eq_refl).
Defined.

Lemma resume_status_is_unique_witness :
  kEnvoyFilterDataStatusResumeIteration = (-1)%Z ∧
  kEnvoyFilterResumeStatusStopIteration ≠ kEnvoyFilterResumeStatusResumeIteration.
Proof.
  split; [reflexivity|].
  exact (proj2 (proj2 (proj2 resume_status_is_unique))).
Defined.
