(* ===== verification/Assertion.v ===== *)
(** * The assertion filter

    Models library/common/extensions/filters/http/assertion: filter.cc, filter.h and
    the factory of config.cc. The filter feeds each frame of a stream to a streaming
    matcher and answers with a local reply as soon as the match has failed for good.
    The matcher is Envoy's extensions/common/matcher, a parameter here. *)

From S2P Require Export EnvoyIface.

(** ** Envoy's streaming matchers *)

Record MatchStatus := MatchStatusOf {
  matches_ : bool;
  might_change_status_ : bool
}.

(** [T] is a matcher, [V] the MatchStatusVector it records its progress in, and
    [Proto] the MatchPredicate it is built from. *)
Class Matcher (Proto T V HM B : Type) := {
  (** The matchers buildMatcher appends, the one for the predicate itself first. *)
  buildMatcher : Proto → list T → list T;
  MatchStatusVector : nat → V;
  onNewStream : T → V → V;
  onHttpRequestHeaders : T → HM → V → V;
  onHttpRequestTrailers : T → HM → V → V;
  onHttpResponseHeaders : T → HM → V → V;
  onHttpResponseTrailers : T → HM → V → V;
  onRequestBody : T → B → V → V;
  onResponseBody : T → B → V → V;
  matchStatus : T → V → MatchStatus
}.

(** matcher.h: once might_change_status_ is false the status is final. *)
Class MatcherLaws (Proto T V HM B : Type) `{!Matcher Proto T V HM B} : Prop := {
  final_request_headers (t : T) (h : HM) (v : V) :
    might_change_status_ (matchStatus t v) = false →
    matchStatus t (onHttpRequestHeaders t h v) = matchStatus t v;
  final_request_trailers (t : T) (h : HM) (v : V) :
    might_change_status_ (matchStatus t v) = false →
    matchStatus t (onHttpRequestTrailers t h v) = matchStatus t v;
  final_request_body (t : T) (b : B) (v : V) :
    might_change_status_ (matchStatus t v) = false →
    matchStatus t (onRequestBody t b v) = matchStatus t v;
  final_response_headers (t : T) (h : HM) (v : V) :
    might_change_status_ (matchStatus t v) = false →
    matchStatus t (onHttpResponseHeaders t h v) = matchStatus t v;
  final_response_trailers (t : T) (h : HM) (v : V) :
    might_change_status_ (matchStatus t v) = false →
    matchStatus t (onHttpResponseTrailers t h v) = matchStatus t v;
  final_response_body (t : T) (b : B) (v : V) :
    might_change_status_ (matchStatus t v) = false →
    matchStatus t (onResponseBody t b v) = matchStatus t v
}.

(** The codes of Http::Code the filter sends. *)
Inductive Code := BadRequest | InternalServerError.

#[export] Instance Code_eq_dec : EqDecision Code.
Proof. solve_decision. Defined.

Record AssertionFilterConfig (T : Type) := FilterConfig { matchers_ : list T }.
Arguments FilterConfig {T} matchers_.
Arguments matchers_ {T} _.

(** The filter, and the local replies sent on its decoder callbacks so far. *)
Record AssertionFilter (T V : Type) := FilterState {
  config_ : AssertionFilterConfig T;
  statuses_ : V;
  local_replies : list (Code * string)
}.
Arguments FilterState {T V} config_ statuses_ local_replies.
Arguments config_ {T V} _.
Arguments statuses_ {T V} _.
Arguments local_replies {T V} _.

Section filter.
Context {mode : BuildMode} {Proto T V HM B : Type} `{!HeaderMap HM} `{!Matcher Proto T V HM B}.
Abbreviation S := (AssertionFilter T V).

(** AssertionFilterConfig::AssertionFilterConfig. *)
Definition AssertionFilterConfig_new (proto_config : Proto) : AssertionFilterConfig T :=
  FilterConfig (buildMatcher proto_config []).

Definition matchersSize (c : AssertionFilterConfig T) : nat := length (matchers_ c).

Definition rootMatcher {St} (c : AssertionFilterConfig T) : M St T :=
  ASSERT (negb (bool_decide (matchers_ c = []))) "!matchers_.empty()" ;;
  deref "*matchers_[0]" (head (matchers_ c)).

(** The constructor: a vector of the size of the matcher list, told of the stream. *)
Definition AssertionFilter_new {St} (config : AssertionFilterConfig T) : M St S :=
  root ← rootMatcher config;
  mret (FilterState config (onNewStream root (MatchStatusVector (matchersSize config))) []).

(** The functor createFilterFactoryFromProtoTyped returns, run for one stream. *)
Definition createFilterFactoryFromProtoTyped {St} (proto_config : Proto) : M St S :=
  AssertionFilter_new (AssertionFilterConfig_new proto_config).

Definition root : M S T := c ← gets config_; rootMatcher c.

(** [config_->rootMatcher().onX(..., statuses_)] and
    [config_->rootMatcher().matchStatus(statuses_)]. *)
Definition on_statuses (f : T → V → V) : M S unit :=
  t ← root;
  modify (λ s, FilterState (config_ s) (f t (statuses_ s)) (local_replies s)).
Definition match_status : M S MatchStatus :=
  t ← root; v ← gets statuses_; mret (matchStatus t v).

Definition sendLocalReply (code : Code) (body : string) : M S unit :=
  modify (λ s, FilterState (config_ s) (statuses_ s) (local_replies s ++ [(code, body)])).

(** [!status.matches_ && !status.might_change_status_] *)
Definition failed (status : MatchStatus) : bool :=
  negb (matches_ status) && negb (might_change_status_ status).

Definition decodeHeaders (headers : HM) (end_stream : bool) : M S FilterHeadersStatus :=
  on_statuses (λ t, onHttpRequestHeaders t headers) ;;
  status ← match_status;
  if failed status then
    sendLocalReply BadRequest "Request Headers do not match configured expectations" ;;
    mret HeadersStopIteration
  else if end_stream then
    on_statuses (λ t, onHttpRequestTrailers t (hm_create RequestTrailerMapImpl)) ;;
    final_match_status ← match_status;
    if failed final_match_status then
      sendLocalReply BadRequest "Request Trailers do not match configured expectations" ;;
      mret HeadersStopIteration
    else if negb (matches_ final_match_status) then
      sendLocalReply BadRequest "Request Body does not match configured expectations" ;;
      mret HeadersStopIteration
    else mret HeadersContinue
  else mret HeadersContinue.

Definition decodeData (data : B) (end_stream : bool) : M S FilterDataStatus :=
  on_statuses (λ t, onRequestBody t data) ;;
  status ← match_status;
  if failed status then
    sendLocalReply BadRequest "Request Body does not match configured expectations" ;;
    mret DataStopIterationNoBuffer
  else if end_stream then
    on_statuses (λ t, onHttpRequestTrailers t (hm_create RequestTrailerMapImpl)) ;;
    status ← match_status;
    if failed status then
      sendLocalReply BadRequest "Request Trailers do not match configured expectations" ;;
      mret DataStopIterationNoBuffer
    else if negb (matches_ status) then
      sendLocalReply BadRequest "Request Body does not match configured expectations" ;;
      mret DataStopIterationNoBuffer
    else mret DataContinue
  else mret DataContinue.

Definition decodeTrailers (trailers : HM) : M S FilterTrailersStatus :=
  on_statuses (λ t, onHttpRequestTrailers t trailers) ;;
  status ← match_status;
  if failed status then
    sendLocalReply BadRequest "Request Trailers do not match configured expectations" ;;
    mret TrailersStopIteration
  else if negb (matches_ status) then
    sendLocalReply BadRequest "Request Body does not match configured expectations" ;;
    mret TrailersStopIteration
  else mret TrailersContinue.

Definition encodeHeaders (headers : HM) (end_stream : bool) : M S FilterHeadersStatus :=
  on_statuses (λ t, onHttpResponseHeaders t headers) ;;
  status ← match_status;
  if failed status then
    sendLocalReply InternalServerError "Response Headers do not match configured expectations" ;;
    mret HeadersStopIteration
  else if end_stream then
    on_statuses (λ t, onHttpResponseTrailers t (hm_create ResponseTrailerMapImpl)) ;;
    final_match_status ← match_status;
    if failed final_match_status then
      sendLocalReply InternalServerError "Response Trailers do not match configured expectations" ;;
      mret HeadersStopIteration
    else if negb (matches_ final_match_status) then
      sendLocalReply InternalServerError "Response Body does not match configured expectations" ;;
      mret HeadersStopIteration
    else mret HeadersContinue
  else mret HeadersContinue.

Definition encodeData (data : B) (end_stream : bool) : M S FilterDataStatus :=
  on_statuses (λ t, onResponseBody t data) ;;
  status ← match_status;
  if failed status then
    sendLocalReply InternalServerError "Response Body does not match configured expectations" ;;
    mret DataStopIterationNoBuffer
  else if end_stream then
    on_statuses (λ t, onHttpResponseTrailers t (hm_create ResponseTrailerMapImpl)) ;;
    status ← match_status;
    if failed status then
      sendLocalReply InternalServerError "Response Trailers do not match configured expectations" ;;
      mret DataStopIterationNoBuffer
    else if negb (matches_ status) then
      sendLocalReply InternalServerError "Response Body does not match configured expectations" ;;
      mret DataStopIterationNoBuffer
    else mret DataContinue
  else mret DataContinue.

Definition encodeTrailers (trailers : HM) : M S FilterTrailersStatus :=
  on_statuses (λ t, onHttpResponseTrailers t trailers) ;;
  status ← match_status;
  if failed status then
    sendLocalReply InternalServerError "Response Trailers do not match configured expectations" ;;
    mret TrailersStopIteration
  else if negb (matches_ status) then
    sendLocalReply InternalServerError "Response Body does not match configured expectations" ;;
    mret TrailersStopIteration
  else mret TrailersContinue.
End filter.
