(* ===== verification/AssertionProps.v ===== *)
(** * What the assertion filter promises

    Feeding a stream frame by frame to the filter accepts it exactly when the matcher
    matches the whole stream, in both directions; the witnesses run the filter on a
    small matcher that meets the interface. *)

From S2P Require Export Assertion Reference.

(** ** Both directions at once *)

(** What distinguishes the decode handlers from the encode handlers. *)
Record direction (T V HM B : Type) := Direction {
  dir_headers : T → HM → V → V;
  dir_body : T → B → V → V;
  dir_trailers : T → HM → V → V;
  dir_empty : HM;
  dir_code : Code;
  dir_name : string
}.
Arguments Direction {T V HM B} dir_headers dir_body dir_trailers dir_empty dir_code dir_name.
Arguments dir_headers {T V HM B} _.
Arguments dir_body {T V HM B} _.
Arguments dir_trailers {T V HM B} _.
Arguments dir_empty {T V HM B} _.
Arguments dir_code {T V HM B} _.
Arguments dir_name {T V HM B} _.

(** A stream as the connection manager delivers it. *)
Record message (HM B : Type) := Message {
  msg_headers : HM;
  msg_body : list B;
  msg_trailers : option HM
}.
Arguments Message {HM B} msg_headers msg_body msg_trailers.
Arguments msg_headers {HM B} _.
Arguments msg_body {HM B} _.
Arguments msg_trailers {HM B} _.

Section directions.
Context {mode : BuildMode} {Proto T V HM B : Type} `{!HeaderMap HM} `{!Matcher Proto T V HM B}.
Abbreviation S := (AssertionFilter T V).
Abbreviation dir := (direction T V HM B).
Implicit Types (d : dir) (t : T) (v : V) (s : S).

Definition request : dir :=
  Direction onHttpRequestHeaders onRequestBody onHttpRequestTrailers
    (hm_create RequestTrailerMapImpl) BadRequest "Request".
Definition response : dir :=
  Direction onHttpResponseHeaders onResponseBody onHttpResponseTrailers
    (hm_create ResponseTrailerMapImpl) InternalServerError "Response".

Definition complaint d (part : string) : string :=
  dir_name d +:+ part +:+ " match configured expectations".

(** ** Running a stream *)

(** The frames a direction's handlers see, until one does not continue. [end_stream]
    is set on the last frame, which is never the headers of a stream with trailers. *)
Section run.
Context (on_headers : HM → bool → M S FilterHeadersStatus)
  (on_data : B → bool → M S FilterDataStatus) (on_trailers : HM → M S FilterTrailersStatus).

Fixpoint run_body (body : list B) (trailers : option HM) : M S bool :=
  match body with
  | [] =>
      match trailers with
      | None => mret true
      | Some trailers =>
          status ← on_trailers trailers;
          mret (match status with TrailersContinue => true | _ => false end)
      end
  | data :: body =>
      status ← on_data data (bool_decide (body = []) && bool_decide (trailers = None));
      match status with DataContinue => run_body body trailers | _ => mret false end
  end.

Definition run_message (m : message HM B) : M S bool :=
  status ← on_headers (msg_headers m)
    (bool_decide (msg_body m = []) && bool_decide (msg_trailers m = None));
  match status with
  | HeadersContinue => run_body (msg_body m) (msg_trailers m)
  | _ => mret false
  end.
End run.

Definition run_request : message HM B → M S bool :=
  run_message decodeHeaders decodeData decodeTrailers.
Definition run_response : message HM B → M S bool :=
  run_message encodeHeaders encodeData encodeTrailers.

(** ** The specification: the matcher's status on the whole stream *)

Definition feed_body d t (body : list B) v : V := foldl (λ v b, dir_body d t b v) v body.
Definition feed_trailers d t (trailers : option HM) v : V :=
  dir_trailers d t (default (dir_empty d) trailers) v.

(** The complaint about a stream whose headers are fed, None when it matches. *)
Definition verdict_rest d t v (body : list B) (trailers : option HM) : option string :=
  let after_body := feed_body d t body v in
  let after_all := feed_trailers d t trailers after_body in
  if matches_ (matchStatus t after_all) then None
  else Some (complaint d
    (if failed (matchStatus t after_body) then " Body does not"
     else if failed (matchStatus t after_all) then " Trailers do not"
     else " Body does not")).

Definition verdict d t v (m : message HM B) : option string :=
  let after_headers := dir_headers d t (msg_headers m) v in
  if failed (matchStatus t after_headers) then Some (complaint d " Headers do not")
  else verdict_rest d t after_headers (msg_body m) (msg_trailers m).

(** What the matcher says of the whole stream. *)
Definition stream_status d t v (m : message HM B) : MatchStatus :=
  matchStatus t (feed_trailers d t (msg_trailers m)
    (feed_body d t (msg_body m) (dir_headers d t (msg_headers m) v))).

(** The run of a direction is that of its verdict. *)
Definition judged d (rs : list (Code * string)) (c : AssertionFilterConfig T)
    (o : option string) (r : result (bool * S)) : Prop :=
  ∃ v', r = Ok (match o with None => true | Some _ => false end,
    FilterState c v' (rs ++ (pair (dir_code d) <$> option_list o))).

(** ** The handlers of a direction *)

Definition check_end {R} d (trailers : HM) (stop cont : R) : M S R :=
  on_statuses (λ t, dir_trailers d t trailers) ;;
  status ← match_status;
  if failed status then sendLocalReply (dir_code d) (complaint d " Trailers do not") ;; mret stop
  else if negb (matches_ status) then
    sendLocalReply (dir_code d) (complaint d " Body does not") ;; mret stop
  else mret cont.

Definition check_frame {R} d (f : T → V → V) part (end_stream : bool) (stop cont : R) : M S R :=
  on_statuses f ;;
  status ← match_status;
  if failed status then sendLocalReply (dir_code d) (complaint d part) ;; mret stop
  else if end_stream then check_end d (dir_empty d) stop cont
  else mret cont.

(** The three handlers of [d] as instances of the two checks. *)
Record handles d (on_headers : HM → bool → M S FilterHeadersStatus)
    (on_data : B → bool → M S FilterDataStatus) (on_trailers : HM → M S FilterTrailersStatus)
    : Prop := {
  handles_headers h e : on_headers h e =
    check_frame d (λ t, dir_headers d t h) " Headers do not" e HeadersStopIteration HeadersContinue;
  handles_data b e : on_data b e =
    check_frame d (λ t, dir_body d t b) " Body does not" e DataStopIterationNoBuffer DataContinue;
  handles_trailers h : on_trailers h = check_end d h TrailersStopIteration TrailersContinue
}.

Lemma handles_request : handles request decodeHeaders decodeData decodeTrailers.
Proof. split; reflexivity. Qed.
Lemma handles_response : handles response encodeHeaders encodeData encodeTrailers.
Proof. split; reflexivity. Qed.

(** ** Lemmas *)

Section run_lemmas.
Context (c : AssertionFilterConfig T) t (Ht : head (matchers_ c) = Some t).

Lemma rootMatcher_run {St} (s : St) : rootMatcher c s = Ok (t, s).
Proof.
  unfold rootMatcher, ASSERT, mbind, M_bind. destruct (matchers_ c); [done|].
  injection Ht as ->. by destruct ASSERT_enabled.
Qed.

Lemma root_run v rs : root (FilterState c v rs) = Ok (t, FilterState c v rs).
Proof. apply rootMatcher_run. Qed.

Lemma on_statuses_run f v rs :
  on_statuses f (FilterState c v rs) = Ok (tt, FilterState c (f t v) rs).
Proof. unfold on_statuses. by rewrite (bind_run _ _ _ _ _ (root_run _ _)). Qed.

Lemma match_status_run v rs :
  match_status (FilterState c v rs) = Ok (matchStatus t v, FilterState c v rs).
Proof. unfold match_status. by rewrite (bind_run _ _ _ _ _ (root_run _ _)). Qed.

Lemma check_end_run {R} d h (stop cont : R) v rs :
  let status := matchStatus t (dir_trailers d t h v) in
  check_end d h stop cont (FilterState c v rs) =
  Ok (if matches_ status then cont else stop,
    FilterState c (dir_trailers d t h v)
      (rs ++ (if matches_ status then []
        else [(dir_code d, complaint d (if failed status then " Trailers do not" else " Body does not"))]))).
Proof.
  unfold check_end. cbn zeta.
  rewrite (bind_run _ _ _ _ _ (on_statuses_run _ _ _)), (bind_run _ _ _ _ _ (match_status_run _ _)).
  unfold failed. destruct (matchStatus _ _) as [[] []]; cbn; rewrite ?app_nil_r; done.
Qed.

Lemma check_frame_run {R} d f part e (stop cont : R) v rs :
  check_frame d f part e stop cont (FilterState c v rs) =
  if failed (matchStatus t (f t v)) then
    Ok (stop, FilterState c (f t v) (rs ++ [(dir_code d, complaint d part)]))
  else if e then check_end d (dir_empty d) stop cont (FilterState c (f t v) rs)
  else Ok (cont, FilterState c (f t v) rs).
Proof.
  unfold check_frame.
  rewrite (bind_run _ _ _ _ _ (on_statuses_run _ _ _)), (bind_run _ _ _ _ _ (match_status_run _ _)).
  destruct (failed _); [done|]. by destruct e.
Qed.

Section direction_run.
Context d on_headers on_data on_trailers (Hd : handles d on_headers on_data on_trailers).
Context (Hbody : ∀ b v, might_change_status_ (matchStatus t v) = false →
    matchStatus t (dir_body d t b v) = matchStatus t v).
Context (Htrailers : ∀ h v, might_change_status_ (matchStatus t v) = false →
    matchStatus t (dir_trailers d t h v) = matchStatus t v).

Lemma failed_final v : failed (matchStatus t v) = true →
  matches_ (matchStatus t v) = false ∧ might_change_status_ (matchStatus t v) = false.
Proof. unfold failed. by intros [?%negb_true_iff ?%negb_true_iff]%andb_true_iff. Qed.

Lemma feed_body_final body v :
  failed (matchStatus t v) = true → matchStatus t (feed_body d t body v) = matchStatus t v.
Proof.
  intros [_ Hm]%failed_final. revert v Hm. induction body as [|b body IH]; intros v Hm; [done|].
  cbn. unfold feed_body in IH. rewrite IH; by rewrite Hbody.
Qed.

Lemma feed_final body trailers v :
  failed (matchStatus t v) = true →
  matches_ (matchStatus t (feed_trailers d t trailers (feed_body d t body v))) = false.
Proof.
  intros Hf. pose proof (feed_body_final body v Hf) as Hb. apply failed_final in Hf as [Hm Hc].
  unfold feed_trailers. by rewrite Htrailers; rewrite Hb.
Qed.

Lemma check_end_judged {R} trailers (stop cont : R) v rs :
  failed (matchStatus t v) = false →
  ∃ v', check_end d (default (dir_empty d) trailers) stop cont (FilterState c v rs) =
    Ok (match verdict_rest d t v [] trailers with None => cont | Some _ => stop end,
      FilterState c v' (rs ++ (pair (dir_code d) <$> option_list (verdict_rest d t v [] trailers)))).
Proof.
  intros Hf. rewrite check_end_run. eexists. unfold verdict_rest, feed_trailers. cbn.
  rewrite Hf. by destruct (matches_ _).
Qed.

Lemma run_body_judged body trailers v rs :
  failed (matchStatus t v) = false → body ≠ [] ∨ trailers ≠ None →
  judged d rs c (verdict_rest d t v body trailers)
    (run_body on_data on_trailers body trailers (FilterState c v rs)).
Proof.
  revert v rs. induction body as [|b body IH]; intros v rs Hf Hne; cbn [run_body].
  { destruct trailers as [h|]; [|naive_solver]. rewrite (handles_trailers _ _ _ _ Hd).
    destruct (check_end_judged (Some h) TrailersStopIteration TrailersContinue v rs Hf) as [v' Hr].
    rewrite (bind_run _ _ _ _ _ Hr). exists v'. by destruct (verdict_rest _ _ _ _ _). }
  rewrite (handles_data _ _ _ _ Hd).
  set (v1 := dir_body d t b v).
  change (verdict_rest d t v (b :: body) trailers) with (verdict_rest d t v1 body trailers).
  destruct (failed (matchStatus t v1)) eqn:Hf1.
  { erewrite bind_run by (rewrite check_frame_run; fold v1; by rewrite Hf1).
    exists v1. unfold verdict_rest. by rewrite feed_final, feed_body_final, Hf1. }
  destruct (bool_decide (body = []) && bool_decide (trailers = None)) eqn:He.
  - apply andb_true_iff in He as [->%bool_decide_eq_true ->%bool_decide_eq_true].
    destruct (check_end_judged None DataStopIterationNoBuffer DataContinue v1 rs Hf1) as [v' Hr].
    erewrite bind_run by (rewrite check_frame_run; fold v1; rewrite Hf1; exact Hr).
    exists v'. by destruct (verdict_rest _ _ _ _ _).
  - erewrite bind_run by (rewrite check_frame_run; fold v1; by rewrite Hf1).
    apply IH; [done|]. apply andb_false_iff in He. by rewrite !bool_decide_eq_false in He.
Qed.

Lemma run_message_judged m v rs :
  judged d rs c (verdict d t v m) (run_message on_headers on_data on_trailers m (FilterState c v rs)).
Proof.
  unfold run_message, verdict. rewrite (handles_headers _ _ _ _ Hd).
  set (v1 := dir_headers d t (msg_headers m) v).
  destruct (failed (matchStatus t v1)) eqn:Hf1.
  { erewrite bind_run by (rewrite check_frame_run; fold v1; by rewrite Hf1). by exists v1. }
  destruct (bool_decide (msg_body m = []) && bool_decide (msg_trailers m = None)) eqn:He.
  - apply andb_true_iff in He as [->%bool_decide_eq_true ->%bool_decide_eq_true].
    destruct (check_end_judged None HeadersStopIteration HeadersContinue v1 rs Hf1) as [v' Hr].
    erewrite bind_run by (rewrite check_frame_run; fold v1; rewrite Hf1; exact Hr).
    exists v'. by destruct (verdict_rest _ _ _ _ _).
  - erewrite bind_run by (rewrite check_frame_run; fold v1; by rewrite Hf1).
    apply run_body_judged; [done|]. apply andb_false_iff in He. by rewrite !bool_decide_eq_false in He.
Qed.

Lemma verdict_matches m v : verdict d t v m = None ↔ matches_ (stream_status d t v m) = true.
Proof.
  unfold verdict, verdict_rest, stream_status.
  destruct (failed (matchStatus t (dir_headers d t (msg_headers m) v))) eqn:Hf.
  - rewrite feed_final by done. by split.
  - destruct (matches_ _); by split.
Qed.
End direction_run.
End run_lemmas.

(** ** The filter against the matcher *)

(** C33: The assertion filter accepts a stream exactly when the matcher matches it. For
    a filter made for the stream and any split of the request into frames, with or
    without trailers, run to the end or to the first frame that does not continue:
    every frame continues and nothing is sent if the matcher's status on the whole
    stream is a match (an absent trailers frame counting as empty trailers);
    otherwise one frame stops and exactly one local reply is sent, BadRequest with the
    text for the part that failed. Responses are judged the same way, with
    InternalServerError. No reply is ever sent for a stream that matches. *)
Theorem accepts_exactly_matches `{!MatcherLaws Proto T V HM B} proto_config t (m : message HM B) :
  head (buildMatcher proto_config []) = Some t →
  let c := AssertionFilterConfig_new proto_config in
  let v := onNewStream t (MatchStatusVector (matchersSize c)) in
  ∃ s, createFilterFactoryFromProtoTyped proto_config tt = Ok (s, tt) ∧
    judged request [] c (verdict request t v m) (run_request m s) ∧
    judged response [] c (verdict response t v m) (run_response m s) ∧
    (verdict request t v m = None ↔ matches_ (stream_status request t v m) = true) ∧
    (verdict response t v m = None ↔ matches_ (stream_status response t v m) = true).
Proof.
  intros Ht c v. exists (FilterState c v []). split.
  { unfold createFilterFactoryFromProtoTyped, AssertionFilter_new.
    by rewrite (bind_run _ _ _ _ _ (rootMatcher_run c t Ht _)). }
  change (head (matchers_ c) = Some t) in Ht. split_and!.
  - apply (run_message_judged c t Ht request _ _ _ handles_request); intros;
      [by apply final_request_body|by apply final_request_trailers].
  - apply (run_message_judged c t Ht response _ _ _ handles_response); intros;
      [by apply final_response_body|by apply final_response_trailers].
  - apply verdict_matches; intros; [by apply final_request_body|by apply final_request_trailers].
  - apply verdict_matches; intros; [by apply final_response_body|by apply final_response_trailers].
Qed.
End directions.

(** ** A small matcher *)

(** Requires a header by name, any body containing a given text, or both. *)
Inductive ref_predicate := HasHeader (name : string) | BodyIs (text : string).

(** Its status vector: the match so far, whether that may change, and the body seen. *)
Definition ref_statuses : Type := bool * bool * list byte.

Definition ref_on_headers (t : ref_predicate) (h : ref_map) (v : ref_statuses) : ref_statuses :=
  match t with
  | HasHeader name =>
      if v.1.2 then (bool_decide (values name (rm_entries h) ≠ []), false, v.2) else v
  | BodyIs _ => v
  end.

Definition ref_on_body (t : ref_predicate) (b : ref_buffer) (v : ref_statuses) : ref_statuses :=
  match t with
  | HasHeader _ => v
  | BodyIs text =>
      if v.1.2 then (bool_decide (v.2 ++ rb_bytes b = bytes_of text), true, v.2 ++ rb_bytes b) else v
  end.

#[export] Instance ref_matcher : Matcher ref_predicate ref_predicate ref_statuses ref_map ref_buffer := {
  buildMatcher t l := l ++ [t];
  MatchStatusVector _ := (false, true, []);
  onNewStream _ v := v;
  onHttpRequestHeaders := ref_on_headers;
  onHttpRequestTrailers _ _ v := v;
  onHttpResponseHeaders := ref_on_headers;
  onHttpResponseTrailers _ _ v := v;
  onRequestBody := ref_on_body;
  onResponseBody := ref_on_body;
  matchStatus _ v := MatchStatusOf v.1.1 v.1.2
}.

#[export] Instance ref_matcher_laws :
  MatcherLaws ref_predicate ref_predicate ref_statuses ref_map ref_buffer.
Proof.
  split; try done; intros t x v Hv; destruct t, v as [[? []] ?]; done.
Qed.

(** ** Witnesses *)

Definition ref_message : message ref_map ref_buffer :=
  Message (RefMap RequestHeaderMapImpl [("a", "1")])
    [RefBuffer (bytes_of "he") []; RefBuffer (bytes_of "llo") []] None.

(** A body in two frames that matches, and one that does not. *)
Lemma accepts_exactly_matches_witness :
  (let c := AssertionFilterConfig_new (BodyIs "hello") in
  ∃ s, createFilterFactoryFromProtoTyped (mode := debug_build) (BodyIs "hello") tt = Ok (s, tt) ∧
    judged request [] c None (run_request (mode := debug_build) ref_message s) ∧
    judged response [] c None (run_response (mode := debug_build) ref_message s) ∧
    (@None string = None ↔ true = true) ∧ (@None string = None ↔ true = true)) ∧
  ∃ s, createFilterFactoryFromProtoTyped (mode := debug_build) (HasHeader "b") tt = Ok (s, tt) ∧
    judged request [] (AssertionFilterConfig_new (HasHeader "b"))
      (Some "Request Headers do not match configured expectations")
      (run_request (mode := debug_build) ref_message s).
Proof.
  split.
  - exact (accepts_exactly_matches (mode := debug_build) (BodyIs "hello") (BodyIs "hello") ref_message eq_refl).
  - destruct (accepts_exactly_matches (mode := debug_build) (Matcher0 := ref_matcher) (HasHeader "b")
      (HasHeader "b") ref_message eq_refl) as (s & H1 & H2 & _).
    exists s. split; [exact H1|exact H2].
Defined.
