(* ===== verification/Engine.v ===== *)
(** * The engine's life cycle

    Models library/common/engine.cc and engine.h: the constructor that starts
    Envoy's main thread, Engine::run on that thread, the destructor that waits for
    it, and the stat recording calls other threads make. Each piece of code between
    two points where threads can interleave is one action; an action is enabled when
    its thread is at that point and does not block there. *)

From S2P Require Export CTypes.

(** ** State *)

(** The platform's callbacks; a null function pointer is false. *)
Record envoy_engine_callbacks := EngineCallbacks {
  on_engine_running : bool;
  on_exit : bool
}.

Inductive thread := EngineThread | DestroyingThread.

(** Where Engine::run is. The flag is run_success once the loop has returned. *)
Inductive engine_pc :=
| ELock
| EConstruct
| ERegister
| ELoop
| EResetHandler (run_success : bool)
| EResetScope (run_success : bool)
| EResetMain (run_success : bool)
| EOnExit (run_success : bool)
| EFinished (status : envoy_status_t).

(** Where Engine::~Engine is. *)
Inductive destructor_pc :=
| DNotStarted
| DLock
| DCheck
| DWaiting
| DRelock
| DExit
| DJoin
| DDone.

(** The closures the record functions post. *)
Inductive stat_op :=
| CounterInc (name : string) (count : Z)
| GaugeSet (name : string) (value : Z)
| GaugeAdd (name : string) (amount : Z)
| GaugeSub (name : string) (amount : Z).

Inductive engine_event :=
| EvDispatcherReady
| EvOnEngineRunning
| EvStat (op : stat_op)
| EvOnExit.

#[export] Instance thread_eq_dec : EqDecision thread.
Proof. solve_decision. Defined.
#[export] Instance engine_pc_eq_dec : EqDecision engine_pc.
Proof. solve_decision. Defined.
#[export] Instance destructor_pc_eq_dec : EqDecision destructor_pc.
Proof. solve_decision. Defined.
#[export] Instance stat_op_eq_dec : EqDecision stat_op.
Proof. solve_decision. Defined.
#[export] Instance engine_event_eq_dec : EqDecision engine_event.
Proof. solve_decision. Defined.

(** Pointers are booleans: set or null. [server_] and [event_dispatcher_] point into
    the object [main_common_] owns. [posted] is the dispatcher's queue of closures and
    [exit_requested] its exit flag; [inflight] holds the record calls that have passed
    their check and not posted yet. [accepted] is a ghost: everything ever posted. *)
Record engine_state := EngineState {
  callbacks_ : envoy_engine_callbacks;
  mutex_ : option thread;
  main_common_ : bool;
  event_dispatcher_ : bool;
  server_ : bool;
  client_scope_ : bool;
  postinit_callback_handler_ : bool;
  exit_requested : bool;
  posted : list stat_op;
  inflight : list stat_op;
  accepted : list stat_op;
  main_thread_ : engine_pc;
  destructor_ : destructor_pc;
  engine_events : list engine_event
}.

Definition set_mutex (x : option thread) (s : engine_state) : engine_state :=
  EngineState (callbacks_ s) x (main_common_ s) (event_dispatcher_ s) (server_ s)
    (client_scope_ s) (postinit_callback_handler_ s) (exit_requested s) (posted s)
    (inflight s) (accepted s) (main_thread_ s) (destructor_ s) (engine_events s).
Definition set_main_common (x : bool) (s : engine_state) : engine_state :=
  EngineState (callbacks_ s) (mutex_ s) x (event_dispatcher_ s) (server_ s)
    (client_scope_ s) (postinit_callback_handler_ s) (exit_requested s) (posted s)
    (inflight s) (accepted s) (main_thread_ s) (destructor_ s) (engine_events s).
Definition set_event_dispatcher (x : bool) (s : engine_state) : engine_state :=
  EngineState (callbacks_ s) (mutex_ s) (main_common_ s) x (server_ s)
    (client_scope_ s) (postinit_callback_handler_ s) (exit_requested s) (posted s)
    (inflight s) (accepted s) (main_thread_ s) (destructor_ s) (engine_events s).
Definition set_server (x : bool) (s : engine_state) : engine_state :=
  EngineState (callbacks_ s) (mutex_ s) (main_common_ s) (event_dispatcher_ s) x
    (client_scope_ s) (postinit_callback_handler_ s) (exit_requested s) (posted s)
    (inflight s) (accepted s) (main_thread_ s) (destructor_ s) (engine_events s).
Definition set_client_scope (x : bool) (s : engine_state) : engine_state :=
  EngineState (callbacks_ s) (mutex_ s) (main_common_ s) (event_dispatcher_ s) (server_ s)
    x (postinit_callback_handler_ s) (exit_requested s) (posted s)
    (inflight s) (accepted s) (main_thread_ s) (destructor_ s) (engine_events s).
Definition set_handler (x : bool) (s : engine_state) : engine_state :=
  EngineState (callbacks_ s) (mutex_ s) (main_common_ s) (event_dispatcher_ s) (server_ s)
    (client_scope_ s) x (exit_requested s) (posted s)
    (inflight s) (accepted s) (main_thread_ s) (destructor_ s) (engine_events s).
Definition set_exit_requested (x : bool) (s : engine_state) : engine_state :=
  EngineState (callbacks_ s) (mutex_ s) (main_common_ s) (event_dispatcher_ s) (server_ s)
    (client_scope_ s) (postinit_callback_handler_ s) x (posted s)
    (inflight s) (accepted s) (main_thread_ s) (destructor_ s) (engine_events s).
Definition set_posted (x : list stat_op) (s : engine_state) : engine_state :=
  EngineState (callbacks_ s) (mutex_ s) (main_common_ s) (event_dispatcher_ s) (server_ s)
    (client_scope_ s) (postinit_callback_handler_ s) (exit_requested s) x
    (inflight s) (accepted s) (main_thread_ s) (destructor_ s) (engine_events s).
Definition set_inflight (x : list stat_op) (s : engine_state) : engine_state :=
  EngineState (callbacks_ s) (mutex_ s) (main_common_ s) (event_dispatcher_ s) (server_ s)
    (client_scope_ s) (postinit_callback_handler_ s) (exit_requested s) (posted s)
    x (accepted s) (main_thread_ s) (destructor_ s) (engine_events s).
Definition set_accepted (x : list stat_op) (s : engine_state) : engine_state :=
  EngineState (callbacks_ s) (mutex_ s) (main_common_ s) (event_dispatcher_ s) (server_ s)
    (client_scope_ s) (postinit_callback_handler_ s) (exit_requested s) (posted s)
    (inflight s) x (main_thread_ s) (destructor_ s) (engine_events s).
Definition set_main_thread (x : engine_pc) (s : engine_state) : engine_state :=
  EngineState (callbacks_ s) (mutex_ s) (main_common_ s) (event_dispatcher_ s) (server_ s)
    (client_scope_ s) (postinit_callback_handler_ s) (exit_requested s) (posted s)
    (inflight s) (accepted s) x (destructor_ s) (engine_events s).
Definition set_destructor (x : destructor_pc) (s : engine_state) : engine_state :=
  EngineState (callbacks_ s) (mutex_ s) (main_common_ s) (event_dispatcher_ s) (server_ s)
    (client_scope_ s) (postinit_callback_handler_ s) (exit_requested s) (posted s)
    (inflight s) (accepted s) (main_thread_ s) x (engine_events s).
Definition set_engine_events (x : list engine_event) (s : engine_state) : engine_state :=
  EngineState (callbacks_ s) (mutex_ s) (main_common_ s) (event_dispatcher_ s) (server_ s)
    (client_scope_ s) (postinit_callback_handler_ s) (exit_requested s) (posted s)
    (inflight s) (accepted s) (main_thread_ s) (destructor_ s) x.

(** Envoy's sanitizeStatsName, and whether the API listener has an HTTP listener. *)
Class EnvoyServer := {
  sanitizeStatsName : string → string;
  api_listener_has_value : bool
}.

(** What the world may do to an engine. *)
Record world := World {
  construction_fails : bool;
  loop_exits_by_itself : bool;
  spurious_wakeups : bool
}.

(** The actions of the engine thread, of the destroying thread, and of the threads
    that record stats. *)
Inductive action :=
| EngineLock
| EngineConstruct (ok : bool)
| EngineRegister
| EnginePostInit
| EngineRunPosted
| EngineLoopReturns (run_success : bool)
| EngineResetHandler
| EngineResetScope
| EngineResetMain
| EngineOnExit
| DestructorBegin
| DestructorLock
| DestructorCheck
| DestructorSpurious
| DestructorWake
| DestructorExit
| DestructorJoin
| RecordCheck (op : stat_op)
| RecordPost (i : nat).

Section engine.
Context {mode : BuildMode} `{!EnvoyServer}.
Abbreviation S := engine_state.

(** The constructor: every pointer null, the thread at the start of run. *)
Definition Engine_new (callbacks : envoy_engine_callbacks) : S :=
  EngineState callbacks None false false false false false false [] [] [] ELock DNotStarted [].

Definition emit (e : engine_event) : M S unit :=
  modify (λ s, set_engine_events (engine_events s ++ [e]) s).
Definition goto (pc : engine_pc) : M S unit := modify (set_main_thread pc).
Definition destructor_goto (pc : destructor_pc) : M S unit := modify (set_destructor pc).
Definition lock (t : thread) : M S unit := modify (set_mutex (Some t)).
Definition unlock (t : thread) : M S unit :=
  owner ← gets mutex_;
  (if decide (owner = Some t) then mret tt else fail (Undefined "unlock by a thread that has no lock")) ;;
  modify (set_mutex None).

(** Using an object that lives in [*main_common_]. *)
Definition alive (what : string) : M S unit :=
  b ← gets main_common_;
  if (b : bool) then mret tt else fail (Undefined what).

(** ** Engine::run *)

Definition notifyAll : M S unit :=
  modify (λ s, match destructor_ s with DWaiting => set_destructor DRelock s | _ => s end).

(** The try block: constructing MobileMainCommon throws or not. *)
Definition run_construct (ok : bool) : M S unit :=
  if ok then
    modify (set_main_common true) ;;
    modify (set_event_dispatcher true) ;;
    notifyAll ;;
    goto ERegister
  else unlock EngineThread ;; goto (EFinished ENVOY_FAILURE).

Definition run_register : M S unit :=
  alive "main_common_->server()" ;;
  modify (set_handler true) ;;
  unlock EngineThread ;;
  goto ELoop.

(** The PostInit callback; its handle is consumed when it fires. *)
Definition postinit : M S unit :=
  alive "main_common_->server()" ;;
  modify (set_handler false) ;;
  modify (set_server true) ;;
  modify (set_client_scope true) ;;
  ASSERT api_listener_has_value "api_listener.has_value()" ;;
  (if api_listener_has_value then mret tt else fail (Thrown "bad_optional_access")) ;;
  emit EvDispatcherReady ;;
  callbacks ← gets callbacks_;
  when (on_engine_running callbacks) (emit EvOnEngineRunning).

(** A closure posted by a record function, run by the event loop. *)
Definition run_posted : M S unit :=
  ops ← gets posted;
  match ops with
  | [] => mret tt
  | op :: ops =>
      modify (set_posted ops) ;;
      scope ← gets client_scope_;
      if (scope : bool) then emit (EvStat op) else fail (Undefined "*client_scope_")
  end.

(** [main_common_->run()] returns; closures still queued are never run. *)
Definition loop_returns (run_success : bool) : M S unit :=
  modify (set_posted []) ;; goto (EResetHandler run_success).

Definition reset_handler (run_success : bool) : M S unit :=
  modify (set_handler false) ;; goto (EResetScope run_success).
Definition reset_scope (run_success : bool) : M S unit :=
  modify (set_client_scope false) ;; goto (EResetMain run_success).
Definition reset_main (run_success : bool) : M S unit :=
  modify (set_main_common false) ;; goto (EOnExit run_success).
Definition call_on_exit (run_success : bool) : M S unit :=
  callbacks ← gets callbacks_;
  (if on_exit callbacks then emit EvOnExit else fail (Undefined "callbacks_.on_exit")) ;;
  goto (EFinished (if run_success then ENVOY_SUCCESS else ENVOY_FAILURE)).

(** ** Engine::~Engine *)

(** The thread is joinable: nothing else joins or detaches it. *)
Definition destructor_begin : M S unit := destructor_goto DLock.
Definition destructor_lock : M S unit := lock DestroyingThread ;; destructor_goto DCheck.

(** [if (!main_common_) cv_.wait(mutex_);] up to blocking, which unlocks. *)
Definition destructor_check : M S unit :=
  b ← gets main_common_;
  if (b : bool) then destructor_goto DExit else unlock DestroyingThread ;; destructor_goto DWaiting.

(** [wait] returns with the mutex held; the condition is not checked again. *)
Definition destructor_wake : M S unit := lock DestroyingThread ;; destructor_goto DExit.

Definition destructor_exit : M S unit :=
  b ← gets main_common_;
  ASSERT b "main_common_" ;;
  set ← gets event_dispatcher_;
  (if (set : bool) then mret tt else fail (Undefined "event_dispatcher_ is uninitialised")) ;;
  alive "event_dispatcher_ is dangling" ;;
  modify (set_exit_requested true) ;;
  unlock DestroyingThread ;;
  destructor_goto DJoin.

Definition destructor_join : M S unit := destructor_goto DDone.

(** ** Recording stats *)

(** [server_ && client_scope_] *)
Definition can_record : M S bool := gets (λ s, server_ s && client_scope_ s).

(** [server_->dispatcher().post(...)] *)
Definition post_stat (op : stat_op) : M S unit :=
  alive "server_ is dangling" ;;
  modify (λ s, set_posted (posted s ++ [op]) s) ;;
  modify (λ s, set_accepted (accepted s ++ [op]) s).

Definition record (op : stat_op) : M S envoy_status_t :=
  b ← can_record;
  if (b : bool) then post_stat op ;; mret ENVOY_SUCCESS else mret ENVOY_FAILURE.

Definition recordCounterInc (elements : string) (count : Z) : M S envoy_status_t :=
  record (CounterInc (sanitizeStatsName elements) count).
Definition recordGaugeSet (elements : string) (value : Z) : M S envoy_status_t :=
  record (GaugeSet (sanitizeStatsName elements) value).
Definition recordGaugeAdd (elements : string) (amount : Z) : M S envoy_status_t :=
  record (GaugeAdd (sanitizeStatsName elements) amount).
Definition recordGaugeSub (elements : string) (amount : Z) : M S envoy_status_t :=
  record (GaugeSub (sanitizeStatsName elements) amount).

(** ** Interleavings *)

Definition mutex_free (s : S) : bool := bool_decide (mutex_ s = None).
Definition at_engine (pc : engine_pc) (s : S) : bool := bool_decide (main_thread_ s = pc).
Definition at_destructor (pc : destructor_pc) (s : S) : bool := bool_decide (destructor_ s = pc).

(** Which actions can happen next. A record call holds a reference to the engine, so
    the destructor starts after the calls in flight and none starts after it. *)
Definition enabled (w : world) (a : action) (s : S) : bool :=
  match a with
  | EngineLock => at_engine ELock s && mutex_free s
  | EngineConstruct ok => at_engine EConstruct s && (ok || construction_fails w)
  | EngineRegister => at_engine ERegister s
  | EnginePostInit => at_engine ELoop s && postinit_callback_handler_ s
  | EngineRunPosted => at_engine ELoop s && negb (bool_decide (posted s = []))
  | EngineLoopReturns _ => at_engine ELoop s && (exit_requested s || loop_exits_by_itself w)
  | EngineResetHandler =>
      match main_thread_ s with EResetHandler _ => true | _ => false end
  | EngineResetScope => match main_thread_ s with EResetScope _ => true | _ => false end
  | EngineResetMain => match main_thread_ s with EResetMain _ => true | _ => false end
  | EngineOnExit => match main_thread_ s with EOnExit _ => true | _ => false end
  | DestructorBegin => at_destructor DNotStarted s && bool_decide (inflight s = [])
  | DestructorLock => at_destructor DLock s && mutex_free s
  | DestructorCheck => at_destructor DCheck s
  | DestructorSpurious => at_destructor DWaiting s && spurious_wakeups w
  | DestructorWake => at_destructor DRelock s && mutex_free s
  | DestructorExit => at_destructor DExit s
  | DestructorJoin =>
      at_destructor DJoin s && match main_thread_ s with EFinished _ => true | _ => false end
  | RecordCheck _ => at_destructor DNotStarted s
  | RecordPost i => bool_decide (i < length (inflight s))
  end.

(** The run_success of the engine thread while it cleans up. *)
Definition run_success (s : S) : bool :=
  match main_thread_ s with
  | EResetHandler b | EResetScope b | EResetMain b | EOnExit b => b
  | _ => false
  end.

(** The code of an action. [RecordCheck] and [RecordPost] are the two halves of
    [record]. *)
Definition perform (a : action) : M S unit :=
  b ← gets run_success;
  match a with
  | EngineLock => lock EngineThread ;; goto EConstruct
  | EngineConstruct ok => run_construct ok
  | EngineRegister => run_register
  | EnginePostInit => postinit
  | EngineRunPosted => run_posted
  | EngineLoopReturns success => loop_returns success
  | EngineResetHandler => reset_handler b
  | EngineResetScope => reset_scope b
  | EngineResetMain => reset_main b
  | EngineOnExit => call_on_exit b
  | DestructorBegin => destructor_begin
  | DestructorLock => destructor_lock
  | DestructorCheck => destructor_check
  | DestructorSpurious => destructor_goto DRelock
  | DestructorWake => destructor_wake
  | DestructorExit => destructor_exit
  | DestructorJoin => destructor_join
  | RecordCheck op =>
      ok ← can_record;
      when ok (modify (λ s, set_inflight (inflight s ++ [op]) s))
  | RecordPost i =>
      ops ← gets inflight;
      op ← deref "no such call" (ops !! i);
      modify (set_inflight (delete i ops)) ;;
      post_stat op
  end.

Inductive engine_step (w : world) : S → action → S → Prop :=
| engine_step_intro s a s' :
    enabled w a s = true → perform a s = Ok (tt, s') → engine_step w s a s'.

Inductive engine_steps (w : world) : S → list action → S → Prop :=
| engine_steps_nil s : engine_steps w s [] s
| engine_steps_cons s a s1 l s' :
    engine_step w s a s1 → engine_steps w s1 l s' → engine_steps w s (a :: l) s'.

Definition engine_reachable (w : world) (callbacks : envoy_engine_callbacks) (s : S) : Prop :=
  ∃ l, engine_steps w (Engine_new callbacks) l s.

(** An action of the code that would go wrong. *)
Definition faults (w : world) (s : S) : Prop :=
  ∃ a f, enabled w a s = true ∧ perform a s = Fault f.

(** Running a given list of actions, for examples. *)
Fixpoint run_actions (w : world) (l : list action) (s : S) : option S :=
  match l with
  | [] => Some s
  | a :: l =>
      if enabled w a s then
        match perform a s with Ok (_, s') => run_actions w l s' | Fault _ => None end
      else None
  end.

Lemma run_actions_steps w l s s' : run_actions w l s = Some s' → engine_steps w s l s'.
Proof.
  revert s. induction l as [|a l IH]; intros s; cbn; [intros [= ->]; constructor|].
  destruct (enabled w a s) eqn:He; [|done]. destruct (perform a s) as [[[] s1]|] eqn:Hp; [|done].
  intros Hr. econstructor; [by constructor|by apply IH].
Qed.
End engine.
