(* ===== verification/EngineInv.v ===== *)
(** * The invariant of an orderly engine

    The invariant that ties the two program counters to the mutex and the pointers,
    its preservation by every action, the measure each action decreases once the
    destructor has begun, and that some action is always enabled until it returns. *)

From S2P Require Export Engine.

(** Envoy starts, keeps running until told to exit, and waits end only by a notify. *)
Definition orderly : world := World false false false.

(** ** Tactics *)

(** Computing the run of an enabled action on a state given by its fields. *)
Ltac run_action :=
  unfold wp, perform, run_construct, notifyAll, run_register, postinit, run_posted, loop_returns,
    reset_handler, reset_scope, reset_main, call_on_exit, destructor_begin, destructor_lock,
    destructor_check, destructor_wake, destructor_exit, destructor_join, can_record, post_stat,
    alive, ASSERT, lock, unlock, goto, destructor_goto, emit, deref, when, fail, mbind, M_bind,
    mret, M_ret, gets, modify; cbn.

(** Enabledness as facts about the fields. *)
Ltac enabled_facts He :=
  cbn in He; unfold at_engine, at_destructor, mutex_free in He; cbn in He;
  repeat match goal with
  | H : _ && _ = true |- _ => apply andb_true_iff in H; destruct H
  | H : _ || _ = true |- _ => apply orb_true_iff in H
  | H : negb _ = true |- _ => apply negb_true_iff in H
  | H : bool_decide _ = true |- _ => apply bool_decide_eq_true in H
  | H : bool_decide _ = false |- _ => apply bool_decide_eq_false in H
  end; simplify_eq.

(** The facts of the invariant once both program counters are known. *)
Ltac settle := repeat match goal with
  | H : ?x = ?x → _ |- _ => specialize (H eq_refl)
  | H : ?x = ?y → _ |- _ => clear H; assert (x ≠ y) as _ by done
  | H : ?x = ?y ∨ _ → _ |- _ => specialize (H (or_introl eq_refl))
  | H : _ ∨ ?x = ?y → _ |- _ => specialize (H (or_intror eq_refl))
  | H : ?P → _, H' : ?P |- _ => specialize (H H')
  | H : _ ∨ _ |- _ => destruct H
  | H : _ ∧ _ |- _ => destruct H
  | H : true = false |- _ => discriminate H
  | H : false = true |- _ => discriminate H
  end; simplify_eq.

Section engine_inv.
Context {mode : BuildMode} `{!EnvoyServer}.
Implicit Types (s : engine_state).

(** ** The invariant *)

Definition engine_holds (pc : engine_pc) : bool :=
  match pc with EConstruct | ERegister => true | _ => false end.
Definition destructor_holds (pc : destructor_pc) : bool :=
  match pc with DCheck | DExit => true | _ => false end.
Definition unstarted (pc : engine_pc) : bool :=
  match pc with ELock | EConstruct => true | _ => false end.
Definition has_main (pc : engine_pc) : bool :=
  match pc with
  | ERegister | ELoop | EResetHandler _ | EResetScope _ | EResetMain _ => true
  | _ => false
  end.
Definition has_handler (pc : engine_pc) : bool :=
  match pc with ELoop | EResetHandler _ => true | _ => false end.
Definition has_scope (pc : engine_pc) : bool :=
  match pc with ELoop | EResetHandler _ | EResetScope _ => true | _ => false end.
Definition leaving (pc : engine_pc) : bool :=
  match pc with
  | EResetHandler _ | EResetScope _ | EResetMain _ | EOnExit _ | EFinished _ => true
  | _ => false
  end.
Definition finished (pc : engine_pc) : bool :=
  match pc with EFinished _ => true | _ => false end.
Definition asked (pc : destructor_pc) : bool :=
  match pc with DJoin | DDone => true | _ => false end.

Definition exits (l : list engine_event) : nat := length (filter (λ e, e = EvOnExit) l).
Arguments exits : simpl never.

Record engine_inv (callbacks : envoy_engine_callbacks) s : Prop := {
  einv_callbacks : callbacks_ s = callbacks;
  einv_mutex : mutex_ s =
    if engine_holds (main_thread_ s) then Some EngineThread
    else if destructor_holds (destructor_ s) then Some DestroyingThread else None;
  einv_exclusion : engine_holds (main_thread_ s) && destructor_holds (destructor_ s) = false;
  einv_main : main_common_ s = has_main (main_thread_ s);
  einv_dispatcher : unstarted (main_thread_ s) = false → event_dispatcher_ s = true;
  einv_exit : exit_requested s = asked (destructor_ s);
  einv_leaving : leaving (main_thread_ s) = true → asked (destructor_ s) = true;
  einv_waiting : destructor_ s = DWaiting → unstarted (main_thread_ s) = true;
  einv_woken : destructor_ s = DRelock ∨ destructor_ s = DExit → unstarted (main_thread_ s) = false;
  einv_handler : postinit_callback_handler_ s = true → has_handler (main_thread_ s) = true;
  einv_scope : client_scope_ s = true → has_scope (main_thread_ s) = true;
  einv_posted : posted s ≠ [] → client_scope_ s = true ∧ main_thread_ s = ELoop;
  einv_inflight : inflight s ≠ [] → destructor_ s = DNotStarted ∧ main_thread_ s = ELoop ∧
    client_scope_ s = true;
  einv_done : destructor_ s = DDone → finished (main_thread_ s) = true;
  einv_exits : exits (engine_events s) = if finished (main_thread_ s) then 1 else 0
}.

Lemma engine_inv_new callbacks : engine_inv callbacks (Engine_new callbacks).
Proof. split; cbn; naive_solver. Qed.

Lemma exits_snoc l e : exits (l ++ [e]) = exits l + if decide (e = EvOnExit) then 1 else 0.
Proof. unfold exits. rewrite filter_app, length_app, filter_cons. by case_decide. Qed.

Ltac by_settling :=
  split; cbn; rewrite ?exits_snoc; intros; repeat case_decide; settle; try done; try congruence;
    split_and?; try done; try lia.

(** The actions of the event loop and of the recording threads. *)
Lemma engine_inv_record callbacks s op :
  engine_inv callbacks s → enabled orderly (RecordCheck op) s = true →
  wp (perform (RecordCheck op)) no_fault (λ _ s', engine_inv callbacks s') s.
Proof.
  intros Hinv He. destruct s as [cbs mu mc ed sv cs ph er po inf acc e d ev].
  destruct Hinv. cbn in *. enabled_facts He. settle. run_action.
  destruct (sv && cs) eqn:Hc; cbn; [|by_settling].
  apply andb_true_iff in Hc as [-> ->]. settle. by destruct e; settle; by_settling.
Qed.

Lemma engine_inv_post callbacks s i :
  engine_inv callbacks s → enabled orderly (RecordPost i) s = true →
  wp (perform (RecordPost i)) no_fault (λ _ s', engine_inv callbacks s') s.
Proof.
  intros Hinv He. destruct s as [cbs mu mc ed sv cs ph er po inf acc e d ev].
  destruct Hinv. cbn in *. enabled_facts He.
  destruct (lookup_lt_is_Some_2 inf i He) as [op Hop].
  assert (inf ≠ []) as Hne by (by intros ->).
  destruct (einv_inflight0 Hne) as (-> & -> & ->). cbn in *. settle. run_action.
  rewrite Hop. cbn. by_settling.
Qed.

Lemma engine_inv_posted callbacks s :
  engine_inv callbacks s → enabled orderly EngineRunPosted s = true →
  wp (perform EngineRunPosted) no_fault (λ _ s', engine_inv callbacks s') s.
Proof.
  intros Hinv He. destruct s as [cbs mu mc ed sv cs ph er po inf acc e d ev].
  destruct Hinv. cbn in *. enabled_facts He. destruct po as [|op po]; [done|].
  destruct (einv_posted0 ltac:(done)) as [-> _]. cbn in *. run_action.
  destruct d; settle; by_settling.
Qed.

(** The other actions, by both program counters. *)
Definition is_control (a : action) : bool :=
  match a with EngineRunPosted | RecordCheck _ | RecordPost _ => false | _ => true end.

Lemma engine_inv_control callbacks s a :
  on_exit callbacks = true → api_listener_has_value = true → is_control a = true →
  engine_inv callbacks s → enabled orderly a s = true →
  wp (perform a) no_fault (λ _ s', engine_inv callbacks s') s.
Proof.
  intros Hcb Hapi Hctl Hinv He.
  destruct s as [cbs mu mc ed sv cs ph er po inf acc e d ev]. destruct Hinv. cbn in *.
  destruct a; try done; enabled_facts He; try (destruct e; try done);
    try (destruct d; try done); cbn in *; settle; try done;
    run_action; rewrite ?Hapi, ?Hcb; cbn.
  all: try (destruct ASSERT_enabled; cbn).
  all: try (destruct (on_engine_running callbacks); cbn).
  all: by_settling.
Qed.

Lemma engine_inv_perform callbacks s a :
  on_exit callbacks = true → api_listener_has_value = true →
  engine_inv callbacks s → enabled orderly a s = true →
  wp (perform a) no_fault (λ _ s', engine_inv callbacks s') s.
Proof.
  intros Hcb Hapi Hinv He. destruct (is_control a) eqn:Hc; [by apply engine_inv_control|].
  destruct a; try done.
  - by apply engine_inv_posted.
  - by apply engine_inv_record.
  - by apply engine_inv_post.
Qed.

Lemma engine_inv_steps callbacks s l s' :
  on_exit callbacks = true → api_listener_has_value = true →
  engine_inv callbacks s → engine_steps orderly s l s' → engine_inv callbacks s'.
Proof.
  intros Hcb Hapi Hinv. induction 1 as [|s a s1 l s' [? ? ? He Hp] _ IH]; [done|].
  apply IH. by apply (wp_Ok _ _ _ _ _ _ (engine_inv_perform _ _ _ Hcb Hapi Hinv He) Hp).
Qed.

Lemma engine_inv_reachable callbacks s :
  on_exit callbacks = true → api_listener_has_value = true →
  engine_reachable orderly callbacks s → engine_inv callbacks s.
Proof. intros ?? [l Hl]. by eapply engine_inv_steps; [..|apply engine_inv_new|]. Qed.

Lemma engine_no_fault callbacks s :
  on_exit callbacks = true → api_listener_has_value = true →
  engine_inv callbacks s → ¬ faults orderly s.
Proof.
  intros Hcb Hapi Hinv (a & f & He & Hp).
  pose proof (engine_inv_perform _ _ _ Hcb Hapi Hinv He) as Hw. unfold wp in Hw. by rewrite Hp in Hw.
Qed.

(** ** Termination *)

Definition engine_rank (pc : engine_pc) : nat :=
  match pc with
  | ELock => 9 | EConstruct => 8 | ERegister => 7 | ELoop => 5 | EResetHandler _ => 4
  | EResetScope _ => 3 | EResetMain _ => 2 | EOnExit _ => 1 | EFinished _ => 0
  end.
Definition destructor_rank (pc : destructor_pc) : nat :=
  match pc with
  | DNotStarted => 7 | DLock => 6 | DCheck => 5 | DWaiting => 4 | DRelock => 3 | DExit => 2
  | DJoin => 1 | DDone => 0
  end.

(** What is left to do once nothing new is recorded. *)
Definition remaining s : nat :=
  engine_rank (main_thread_ s) + destructor_rank (destructor_ s) + length (posted s) +
  (if postinit_callback_handler_ s then 1 else 0).

Lemma wp_remaining callbacks s a :
  engine_inv callbacks s → destructor_ s ≠ DNotStarted → enabled orderly a s = true →
  wp (perform a) any_fault (λ _ s', remaining s' < remaining s ∧ destructor_ s' ≠ DNotStarted) s.
Proof.
  intros Hinv Hd He.
  destruct s as [cbs mu mc ed sv cs ph er po inf acc e d ev]. destruct Hinv. unfold remaining. cbn in *.
  assert (inf = []) as -> by (destruct inf; [done|]; by destruct einv_inflight0).
  destruct a; enabled_facts He; try (cbn in *; lia).
  all: try (destruct e; try done); try (destruct d; try done); cbn in *; settle; try done.
  all: try lia.
  all: run_action.
  all: try (destruct po as [|? po]; [done|]).
  all: try (destruct api_listener_has_value; cbn).
  all: try (destruct ASSERT_enabled; cbn).
  all: try (destruct (on_engine_running callbacks); cbn).
  all: try (destruct (on_exit callbacks); cbn).
  all: try done.
  all: try (destruct ph); repeat case_decide; cbn; try done.
  all: try (split; [lia|done]).
Qed.

Lemma bounded_steps callbacks s l s' :
  on_exit callbacks = true → api_listener_has_value = true →
  engine_inv callbacks s → destructor_ s ≠ DNotStarted → engine_steps orderly s l s' →
  length l + remaining s' ≤ remaining s ∧ destructor_ s' ≠ DNotStarted.
Proof.
  intros Hcb Hapi Hinv Hd Hl. revert Hinv Hd.
  induction Hl as [|s a s1 l s' [? ? ? He Hp] _ IH]; intros Hinv Hd; [done|].
  destruct (wp_Ok _ _ _ _ _ _ (wp_remaining _ _ _ Hinv Hd He) Hp) as [Hlt Hd'].
  pose proof (wp_Ok _ _ _ _ _ _ (engine_inv_perform _ _ _ Hcb Hapi Hinv He) Hp) as Hinv'.
  destruct (IH Hinv' Hd'). cbn. split; [lia|done].
Qed.

(** ** Progress *)

Lemma enabled_after_start callbacks s :
  engine_inv callbacks s → destructor_ s ≠ DNotStarted → destructor_ s ≠ DDone →
  ∃ a, enabled orderly a s = true.
Proof.
  intros Hinv H1 H2.
  destruct s as [cbs mu mc ed sv cs ph er po inf acc e d ev]. destruct Hinv. cbn in *.
  destruct e; cbn in *.
  - destruct d; cbn in *; settle; try done;
      first [by exists EngineLock|by exists DestructorCheck].
  - by exists (EngineConstruct true).
  - by exists EngineRegister.
  - destruct d; cbn in *; settle; try done;
      first [by exists DestructorLock|by exists DestructorCheck|by exists DestructorWake
            |by exists DestructorExit|by exists (EngineLoopReturns true)].
  - by exists EngineResetHandler.
  - by exists EngineResetScope.
  - by exists EngineResetMain.
  - by exists EngineOnExit.
  - settle. destruct d; try done. by exists DestructorJoin.
Qed.

Lemma step_after_start callbacks s :
  on_exit callbacks = true → api_listener_has_value = true →
  engine_inv callbacks s → destructor_ s ≠ DNotStarted → destructor_ s ≠ DDone →
  ∃ a s', engine_step orderly s a s'.
Proof.
  intros Hcb Hapi Hinv H1 H2. destruct (enabled_after_start _ _ Hinv H1 H2) as [a He].
  destruct (wp_total _ _ _ (engine_inv_perform _ _ _ Hcb Hapi Hinv He)) as ([] & s' & Hp & _).
  exists a, s'. by constructor.
Qed.
End engine_inv.
