(* ===== verification/EngineProps.v ===== *)
(** * What the engine promises

    When Envoy starts and stops only when told to, shutting the engine down is safe
    and always completes; the theorems after that say what goes wrong when it fails to
    start or stops on its own, and that stats are applied in the order they were
    recorded. *)

From S2P Require Export EngineInv.

Section props.
Context {mode : BuildMode} `{!EnvoyServer}.
Implicit Types (s : engine_state).

(** C6: An orderly engine never goes wrong, in any interleaving. Let the application have
    set on_exit, Envoy have an API listener, Envoy start, exit only when asked, and
    cv_.wait return only when notified (no spurious wakeup). Then no reachable state has an
    action that fails: the mutex is never unlocked by another thread, no ASSERT fails, and
    nothing dereferences a pointer that is unset or that the engine thread has
    destroyed. *)
Theorem engine_is_safe callbacks s :
  on_exit callbacks = true → api_listener_has_value = true →
  engine_reachable orderly callbacks s → ¬ faults orderly s.
Proof. intros Hcb Hapi Hs. eapply engine_no_fault; [done..|by apply engine_inv_reachable]. Qed.

(** C5: Shutdown always completes. Once the destructor of an orderly engine has begun,
    whatever the interleaving, at most 16 actions and the closures already posted
    remain; a run that has not reached the end of the destructor can always continue,
    so every maximal run ends with the destructor returning, and then the engine
    thread has finished, has destroyed Envoy and has called on_exit exactly once. *)
Theorem shutdown_completes callbacks s l s' :
  on_exit callbacks = true → api_listener_has_value = true →
  engine_reachable orderly callbacks s → destructor_ s ≠ DNotStarted →
  engine_steps orderly s l s' →
  length l ≤ 16 + length (posted s) ∧
  (destructor_ s' ≠ DDone → ∃ a s'', engine_step orderly s' a s'') ∧
  (destructor_ s' = DDone →
    (∃ status, main_thread_ s' = EFinished status) ∧ main_common_ s' = false ∧
    exits (engine_events s') = 1).
Proof.
  intros Hcb Hapi Hs Hd Hl. apply engine_inv_reachable in Hs; [|done..].
  pose proof (bounded_steps _ _ _ _ Hcb Hapi Hs Hd Hl) as [Hb Hd'].
  assert (engine_inv callbacks s') as Hs' by (by eapply engine_inv_steps).
  split_and!.
  - unfold remaining in Hb.
    assert (engine_rank (main_thread_ s) ≤ 9) by (by destruct (main_thread_ s); cbn; lia).
    assert (destructor_rank (destructor_ s) ≤ 6) by (destruct (destructor_ s); cbn; lia || done).
    destruct (postinit_callback_handler_ s); lia.
  - intros Hnd. by eapply step_after_start.
  - intros Hdone. pose proof (einv_done _ _ Hs' Hdone) as Hf. split_and!.
    + destruct (main_thread_ s'); try done. by eexists.
    + rewrite (einv_main _ _ Hs'). by destruct (main_thread_ s').
    + by rewrite (einv_exits _ _ Hs'), Hf.
Qed.

(** ** When Envoy does not start *)

Definition unwoken (pc : destructor_pc) : bool :=
  match pc with DNotStarted | DLock | DCheck | DWaiting => true | _ => false end.

(** An engine that has not started, or that has failed to. *)
Record not_started s : Prop := {
  ns_mutex : mutex_ s =
    if engine_holds (main_thread_ s) then Some EngineThread
    else if destructor_holds (destructor_ s) then Some DestroyingThread else None;
  ns_exclusion : engine_holds (main_thread_ s) && destructor_holds (destructor_ s) = false;
  ns_main : main_common_ s = false;
  ns_scope : client_scope_ s = false;
  ns_inflight : inflight s = [];
  ns_unwoken : unwoken (destructor_ s) = true
}.

Definition gave_up s : Prop := main_thread_ s = EFinished ENVOY_FAILURE ∧ not_started s.

Lemma wp_not_started w s a :
  spurious_wakeups w = false → unstarted (main_thread_ s) = true ∨ gave_up s → not_started s →
  enabled w a s = true →
  wp (perform a) no_fault (λ _ s',
    a ≠ EngineConstruct true → not_started s' ∧
    (unstarted (main_thread_ s) = false → main_thread_ s' = main_thread_ s)) s.
Proof.
  intros Hw Hpc Hinv He. destruct s as [cbs mu mc ed sv cs ph er po inf acc e d ev].
  destruct Hinv. unfold gave_up in Hpc. cbn in *.
  assert (unstarted e = true ∨ e = EFinished ENVOY_FAILURE) as Hpc' by (destruct Hpc as [?|[? _]]; eauto).
  clear Hpc. subst. destruct a; enabled_facts He; try (cbn in *; lia); rewrite ?Hw in *; try done.
  all: destruct Hpc' as [Hpc'|Hpc']; simplify_eq; try (destruct e; try done); try (destruct d; try done).
  all: cbn in *; settle; try done.
  all: run_action; repeat case_decide; try done.
  all: try (destruct sv; cbn); try (destruct ok; cbn); repeat case_decide; try done.
  all: try (intros; split; [|done || (intros; settle)]).
  all: by split.
Qed.

Lemma wp_stays_started w s a :
  unstarted (main_thread_ s) = false → enabled w a s = true →
  wp (perform a) any_fault (λ _ s', unstarted (main_thread_ s') = false) s.
Proof.
  intros Hpc He. destruct s as [cbs mu mc ed sv cs ph er po inf acc e d ev]. cbn in *.
  destruct a; enabled_facts He; try done.
  all: try (destruct e; try done); run_action; repeat (case_match; cbn in *; simplify_eq; try done).
Qed.

Lemma step_not_started w s a s1 :
  spurious_wakeups w = false → (unstarted (main_thread_ s) = true → not_started s) →
  engine_step w s a s1 → unstarted (main_thread_ s1) = true → not_started s1.
Proof.
  intros Hw Hs Hstep. revert Hs. destruct Hstep as [s0 a s' He Hp]. intros Hs Hpc.
  destruct (unstarted (main_thread_ s0)) eqn:Hu.
  - pose proof (wp_Ok _ _ _ _ _ _ (wp_not_started _ _ _ Hw (or_introl Hu) (Hs eq_refl) He) Hp) as Hn.
    apply Hn. intros ->. injection Hp as <-. by destruct (destructor_ s0).
  - by rewrite (wp_Ok _ _ _ _ _ _ (wp_stays_started _ _ _ Hu He) Hp) in Hpc.
Qed.

Lemma unstarted_not_started w callbacks s :
  spurious_wakeups w = false → engine_reachable w callbacks s →
  unstarted (main_thread_ s) = true → not_started s.
Proof.
  intros Hw [l Hl]. enough (∀ s0, (unstarted (main_thread_ s0) = true → not_started s0) →
    engine_steps w s0 l s → unstarted (main_thread_ s) = true → not_started s) as Hind.
  { eapply Hind; [|done]. intros _. by split. }
  clear Hl. induction l as [|a l IH]; intros s0 Hs0 Hl; inversion Hl; subst; [done|].
  eapply IH; [|done]. intros Hu. by eapply step_not_started.
Qed.

Lemma gave_up_steps w s l s' :
  spurious_wakeups w = false → gave_up s → engine_steps w s l s' → gave_up s'.
Proof.
  intros Hw. revert s. induction l as [|a l IH]; intros s Hs Hl; inversion Hl as [|? ? s1 ? ? Hstep Hl']; subst; [done|].
  eapply IH; [|done]. destruct Hstep as [s a s1 He Hp]. destruct Hs as [Hpc Hns].
  assert (a ≠ EngineConstruct true) as Hne.
  { intros ->. cbn in He. unfold at_engine in He. by rewrite Hpc in He. }
  destruct (wp_Ok _ _ _ _ _ _ (wp_not_started _ _ _ Hw (or_intror (conj Hpc Hns)) Hns He) Hp Hne)
    as [Hns' Heq].
  split; [|done]. rewrite Heq; [done|by rewrite Hpc].
Qed.

(** C40: An engine that fails to start can never be destroyed. If constructing Envoy
    throws, the run function returns without notifying the condition variable. If waits
    return only when notified (no spurious wakeup), then from then on, in any interleaving,
    the destructor never returns, and once it waits no action is possible any more. *)
Theorem failed_start_hangs w callbacks s s1 l s' :
  spurious_wakeups w = false → engine_reachable w callbacks s →
  engine_step w s (EngineConstruct false) s1 → engine_steps w s1 l s' →
  main_thread_ s' = EFinished ENVOY_FAILURE ∧ destructor_ s' ≠ DDone ∧
  (destructor_ s' = DWaiting → ∀ a, enabled w a s' = false).
Proof.
  intros Hw Hs Hstep Hl.
  assert (gave_up s1) as H1.
  { revert Hs. inversion Hstep as [? ? ? He Hp]; subst. intros Hs. cbn in He. unfold at_engine in He.
    apply andb_true_iff in He as [Hpc%bool_decide_eq_true _].
    assert (unstarted (main_thread_ s) = true) as Hu by (by rewrite Hpc).
    pose proof (unstarted_not_started _ _ _ Hw Hs Hu) as Hns.
    pose proof (wp_not_started w s (EngineConstruct false) Hw (or_introl Hu) Hns) as Hwp.
    destruct (wp_Ok _ _ _ _ _ _ (Hwp ltac:(by inversion Hstep)) Hp ltac:(done)) as [Hns1 _].
    split; [|done]. pose proof (ns_mutex _ Hns) as Hmu. rewrite Hpc in Hmu. cbn in Hmu.
    destruct s; cbn in *; subst. by injection Hp as <-. }
  pose proof (gave_up_steps _ _ _ _ Hw H1 Hl) as [Hpc Hns]. split; [done|]. split.
  - intros Hd. pose proof (ns_unwoken _ Hns). by rewrite Hd in *.
  - intros Hd a. apply not_true_iff_false. intros He.
    destruct a; cbn in He; unfold at_engine, at_destructor in He; rewrite ?Hpc, ?Hd, ?Hw, ?(ns_inflight _ Hns) in He; try done.
Qed.

(** ** Order of the recorded stats *)

Definition applied (l : list engine_event) : list stat_op :=
  omap (λ e, match e with EvStat op => Some op | _ => None end) l.

Arguments applied : simpl never.

Lemma applied_snoc l e :
  applied (l ++ [e]) = applied l ++ match e with EvStat op => [op] | _ => [] end.
Proof. unfold applied. rewrite omap_app. by destruct e. Qed.

(** What holds of the stats while the event loop can run, and afterwards. *)
Definition stats_ok s : Prop :=
  if leaving (main_thread_ s) then applied (engine_events s) `prefix_of` accepted s
  else accepted s = applied (engine_events s) ++ posted s.

Lemma wp_stats_ok w s a :
  stats_ok s → enabled w a s = true → wp (perform a) any_fault (λ _ s', stats_ok s') s.
Proof.
  intros Hs He. destruct s as [cbs mu mc ed sv cs ph er po inf acc e d ev]. unfold stats_ok in *. cbn in *.
  destruct a; enabled_facts He; cbn in Hs.
  all: try (destruct e; try done); run_action; repeat (case_match; cbn in *; simplify_eq; try done).
  all: cbn; rewrite ?applied_snoc, ?app_nil_r, <- ?app_assoc; try done.
  all: rewrite ?Hs; try (by eexists).
  all: etrans; [exact Hs|by eexists].
Qed.

(** Stats are applied in the order they were recorded, whatever goes wrong. Every
    operation the event loop has applied was accepted by a record call, in the same
    order and without gaps, and until the loop returns the accepted operations that
    are not applied yet are exactly those still queued. *)
Theorem stats_keep_order w callbacks s :
  engine_reachable w callbacks s →
  applied (engine_events s) `prefix_of` accepted s ∧
  (leaving (main_thread_ s) = false → accepted s = applied (engine_events s) ++ posted s).
Proof.
  intros [l Hl]. assert (stats_ok s) as Hok.
  { assert (stats_ok (Engine_new callbacks)) as H0 by done. revert H0.
    induction Hl as [|s a s1 l s' [s0 a0 s'' He Hp] _ IH]; [done|]. intros H0. apply IH.
    by apply (wp_Ok _ _ _ _ _ _ (wp_stats_ok _ _ _ H0 He) Hp). }
  unfold stats_ok in Hok. destruct (leaving _); [done|]. split; [rewrite Hok; by eexists|done].
Qed.

(** ** When Envoy stops by itself, or a wait ends by itself *)

Definition started : list action := [EngineLock; EngineConstruct true; EngineRegister; EnginePostInit].
Definition left_by_itself : list action :=
  [EngineLoopReturns true; EngineResetHandler; EngineResetScope; EngineResetMain].

(** The four traces of the theorem below, the first three from a running engine. *)
Definition exit_after_check : list action :=
  [DestructorBegin; DestructorLock; DestructorCheck] ++ left_by_itself.
Definition exit_during_record : list action :=
  [RecordCheck (CounterInc "c" 1)] ++ left_by_itself.
Definition exit_before_destructor : list action :=
  left_by_itself ++ [EngineOnExit; DestructorBegin; DestructorLock; DestructorCheck].
Definition woken_early : list action :=
  [DestructorBegin; DestructorLock; DestructorCheck; DestructorSpurious; DestructorWake].

Definition self_exiting : world := World false true false.
Definition spurious : world := World false false true.

(** The ASSERT of the destructor, or what it guards against. *)
Definition destructor_fault (uninitialised : bool) : fault :=
  if ASSERT_enabled then DebugAssert "main_common_"
  else Undefined (if uninitialised then "event_dispatcher_ is uninitialised"
    else "event_dispatcher_ is dangling").

Lemma reached w callbacks l s :
  run_actions w l (Engine_new callbacks) = Some s → engine_reachable w callbacks s.
Proof. intros Hr. exists l. by apply run_actions_steps. Qed.

(** The engine once it runs. *)
Definition running_engine (oer : bool) : engine_state :=
  EngineState (EngineCallbacks oer true) None true true true true false false [] [] []
    ELoop DNotStarted (EvDispatcherReady :: if oer then [EvOnEngineRunning] else []).

Lemma run_actions_app w l1 l2 s :
  run_actions w (l1 ++ l2) s = run_actions w l1 s ≫= run_actions w l2.
Proof.
  revert s. induction l1 as [|a l1 IH]; intros s; [done|]. cbn.
  destruct (enabled w a s); [|done]. destruct (perform a s) as [[? s1]|]; [apply IH|done].
Qed.

Lemma started_run w oer :
  api_listener_has_value = true →
  run_actions w started (Engine_new (EngineCallbacks oer true)) = Some (running_engine oer).
Proof.
  intros Hapi. change started with ([EngineLock; EngineConstruct true; EngineRegister] ++ [EnginePostInit]).
  rewrite run_actions_app. set (r := run_actions w [_; _; _] _). vm_compute in r. subst r.
  cbn [mbind option_bind run_actions]. unfold perform, postinit, ASSERT. rewrite Hapi.
  destruct ASSERT_enabled, oer; reflexivity.
Qed.

(** What the orderly world excludes does go wrong. If the event loop exits by
    itself, the destructor can ask a dispatcher to exit that is already destroyed, a
    record call can post to one, and a destructor that comes later waits for ever; if
    the wait can end without a notify, the destructor uses an event dispatcher that
    was never set. *)
Theorem unsafe_outside_orderly callbacks :
  on_exit callbacks = true → api_listener_has_value = true →
  (∃ s, engine_reachable self_exiting callbacks s ∧ enabled self_exiting DestructorExit s = true ∧
    perform DestructorExit s = Fault (destructor_fault false)) ∧
  (∃ s, engine_reachable self_exiting callbacks s ∧ enabled self_exiting (RecordPost 0) s = true ∧
    perform (RecordPost 0) s = Fault (Undefined "server_ is dangling")) ∧
  (∃ s, engine_reachable self_exiting callbacks s ∧ destructor_ s = DWaiting ∧
    ∀ a, enabled self_exiting a s = false) ∧
  (∃ s, engine_reachable spurious callbacks s ∧ enabled spurious DestructorExit s = true ∧
    perform DestructorExit s = Fault (destructor_fault true)).
Proof.
  intros Hcb Hapi. destruct callbacks as [oer oex]. cbn in Hcb. subst oex.
  assert (Hrun : ∀ w l s, run_actions w l (running_engine oer) = Some s →
    engine_reachable w (EngineCallbacks oer true) s).
  { intros w l s Hr. apply (reached _ _ (started ++ l)). by rewrite run_actions_app, started_run. }
  split_and!.
  - eexists. split; [apply (Hrun _ exit_after_check); by vm_compute|]. split; [done|]. unfold perform, destructor_exit, ASSERT, destructor_fault. destruct ASSERT_enabled; reflexivity.
  - eexists. split; [apply (Hrun _ exit_during_record); by vm_compute|]. done.
  - eexists. split; [apply (Hrun _ exit_before_destructor); by vm_compute|]. split; [done|].
    intros a. destruct a; reflexivity.
  - eexists. split; [apply (reached _ _ woken_early); by vm_compute|]. split; [done|]. unfold perform, destructor_exit, ASSERT, destructor_fault. destruct ASSERT_enabled; reflexivity.
Qed.
End props.

(** ** Witnesses *)

Definition ref_server : EnvoyServer := {| sanitizeStatsName := λ s, s; api_listener_has_value := true |}.
Definition ref_callbacks : envoy_engine_callbacks := EngineCallbacks true true.

(** The state after a run of a debug build, or the initial one if it is not a run. *)
Definition state_after (w : world) (l : list action) : engine_state :=
  default (Engine_new ref_callbacks)
    (run_actions (mode := debug_build) (H := ref_server) w l (Engine_new ref_callbacks)).

Definition runs (w : world) (l : list action) : bool :=
  bool_decide (is_Some (run_actions (mode := debug_build) (H := ref_server) w l (Engine_new ref_callbacks))).

Lemma reached_after w l :
  runs w l = true →
  engine_reachable (mode := debug_build) (H := ref_server) w ref_callbacks (state_after w l).
Proof.
  unfold runs, state_after. intros [s Hs]%bool_decide_eq_true. rewrite Hs. by eapply reached.
Qed.

Lemma steps_after w l l' :
  runs w (l ++ l') = true →
  engine_steps (mode := debug_build) (H := ref_server) w (state_after w l) l' (state_after w (l ++ l')).
Proof.
  unfold runs, state_after. intros [s Hs]%bool_decide_eq_true. rewrite Hs.
  rewrite run_actions_app in Hs. destruct (run_actions _ l _) as [s1|]; [|done].
  by apply run_actions_steps.
Qed.

Definition stopping : list action := started ++ [RecordCheck (GaugeSet "g" 2); RecordPost 0; DestructorBegin].
Definition stopped : list action :=
  [DestructorLock; EngineRunPosted; DestructorCheck; DestructorExit; EngineLoopReturns true;
   EngineResetHandler; EngineResetScope; EngineResetMain; EngineOnExit; DestructorJoin].

Definition wait_for_failed : list action := [DestructorBegin; DestructorLock; DestructorCheck].
Definition failing : world := World true false false.

Lemma runs_stopping : runs orderly stopping = true. Proof. by vm_compute. Qed.
Lemma runs_stopped : runs orderly (stopping ++ stopped) = true. Proof. by vm_compute. Qed.
Lemma runs_failing : runs failing [EngineLock] = true. Proof. by vm_compute. Qed.
Lemma runs_failed : runs failing ([EngineLock] ++ [EngineConstruct false]) = true.
Proof. by vm_compute. Qed.
Lemma runs_waiting : runs failing ([EngineLock; EngineConstruct false] ++ wait_for_failed) = true.
Proof. by vm_compute. Qed.

Lemma engine_is_safe_witness :
  ¬ faults (mode := debug_build) (H := ref_server) orderly (state_after orderly stopping).
Proof.
  exact (engine_is_safe (mode := debug_build) (H := ref_server) ref_callbacks (state_after orderly stopping)
    eq_refl eq_refl (reached_after _ _ runs_stopping)).
Defined.

Lemma shutdown_completes_witness :
  length stopped ≤ 16 + length (posted (state_after orderly stopping)) ∧
  exits (engine_events (state_after orderly (stopping ++ stopped))) = 1.
Proof.
  assert (destructor_ (state_after orderly stopping) ≠ DNotStarted) as Hd by (by vm_compute).
  assert (destructor_ (state_after orderly (stopping ++ stopped)) = DDone) as Hdone by (by vm_compute).
  destruct (shutdown_completes (mode := debug_build) (H := ref_server) ref_callbacks _ _ _ eq_refl eq_refl
    (reached_after _ _ runs_stopping) Hd (steps_after _ _ _ runs_stopped)) as (H1 & _ & H2).
  split; [exact H1|]. exact (proj2 (proj2 (H2 Hdone))).
Defined.

Lemma failed_start_hangs_witness :
  destructor_ (state_after failing ([EngineLock; EngineConstruct false] ++ wait_for_failed)) ≠ DDone ∧
  ∀ a, enabled failing a
    (state_after failing ([EngineLock; EngineConstruct false] ++ wait_for_failed)) = false.
Proof.
  pose proof (steps_after _ _ _ runs_failed) as Hfail.
  assert (destructor_ (state_after failing ([EngineLock; EngineConstruct false] ++ wait_for_failed)) = DWaiting)
    as Hd by (by vm_compute).
  destruct (failed_start_hangs (mode := debug_build) (H := ref_server) failing ref_callbacks _ _ _ _
    eq_refl (reached_after _ _ runs_failing)
    ltac:(inversion Hfail as [|? ? ? ? ? Hstep Hnil]; subst; inversion Hnil; subst; exact Hstep)
    (steps_after _ _ _ runs_waiting)) as (_ & H1 & H2).
  split; [exact H1|exact (H2 Hd)].
Defined.

Lemma unsafe_outside_orderly_witness :
  ∃ s, engine_reachable (mode := debug_build) (H := ref_server) self_exiting ref_callbacks s ∧
    destructor_ s = DWaiting ∧ ∀ a, enabled self_exiting a s = false.
Proof.
  exact (proj1 (proj2 (proj2 (unsafe_outside_orderly (mode := debug_build) (H := ref_server) ref_callbacks
    eq_refl eq_refl)))).
Defined.

Lemma stats_keep_order_witness :
  applied (engine_events (state_after orderly (stopping ++ stopped))) `prefix_of`
    accepted (state_after orderly (stopping ++ stopped)) ∧
  applied (engine_events (state_after orderly (stopping ++ stopped))) = [GaugeSet "g" 2].
Proof.
  split; [|by vm_compute].
  exact (proj1 (stats_keep_order (mode := debug_build) (H := ref_server) orderly ref_callbacks _
    (reached_after _ _ runs_stopped))).
Defined.
