(* ===== verification/External.v ===== *)
(** * The registry of platform APIs and the configured platform filters

    Models library/common/api/external.cc, the constructor of
    PlatformBridgeFilterConfig in platform_bridge/filter.cc and the factory of
    platform_bridge/config.cc: how a filter the platform registered under a name
    becomes the filter of a stream. *)

From S2P Require Export PlatformBridge Reference.

(** ** api/external.cc *)

(** The map of names to [void*]; [A] is what the pointers designate. *)
Abbreviation registry A := (gmap string (option A)).

Section registry.
Context {mode : BuildMode} {A : Type}.

Definition registerApi (name : string) (api : option A) : M (registry A) unit :=
  modify (<[name := api]>).

(** [registry_[name]] adds a null entry for a name it does not have. *)
Definition retrieveApi (name : string) : M (registry A) (option A) :=
  r ← gets (λ r : registry A, r);
  let api := default None (r !! name) in
  modify (<[name := api]>) ;;
  ASSERT (bool_decide (is_Some api)) "api" ;;
  mret api.
End registry.

(** ** PlatformBridgeFilterConfig and its factory *)

Record PlatformBridgeFilterConfig (P : Type) := FilterConfig {
  filter_name_ : string;
  config_platform_filter_ : option (envoy_http_filter P)
}.
Arguments FilterConfig {P} _ _.
Arguments filter_name_ {P} _.
Arguments config_platform_filter_ {P} _.

Section config.
Context {mode : BuildMode} `{Allocator} {HM : Type} `{!HeaderMap HM} {B : Type}
  `{!BufferInstance B} {P : Type} `{!EnvoyFilterEnums}.

(** The proto configuration has one field, the name. *)
Definition PlatformBridgeFilterConfig_new (platform_filter_name : string)
    : M (registry (envoy_http_filter P)) (PlatformBridgeFilterConfig P) :=
  api ← retrieveApi platform_filter_name;
  mret (FilterConfig platform_filter_name api).

(** The callback createFilterFactoryFromProtoTyped returns, for one stream: the
    constructor copies [*config->platform_filter()]. *)
Definition add_stream_filter (c : PlatformBridgeFilterConfig P) : M (filter_state HM B P) unit :=
  f ← deref "*config->platform_filter()" (config_platform_filter_ c);
  make_shared_filter f.

(** ** Properties *)

(** Registrations under other names, in any number. *)
Definition register_all (l : list (string * option (envoy_http_filter P)))
    : M (registry (envoy_http_filter P)) unit :=
  for_each l (λ e, registerApi e.1 e.2).

Lemma register_all_run l r :
  register_all l r = Ok (tt, foldl (λ r e, <[e.1 := e.2]> r) r l).
Proof. revert r. induction l as [|e l IH]; intros r; [done|]. cbn. apply IH. Qed.

Lemma lookup_register_all l (r : registry (envoy_http_filter P)) name :
  name ∉ l.*1 → foldl (λ r e, <[e.1 := e.2]> r) r l !! name = r !! name.
Proof.
  revert r. induction l as [|e l IH]; intros r Hn; [done|]. cbn in Hn. cbn.
  rewrite IH by set_solver. by rewrite lookup_insert_ne by set_solver.
Qed.

(** A registered filter is the one that runs, and a name that is not registered is
    not an error until it is too late. Configuring a name under which the platform
    registered a filter, whatever it registered under other names, gives the streams
    that filter. For a name never registered a debug build stops at an ASSERT; a
    release build configures a null filter, remembers a null entry in the registry,
    and has undefined behaviour at the first stream. *)
Theorem configured_filter name f l (r : registry (envoy_http_filter P)) (s : filter_state HM B P) :
  name ∉ l.*1 → r !! name = None →
  (∃ r', (registerApi name (Some f) ;; register_all l ;; PlatformBridgeFilterConfig_new name) r =
    Ok (FilterConfig name (Some f), r') ∧
    add_stream_filter (FilterConfig name (Some f)) s = make_shared_filter f s) ∧
  ((register_all l ;; PlatformBridgeFilterConfig_new name) r =
    if mode then Fault (DebugAssert "api")
    else Ok (FilterConfig name None,
      <[name := None]> (foldl (λ r e, <[e.1 := e.2]> r) r l))) ∧
  add_stream_filter (FilterConfig name None) s = Fault (Undefined "*config->platform_filter()").
Proof.
  intros Hn Hr. split; [|split; [|done]].
  - eexists. split; [|done]. unfold registerApi.
    rewrite (bind_run _ _ _ tt (<[name := Some f]> r) eq_refl).
    rewrite (bind_run _ _ _ _ _ (register_all_run _ _)).
    unfold PlatformBridgeFilterConfig_new, retrieveApi, ASSERT, mbind, M_bind. cbn.
    rewrite lookup_register_all, lookup_insert_eq by done. cbn. by destruct ASSERT_enabled.
  - rewrite (bind_run _ _ _ _ _ (register_all_run _ _)).
    unfold PlatformBridgeFilterConfig_new, retrieveApi, ASSERT, mbind, M_bind. cbn.
    rewrite lookup_register_all, Hr by done. unfold ASSERT_enabled. by destruct mode.
Qed.
End config.

(** A fresh filter object, before its constructor runs. *)
Definition ref_fresh_filter : filter_state ref_map ref_buffer unit :=
  FilterState None None None None None null_filter no_filter_callbacks no_filter_callbacks
    false false ∅ None None UnderConstruction ∅ 1 [] mem_empty tt [].

Lemma configured_filter_witness :
  PlatformBridgeFilterConfig_new (mode := debug_build) (P := unit) "f" ∅ = Fault (DebugAssert "api") ∧
  ∃ r', (registerApi "f" (Some null_filter) ;; register_all [("g", None)] ;;
    PlatformBridgeFilterConfig_new (mode := release_build) "f") ∅ =
    Ok (FilterConfig (P := unit) "f" (Some null_filter), r').
Proof.
  split.
  - exact (proj1 (proj2 (configured_filter (mode := debug_build) "f" null_filter [] ∅ ref_fresh_filter
      ltac:(set_solver) eq_refl))).
  - destruct (proj1 (configured_filter (mode := release_build) "f" (null_filter : envoy_http_filter unit)
      [("g", None)] ∅ ref_fresh_filter ltac:(set_solver) eq_refl)) as (r' & H1 & _).
    exists r'. exact H1.
Defined.
