(* ===== verification/LockGuard.v ===== *)
(** * OptionalReleasableLockGuard

    Models library/common/thread/lock_guard.h: a lock guard over a mutex that may be
    null and may be released before the guard goes out of scope. *)

From S2P Require Export Prelude.

(** The mutex, held or free, as its owner sees it: unlocking a mutex that is not
    held is undefined. Waiting for a held one is not an outcome of a run. *)
Record BasicLockable := Mutex {
  held : bool;
  lock_calls : nat;
  unlock_calls : nat
}.

Definition mutex_lock : M BasicLockable unit :=
  h ← gets held;
  (if h : bool then fail (Undefined "lock of a mutex this thread holds") else mret tt) ;;
  modify (λ m, Mutex true (S (lock_calls m)) (unlock_calls m)).
Definition mutex_unlock : M BasicLockable unit :=
  h ← gets held;
  (if h : bool then mret tt else fail (Undefined "unlock of a mutex that is not held")) ;;
  modify (λ m, Mutex false (lock_calls m) (S (unlock_calls m))).

(** [lock_]: whether the guard still points at the mutex. *)
Definition OptionalReleasableLockGuard := bool.

Definition OptionalReleasableLockGuard_new (lock : bool)
    : M BasicLockable OptionalReleasableLockGuard :=
  when lock mutex_lock ;; mret lock.

Definition release (lock_ : OptionalReleasableLockGuard)
    : M BasicLockable OptionalReleasableLockGuard :=
  when lock_ mutex_unlock ;; mret false.

(** The destructor. *)
Definition OptionalReleasableLockGuard_delete (lock_ : OptionalReleasableLockGuard)
    : M BasicLockable unit := release lock_ ;; mret tt.

(** A scope: the guard is made, released [n] times by hand, and destroyed. *)
Fixpoint release_times (n : nat) (lock_ : OptionalReleasableLockGuard)
    : M BasicLockable OptionalReleasableLockGuard :=
  match n with
  | O => mret lock_
  | S n => lock_ ← release lock_; release_times n lock_
  end.
Definition guarded_scope (lock : bool) (n : nat) : M BasicLockable unit :=
  guard ← OptionalReleasableLockGuard_new lock;
  guard ← release_times n guard;
  OptionalReleasableLockGuard_delete guard.

Lemma release_times_released n m : release_times n false m = Ok (false, m).
Proof. by induction n. Qed.

(** A guard locks and unlocks a mutex it was given exactly once, however often it is
    released by hand, and never touches one it was not given. *)
Lemma guarded_scope_balanced lock n m :
  held m = false →
  guarded_scope lock n m =
  Ok (tt, if lock then Mutex false (S (lock_calls m)) (S (unlock_calls m)) else m).
Proof.
  intros Hm. destruct m as [h l u]. cbn in Hm. subst h.
  unfold guarded_scope, OptionalReleasableLockGuard_new, OptionalReleasableLockGuard_delete.
  destruct lock.
  - etrans; [eapply bind_run; reflexivity|]. destruct n as [|n]; [done|].
    cbn [release_times]. rewrite bind_assoc. etrans; [eapply bind_run; reflexivity|].
    etrans; [eapply bind_run, release_times_released|]. done.
  - etrans; [eapply bind_run; reflexivity|].
    etrans; [eapply bind_run, release_times_released|]. done.
Qed.
