(* ===== verification/MainInterface.v ===== *)
(** * The C interface

    Models library/common/main_interface.{h,cc}: the global engine pointers, the
    stream handle counter, the preferred network, and the functions that find the
    engine and delegate to its dispatcher, its stats or the registry. An engine is the
    dispatcher of Dispatcher.v with the life cycle of Engine.v, and the second half of
    the file runs the two together under the calls of the platform. *)

From S2P Require Import Engine.
From S2P Require Export Dispatcher External.

(** The engine object: [http_dispatcher_], and its threads and pointers. *)
Record engine_object (HM B : Type) := EngineObject {
  http_dispatcher_ : state HM B;
  lifecycle : engine_state
}.
Arguments EngineObject {HM B} _ _.
Arguments http_dispatcher_ {HM B} _.
Arguments lifecycle {HM B} _.

(** The globals. [engine_] is a weak pointer to what [strong_engine_] owns, and locks
    exactly while that is not null. The dispatcher of an engine refers to
    [main_preferred_network_]. [c_mem] is the C memory while no engine has it, and
    [retired] the engines whose destructor has begun. *)
Record main_state (HM B A : Type) := Main {
  strong_engine_ : option (engine_object HM B);
  current_stream_handle_ : Z;
  main_preferred_network_ : envoy_network_t;
  registry_ : registry A;
  c_mem : mem;
  retired : list engine_state
}.
Arguments Main {HM B A} _ _ _ _ _ _.
Arguments strong_engine_ {HM B A} _.
Arguments current_stream_handle_ {HM B A} _.
Arguments main_preferred_network_ {HM B A} _.
Arguments registry_ {HM B A} _.
Arguments c_mem {HM B A} _.
Arguments retired {HM B A} _.

(** The calls of the platform. *)
Inductive main_call (A : Type) :=
| SendHeaders (stream : Z) (headers : envoy_headers) (end_stream : bool)
| SendData (stream : Z) (data : envoy_data) (end_stream : bool)
| SendMetadata (stream : Z) (metadata : envoy_headers)
| SendTrailers (stream : Z) (trailers : envoy_headers)
| ResetStream (stream : Z)
| SetPreferredNetwork (network : envoy_network_t)
| RecordCounter (elements : string) (count : Z)
| RecordGaugeSet (elements : string) (value : Z)
| RecordGaugeAdd (elements : string) (amount : Z)
| RecordGaugeSub (elements : string) (amount : Z)
| RegisterPlatformApi (name : string) (api : option A)
| RunEngine (callbacks : envoy_engine_callbacks)
| TerminateEngine.
Arguments SendHeaders {A} _ _ _.
Arguments SendData {A} _ _ _.
Arguments SendMetadata {A} _ _.
Arguments SendTrailers {A} _ _.
Arguments ResetStream {A} _.
Arguments SetPreferredNetwork {A} _.
Arguments RecordCounter {A} _ _.
Arguments RecordGaugeSet {A} _ _.
Arguments RecordGaugeAdd {A} _ _.
Arguments RecordGaugeSub {A} _ _.
Arguments RegisterPlatformApi {A} _ _.
Arguments RunEngine {A} _.
Arguments TerminateEngine {A}.

Section main.
Context {mode : BuildMode} `{Allocator} {HM : Type} `{!HeaderMap HM} `{!EnvoyCodec HM}
  {B : Type} `{!BufferInstance B} `{!EnvoyServer} {A : Type}.
Abbreviation S := (main_state HM B A).
Abbreviation engine := (engine_object HM B).

Definition set_strong_engine (e : option engine) (s : S) : S :=
  Main e (current_stream_handle_ s) (main_preferred_network_ s) (registry_ s) (c_mem s) (retired s).
Definition set_stream_handle (h : Z) (s : S) : S :=
  Main (strong_engine_ s) h (main_preferred_network_ s) (registry_ s) (c_mem s) (retired s).
Definition set_main_network (n : envoy_network_t) (s : S) : S :=
  Main (strong_engine_ s) (current_stream_handle_ s) n (registry_ s) (c_mem s) (retired s).
Definition set_registry (r : registry A) (s : S) : S :=
  Main (strong_engine_ s) (current_stream_handle_ s) (main_preferred_network_ s) r (c_mem s) (retired s).
Definition set_c_mem (m : mem) (s : S) : S :=
  Main (strong_engine_ s) (current_stream_handle_ s) (main_preferred_network_ s) (registry_ s) m (retired s).
Definition set_retired (l : list engine_state) (s : S) : S :=
  Main (strong_engine_ s) (current_stream_handle_ s) (main_preferred_network_ s) (registry_ s) (c_mem s) l.

Definition on_dispatcher {X} (m : M (state HM B) X) : M engine X := λ e,
  match m (http_dispatcher_ e) with
  | Ok (x, d) => Ok (x, EngineObject d (lifecycle e))
  | Fault f => Fault f
  end.
Definition on_lifecycle {X} (m : M engine_state X) : M engine X := λ e,
  match m (lifecycle e) with
  | Ok (x, l) => Ok (x, EngineObject (http_dispatcher_ e) l)
  | Fault f => Fault f
  end.

(** [if (auto e = engine_.lock()) { return ...; } return ENVOY_FAILURE;] *)
Definition with_engine (m : M engine envoy_status_t) : M S envoy_status_t := λ s,
  match strong_engine_ s with
  | Some e =>
      match m e with
      | Ok (status, e') => Ok (status, set_strong_engine (Some e') s)
      | Fault f => Fault f
      end
  | None => Ok (ENVOY_FAILURE, s)
  end.

(** A call of the dispatcher's API, on whatever thread the platform makes it. The event
    dispatcher a ready dispatcher posts to lives in [*main_common_]. *)
Definition from_platform (m : M (state HM B) envoy_status_t) : M engine envoy_status_t :=
  dangling ← gets (λ e, Dispatcher.event_dispatcher_ (http_dispatcher_ e)
                        && negb (main_common_ (lifecycle e)));
  (if (dangling : bool) then fail (Undefined "event_dispatcher_ is dangling") else mret tt) ;;
  on_dispatcher (modify (set_on_loop_thread false) ;; m).

(** *** Streams *)

(** [current_stream_handle_++] on an atomic intptr_t, which wraps around. *)
Definition init_stream : M S Z :=
  h ← gets current_stream_handle_;
  modify (set_stream_handle (s64 (h + 1))) ;;
  mret h.

Definition start_stream (stream : Z) (callbacks : envoy_http_callbacks) : M S envoy_status_t :=
  with_engine (from_platform (startStream stream callbacks)).
Definition send_headers (stream : Z) (headers : envoy_headers) (end_stream : bool)
    : M S envoy_status_t :=
  with_engine (from_platform (sendHeaders stream headers end_stream)).
Definition send_data (stream : Z) (data : envoy_data) (end_stream : bool) : M S envoy_status_t :=
  with_engine (from_platform (sendData stream data end_stream)).
Definition send_metadata (stream : Z) (metadata : envoy_headers) : M S envoy_status_t :=
  mret ENVOY_FAILURE.
Definition send_trailers (stream : Z) (trailers : envoy_headers) : M S envoy_status_t :=
  with_engine (from_platform (sendTrailers stream trailers)).
Definition reset_stream (stream : Z) : M S envoy_status_t :=
  with_engine (from_platform (cancelStream stream)).

(** *** The engine *)

Definition init_engine : Z := 1.

(** The atomic the dispatcher of the running engine refers to. *)
Definition set_preferred_network (network : envoy_network_t) : M S envoy_status_t :=
  modify (set_main_network network) ;;
  modify (λ s, set_strong_engine
    ((λ e, EngineObject (Dispatcher.set_preferred_network network (http_dispatcher_ e)) (lifecycle e))
       <$> strong_engine_ s) s) ;;
  mret ENVOY_SUCCESS.

Definition record_counter (elements : string) (count : Z) : M S envoy_status_t :=
  with_engine (on_lifecycle (recordCounterInc elements count)).
Definition record_gauge_set (elements : string) (value : Z) : M S envoy_status_t :=
  with_engine (on_lifecycle (recordGaugeSet elements value)).
Definition record_gauge_add (elements : string) (amount : Z) : M S envoy_status_t :=
  with_engine (on_lifecycle (recordGaugeAdd elements amount)).
Definition record_gauge_sub (elements : string) (amount : Z) : M S envoy_status_t :=
  with_engine (on_lifecycle (recordGaugeSub elements amount)).

Definition register_platform_api (name : string) (api : option A) : M S envoy_status_t := λ s,
  match registerApi name api (registry_ s) with
  | Ok (_, r) => Ok (ENVOY_SUCCESS, set_registry r s)
  | Fault f => Fault f
  end.

(** The last strong reference goes: the destructor begins. It returns once the engine
    thread has ended (EngineProps.v). *)
Definition drop_engine (e : engine) : M S unit := λ s,
  match perform DestructorBegin (lifecycle e) with
  | Ok (_, l) => Ok (tt, set_c_mem (st_mem (http_dispatcher_ e)) (set_retired (retired s ++ [l]) s))
  | Fault f => Fault f
  end.

Definition terminate_engine : M S unit :=
  e ← gets strong_engine_;
  modify (set_strong_engine None) ;;
  match e with Some e => drop_engine e | None => mret tt end.

Definition memory_now (s : S) : mem :=
  match strong_engine_ s with Some e => st_mem (http_dispatcher_ e) | None => c_mem s end.

(** The new engine is made before the old one, if any, is destroyed. *)
Definition run_engine (callbacks : envoy_engine_callbacks) : M S envoy_status_t :=
  old ← gets strong_engine_;
  m ← gets memory_now;
  network ← gets main_preferred_network_;
  modify (set_strong_engine (Some (EngineObject
    (Dispatcher.set_preferred_network network (init_state m)) (Engine_new callbacks)))) ;;
  match old with Some e => drop_engine e | None => mret tt end ;;
  mret ENVOY_SUCCESS.

Definition main_init (m : mem) : S := Main None 0 ENVOY_NET_GENERIC ∅ m [].

(** ** The interface in its environment *)

Definition exec_call (c : main_call A) : M S envoy_status_t :=
  match c with
  | SendHeaders h hs es => send_headers h hs es
  | SendData h d es => send_data h d es
  | SendMetadata h hs => send_metadata h hs
  | SendTrailers h hs => send_trailers h hs
  | ResetStream h => reset_stream h
  | SetPreferredNetwork n => set_preferred_network n
  | RecordCounter e n => record_counter e n
  | RecordGaugeSet e n => record_gauge_set e n
  | RecordGaugeAdd e n => record_gauge_add e n
  | RecordGaugeSub e n => record_gauge_sub e n
  | RegisterPlatformApi name api => register_platform_api name api
  | RunEngine callbacks => run_engine callbacks
  | TerminateEngine => terminate_engine ;; mret ENVOY_SUCCESS
  end.

(** A run of the program with the platform's own knowledge of its handles: those it
    got from init_stream and has not started, and those it started. *)
Record main_run := Run {
  globals : S;
  unstarted_handles : list Z;
  started_handles : list Z
}.

Inductive main_label :=
| MInitStream
| MStartStream (i : nat) (callbacks : envoy_http_callbacks)
| MCall (c : main_call A)
| MEngine (a : action)
| MRetired (i : nat) (a : action)
| MLoop (l : label HM B).

(** The actions of the engine thread. PostInit also tells the dispatcher. *)
Definition engine_thread_action (a : action) : bool :=
  match a with
  | EngineLock | EngineConstruct _ | EngineRegister | EnginePostInit | EngineRunPosted
  | EngineLoopReturns _ | EngineResetHandler | EngineResetScope | EngineResetMain
  | EngineOnExit => true
  | _ => false
  end.
Definition engine_action (scope : DispatcherStats) (a : action) : M engine unit :=
  on_lifecycle (perform a) ;;
  if a is EnginePostInit then on_dispatcher (exec_label (LReady scope)) else mret tt.

(** What the event loop of a running engine does to the dispatcher. *)
Definition loop_label (l : label HM B) : bool :=
  match l with LRun _ _ _ | LHcm _ | LClearDeferredDeleteList => true | _ => false end.

Definition ok {X St} (r : result (X * St)) : option St :=
  match r with Ok (_, s) => Some s | Fault _ => None end.

(** One step: [None] when it is not enabled or the code faults. Handles are counted up
    to the width of the counter; a handle is started at most once. *)
Definition main_exec (w : world) (scope : DispatcherStats) (l : main_label) (r : main_run)
    : option main_run :=
  let s := globals r in let u := unstarted_handles r in let d := started_handles r in
  match l with
  | MInitStream =>
      guard (Z.of_nat (length u + length d) < 2 ^ 64)%Z;;
      '(h, s) ← (match init_stream s with Ok p => Some p | Fault _ => None end);
      Some (Run s (h :: u) d)
  | MStartStream i callbacks =>
      h ← u !! i;
      s ← ok (start_stream h callbacks s);
      Some (Run s (delete i u) (h :: d))
  | MCall c => s ← ok (exec_call c s); Some (Run s u d)
  | MEngine a =>
      e ← strong_engine_ s;
      guard (engine_thread_action a ∧ enabled w a (lifecycle e));;
      e ← ok (engine_action scope a e);
      Some (Run (set_strong_engine (Some e) s) u d)
  | MRetired i a =>
      l ← retired s !! i;
      guard (enabled w a l);;
      l ← ok (perform a l);
      Some (Run (set_retired (<[i := l]> (retired s)) s) u d)
  | MLoop l =>
      e ← strong_engine_ s;
      guard (loop_label l ∧ main_thread_ (lifecycle e) = ELoop);;
      e ← ok (on_dispatcher (exec_label l) e);
      Some (Run (set_strong_engine (Some e) s) u d)
  end.

Fixpoint main_execs (w : world) (scope : DispatcherStats) (ls : list main_label) (r : main_run)
    : option main_run :=
  match ls with
  | [] => Some r
  | l :: ls => r ← main_exec w scope l r; main_execs w scope ls r
  end.

(** Every run of the process, from its start. *)
Definition main_reachable (w : world) (scope : DispatcherStats) (r : main_run) : Prop :=
  ∃ m ls, main_execs w scope ls (Run (main_init m) [] []) = Some r.
End main.
