(* ===== verification/MainInterfaceInv.v ===== *)
(** * The invariant of the C interface

    Every run of the interface projects to a run of the dispatcher model and to runs of
    the engine model, and the handles the platform starts are fresh for the dispatcher:
    what Dispatcher.v assumes of its environment, init_stream provides. *)

From S2P Require Import EngineInv.
From S2P Require Export MainInterface DispatcherOrder.

(** ** Handles *)

(** The first [n] handles init_stream returns. *)
Definition issued (n : nat) : list Z := s64 ∘ Z.of_nat <$> seq 0 n.

Lemma s64_succ z : s64 (s64 z + 1) = s64 (z + 1).
Proof.
  unfold s64, wrap_signed. f_equal.
  replace ((z + 2 ^ (64 - 1)) `mod` 2 ^ 64 - 2 ^ (64 - 1) + 1 + 2 ^ (64 - 1))%Z
    with ((z + 2 ^ (64 - 1)) `mod` 2 ^ 64 + 1)%Z by lia.
  rewrite Z.add_mod_idemp_l by lia. f_equal. lia.
Qed.

Lemma s64_inj a b :
  (0 ≤ a < 2 ^ 64)%Z → (0 ≤ b < 2 ^ 64)%Z → s64 a = s64 b → a = b.
Proof.
  unfold s64, wrap_signed. intros Ha Hb Heq.
  assert ((a + 2 ^ (64 - 1)) `mod` 2 ^ 64 = (b + 2 ^ (64 - 1)) `mod` 2 ^ 64)%Z as Hm by lia.
  pose proof (Z.div_mod (a + 2 ^ (64 - 1)) (2 ^ 64) ltac:(lia)).
  pose proof (Z.div_mod (b + 2 ^ (64 - 1)) (2 ^ 64) ltac:(lia)).
  nia.
Qed.

Lemma issued_succ n : issued (S n) = issued n ++ [s64 (Z.of_nat n)].
Proof. unfold issued. by rewrite seq_S, fmap_app. Qed.

Lemma issued_lookup n i : i < n → issued n !! i = Some (s64 (Z.of_nat i)).
Proof. intros Hi. unfold issued. rewrite list_lookup_fmap, lookup_seq_lt by done. done. Qed.

Lemma issued_NoDup n : (Z.of_nat n ≤ 2 ^ 64)%Z → NoDup (issued n).
Proof.
  intros Hn. apply NoDup_fmap_2_strong; [|apply NoDup_seq].
  intros x y Hx%elem_of_seq Hy%elem_of_seq Heq%s64_inj; lia.
Qed.

(** ** The queues of the dispatcher, in any order of the event loop *)

Section queues.
Context {mode : BuildMode} `{Allocator} {HM : Type} `{!HeaderMap HM} `{!EnvoyCodec HM}
  {B : Type} `{!BufferInstance B}.
Implicit Types (s : state HM B).

Lemma run_queue_perm n d during s s' :
  (Dispatcher.event_dispatcher_ s = false → loop_queue s = []) →
  exec_label (LRun n d during) s = Ok (tt, s') →
  ran (trace s') ++ pending s' ≡ₚ ran (trace s) ++ pending s.
Proof.
  intros Hempty He. cbn in He. apply bind_Ok in He as ([] & s1 & [= <-] & He).
  unfold run_posted in He. apply bind_Ok in He as (q & s2 & [= <- <-] & He). cbn in He.
  destruct (loop_queue s !! n) as [f|] eqn:Hf; [|by injection He as <-].
  assert (Hed : Dispatcher.event_dispatcher_ s = true).
  { destruct (Dispatcher.event_dispatcher_ s) eqn:E; [done|]. by rewrite (Hempty eq_refl) in Hf. }
  apply bind_Ok in He as ([] & s3 & [= <-] & He).
  apply bind_Ok in He as ([] & s4 & [= <-] & He).
  apply run_functor_queue in He as (Hr & Hd & _ & Hq). cbn in *.
  rewrite Hr. unfold pending. rewrite Hd, Hed, Hq.
  unfold ran. rewrite omap_app, <- app_assoc. cbn.
  by rewrite <- (delete_Permutation _ _ _ Hf).
Qed.

Lemma step_queue_perm scope s l s' :
  (Dispatcher.event_dispatcher_ s = false → loop_queue s = []) → step scope s l s' →
  ran (trace s') ++ pending s' ≡ₚ
    (if l is LApi f then [f] else []) ++ ran (trace s) ++ pending s.
Proof.
  intros Hempty Hst. pose proof (step_queue _ _ _ _ Hempty Hst) as [_ Hq _].
  destruct l as [f| |n d during| | |]; cbn; try by rewrite Hq.
  - rewrite Hq, app_assoc. by rewrite Permutation_app_comm.
  - eapply run_queue_perm; [done|]. by apply step_run_label in Hst.
Qed.

(** The handles a dispatcher knows of. *)
Definition known_handles s : list Z := used_handles s ++ start_handles (pending s).

Lemma known_handles_step scope s l s' :
  (Dispatcher.event_dispatcher_ s = false → loop_queue s = []) → step scope s l s' →
  known_handles s' ≡ₚ
    (if l is LApi f then start_handles [f] else []) ++ known_handles s.
Proof.
  intros Hempty Hst. apply step_queue_perm in Hst as Hq; [|done].
  unfold known_handles, used_handles, start_handles.
  rewrite <- !omap_app. etrans; [by apply omap_Permutation, Hq|].
  rewrite omap_app. by destruct l.
Qed.

Lemma reachable_queue scope ls s :
  reachable scope ls s → Dispatcher.event_dispatcher_ s = false → loop_queue s = [].
Proof. intros [m Hs]. by apply (steps_queue _ _ _ _ Hs). Qed.

Lemma reachable_snoc scope ls l s s' :
  reachable scope ls s → step scope s l s' → reachable scope (ls ++ [l]) s'.
Proof. intros [m Hs] Hst. exists m. by econstructor. Qed.
End queues.

(** ** The life cycle of the engine the globals own *)

Section lifecycle.
Context {mode : BuildMode} `{!EnvoyServer}.
Implicit Types (l : engine_state).

(** Nobody destroys it, no stat call is half way, and PostInit has run at most once. *)
Record attached l : Prop := {
  at_destructor_pc : destructor_ l = DNotStarted;
  at_inflight : inflight l = [];
  at_server : server_ l = true →
    postinit_callback_handler_ l = false ∧ unstarted (main_thread_ l) = false ∧
    main_thread_ l ≠ ERegister
}.

Lemma attached_new callbacks : attached (Engine_new callbacks).
Proof. by split. Qed.

Lemma attached_step w l a l' :
  attached l → engine_thread_action a = true → enabled w a l = true →
  perform a l = Ok (tt, l') →
  attached l' ∧ server_ l' = server_ l || (if a is EnginePostInit then true else false) ∧
  (a = EnginePostInit → server_ l = false ∧ main_thread_ l = ELoop).
Proof.
  intros [Hd Hi Hs] Ha He Hp.
  assert (wp (perform a) any_fault (λ _ l',
    attached l' ∧ server_ l' = server_ l || (if a is EnginePostInit then true else false) ∧
    (a = EnginePostInit → server_ l = false ∧ main_thread_ l = ELoop)) l) as Hwp;
    [|exact (wp_Ok _ _ _ _ _ _ Hwp Hp)].
  destruct l as [[] mx mc ed sv sc hd ex po inf ac pc de ev]. cbn in *. subst.
  destruct a; try done; enabled_facts He; try (destruct pc; try done); run_action;
    repeat (case_match; cbn); try done; simplify_eq;
    split_and?; try split; cbn; try (rewrite orb_false_r); try done;
    intros; settle; try done; destruct sv; naive_solver.
Qed.

Lemma engine_reachable_step w callbacks l a l' :
  engine_reachable w callbacks l → enabled w a l = true → perform a l = Ok (tt, l') →
  engine_reachable w callbacks l'.
Proof.
  intros [ls Hls] He Hp. exists (ls ++ [a]).
  induction Hls as [s|s b s1 ls s' Hst Hls IH].
  - econstructor; [by constructor|constructor].
  - cbn. econstructor; [done|by apply IH].
Qed.

(** A record call with nothing in between is its two halves. *)
Lemma record_reachable w callbacks l op st l' :
  engine_reachable w callbacks l → attached l → record op l = Ok (st, l') →
  engine_reachable w callbacks l' ∧ attached l' ∧ server_ l' = server_ l.
Proof.
  intros Hr [Hd Hi Hs] He.
  assert (enabled w (RecordCheck op) l = true) as Hen by (by apply bool_decide_eq_true).
  unfold record, can_record in He. apply bind_Ok in He as (b & l1 & [= <- <-] & He).
  destruct (server_ l && client_scope_ l) eqn:Hb.
  2:{ injection He as <- <-. done. }
  apply bind_Ok in He as ([] & l2 & Hp & [= <- <-]).
  set (l1 := set_inflight [op] l).
  assert (perform (RecordCheck op) l = Ok (tt, l1)) as H1.
  { destruct l as [cb mx mc ed sv sc hd ex po inf ac pc de ev]. cbn in Hb, Hi. subst inf.
    run_action. by rewrite Hb. }
  assert (perform (RecordPost 0) l1 = Ok (tt, l2)) as H2.
  { destruct l as [cb mx mc ed sv sc hd ex po inf ac pc de ev]. cbn in *. subst.
    revert Hp. run_action. by destruct mc. }
  assert (engine_reachable w callbacks l2) as Hr2.
  { apply (engine_reachable_step w callbacks l1 (RecordPost 0)); [|done|exact H2].
    eapply engine_reachable_step; [exact Hr|exact Hen|exact H1]. }
  split; [done|]. destruct l as [cb mx mc ed sv sc hd ex po inf ac pc de ev]. cbn in *. subst.
  revert Hp. run_action. destruct mc; [|done]. intros [= <-]. done.
Qed.
End lifecycle.

(** ** The invariant *)

Section main_inv.
Context {mode : BuildMode} `{Allocator} {HM : Type} `{!HeaderMap HM} `{!EnvoyCodec HM}
  {B : Type} `{!BufferInstance B} `{!EnvoyServer} {A : Type}
  (w : world) (scope : DispatcherStats) (C : envoy_engine_callbacks → Prop).
Implicit Types (s : main_state HM B A) (e : engine_object HM B) (r : @main_run HM B A)
  (u d : list Z).

(** [C] is what the platform ensures of the callbacks it runs an engine with. *)
Definition label_ok (l : @main_label HM B A) : Prop := match l with MCall (RunEngine cb) => C cb | _ => True end.

(** A life cycle that ran from its constructor. *)
Definition lived (x : engine_state) : Prop := ∃ callbacks, C callbacks ∧ engine_reachable w callbacks x.

Record engine_ok d e : Prop := {
  eo_dispatcher : ∃ ls, reachable scope ls (http_dispatcher_ e);
  eo_lived : lived (lifecycle e);
  eo_attached : attached (lifecycle e);
  eo_ready : Dispatcher.event_dispatcher_ (http_dispatcher_ e) = server_ (lifecycle e);
  eo_known : known_handles (http_dispatcher_ e) ⊆ d
}.

Record globals_ok d s : Prop := {
  go_engine e : strong_engine_ s = Some e → engine_ok d e;
  go_retired : Forall lived (retired s)
}.

Record main_inv r : Prop := {
  mi_globals : globals_ok (started_handles r) (globals r);
  mi_count : (Z.of_nat (length (unstarted_handles r) + length (started_handles r)) ≤ 2 ^ 64)%Z;
  mi_handle : current_stream_handle_ (globals r) =
    s64 (Z.of_nat (length (unstarted_handles r) + length (started_handles r)));
  mi_issued : unstarted_handles r ++ started_handles r ≡ₚ
    issued (length (unstarted_handles r) + length (started_handles r))
}.

Lemma main_inv_init m : main_inv (Run (main_init m) [] []).
Proof. split; [|done..]. by split. Qed.

Lemma main_inv_fresh r h : main_inv r → h ∈ unstarted_handles r → h ∉ started_handles r.
Proof.
  intros [_ Hn _ Hi] Hu Hd.
  assert (NoDup (unstarted_handles r ++ started_handles r)) as Hnd
    by (rewrite Hi; by apply issued_NoDup).
  apply NoDup_app in Hnd as (_ & Hnd & _). by apply (Hnd h).
Qed.

(** *** One engine *)

Lemma engine_ok_step d e l x :
  engine_ok d e → step scope (http_dispatcher_ e) l x →
  Dispatcher.event_dispatcher_ x = Dispatcher.event_dispatcher_ (http_dispatcher_ e) →
  (if l is LApi f then start_handles [f] else []) ⊆ d →
  engine_ok d (EngineObject x (lifecycle e)).
Proof.
  intros [[ls Hr] Hl Ha He Hk] Hst Hed Hf. split; cbn; [|done|done|by rewrite Hed|].
  - eexists. by eapply reachable_snoc.
  - apply known_handles_step in Hst; [|by eapply reachable_queue].
    intros h. rewrite Hst, elem_of_app. destruct l; set_solver.
Qed.

Lemma engine_ok_mono d d' e : d ⊆ d' → engine_ok d e → engine_ok d' e.
Proof. intros Hd []. split; [done..|set_solver]. Qed.

Lemma from_platform_Ok f e st e' :
  from_platform (api_call f) e = Ok (st, e') →
  ∃ x, exec_label (LApi f) (http_dispatcher_ e) = Ok (tt, x) ∧ e' = EngineObject x (lifecycle e).
Proof.
  unfold from_platform. intros Hr. apply bind_Ok in Hr as (b & e1 & [= <- <-] & Hr).
  apply bind_Ok in Hr as ([] & e1 & H1 & Hr). case_match; [done|]. injection H1 as <-.
  unfold on_dispatcher in Hr.
  destruct ((modify (set_on_loop_thread false) ;; api_call f) (http_dispatcher_ e))
    as [[y x]|] eqn:Hx; [|done].
  injection Hr as <- <-. exists x. split; [|done]. cbn in Hx |- *.
  unfold mbind, M_bind in Hx |- *. cbn in Hx |- *. by rewrite Hx.
Qed.

Lemma engine_ok_api d e f st e' :
  engine_ok d e → fresh_start f (http_dispatcher_ e) → start_handles [f] ⊆ d →
  from_platform (api_call f) e = Ok (st, e') → engine_ok d e'.
Proof.
  intros He Hf Hd (x & Hx & ->)%from_platform_Ok.
  assert (step scope (http_dispatcher_ e) (LApi f) x) as Hst by (by constructor).
  eapply engine_ok_step; [done..| |done].
  destruct He as [[ls Hr] _ _ _ _]. apply step_queue in Hst; [|by eapply reachable_queue].
  apply (qs_ed _ _ _ Hst).
Qed.

Lemma engine_ok_loop d e l x :
  engine_ok d e → loop_label l = true → exec_label l (http_dispatcher_ e) = Ok (tt, x) →
  engine_ok d (EngineObject x (lifecycle e)).
Proof.
  intros He Hl Hx. assert (step scope (http_dispatcher_ e) l x) as Hst
    by (destruct l; try done; by constructor).
  eapply engine_ok_step; [done..| |by destruct l; try done; set_solver].
  destruct He as [[ls Hr] _ _ _ _]. apply step_queue in Hst; [|by eapply reachable_queue].
  rewrite (qs_ed _ _ _ Hst). by destruct l.
Qed.

Lemma engine_ok_network d e n :
  engine_ok d e →
  engine_ok d (EngineObject (Dispatcher.set_preferred_network n (http_dispatcher_ e)) (lifecycle e)).
Proof.
  intros He. eapply (engine_ok_step _ _ (LSetPreferredNetwork n)); [done|by constructor|done|].
  set_solver.
Qed.

Lemma engine_ok_record d e op st x :
  engine_ok d e → record op (lifecycle e) = Ok (st, x) →
  engine_ok d (EngineObject (http_dispatcher_ e) x).
Proof.
  intros [Hr (cb & Hc & Hl) Ha He Hk] Hx.
  destruct (record_reachable _ _ _ _ _ _ Hl Ha Hx) as (? & ? & Hs).
  split; cbn; [done|by exists cb|done|by rewrite Hs|done].
Qed.

Lemma engine_ok_new d m n cb :
  C cb → engine_ok d (EngineObject (Dispatcher.set_preferred_network n (init_state m)) (Engine_new cb)).
Proof.
  intros Hc. apply (engine_ok_network d (EngineObject (init_state m) (Engine_new cb))).
  split; cbn.
  - exists [], m. constructor.
  - exists cb. split; [done|]. exists []. constructor.
  - apply attached_new.
  - done.
  - set_solver.
Qed.

Lemma engine_ok_action d e a e' :
  engine_ok d e → engine_thread_action a = true → enabled w a (lifecycle e) = true →
  engine_action scope a e = Ok (tt, e') → engine_ok d e'.
Proof.
  intros [[ls Hr] (cb & Hc & Hl) Ha He Hk] Hta Hen Hx.
  unfold engine_action in Hx. apply bind_Ok in Hx as ([] & e1 & H1 & Hx).
  unfold on_lifecycle in H1. destruct (perform a (lifecycle e)) as [[[] x]|] eqn:Hp; [|done].
  injection H1 as <-.
  destruct (attached_step _ _ _ _ Ha Hta Hen Hp) as (Hax & Hsx & Hpost).
  assert (lived x) as Hlx by (exists cb; split; [done|by eapply engine_reachable_step]).
  assert (Hother : a ≠ EnginePostInit → engine_ok d (EngineObject (http_dispatcher_ e) x)).
  { intros Hn. split; cbn; [by eexists|done|done| |done].
    rewrite Hsx, He. destruct a; try done; by rewrite orb_false_r. }
  destruct a; try (injection Hx as <-; by apply Hother).
  destruct (Hpost eq_refl) as [Hs _]. unfold on_dispatcher in Hx.
  destruct (exec_label _ _) as [[[] y]|] eqn:Hy in Hx; [|done]. injection Hx as <-. cbn in Hy |- *.
  assert (step scope (http_dispatcher_ e) (LReady scope) y) as Hst
    by (constructor; [by rewrite He|done]).
  pose proof (known_handles_step _ _ _ _ (reachable_queue _ _ _ Hr) Hst) as Hkn.
  split; cbn; [eexists; by eapply reachable_snoc|done|done| |].
  - rewrite Hsx, orb_true_r. apply step_queue in Hst; [|by eapply reachable_queue].
    apply (qs_ed _ _ _ Hst).
  - intros h. rewrite Hkn. cbn. apply Hk.
Qed.
(** *** The calls *)

Definition call_ok d s s' : Prop :=
  globals_ok d s' ∧ current_stream_handle_ s' = current_stream_handle_ s.

Lemma call_ok_refl d s : globals_ok d s → call_ok d s s.
Proof. by split. Qed.

Lemma with_engine_ok d s s' m st :
  globals_ok d s → with_engine m s = Ok (st, s') →
  (∀ e e', engine_ok d e → m e = Ok (st, e') → engine_ok d e') → call_ok d s s'.
Proof.
  intros Hg Hw Hm. pose proof Hg as [He Hr]. unfold with_engine in Hw.
  destruct (strong_engine_ s) as [e|] eqn:Hs; [|injection Hw as <- <-; by apply call_ok_refl].
  destruct (m e) as [[st' e']|] eqn:Hx; [|done]. injection Hw as <- <-.
  split; [|done]. split; [|done]. intros e1 [= <-]. eapply Hm; [by apply He|done].
Qed.

Lemma api_ok d s s' f st :
  globals_ok d s → (∀ e, strong_engine_ s = Some e → fresh_start f (http_dispatcher_ e)) →
  start_handles [f] ⊆ d →
  with_engine (from_platform (api_call f)) s = Ok (st, s') → call_ok d s s'.
Proof.
  intros Hg Hf Hd Hw. pose proof Hg as [He Hr]. unfold with_engine in Hw.
  destruct (strong_engine_ s) as [e|] eqn:Hs; [|injection Hw as <- <-; by apply call_ok_refl].
  destruct (from_platform _ e) as [[st' e']|] eqn:Hx; [|done]. injection Hw as <- <-.
  split; [|done]. split; [|done]. intros e1 [= <-]. eapply engine_ok_api; eauto.
Qed.

Lemma record_ok d s s' op st :
  globals_ok d s → with_engine (on_lifecycle (record op)) s = Ok (st, s') → call_ok d s s'.
Proof.
  intros Hg Hw. eapply with_engine_ok; [done..|]. intros e e' He Hx. unfold on_lifecycle in Hx.
  destruct (record op (lifecycle e)) as [[? x]|] eqn:Hy; [|done]. injection Hx as -> <-.
  by eapply engine_ok_record.
Qed.

Lemma drop_engine_ok d e s s' :
  engine_ok d e → globals_ok d s → drop_engine e s = Ok (tt, s') → call_ok d s s'.
Proof.
  intros [_ (cb & Hc & Hl) Ha _ _] [Hs Hr] Hd. unfold drop_engine in Hd.
  destruct (perform DestructorBegin (lifecycle e)) as [[[] x]|] eqn:Hp; [|done].
  injection Hd as <-. split; [|done]. split; [done|]. cbn.
  apply Forall_app. split; [done|]. apply Forall_singleton. exists cb. split; [done|].
  eapply engine_reachable_step; [done| |exact Hp].
  destruct Ha as [Hdp Hi _]. cbn. unfold at_destructor. by rewrite Hdp, Hi.
Qed.

Lemma set_preferred_network_ok d s s' n st :
  globals_ok d s → MainInterface.set_preferred_network n s = Ok (st, s') → call_ok d s s'.
Proof.
  intros [He Hr] [= _ <-]. split; [|done]. split; [|done]. cbn. intros e.
  destruct (strong_engine_ s) as [e0|] eqn:Hs; [|done]. intros [= <-].
  by apply engine_ok_network, He.
Qed.

Lemma terminate_ok d s s' :
  globals_ok d s → terminate_engine s = Ok (tt, s') → call_ok d s s'.
Proof.
  intros [He Hr] Ht. unfold terminate_engine in Ht. apply bind_Ok in Ht as (old & s1 & [= <- <-] & Ht).
  apply bind_Ok in Ht as ([] & s1 & [= <-] & Ht).
  assert (globals_ok d (set_strong_engine None s)) as Hg by (by split).
  destruct (strong_engine_ s) as [e|] eqn:Hs; [|by injection Ht as <-].
  apply (drop_engine_ok d e) in Ht; [done|by apply He|done].
Qed.

Lemma run_engine_ok d s s' cb st :
  C cb → globals_ok d s → run_engine cb s = Ok (st, s') → call_ok d s s'.
Proof.
  intros Hc [He Hr] Ht. unfold run_engine in Ht.
  do 3 (apply bind_Ok in Ht as (? & ? & [= <- <-] & Ht)).
  apply bind_Ok in Ht as ([] & s1 & [= <-] & Ht).
  apply bind_Ok in Ht as ([] & s2 & Hd & [= _ <-]).
  match type of Hd with _ ?s1 = _ => assert (globals_ok d s1) as Hg end.
  { split; [|done]. intros e [= <-]. by apply engine_ok_new. }
  destruct (strong_engine_ s) as [e|] eqn:Hs; [|by injection Hd as <-].
  apply (drop_engine_ok d e) in Hd; [done|by apply He|done].
Qed.

Lemma exec_call_ok d s s' c st :
  globals_ok d s → label_ok (MCall c) → exec_call c s = Ok (st, s') → call_ok d s s'.
Proof.
  intros Hg Hc Hx. destruct c; cbn in Hx.
  - eapply (api_ok _ _ _ (PostSendHeaders _ _ _)); [done|done|set_solver|done].
  - eapply (api_ok _ _ _ (PostSendData _ _ _)); [done|done|set_solver|done].
  - by injection Hx as <- <-.
  - eapply (api_ok _ _ _ (PostSendTrailers _ _)); [done|done|set_solver|done].
  - eapply (api_ok _ _ _ (PostCancelStream _)); [done|done|set_solver|done].
  - by eapply set_preferred_network_ok.
  - by eapply record_ok.
  - by eapply record_ok.
  - by eapply record_ok.
  - by eapply record_ok.
  - injection Hx as <- <-. split; [|done]. by destruct Hg.
  - by eapply run_engine_ok.
  - apply bind_Ok in Hx as ([] & s1 & Hx & [= _ <-]). by eapply terminate_ok.
Qed.
(** *** The steps *)

Lemma main_inv_started r i h s' cb st :
  main_inv r → unstarted_handles r !! i = Some h →
  start_stream h cb (globals r) = Ok (st, s') →
  main_inv (Run s' (delete i (unstarted_handles r)) (h :: started_handles r)).
Proof.
  intros HI Hi Hx. pose proof HI as [Hg Hn Hh Hp].
  assert (h ∉ started_handles r) as Hf
    by (eapply main_inv_fresh; [done|by eapply list_elem_of_lookup_2]).
  assert (call_ok (h :: started_handles r) (globals r) s') as [Hg' Hc'].
  { eapply (api_ok _ _ _ (PostStartStream h cb)); [| |set_solver|exact Hx].
    - destruct Hg as [He Hr]. split; [|done]. intros e Hs.
      eapply engine_ok_mono; [|by apply He]. set_solver.
    - intros e Hs Hk. apply Hf. destruct Hg as [He _]. by apply (eo_known _ _ (He e Hs)). }
  assert (length (delete i (unstarted_handles r)) + length (h :: started_handles r) =
    length (unstarted_handles r) + length (started_handles r)) as Hl.
  { pose proof (Permutation_length (delete_Permutation _ _ _ Hi)) as Hl. cbn in *. lia. }
  split; cbn [globals unstarted_handles started_handles]; rewrite ?Hl; [done..|by rewrite Hc'|].
  rewrite <- Hp, <- Permutation_middle.
  symmetry. apply (Permutation_app_tail (started_handles r) (delete_Permutation _ _ _ Hi)).
Qed.

Lemma main_inv_init_stream r h s' :
  main_inv r →
  (Z.of_nat (length (unstarted_handles r) + length (started_handles r)) < 2 ^ 64)%Z →
  init_stream (globals r) = Ok (h, s') →
  main_inv (Run s' (h :: unstarted_handles r) (started_handles r)).
Proof.
  intros [[He Hr] Hn Hh Hp] Hlt [= <- <-].
  split; cbn [globals unstarted_handles started_handles length Nat.add].
  - by split.
  - lia.
  - cbn. rewrite Hh, s64_succ. f_equal. lia.
  - rewrite issued_succ, <- Hp, Hh. cbn. by rewrite <- Permutation_cons_append.
Qed.

Lemma main_exec_inv r l r' :
  main_inv r → label_ok l → main_exec w scope l r = Some r' → main_inv r'.
Proof.
  intros HI Hl Hx. unfold main_exec in Hx.
  destruct l as [|i cb|c|a|i a|l].
  - apply bind_Some in Hx as (Hlt & _ & Hx).
    destruct (init_stream (globals r)) as [[h s']|] eqn:Hs; [|done]. injection Hx as <-.
    by eapply main_inv_init_stream.
  - apply bind_Some in Hx as (h & Hh & Hx). unfold ok in Hx.
    destruct (start_stream _ _ _) as [[st s']|] eqn:Hs; [|done]. injection Hx as <-.
    by eapply main_inv_started.
  - unfold ok in Hx. destruct (exec_call c (globals r)) as [[st s']|] eqn:Hs; [|done].
    injection Hx as <-. destruct HI as [Hg Hn Hh Hp].
    destruct (exec_call_ok _ _ _ _ _ Hg Hl Hs) as [Hg' Hc]. split; [done..|by cbn; rewrite Hc|done].
  - apply bind_Some in Hx as (e & He & Hx). apply bind_Some in Hx as ([Hta Hen] & _ & Hx).
    unfold ok in Hx. destruct (engine_action scope a e) as [[[] e']|] eqn:Hs; [|done].
    injection Hx as <-. destruct HI as [[Hg Hr] Hn Hh Hp]. split; [|done..]. split; [|done].
    intros e1 [= <-]. eapply engine_ok_action; [by apply Hg|by apply Is_true_true..|done].
  - apply bind_Some in Hx as (x & Hi & Hx). apply bind_Some in Hx as (Hen & _ & Hx).
    unfold ok in Hx. destruct (perform a x) as [[[] x']|] eqn:Hs; [|done].
    injection Hx as <-. destruct HI as [[Hg Hr] Hn Hh Hp]. split; [|done..]. split; [done|].
    apply Forall_insert; [done|]. destruct (Forall_lookup_1 _ _ _ _ Hr Hi) as (cb & Hc & Hl').
    exists cb. split; [done|]. by eapply engine_reachable_step; [|apply Is_true_true|].
  - apply bind_Some in Hx as (e & He & Hx). apply bind_Some in Hx as ([Hll Hpc] & _ & Hx).
    unfold ok, on_dispatcher in Hx.
    destruct (exec_label l (http_dispatcher_ e)) as [[[] x]|] eqn:Hs; [|done].
    injection Hx as <-. destruct HI as [[Hg Hr] Hn Hh Hp]. split; [|done..]. split; [|done].
    intros e1 [= <-]. eapply engine_ok_loop; [by apply Hg|by apply Is_true_true|done].
Qed.

Lemma main_execs_inv ls r r' :
  main_inv r → Forall label_ok ls → main_execs w scope ls r = Some r' → main_inv r'.
Proof.
  revert r. induction ls as [|l ls IH]; intros r HI Hls Hx; cbn in Hx; [by injection Hx as <-|].
  apply bind_Some in Hx as (r1 & Hx & Hr). inversion Hls; subst.
  eapply IH; [by eapply main_exec_inv|done|done].
Qed.
End main_inv.
