(* ===== verification/MainInterfaceProps.v ===== *)
(** * What the C interface promises

    The theorems about runs of the whole bridge through its C interface. *)

From S2P Require Import EngineInv EngineProps.
From S2P Require Export MainInterfaceInv DispatcherProps.

(** ** The components, composed *)

Section composition.
#[local] Existing Instance debug_build.
Context `{Allocator} {HM : Type} `{!HeaderMap HM} `{!EnvoyCodec HM}
  {B : Type} `{!BufferInstance B} `{!EnvoyServer} {A : Type}.
Implicit Types (r : @main_run HM B A).

Lemma any_label_ok (ls : list (@main_label HM B A)) : Forall (label_ok (λ _, True)) ls.
Proof. apply Forall_true. by intros [| |[]| | |]. Qed.

Lemma main_reachable_inv w scope r :
  main_reachable w scope r → main_inv w scope (λ _, True) r.
Proof.
  intros (m & ls & Hls). eapply main_execs_inv; [apply main_inv_init|apply any_label_ok|done].
Qed.

(** C7: Refinement: a run of the C interface is runs of its components. In every run
    that starts each handle init_stream returned at most once (2^64 of them at most),
    the dispatcher of the running engine is in a state the dispatcher model reaches,
    its engine and every engine being destroyed in states the engine model reaches,
    and the dispatcher is ready exactly when PostInit has run. So each stream started
    through the interface has the callbacks of the abstract stream: open exactly while
    the dispatcher has it. *)
Theorem interface_refines_components w scope r e :
  main_reachable w scope r → strong_engine_ (globals r) = Some e →
  (∃ ls, reachable scope ls (http_dispatcher_ e)) ∧
  Forall (λ x, ∃ callbacks, engine_reachable w callbacks x)
    (lifecycle e :: retired (globals r)) ∧
  Dispatcher.event_dispatcher_ (http_dispatcher_ e) = server_ (lifecycle e) ∧
  (∀ o, o < next_object (http_dispatcher_ e) →
    phase_of o (http_dispatcher_ e) = Some
      (if bool_decide (o ∈ (map_to_list (streams_ (http_dispatcher_ e))).*2) then Open else Closed)).
Proof.
  intros [[Hg Hr] _ _ _]%main_reachable_inv He. destruct (Hg e He) as [[ls Hd] (cb & _ & Hl) _ Hed _].
  split; [by exists ls|]. split_and!; [|done|].
  - constructor; [by exists cb|]. eapply Forall_impl; [exact Hr|]. intros x (cb' & _ & Hx). by exists cb'.
  - intros o Ho. by eapply reachable_phase.
Qed.
End composition.

Section any_build.
Context {mode : BuildMode} `{Allocator} {HM : Type} `{!HeaderMap HM} `{!EnvoyCodec HM}
  {B : Type} `{!BufferInstance B} `{!EnvoyServer} {A : Type}.
Implicit Types (s : main_state HM B A) (e : engine_object HM B) (r : @main_run HM B A).

(** ** No call goes wrong *)

(** The event dispatcher the dispatcher posts to exists, if it was set. *)
Definition usable e : Prop :=
  Dispatcher.event_dispatcher_ (http_dispatcher_ e) = true → main_common_ (lifecycle e) = true.

Lemma attached_main callbacks l :
  engine_inv callbacks l → attached l → server_ l = true → main_common_ l = true.
Proof.
  intros HI [Hd _ Hs] Hsv. destruct (Hs Hsv) as (_ & Hu & Hr). rewrite (einv_main _ _ HI).
  pose proof (einv_leaving _ _ HI) as Hlv. rewrite Hd in Hlv.
  destruct (main_thread_ l); try done; by specialize (Hlv eq_refl).
Qed.

(** The queues of a dispatcher the platform has called. *)
Definition queued (f : functor) (d : state HM B) : state HM B :=
  let d := set_on_loop_thread false d in
  if Dispatcher.event_dispatcher_ d then set_loop_queue (loop_queue d ++ [f]) d
  else set_init_queue (init_queue_ d ++ [f]) d.

Lemma from_platform_run f e :
  usable e → from_platform (api_call f) e =
    Ok (ENVOY_SUCCESS, EngineObject (queued f (http_dispatcher_ e)) (lifecycle e)).
Proof.
  unfold usable. destruct e as [[[] ? ? ? ? ? ? ? ? ? ? ? ?] l]; cbn; intros Hu.
  - unfold from_platform, mbind, M_bind, gets. cbn. rewrite (Hu eq_refl). by destruct f.
  - by destruct f.
Qed.

Lemma record_run op l :
  (server_ l = true → main_common_ l = true) →
  record op l = if server_ l && client_scope_ l
    then Ok (ENVOY_SUCCESS, set_accepted (accepted l ++ [op]) (Engine.set_posted (Engine.posted l ++ [op]) l))
    else Ok (ENVOY_FAILURE, l).
Proof.
  destruct l as [cb mx mc ed sv sc hd ex po inf ac pc de ev]. cbn. intros Hm.
  unfold record. run_action. destruct sv, sc; cbn; try done. by rewrite (Hm eq_refl).
Qed.

(** What the platform calls to have [f] posted. *)
Definition interface_call (f : functor) : M (main_state HM B A) envoy_status_t :=
  match f with
  | PostStartStream h cb => start_stream h cb
  | PostSendHeaders h hs es => send_headers h hs es
  | PostSendData h d es => send_data h d es
  | PostSendTrailers h hs => send_trailers h hs
  | PostCancelStream h => reset_stream h
  end.

Lemma interface_call_eq f : interface_call f = with_engine (from_platform (api_call f)).
Proof. by destruct f. Qed.

(** The calls that are about a stream or a stat. *)
Definition needs_engine (c : main_call A) : bool :=
  match c with
  | SetPreferredNetwork _ | RegisterPlatformApi _ _ | RunEngine _ | TerminateEngine => false
  | _ => true
  end.

(** The outcome of the calls. Without an engine (before run_engine, after
    terminate_engine) every call about a stream or a stat returns ENVOY_FAILURE and
    changes nothing. With one, a call about a stream returns ENVOY_SUCCESS and its only
    effect is that its functor is last in the queue of the dispatcher; a stat is posted
    with ENVOY_SUCCESS if the server has started and dropped with ENVOY_FAILURE if
    not; send_metadata always fails. *)
Theorem call_outcomes s f c :
  (strong_engine_ s = None →
    interface_call f s = Ok (ENVOY_FAILURE, s) ∧
    (needs_engine c = true → exec_call c s = Ok (ENVOY_FAILURE, s))) ∧
  (∀ e, strong_engine_ s = Some e → usable e →
    interface_call f s = Ok (ENVOY_SUCCESS,
      set_strong_engine (Some (EngineObject (queued f (http_dispatcher_ e)) (lifecycle e))) s)) ∧
  (∀ e elements count, strong_engine_ s = Some e →
    (server_ (lifecycle e) = true → main_common_ (lifecycle e) = true) →
    let op := CounterInc (sanitizeStatsName elements) count in
    record_counter elements count s =
      if server_ (lifecycle e) && client_scope_ (lifecycle e)
      then Ok (ENVOY_SUCCESS, set_strong_engine (Some (EngineObject (http_dispatcher_ e)
        (set_accepted (accepted (lifecycle e) ++ [op])
          (Engine.set_posted (Engine.posted (lifecycle e) ++ [op]) (lifecycle e))))) s)
      else Ok (ENVOY_FAILURE, s)) ∧
  (∀ h hs, send_metadata h hs s = Ok (ENVOY_FAILURE, s)).
Proof.
  split_and!; [| | |done].
  - intros Hs. split; [rewrite interface_call_eq; unfold with_engine; by rewrite Hs|].
    destruct c; try done; intros _; cbv - [strong_engine_]; by rewrite Hs.
  - intros e Hs Hu. rewrite interface_call_eq. unfold with_engine. rewrite Hs.
    by rewrite from_platform_run.
  - intros e elements count Hs Hm op. unfold record_counter, with_engine, on_lifecycle. rewrite Hs.
    unfold recordCounterInc. rewrite record_run by done.
    destruct (server_ _ && _); [done|]. by destruct e, s; cbn in *; subst.
Qed.

(** The running engine of an orderly run. *)
Lemma engine_fine scope s d e :
  api_listener_has_value = true →
  globals_ok orderly scope (λ cb, on_exit cb = true) d s → strong_engine_ s = Some e →
  usable e ∧ (server_ (lifecycle e) = true → main_common_ (lifecycle e) = true).
Proof.
  intros Hapi [Hg Hr] He. destruct (Hg e He) as [_ (cb & Hc & Hl) Ha Hed _].
  apply engine_inv_reachable in Hl; [|done..]. unfold usable. rewrite Hed.
  split; intros Hs; by eapply attached_main.
Qed.

Section calls_run.
Context (s : main_state HM B A)
  (He : ∀ e, strong_engine_ s = Some e →
    usable e ∧ (server_ (lifecycle e) = true → main_common_ (lifecycle e) = true)).

Lemma interface_call_runs f : ∃ st s', interface_call f s = Ok (st, s').
Proof.
  rewrite interface_call_eq. unfold with_engine. destruct (strong_engine_ s) as [e|]; [|by eauto].
  rewrite from_platform_run by (by apply He). by eauto.
Qed.

Lemma record_runs op : ∃ st s', with_engine (on_lifecycle (record op)) s = Ok (st, s').
Proof.
  unfold with_engine, on_lifecycle. destruct (strong_engine_ s) as [e|]; [|by eauto].
  rewrite record_run by (by apply He). destruct (_ && _); by eauto.
Qed.

Lemma exec_call_runs c : ∃ st s', exec_call c s = Ok (st, s').
Proof.
  destruct c; cbn; try by eauto.
  - apply (interface_call_runs (PostSendHeaders _ _ _)).
  - apply (interface_call_runs (PostSendData _ _ _)).
  - apply (interface_call_runs (PostSendTrailers _ _)).
  - apply (interface_call_runs (PostCancelStream _)).
  - apply record_runs.
  - apply record_runs.
  - apply record_runs.
  - apply record_runs.
  - unfold run_engine, mbind, M_bind, gets, modify. cbn. destruct (strong_engine_ s); cbn; by eauto.
  - unfold terminate_engine, mbind, M_bind, gets, modify. cbn.
    destruct (strong_engine_ s); cbn; by eauto.
Qed.
End calls_run.

(** C8: The interface is safe. If Envoy starts, runs until it is told to exit and has
    an API listener, and every engine is run with an on_exit callback, then at any time
    of any run of the process no call of the interface has undefined behaviour or
    throws: no dangling event dispatcher is posted to, whether the engine is starting,
    running, being replaced or gone. *)
Theorem interface_is_safe scope m ls r :
  api_listener_has_value = true → Forall (label_ok (λ cb, on_exit cb = true)) ls →
  main_execs orderly scope ls (Run (main_init m) [] []) = Some r →
  (∀ f, ∃ st s', interface_call f (globals r) = Ok (st, s')) ∧
  (∀ c, ∃ st s', exec_call c (globals r) = Ok (st, s')).
Proof.
  intros Hapi Hok Hls.
  assert (main_inv orderly scope (λ cb, on_exit cb = true) r) as HI
    by (eapply main_execs_inv; [apply main_inv_init|done|done]).
  assert (He := λ e, engine_fine scope (globals r) _ e Hapi (mi_globals _ _ _ _ HI)).
  split; [intros f; by apply interface_call_runs|intros c; by apply exec_call_runs].
Qed.
End any_build.

(** ** Stream handles *)

Section handles.
Context {HM B A : Type}.

(** [n] calls of init_stream in a row. *)
Fixpoint init_streams (n : nat) : M (main_state HM B A) (list Z) :=
  match n with
  | O => mret []
  | S n => hs ← init_streams n; h ← init_stream; mret (hs ++ [h])
  end.

Lemma init_streams_run n (m : mem) :
  init_streams n (main_init m) = Ok (issued n, set_stream_handle (s64 (Z.of_nat n)) (main_init m)).
Proof.
  induction n as [|n IH]; [done|]. cbn [init_streams]. rewrite (bind_run _ _ _ _ _ IH).
  rewrite issued_succ. unfold init_stream, set_stream_handle, main_init, mbind, M_bind, gets, modify, mret, M_ret.
  cbn -[s64 Z.of_nat]. by rewrite s64_succ, Nat2Z.inj_succ.
Qed.

Lemma s64_eq_iff a b : s64 a = s64 b ↔ (a `mod` 2 ^ 64 = b `mod` 2 ^ 64)%Z.
Proof.
  unfold s64, wrap_signed. split; intros Heq.
  - assert ((a + 2 ^ (64 - 1)) `mod` 2 ^ 64 = (b + 2 ^ (64 - 1)) `mod` 2 ^ 64)%Z as Hm by lia.
    replace a with (a + 2 ^ (64 - 1) - 2 ^ (64 - 1))%Z by lia.
    replace b with (b + 2 ^ (64 - 1) - 2 ^ (64 - 1))%Z by lia.
    by rewrite (Zminus_mod (a + _)), Hm, <- Zminus_mod.
  - by rewrite (Z.add_mod a), Heq, <- Z.add_mod.
Qed.

(** The handles of init_stream. Any number of calls returns as many handles, all
    in the range of a 64-bit intptr_t, counting up from 0 and wrapping around to the
    negative; two of them are equal exactly when their calls are a multiple of 2^64
    apart. *)
Theorem stream_handles_distinct n (m : mem) i j :
  i < n → j < n →
  ∃ hs s hi hj, init_streams n (main_init m) = Ok (hs, s) ∧ length hs = n ∧
    hs !! i = Some hi ∧ hs !! j = Some hj ∧
    (- 2 ^ 63 ≤ hi < 2 ^ 63)%Z ∧ (hi = Z.of_nat i ↔ (Z.of_nat i < 2 ^ 63)%Z) ∧
    (hi = hj ↔ (Z.of_nat i `mod` 2 ^ 64 = Z.of_nat j `mod` 2 ^ 64)%Z).
Proof.
  intros Hi Hj. eexists _, _, _, _. split; [apply init_streams_run|].
  split; [unfold issued; by rewrite length_fmap, length_seq|].
  split; [by apply issued_lookup|]. split; [by apply issued_lookup|].
  assert (- 2 ^ 63 ≤ s64 (Z.of_nat i) < 2 ^ 63)%Z as Hr.
  { unfold s64, wrap_signed. pose proof (Z.mod_pos_bound (Z.of_nat i + 2 ^ (64 - 1)) (2 ^ 64) ltac:(lia)). lia. }
  split_and!; [lia|lia| |apply s64_eq_iff]. split; [lia|]. intros Hlt.
  unfold s64, wrap_signed. rewrite Z.mod_small; lia.
Qed.
End handles.

Lemma stream_handles_distinct_witness :
  ∃ hs s hi hj, init_streams (HM := ref_map) (B := ref_buffer) (A := unit) 3 (main_init mem_empty) = Ok (hs, s) ∧
    length hs = 3 ∧ hs !! 1 = Some hi ∧ hs !! 2 = Some hj ∧
    (- 2 ^ 63 ≤ hi < 2 ^ 63)%Z ∧ (hi = 1%Z ↔ (1 < 2 ^ 63)%Z) ∧
    (hi = hj ↔ (1 `mod` 2 ^ 64 = 2 `mod` 2 ^ 64)%Z).
Proof. apply (stream_handles_distinct 3 mem_empty 1 2); lia. Defined.

(** ** A run of the process *)

#[local] Existing Instance ref_server.

(** A call before the engine exists; an engine that starts while a stream waits, answers
    it and is terminated. *)
Definition ref_engine_up : list (@main_label ref_map ref_buffer unit) :=
  [ MCall (ResetStream 7);
    MCall (RunEngine ref_callbacks);
    MInitStream;
    MStartStream 0 platform_callbacks;
    MCall (SetPreferredNetwork ENVOY_NET_WLAN);
    MEngine EngineLock; MEngine (EngineConstruct true); MEngine EngineRegister;
    MEngine EnginePostInit;
    MCall (RecordCounter "requests" 1);
    MLoop (LRun 0 7 []);
    MLoop (LHcm (HcmEncodeHeaders 0 response_ok true));
    MEngine EngineRunPosted ].

Definition ref_run (ls : list (@main_label ref_map ref_buffer unit)) :
    option (@main_run ref_map ref_buffer unit) :=
  main_execs (mode := debug_build) orderly no_stats ls
    (Run (main_init mem_empty) [] []).
Definition ref_run_end (ls : list (@main_label ref_map ref_buffer unit)) : main_run :=
  default (Run (main_init mem_empty) [] []) (ref_run ls).
Definition ref_engine_object : engine_object ref_map ref_buffer :=
  default (EngineObject (init_state mem_empty) (Engine_new ref_callbacks))
    (strong_engine_ (globals (ref_run_end ref_engine_up))).

Lemma interface_refines_components_witness :
  phase_of 0 (http_dispatcher_ ref_engine_object) = Some Closed ∧
  ∃ ls, reachable (mode := debug_build) no_stats ls (http_dispatcher_ ref_engine_object).
Proof.
  assert (H1 : main_reachable (mode := debug_build) orderly no_stats
    (ref_run_end ref_engine_up)) by (exists mem_empty, ref_engine_up; vm_compute; reflexivity).
  assert (H2 : strong_engine_ (globals (ref_run_end ref_engine_up)) = Some ref_engine_object)
    by (vm_compute; reflexivity).
  destruct (interface_refines_components orderly no_stats _ _ H1 H2)
    as (Hd & _ & _ & Hp).
  split; [|exact Hd]. refine (eq_trans (Hp 0 _) _); [vm_compute; lia|vm_compute; reflexivity].
Defined.

Lemma call_outcomes_witness :
  let s := globals (ref_run_end (ref_engine_up ++ [MCall TerminateEngine])) in
  let s0 := globals (ref_run_end ref_engine_up) in
  interface_call (PostCancelStream 3) s = Ok (ENVOY_FAILURE, s) ∧
  interface_call (PostCancelStream 3) s0 = Ok (ENVOY_SUCCESS, set_strong_engine (Some (EngineObject
    (queued (PostCancelStream 3) (http_dispatcher_ ref_engine_object)) (lifecycle ref_engine_object))) s0).
Proof.
  intros s s0.
  destruct (call_outcomes (mode := debug_build) s (PostCancelStream 3) (ResetStream 3)) as [H1 _].
  destruct (call_outcomes (mode := debug_build) s0 (PostCancelStream 3) (ResetStream 3))
    as (_ & H2 & _).
  assert (E1 : strong_engine_ s = None) by (vm_compute; reflexivity).
  assert (E2 : strong_engine_ s0 = Some ref_engine_object) by (vm_compute; reflexivity).
  assert (E3 : usable ref_engine_object) by (intros _; vm_compute; reflexivity).
  exact (conj (proj1 (H1 E1)) (H2 ref_engine_object E2 E3)).
Defined.

Lemma interface_is_safe_witness :
  let r := ref_run_end (ref_engine_up ++ [MCall TerminateEngine; MRetired 0 DestructorLock]) in
  ∃ st s', exec_call (mode := debug_build)
    (RunEngine ref_callbacks) (globals r) = Ok (st, s').
Proof.
  apply (interface_is_safe (mode := debug_build) no_stats mem_empty
    (ref_engine_up ++ [MCall TerminateEngine; MRetired 0 DestructorLock])).
  - reflexivity.
  - repeat constructor.
  - vm_compute. reflexivity.
Defined.
