(* ===== verification/Process.v ===== *)
(** * The process: the C interface and a platform over one memory

    A platform calls the C interface of MainInterface.v and has state of its own. Both
    work on the C memory, which is the running engine's dispatcher's when there is one. *)

From S2P Require Export MainInterface.

Section process.
Context {HM B A P : Type}.
Abbreviation S := (main_state HM B A).

(** The C memory, wherever the model of the interface keeps it. *)
Definition set_memory (c : mem) (s : S) : S :=
  match strong_engine_ s with
  | Some e => set_strong_engine
      (Some (EngineObject (set_st_mem c (http_dispatcher_ e)) (lifecycle e))) s
  | None => set_c_mem c s
  end.

(** What the platform does with its own state and the memory, and a call of the interface. *)
Definition on_native {X} (m : M (mem * P) X) : M (S * P) X := λ s,
  match m (memory_now s.1, s.2) with
  | Ok (a, (c, j)) => Ok (a, (set_memory c s.1, j))
  | Fault f => Fault f
  end.
Definition on_main {X} (m : M S X) : M (S * P) X := λ s,
  match m s.1 with
  | Ok (a, g) => Ok (a, (g, s.2))
  | Fault f => Fault f
  end.
End process.
