(* ===== verification/ProcessProps.v ===== *)
(** * Calls of a platform

    What the calls of a platform do to the process: its own steps change the memory and
    nothing else of the interface, and a stream call queues its functor on the running
    engine. *)

From S2P Require Import Engine EngineInv EngineProps.
From S2P Require Export Process MainInterfaceProps.

Section process.
Context {mode : BuildMode} `{Allocator} {HM : Type} `{!HeaderMap HM} `{!EnvoyCodec HM}
  {B : Type} `{!BufferInstance B} `{!EnvoyServer} {A P : Type}.
Abbreviation globals_t := (main_state HM B A).
Implicit Types (x : globals_t * P) (e : engine_object HM B).

Lemma memory_now_set c (s : globals_t) : memory_now (set_memory c s) = c.
Proof. unfold set_memory, memory_now. by destruct (strong_engine_ s) eqn:Hs; cbn; rewrite ?Hs. Qed.

Lemma set_memory_now (s : globals_t) : set_memory (memory_now s) s = s.
Proof.
  unfold set_memory, memory_now. destruct s as [[[d l]|] ? ? ? ? ?]; cbn; [|done].
  by destruct d.
Qed.

Lemma wp_on_native {X} (m : M (mem * P) X) E Q x :
  wp m E (λ a s', Q a (set_memory s'.1 x.1, s'.2)) (memory_now x.1, x.2) → wp (on_native m) E Q x.
Proof. unfold wp, on_native. by destruct (m _) as [[a [c j]]|]. Qed.

Lemma wp_on_main {X} (m : M globals_t X) E Q x :
  wp m E (λ a g, Q a (g, x.2)) x.1 → wp (on_main m) E Q x.
Proof. unfold wp, on_main. by destruct (m _) as [[]|]. Qed.

(** The engine the globals have, with another memory. *)
Definition with_memory (c : mem) e : engine_object HM B :=
  EngineObject (set_st_mem c (http_dispatcher_ e)) (lifecycle e).

Lemma strong_engine_memory c (s : globals_t) :
  strong_engine_ (set_memory c s) = with_memory c <$> strong_engine_ s.
Proof. unfold set_memory. by destruct (strong_engine_ s) eqn:Hs; cbn; rewrite ?Hs. Qed.

(** A stream call once its arguments are converted: the status, and the engine with the
    functor queued. *)
Definition stream_called (f : functor) (c : mem) (s : globals_t) (st : envoy_status_t) (s' : globals_t)
    : Prop :=
  match strong_engine_ s with
  | None => st = ENVOY_FAILURE ∧ s' = set_c_mem c s
  | Some e => st = ENVOY_SUCCESS ∧ s' = set_strong_engine (Some (EngineObject
      (queued f (set_st_mem c (http_dispatcher_ e))) (lifecycle e))) s
  end.

Lemma wp_interface_call f c (s : globals_t) :
  (∀ e, strong_engine_ s = Some e → usable e) →
  wp (interface_call f) no_fault (λ st s', stream_called f c s st s') (set_memory c s).
Proof.
  intros Hu. rewrite interface_call_eq. unfold wp, with_engine, stream_called.
  rewrite strong_engine_memory. unfold set_memory.
  destruct (strong_engine_ s) as [e|] eqn:Hs; cbn; [|done].
  rewrite from_platform_run; [done|]. exact (Hu e eq_refl).
Qed.

(** The memory after such a call is the one the arguments were left in. *)
Lemma stream_called_memory f c s st s' : stream_called f c s st s' → memory_now s' = c.
Proof.
  unfold stream_called, memory_now. destruct (strong_engine_ s) as [e|] eqn:He; intros [_ ->]; cbn.
  - unfold queued. cbn. by case_match.
  - by rewrite He.
Qed.
End process.
