(* ===== verification/Jni.v ===== *)
(** * The Java platform

    Models library/common/jni: jni_utility.cc, which converts between Java arrays and
    the C structs, jni_interface.cc, which implements the C callbacks and the platform
    filter by calls of Java methods and exports the C interface to Java, and
    android_jni_interface.cc. The Java virtual machine is a parameter: the operations of
    its native interface are the fields of [JNI], and their documented behaviour, for
    the uses the code makes of them, the laws of [JNILaws]. *)

From S2P Require Import Engine.
From S2P Require Export Process.

(** ** The native interface *)

(** A jvalue the code passes to a method. *)
Inductive java_value :=
| JObject (o : ptr)
| JBoolean (b : bool)
| JInt (n : Z)
| JLong (n : Z).

(** What Java sees of it at the time of the call. *)
Inductive java_argument :=
| ABytes (bs : list byte)
| AObject (o : ptr)
| ABoolean (b : bool)
| AInt (n : Z)
| ALong (n : Z).

(** A method call: on which global reference, the name and the signature. *)
Record java_call := JavaCall {
  call_receiver : positive;
  call_method : string * string;
  call_arguments : list java_argument
}.

(** A java.nio.ByteBuffer: direct, over native memory, or over an array. *)
Inductive java_buffer :=
| DirectBuffer (address : positive) (capacity : Z)
| ArrayBuffer (array : positive).

(** The objects native code looks into. *)
Inductive java_object :=
| ByteArray (bs : list byte)
| ObjectArray (os : list ptr)
| BoxedInteger (n : Z)
| ByteBuffer (b : java_buffer).

(** The part of a virtual machine that native code can tell: its objects by reference,
    the global references, the number of local references in each frame, innermost
    first, and the calls native code made. A local reference is its object's. *)
Record jvm_view := JvmView {
  java_objects : gmap positive java_object;
  global_refs : gset positive;
  local_frames : list nat;
  java_calls : list java_call
}.

Definition byte_array (v : jvm_view) (o : positive) : option (list byte) :=
  match java_objects v !! o with Some (ByteArray bs) => Some bs | _ => None end.
Definition object_array (v : jvm_view) (o : positive) : option (list ptr) :=
  match java_objects v !! o with Some (ObjectArray os) => Some os | _ => None end.
Definition boxed_integer (v : jvm_view) (o : positive) : option Z :=
  match java_objects v !! o with Some (BoxedInteger n) => Some n | _ => None end.
Definition byte_buffer (v : jvm_view) (o : positive) : option java_buffer :=
  match java_objects v !! o with Some (ByteBuffer b) => Some b | _ => None end.

Definition set_byte_array (a : positive) (bs : list byte) (v : jvm_view) : jvm_view :=
  JvmView (<[a := ByteArray bs]> (java_objects v)) (global_refs v) (local_frames v) (java_calls v).
Definition set_global_refs x (v : jvm_view) : jvm_view :=
  JvmView (java_objects v) x (local_frames v) (java_calls v).
Definition set_local_frames x (v : jvm_view) : jvm_view :=
  JvmView (java_objects v) (global_refs v) x (java_calls v).

Definition add_local (v : jvm_view) : jvm_view :=
  set_local_frames (match local_frames v with n :: f => S n :: f | [] => [] end) v.
Definition drop_local (v : jvm_view) : jvm_view :=
  set_local_frames (match local_frames v with n :: f => pred n :: f | [] => [] end) v.
Definition push_frame (v : jvm_view) : jvm_view := set_local_frames (0 :: local_frames v) v.
Definition pop_frame (v : jvm_view) : jvm_view := set_local_frames (tail (local_frames v)) v.

(** Java may do anything with its objects during a call, but not with the references
    native code holds. *)
Definition called (c : java_call) (v v' : jvm_view) : Prop :=
  global_refs v' = global_refs v ∧ local_frames v' = local_frames v ∧
  java_calls v' = java_calls v ++ [c].

Definition seen (v : jvm_view) (x : java_value) : java_argument :=
  match x with
  | JObject (Some o) => match byte_array v o with Some bs => ABytes bs | None => AObject (Some o) end
  | JObject None => AObject NULL
  | JBoolean b => ABoolean b
  | JInt n => AInt n
  | JLong n => ALong n
  end.

Definition JNI_OK : Z := 0.
Definition JNI_EDETACHED : Z := -2.

(** [copy_out] is GetPrimitiveArrayCritical, memcpy from it and
    ReleasePrimitiveArrayCritical; [copy_in] the same with memcpy to it. No other call is
    allowed in between. *)
Class JNI (J : Type) := {
  view : J → jvm_view;
  method_name : positive → string * string;
  GetEnv : M J Z;
  AttachCurrentThread : M J Z;
  DetachCurrentThread : M J Z;
  FindClass : string → M J ptr;
  GetObjectClass : ptr → M J ptr;
  GetMethodID : ptr → string → string → M J ptr;
  CallObjectMethod : ptr → ptr → list java_value → M J ptr;
  CallVoidMethod : ptr → ptr → list java_value → M J unit;
  CallIntMethod : ptr → ptr → list java_value → M J Z;
  NewGlobalRef : ptr → M J ptr;
  DeleteGlobalRef : ptr → M J unit;
  DeleteLocalRef : ptr → M J unit;
  PushLocalFrame : Z → M J Z;
  PopLocalFrame : M J unit;
  GetArrayLength : ptr → M J Z;
  GetObjectArrayElement : ptr → Z → M J ptr;
  NewByteArray : Z → M J ptr;
  copy_out : ptr → Z → M J (list byte);
  copy_in : ptr → list byte → M J unit;
  GetDirectBufferAddress : ptr → M J ptr;
  GetDirectBufferCapacity : ptr → M J Z;
  NewStringUTF : string → M J ptr;
  GetStringUTFChars : ptr → M J string
}.

(** Each law is about valid arguments; nothing is known of the others. *)
Class JNILaws (J : Type) `{!JNI J} : Prop := {
  jni_GetEnv j : wp GetEnv no_fault (λ r j', (r = JNI_OK ∨ r = JNI_EDETACHED) ∧ view j' = view j) j;
  jni_Attach j : wp AttachCurrentThread no_fault (λ r j', r = JNI_OK ∧ view j' = view j) j;
  jni_FindClass name j : 
    wp (FindClass name) no_fault (λ r j', (∃ c, r = Some c) ∧ view j' = add_local (view j)) j;
  jni_GetObjectClass o j :
    wp (GetObjectClass (Some o)) no_fault (λ r j',
      (∃ c, r = Some c) ∧ view j' = add_local (view j)) j;
  jni_GetMethodID c name sig j :
    wp (GetMethodID c name sig) no_fault (λ r j',
      (∃ id, r = Some id ∧ method_name id = (name, sig)) ∧ view j' = view j) j;
  (** A method of an object native code has a global reference to. *)
  jni_CallObjectMethod g id args j :
    g ∈ global_refs (view j) →
    wp (CallObjectMethod (Some g) (Some id) args) no_fault (λ r j',
      called (JavaCall g (method_name id) (seen (view j) <$> args))
        (if r is Some _ then add_local (view j) else view j) (view j')) j;
  jni_CallVoidMethod g id args j :
    g ∈ global_refs (view j) →
    wp (CallVoidMethod (Some g) (Some id) args) no_fault (λ _ j',
      called (JavaCall g (method_name id) (seen (view j) <$> args)) (view j) (view j')) j;
  (** Integer.intValue and ByteBuffer.array. *)
  jni_intValue o id n j :
    boxed_integer (view j) o = Some n → method_name id = ("intValue", "()I") →
    wp (CallIntMethod (Some o) (Some id) []) no_fault (λ r j', r = n ∧ view j' = view j) j;
  jni_array o id a j :
    o ∉ global_refs (view j) →
    byte_buffer (view j) o = Some (ArrayBuffer a) → method_name id = ("array", "()[B") →
    wp (CallObjectMethod (Some o) (Some id) []) no_fault (λ r j',
      r = Some a ∧ view j' = add_local (view j)) j;
  jni_NewGlobalRef o j :
    wp (NewGlobalRef (Some o)) no_fault (λ r j', ∃ g, r = Some g ∧ (g ∉ global_refs (view j)) ∧
      view j' = set_global_refs ({[g]} ∪ global_refs (view j)) (view j)) j;
  jni_DeleteGlobalRef g j :
    g ∈ global_refs (view j) →
    wp (DeleteGlobalRef (Some g)) no_fault (λ _ j',
      view j' = set_global_refs (global_refs (view j) ∖ {[g]}) (view j)) j;
  jni_DeleteLocalRef o j :
    wp (DeleteLocalRef (Some o)) no_fault (λ _ j', view j' = drop_local (view j)) j;
  jni_PushLocalFrame n j :
    (0 ≤ n)%Z → wp (PushLocalFrame n) no_fault (λ _ j', view j' = push_frame (view j)) j;
  jni_PopLocalFrame j : wp PopLocalFrame no_fault (λ _ j', view j' = pop_frame (view j)) j;
  jni_GetArrayLength_bytes a bs j :
    byte_array (view j) a = Some bs →
    wp (GetArrayLength (Some a)) no_fault (λ r j', r = Z.of_nat (length bs) ∧ view j' = view j) j;
  jni_GetArrayLength_objects a os j :
    object_array (view j) a = Some os →
    wp (GetArrayLength (Some a)) no_fault (λ r j', r = Z.of_nat (length os) ∧ view j' = view j) j;
  jni_GetObjectArrayElement a os i o j :
    object_array (view j) a = Some os → os !! i = Some (Some o) →
    wp (GetObjectArrayElement (Some a) (Z.of_nat i)) no_fault (λ r j',
      r = Some o ∧ view j' = add_local (view j)) j;
  jni_NewByteArray n j :
    (0 ≤ n ≤ INT_MAX)%Z →
    wp (NewByteArray n) no_fault (λ r j', ∃ a, r = Some a ∧ java_objects (view j) !! a = None ∧
      view j' = set_byte_array a (replicate (Z.to_nat n) x00) (add_local (view j))) j;
  jni_copy_out a bs n j :
    byte_array (view j) a = Some bs → n = Z.of_nat (length bs) →
    wp (copy_out (Some a) n) no_fault (λ r j', r = bs ∧ view j' = view j) j;
  jni_copy_in a old bs j :
    byte_array (view j) a = Some old → length bs ≤ length old →
    wp (copy_in (Some a) bs) no_fault (λ _ j', view j' =
      set_byte_array a (bs ++ drop (length bs) old) (view j)) j;
  jni_GetDirectBufferAddress o b j :
    byte_buffer (view j) o = Some b →
    wp (GetDirectBufferAddress (Some o)) no_fault (λ r j',
      r = (match b with DirectBuffer address _ => Some address | ArrayBuffer _ => NULL end) ∧
      view j' = view j) j;
  jni_GetDirectBufferCapacity o address n j :
    byte_buffer (view j) o = Some (DirectBuffer address n) →
    wp (GetDirectBufferCapacity (Some o)) no_fault (λ r j', r = n ∧ view j' = view j) j
}.

(** ** jni_utility.cc *)

(** [static_jvm] is not null; [local_env] of the current thread is not null. *)
Record jni_state (J : Type) := JniState {
  static_jvm : bool;
  local_env : bool;
  jvm : J
}.
Arguments JniState {J} _ _ _.
Arguments static_jvm {J} _.
Arguments local_env {J} _.
Arguments jvm {J} _.

Section jni.
Context {mode : BuildMode} `{Allocator} {J : Type} `{!JNI J}.

(** The native side runs over the C memory and the platform's state. *)
Abbreviation N := (M (mem * jni_state J)).

Definition java {A} (m : M J A) : N A := λ s,
  match m (jvm s.2) with
  | Ok (a, j) => Ok (a, (s.1, JniState (static_jvm s.2) (local_env s.2) j))
  | Fault f => Fault f
  end.
Definition native {A} (m : M mem A) : N A := λ s,
  match m s.1 with
  | Ok (a, c) => Ok (a, (c, s.2))
  | Fault f => Fault f
  end.

Definition set_vm : N unit :=
  modify (λ s, (s.1, JniState true (local_env s.2) (jvm s.2))).
Definition get_vm : N bool := gets (λ s, static_jvm s.2).
Definition set_local_env (b : bool) : N unit :=
  modify (λ s, (s.1, JniState (static_jvm s.2) b (jvm s.2))).

(** The environment pointer, null or not. *)
Definition get_env : N bool :=
  local ← gets (λ s, local_env s.2);
  if (local : bool) then mret true
  else
    vm ← get_vm;
    deref "static_jvm is null" (if (vm : bool) then Some tt else None) ;;
    result ← java GetEnv;
    set_local_env (bool_decide (result = JNI_OK)) ;;
    when (bool_decide (result = JNI_EDETACHED))
      (result ← java AttachCurrentThread; set_local_env (bool_decide (result = JNI_OK))) ;;
    gets (λ s, local_env s.2).

(** [JNIEnv* env = get_env();], about to be used. *)
Definition use_env : N unit :=
  env ← get_env; deref "env is null" (if (env : bool) then Some tt else None).

Definition jvm_detach_thread : N unit :=
  vm ← get_vm;
  deref "static_jvm is null" (if (vm : bool) then Some tt else None) ;;
  java DetachCurrentThread ;; mret tt.

Definition jni_delete_global_ref (context : ptr) : N unit :=
  use_env ;; java (DeleteGlobalRef context).
Definition jni_delete_const_global_ref (context : ptr) : N unit := jni_delete_global_ref context.

Definition unbox_integer (boxedInteger : ptr) : N Z :=
  jcls_Integer ← java (FindClass "java/lang/Integer");
  jmid_intValue ← java (GetMethodID jcls_Integer "intValue" "()I");
  java (CallIntMethod boxedInteger jmid_intValue []).

(** The lines that copy a byte array, here and twice in [to_native_headers]. *)
Definition array_to_native_data (j_data : ptr) : N envoy_data :=
  data_length ← java (GetArrayLength j_data);
  native_bytes ← native (safe_malloc data_length bytes_block);
  critical_data ← java (copy_out j_data data_length);
  native (write_bytes native_bytes critical_data) ;;
  mret (EnvoyData data_length native_bytes c_free_release native_bytes).

Definition buffer_to_native_data (j_data : ptr) : N envoy_data :=
  direct_address ← java (GetDirectBufferAddress j_data);
  if decide (direct_address = NULL) then
    jcls_ByteBuffer ← java (FindClass "java/nio/ByteBuffer");
    jmid_array ← java (GetMethodID jcls_ByteBuffer "array" "()[B");
    array ← java (CallObjectMethod j_data jmid_array []);
    array_to_native_data array
  else
    length ← java (GetDirectBufferCapacity j_data);
    context ← java (NewGlobalRef j_data);
    mret (EnvoyData (u64 length) direct_address jni_delete_global_ref_release context).

(** [for (i = 0; i < length; i += 2)] as a loop over [i / 2]. *)
Definition to_native_headers (headers : ptr) : N envoy_headers :=
  length ← java (GetArrayLength headers);
  header_array ← native (safe_malloc (u64 (SIZEOF_ENVOY_HEADER * u64 length) `div` 2) headers_block);
  for_range ((length + 1) `div` 2) (λ k _,
    let i := (2 * k)%Z in
    j_key ← java (GetObjectArrayElement headers i);
    header_key ← array_to_native_data j_key;
    j_value ← java (GetObjectArrayElement headers (i + 1));
    header_value ← array_to_native_data j_value;
    native (store_header header_array (i `div` 2) (EnvoyHeader header_key header_value))) tt ;;
  mret (EnvoyHeaders (length `div` 2) header_array).
(** ** jni_interface.cc, the callbacks *)

(** What native code passes on as a Java byte array; the length becomes a jsize. *)
Definition to_java_array (data : envoy_data) : N ptr :=
  array ← java (NewByteArray (s32 (data_length data)));
  bytes ← native (read_bytes (data_bytes data) (data_length data));
  java (copy_in array bytes) ;;
  mret array.

Definition pass_headers (headers : envoy_headers) (j_context : ptr) : N unit :=
  jcls_JvmCallbackContext ← java (GetObjectClass j_context);
  jmid_passHeader ← java (GetMethodID jcls_JvmCallbackContext "passHeader" "([B[BZ)V");
  when (bool_decide (INT_MAX < headers_length headers * 2)%Z) (fail (Undefined "signed overflow")) ;;
  java (PushLocalFrame (headers_length headers * 2)) ;;
  for_range (headers_length headers) (λ i start_headers,
    header ← native (load_header (headers_headers headers) i);
    key ← to_java_array (header_key header);
    value ← to_java_array (header_value header);
    java (CallVoidMethod j_context jmid_passHeader
      [JObject key; JObject value; JBoolean start_headers]) ;;
    mret false) true ;;
  java PopLocalFrame ;;
  java (DeleteLocalRef jcls_JvmCallbackContext) ;;
  native (release_envoy_headers headers).

Definition jvm_on_headers (method : string) (headers : envoy_headers) (end_stream : bool)
    (context : ptr) : N ptr :=
  use_env ;;
  pass_headers headers context ;;
  jcls_JvmCallbackContext ← java (GetObjectClass context);
  jmid_onHeaders ← java (GetMethodID jcls_JvmCallbackContext method "(JZ)Ljava/lang/Object;");
  result ← java (CallObjectMethod context jmid_onHeaders
    [JLong (headers_length headers); JBoolean end_stream]);
  java (DeleteLocalRef jcls_JvmCallbackContext) ;;
  mret result.

Definition jvm_on_response_headers (headers : envoy_headers) (end_stream : bool) (context : ptr) : N ptr :=
  jvm_on_headers "onResponseHeaders" headers end_stream context.

Definition jvm_on_data (method : string) (data : envoy_data) (end_stream : bool) (context : ptr) : N ptr :=
  use_env ;;
  jcls_JvmCallbackContext ← java (GetObjectClass context);
  jmid_onData ← java (GetMethodID jcls_JvmCallbackContext method "([BZ)Ljava/lang/Object;");
  j_data ← to_java_array data;
  result ← java (CallObjectMethod context jmid_onData [JObject j_data; JBoolean end_stream]);
  native (release_data data) ;;
  java (DeleteLocalRef j_data) ;;
  java (DeleteLocalRef jcls_JvmCallbackContext) ;;
  mret result.

Definition jvm_on_response_data (data : envoy_data) (end_stream : bool) (context : ptr) : N ptr :=
  jvm_on_data "onResponseData" data end_stream context.

Definition jvm_on_metadata (metadata : envoy_headers) (context : ptr) : N ptr := mret NULL.

Definition jvm_on_trailers (method : string) (trailers : envoy_headers) (context : ptr) : N ptr :=
  use_env ;;
  pass_headers trailers context ;;
  jcls_JvmCallbackContext ← java (GetObjectClass context);
  jmid_onTrailers ← java (GetMethodID jcls_JvmCallbackContext method "(J)Ljava/lang/Object;");
  result ← java (CallObjectMethod context jmid_onTrailers [JLong (headers_length trailers)]);
  java (DeleteLocalRef jcls_JvmCallbackContext) ;;
  mret result.

Definition jvm_on_response_trailers (trailers : envoy_headers) (context : ptr) : N ptr :=
  jvm_on_trailers "onResponseTrailers" trailers context.

Definition jvm_on_error (error : envoy_error) (context : ptr) : N ptr :=
  use_env ;;
  jcls_JvmObserverContext ← java (GetObjectClass context);
  jmid_onError ← java (GetMethodID jcls_JvmObserverContext "onError" "(I[BI)Ljava/lang/Object;");
  j_error_message ← to_java_array (CTypes.error_message error);
  result ← java (CallObjectMethod context jmid_onError
    [JInt (error_code_value (error_code error)); JObject j_error_message;
     JInt (error_attempt_count error)]);
  native (release_data (CTypes.error_message error)) ;;
  java (DeleteGlobalRef context) ;;
  java (DeleteLocalRef jcls_JvmObserverContext) ;;
  java (DeleteLocalRef j_error_message) ;;
  mret result.

Definition jvm_on_complete (context : ptr) : N ptr :=
  use_env ;; java (DeleteGlobalRef context) ;; mret NULL.

Definition jvm_on_cancel (context : ptr) : N ptr :=
  use_env ;;
  jcls_JvmObserverContext ← java (GetObjectClass context);
  jmid_onCancel ← java (GetMethodID jcls_JvmObserverContext "onCancel" "()Ljava/lang/Object;");
  result ← java (CallObjectMethod context jmid_onCancel []);
  java (DeleteGlobalRef context) ;;
  java (DeleteLocalRef jcls_JvmObserverContext) ;;
  mret result.

Definition jvm_on_engine_running (context : ptr) : N unit :=
  use_env ;;
  jcls_JvmonEngineRunningContext ← java (GetObjectClass context);
  jmid_onEngineRunning ← java (GetMethodID jcls_JvmonEngineRunningContext
    "invokeOnEngineRunning" "()Ljava/lang/Object;");
  java (CallObjectMethod context jmid_onEngineRunning []) ;;
  java (DeleteLocalRef jcls_JvmonEngineRunningContext) ;;
  java (DeleteGlobalRef context).

Definition jvm_on_exit : N unit := jvm_detach_thread.

(** ** jni_interface.cc, the platform filter *)

Definition jvm_http_filter_init (context : ptr) : N ptr :=
  use_env ;;
  jcls_JvmFilterFactoryContext ← java (GetObjectClass context);
  jmid_create ← java (GetMethodID jcls_JvmFilterFactoryContext "create"
    "()Lio/envoyproxy/envoymobile/engine/JvmFilterContext;");
  j_filter ← java (CallObjectMethod context jmid_create []);
  retained_filter ← java (NewGlobalRef j_filter);
  java (DeleteLocalRef jcls_JvmFilterFactoryContext) ;;
  java (DeleteLocalRef j_filter) ;;
  mret retained_filter.

(** The four functions for headers and trailers read the answer in the same way, and
    so do the two for data. *)
Definition headers_answer (result : ptr) : N (Z * envoy_headers) :=
  status ← java (GetObjectArrayElement result 0);
  j_headers ← java (GetObjectArrayElement result 1);
  unboxed_status ← unbox_integer status;
  native_headers ← to_native_headers j_headers;
  java (DeleteLocalRef result) ;;
  java (DeleteLocalRef status) ;;
  java (DeleteLocalRef j_headers) ;;
  mret (unboxed_status, native_headers).

Definition data_answer (result : ptr) : N (Z * envoy_data) :=
  status ← java (GetObjectArrayElement result 0);
  j_data ← java (GetObjectArrayElement result 1);
  unboxed_status ← unbox_integer status;
  native_data ← buffer_to_native_data j_data;
  java (DeleteLocalRef result) ;;
  java (DeleteLocalRef status) ;;
  java (DeleteLocalRef j_data) ;;
  mret (unboxed_status, native_data).

Definition jvm_http_filter_on_request_headers (headers : envoy_headers) (end_stream : bool)
    (context : ptr) : N envoy_filter_headers_status :=
  use_env ;;
  result ← jvm_on_headers "onRequestHeaders" headers end_stream context;
  answer ← headers_answer result;
  mret (FilterHeadersResult answer.1 answer.2).
Definition jvm_http_filter_on_response_headers (headers : envoy_headers) (end_stream : bool)
    (context : ptr) : N envoy_filter_headers_status :=
  use_env ;;
  result ← jvm_on_headers "onResponseHeaders" headers end_stream context;
  answer ← headers_answer result;
  mret (FilterHeadersResult answer.1 answer.2).

(** The initialiser leaves the other members of the struct null. *)
Definition jvm_http_filter_on_request_data (data : envoy_data) (end_stream : bool)
    (context : ptr) : N envoy_filter_data_status :=
  use_env ;;
  result ← jvm_on_data "onRequestData" data end_stream context;
  answer ← data_answer result;
  mret (FilterDataResult answer.1 answer.2 NULL).
Definition jvm_http_filter_on_response_data (data : envoy_data) (end_stream : bool)
    (context : ptr) : N envoy_filter_data_status :=
  use_env ;;
  result ← jvm_on_data "onResponseData" data end_stream context;
  answer ← data_answer result;
  mret (FilterDataResult answer.1 answer.2 NULL).

Definition jvm_http_filter_on_request_trailers (trailers : envoy_headers) (context : ptr)
    : N envoy_filter_trailers_status :=
  use_env ;;
  result ← jvm_on_trailers "onRequestTrailers" trailers context;
  answer ← headers_answer result;
  mret (FilterTrailersResult answer.1 answer.2 NULL NULL).
Definition jvm_http_filter_on_response_trailers (trailers : envoy_headers) (context : ptr)
    : N envoy_filter_trailers_status :=
  use_env ;;
  result ← jvm_on_trailers "onResponseTrailers" trailers context;
  answer ← headers_answer result;
  mret (FilterTrailersResult answer.1 answer.2 NULL NULL).

(** The assignments to the struct registerFilterFactory allocates; [api] is what the
    memory of malloc holds. *)
Definition jvm_http_filter (api : envoy_http_filter (jni_state J)) (retained_context : ptr)
    : envoy_http_filter (jni_state J) :=
  HttpFilter (Some jvm_http_filter_init)
    (Some jvm_http_filter_on_request_headers)
    (Some jvm_http_filter_on_request_data)
    (Some jvm_http_filter_on_request_trailers)
    (Some jvm_http_filter_on_response_headers)
    (Some jvm_http_filter_on_response_data)
    (Some jvm_http_filter_on_response_trailers)
    (set_request_callbacks api) (on_resume_request api)
    (set_response_callbacks api) (on_resume_response api)
    (Some jni_delete_const_global_ref)
    retained_context NULL.
End jni.

(** ** The functions Java calls *)

(** The identities of the static functions in the structs of callbacks. *)
Definition jvm_on_response_headers_f : positive := 1.
Definition jvm_on_response_data_f : positive := 2.
Definition jvm_on_metadata_f : positive := 3.
Definition jvm_on_response_trailers_f : positive := 4.
Definition jvm_on_error_f : positive := 5.
Definition jvm_on_complete_f : positive := 6.
Definition jvm_on_cancel_f : positive := 7.
Definition jvm_callbacks (retained_context : ptr) : envoy_http_callbacks :=
  EnvoyHttpCallbacks jvm_on_response_headers_f jvm_on_response_data_f jvm_on_metadata_f
    jvm_on_response_trailers_f jvm_on_error_f jvm_on_complete_f jvm_on_cancel_f retained_context.

Definition JNI_VERSION : Z := 65542. (* JNI_VERSION_1_6, 0x00010006 *)

Section exports.
Context {mode : BuildMode} `{Allocator} {HM : Type} `{!HeaderMap HM} `{!EnvoyCodec HM}
  {B : Type} `{!BufferInstance B} `{!EnvoyServer} {J : Type} `{!JNI J}.
Abbreviation globals_t := (main_state HM B (envoy_http_filter (jni_state J))).
(** The whole process: the globals of the C interface and the Java platform. *)
Abbreviation E := (M (globals_t * jni_state J)).

Definition on_java {A} (m : M J A) : E A := on_native (java m).

Definition JNI_OnLoad : E Z :=
  result ← on_java GetEnv;
  if decide (result = JNI_OK) then on_native set_vm ;; mret JNI_VERSION else mret (-1)%Z.

Definition Java_initEngine : E Z := mret init_engine.

Definition Java_runEngine (config log_level context : ptr) : E envoy_status_t :=
  retained_context ← on_java (NewGlobalRef context);
  on_java (GetStringUTFChars config) ;;
  on_java (GetStringUTFChars log_level) ;;
  on_main (run_engine (EngineCallbacks true true)).

(** The strings are constants of config_template.cc. *)
Definition Java_templateString (config_template : string) : E ptr :=
  on_java (NewStringUTF config_template).
Definition Java_filterTemplateString (platform_filter_template : string) : E ptr :=
  on_java (NewStringUTF platform_filter_template).

(** A jint converts to a uint64_t modulo 2^64. *)
Definition Java_recordCounter (elements : ptr) (count : Z) : E envoy_status_t :=
  elements ← on_java (GetStringUTFChars elements); on_main (record_counter elements (u64 count)).
Definition Java_recordGaugeSet (elements : ptr) (value : Z) : E envoy_status_t :=
  elements ← on_java (GetStringUTFChars elements); on_main (record_gauge_set elements (u64 value)).
Definition Java_recordGaugeAdd (elements : ptr) (amount : Z) : E envoy_status_t :=
  elements ← on_java (GetStringUTFChars elements); on_main (record_gauge_add elements (u64 amount)).
Definition Java_recordGaugeSub (elements : ptr) (amount : Z) : E envoy_status_t :=
  elements ← on_java (GetStringUTFChars elements); on_main (record_gauge_sub elements (u64 amount)).

Definition Java_initStream : E Z := on_main init_stream.

Definition Java_startStream (stream_handle : Z) (j_context : ptr) : E envoy_status_t :=
  jcls_JvmCallbackContext ← on_java (GetObjectClass j_context);
  retained_context ← on_java (NewGlobalRef j_context);
  result ← on_main (start_stream stream_handle (jvm_callbacks retained_context));
  when (bool_decide (result ≠ ENVOY_SUCCESS)) (on_java (DeleteGlobalRef retained_context)) ;;
  on_java (DeleteLocalRef jcls_JvmCallbackContext) ;;
  mret result.

(** Fourteen pointers. *)
Definition SIZEOF_ENVOY_HTTP_FILTER : Z := 112.

(** [malloced] is what the memory of the allocated struct holds. *)
Definition Java_registerFilterFactory (malloced : envoy_http_filter (jni_state J))
    (filter_name j_context : ptr) : E envoy_status_t :=
  jcls_JvmFilterFactoryContext ← on_java (GetObjectClass j_context);
  retained_context ← on_java (NewGlobalRef j_context);
  on_native (native (safe_malloc SIZEOF_ENVOY_HTTP_FILTER bytes_block)) ;;
  name ← on_java (GetStringUTFChars filter_name);
  on_main (register_platform_api name (Some (jvm_http_filter malloced retained_context))) ;;
  on_java (DeleteLocalRef jcls_JvmFilterFactoryContext) ;;
  mret ENVOY_SUCCESS.

Definition Java_sendData_buffer (stream_handle : Z) (data : ptr) (end_stream : bool) : E envoy_status_t :=
  data ← on_native (buffer_to_native_data data); on_main (send_data stream_handle data end_stream).
Definition Java_sendData_array (stream_handle : Z) (data : ptr) (end_stream : bool) : E envoy_status_t :=
  data ← on_native (array_to_native_data data); on_main (send_data stream_handle data end_stream).
Definition Java_sendHeaders (stream_handle : Z) (headers : ptr) (end_stream : bool) : E envoy_status_t :=
  headers ← on_native (to_native_headers headers);
  on_main (send_headers stream_handle headers end_stream).
Definition Java_sendTrailers (stream_handle : Z) (trailers : ptr) : E envoy_status_t :=
  trailers ← on_native (to_native_headers trailers); on_main (send_trailers stream_handle trailers).
Definition Java_resetStream (stream_handle : Z) : E envoy_status_t :=
  on_main (reset_stream stream_handle).

(** [static_cast<envoy_network_t>], of the values the enumeration names. *)
Definition network_of (network : Z) : option envoy_network_t :=
  if decide (network = 0)%Z then Some ENVOY_NET_GENERIC
  else if decide (network = 1)%Z then Some ENVOY_NET_WLAN
  else if decide (network = 2)%Z then Some ENVOY_NET_WWAN
  else None.
Definition Java_setPreferredNetwork (network : Z) : E envoy_status_t :=
  n ← deref "not a value of envoy_network_t" (network_of network);
  on_main (MainInterface.set_preferred_network n).
End exports.
