(* ===== verification/JniSpecs.v ===== *)
(** * What the Java platform does

    Specifications of the conversions, the callbacks and the filter functions of Jni.v,
    for any virtual machine that has the laws. *)

From S2P Require Export Jni.

(** ** Views of the virtual machine *)

Definition add_locals (n : nat) (v : jvm_view) : jvm_view :=
  set_local_frames (match local_frames v with k :: f => (n + k) :: f | [] => [] end) v.

Lemma add_locals_0 v : add_locals 0 v = v.
Proof. by destruct v as [?? [] ?]. Qed.
Lemma add_local_locals n v : add_local (add_locals n v) = add_locals (S n) v.
Proof. by destruct v as [?? [] ?]. Qed.
Lemma drop_local_locals n v : drop_local (add_locals (S n) v) = add_locals n v.
Proof. by destruct v as [?? [] ?]. Qed.
Lemma add_local_1 v : add_local v = add_locals 1 v.
Proof. by destruct v as [?? [] ?]. Qed.
Lemma add_locals_locals n k v : add_locals n (add_locals k v) = add_locals (n + k) v.
Proof. destruct v as [?? [|x f] ?]; [done|]. unfold add_locals. cbn. by rewrite Nat.add_assoc. Qed.

Lemma byte_array_set a bs v : byte_array (set_byte_array a bs v) a = Some bs.
Proof. unfold byte_array. cbn. by rewrite lookup_insert_eq. Qed.
Lemma set_byte_array_twice a bs bs' v :
  set_byte_array a bs (set_byte_array a bs' v) = set_byte_array a bs v.
Proof. unfold set_byte_array. cbn. by rewrite insert_insert_eq. Qed.

(** A byte array of Java, and a flattened array of keys and values. *)
Definition java_pair (v : jvm_view) (os : list ptr) (i : nat) (e : list byte * list byte) : Prop :=
  ∃ k w, os !! (2 * i) = Some (Some k) ∧ os !! (2 * i + 1) = Some (Some w) ∧
    byte_array v k = Some e.1 ∧ byte_array v w = Some e.2.
Definition java_headers (v : jvm_view) (a : positive) (es : list (list byte * list byte)) : Prop :=
  ∃ os, object_array v a = Some os ∧ length os = 2 * length es ∧
    ∀ i e, es !! i = Some e → java_pair v os i e.

(** The calls that hand headers to Java: the pairs in order, the first one marked. *)
Definition header_calls (g : positive) (es : list (list byte * list byte)) : list java_call :=
  imap (λ i e, JavaCall g ("passHeader", "([B[BZ)V")
    [ABytes e.1; ABytes e.2; ABoolean (bool_decide (i = 0))]) es.

Lemma header_calls_snoc g es k e :
  es !! k = Some e →
  header_calls g (take (S k) es) = header_calls g (take k es) ++
    [JavaCall g ("passHeader", "([B[BZ)V") [ABytes e.1; ABytes e.2; ABoolean (bool_decide (k = 0))]].
Proof.
  intros He. unfold header_calls. rewrite (take_S_r _ _ _ He), imap_app. f_equal. cbn.
  by rewrite length_take_le, Nat.add_0_r by (apply lookup_lt_Some in He; lia).
Qed.

Section jni_specs.
Context {mode : BuildMode} `{Allocator} {J : Type} `{!JNI J} `{!JNILaws J}.
Abbreviation N := (M (mem * jni_state J)).
Implicit Types (s : mem * jni_state J) (v : jvm_view) (j : J).

Definition jview s : jvm_view := view (jvm s.2).

Lemma wp_java {A} (m : M J A) E Q s :
  wp m E (λ a j, Q a (s.1, JniState (static_jvm s.2) (local_env s.2) j)) (jvm s.2) →
  wp (java m) E Q s.
Proof. unfold wp, java. by destruct (m (jvm s.2)) as [[]|]. Qed.

Lemma wp_native {A} (m : M mem A) E Q s :
  wp m E (λ a c, Q a (c, s.2)) s.1 → wp (native m) E Q s.
Proof. unfold wp, native. by destruct (m s.1) as [[]|]. Qed.

(** A call of the virtual machine with a law [L]: the memory stays as it is. *)
Lemma wp_java_law {A} (m : M J A) E (L : A → J → Prop) (Q : A → mem * jni_state J → Prop) s :
  wp m no_fault L (jvm s.2) →
  (∀ a s', s'.1 = s.1 → static_jvm s'.2 = static_jvm s.2 → L a (jvm s'.2) → Q a s') →
  wp (java m) E Q s.
Proof.
  intros Hm HQ. apply wp_java. eapply wp_mono; [exact Hm|done|]. intros a j Ha. by apply HQ.
Qed.

Definition ready_vm s : Prop := static_jvm s.2 = true.

Lemma wp_use_env E Q s :
  ready_vm s → (∀ s', s'.1 = s.1 → ready_vm s' → jview s' = jview s → Q tt s') → wp use_env E Q s.
Proof.
  intros Hvm HQ. unfold use_env, get_env. apply wp_bind.
  apply (wp_conseq _ _ (λ env s', env = true ∧ s'.1 = s.1 ∧ ready_vm s' ∧ jview s' = jview s));
    [|intros env s' (-> & ? & ? & ?); apply wp_ret; by apply HQ].
  wp_pures. destruct (local_env s.2) eqn:Hl; [by apply wp_ret|].
  unfold get_vm. wp_pures. unfold ready_vm in Hvm. rewrite Hvm. apply wp_ret. apply wp_bind.
  eapply wp_java_law; [apply jni_GetEnv|]. intros r s1 H1 Hv1 [Hr Hview].
  unfold set_local_env. wp_pures. apply wp_when.
  - intros _. wp_pures. eapply wp_java_law; [apply jni_Attach|]. intros r2 s2 H2 Hv2 [-> Hview2].
    wp_pures. cbn in *. unfold ready_vm, jview in *. cbn. split_and!; [done|congruence..].
  - intros Hd%bool_decide_eq_false. wp_pures. destruct Hr as [->|?]; [|done].
    cbn. unfold ready_vm, jview in *. cbn. split_and!; [done|congruence..].
Qed.
End jni_specs.

(** Step over a call of the virtual machine by its law. *)
Ltac jni_step law a s H1 H2 Hv :=
  apply wp_bind; eapply wp_java_law; [eapply law|]; cbn [fst snd]; intros a s H1 H2 Hv.

Section conversions.
Context {mode : BuildMode} `{Allocator} {J : Type} `{!JNI J} `{!JNILaws J}.
Abbreviation N := (M (mem * jni_state J)).
Implicit Types (s : mem * jni_state J) (v : jvm_view) (j : J).

(** ** From Java to C *)

Lemma wp_array_to_native_data a bs s Q :
  byte_array (jview s) a = Some bs →
  (∀ d s', reads_data (heap s'.1) d bs → self_contained d → grows (data_owned d) s.1 s'.1 →
    static_jvm s'.2 = static_jvm s.2 → jview s' = jview s → Q d s') →
  wp (array_to_native_data (Some a)) oom Q s.
Proof.
  intros Ha HQ. unfold array_to_native_data, jview in *.
  apply wp_bind. eapply wp_java_law; [by apply jni_GetArrayLength_bytes|].
  intros n s1 M1 S1 [-> V1]. apply wp_bind, wp_native.
  assert (Hout : ∀ c, wp (java (copy_out (Some a) (Z.of_nat (length bs)))) no_fault
    (λ r s', r = bs ∧ s'.1 = c ∧ static_jvm s'.2 = static_jvm s.2 ∧ view (jvm s'.2) = view (jvm s.2))
    (c, s1.2)).
  { intros c. eapply wp_java_law; [apply jni_copy_out; [cbn; by rewrite V1|done]|].
    intros r s2 M2 S2 [-> V2]. cbn in *. split_and!; [done..|congruence|congruence]. }
  apply wp_safe_malloc.
  - intros Hn. assert (bs = []) as -> by (destruct bs; [done|cbn in Hn; lia]).
    apply wp_bind. eapply wp_mono; [apply Hout|done|]. intros r s2 (-> & M2 & S2 & V2).
    apply wp_bind, wp_native, wp_ret, wp_ret. apply HQ; cbn; try congruence.
    + split; [done|by left].
    + done.
    + rewrite M2, M1. apply grows_refl.
  - apply wp_bind. eapply wp_mono; [apply Hout|done|]. intros r s2 (-> & M2 & S2 & V2).
    apply wp_bind, wp_native. rewrite M2.
    eapply wp_mono; [apply write_bytes_fresh|done|].
    { right. exists (next_loc s1.1). split; [done|]. cbn. by rewrite lookup_insert_eq. }
    intros [] c [Hr Hc]. apply wp_ret. apply HQ; cbn; try congruence; [by split|done|].
    rewrite <- M1. destruct Hc as [->|(l & [= <-] & ->)].
    + apply grows_alloc.
    + apply grows_update; [apply grows_alloc|set_solver].
Qed.

Lemma size_of_pairs n :
  (0 ≤ 2 * n ≤ INT_MAX)%Z →
  (u64 (SIZEOF_ENVOY_HEADER * u64 (2 * n)) `div` 2)%Z = header_array_size n.
Proof.
  unfold header_array_size, SIZEOF_ENVOY_HEADER, INT_MAX. intros Hn.
  rewrite (u64_small (2 * n)), (u64_small n), !u64_small by lia.
  by replace (64 * (2 * n))%Z with (64 * n * 2)%Z by lia; rewrite Z.div_mul.
Qed.

Lemma wp_to_native_headers a es s Q :
  mem_wf s.1 → (Z.of_nat (2 * length es) ≤ INT_MAX)%Z → java_headers (jview s) a es →
  (∀ eh hs s', reads_headers (heap s'.1) eh hs es → Forall header_contained hs →
    grows (headers_owned eh hs) s.1 s'.1 → headers_length eh = Z.of_nat (length es) →
    static_jvm s'.2 = static_jvm s.2 → jview s' = add_locals (2 * length es) (jview s) →
    Q eh s') →
  wp (to_native_headers (Some a)) oom Q s.
Proof.
  intros Hwf Hmax (os & Ha & Hlen & Hpairs) HQ. unfold to_native_headers, jview in *.
  apply wp_bind. eapply wp_java_law; [by apply jni_GetArrayLength_objects|].
  intros n s1 M1 S1 [-> V1]. rewrite Hlen.
  replace (Z.of_nat (2 * length es)) with (2 * Z.of_nat (length es))%Z by lia.
  rewrite size_of_pairs by lia. apply wp_bind, wp_native. rewrite M1.
  apply wp_start_fill; [done|lia|]. intros p c0 F0.
  set (s2 := (c0, s1.2)). apply wp_bind.
  replace ((2 * Z.of_nat (length es) + 1) `div` 2)%Z with (Z.of_nat (length es)) by (Z.to_euclidean_division_equations; lia).
  replace ((2 * Z.of_nat (length es)) `div` 2)%Z with (Z.of_nat (length es)) by (Z.to_euclidean_division_equations; lia).
  unfold for_range. rewrite Nat2Z.id.
  apply (wp_fold_upto (λ k _ s', ∃ hs, length hs = k ∧ filling s.1 p es hs s'.1 ∧
    static_jvm s'.2 = static_jvm s.2 ∧ view (jvm s'.2) = add_locals (2 * k) (view (jvm s.2)))).
  - exists []. split_and!; [done|exact F0|exact S1|by rewrite add_locals_0].
  - intros k [] s3 Hk (hs & Hhs & F3 & S3 & V3). rewrite Z.add_0_l.
    destruct (lookup_lt_is_Some_2 es k Hk) as [e He].
    destruct (Hpairs k e He) as (kk & w & Hkk & Hw & Bk & Bw).
    assert (Hos : object_array (view (jvm s3.2)) a = Some os) by (by rewrite V3).
    apply wp_bind. replace (2 * Z.of_nat k)%Z with (Z.of_nat (2 * k)) by lia.
    eapply wp_java_law; [by eapply jni_GetObjectArrayElement|]. intros r s4 M4 S4 [-> V4].
    apply wp_bind. apply (wp_array_to_native_data _ e.1); [by unfold jview; rewrite V4, V3|].
    intros key s5 R5 X5 G5 S5 V5. unfold jview in V5.
    apply wp_bind. replace (Z.of_nat (2 * k) + 1)%Z with (Z.of_nat (2 * k + 1)) by lia.
    eapply wp_java_law; [eapply jni_GetObjectArrayElement; [by rewrite V5, V4|done]|].
    intros r s6 M6 S6 [-> V6].
    apply wp_bind. apply (wp_array_to_native_data _ e.2);
      [by unfold jview; rewrite V6, V5, V4, V3|].
    intros value s7 R7 X7 G7 S7 V7. unfold jview in V7. apply wp_native.
    replace (Z.of_nat (2 * k) `div` 2)%Z with (Z.of_nat (length hs)) by (Z.to_euclidean_division_equations; lia).
    rewrite M4 in G5. rewrite M6 in G7.
    eapply wp_mono; [eapply filling_store; [exact Hwf|exact F3|by rewrite Hhs|exact G5|exact R5
      |exact G7|exact R7|done|done]|done|].
    intros u c F7. exists (hs ++ [EnvoyHeader key value]). cbn [fst snd]. split_and!; [|exact F7|congruence|].
    + rewrite length_app, Hhs. cbn. lia.
    + rewrite V7, V6, V5, V4, V3, !add_local_locals. f_equal. lia.
  - intros [] s3 (hs & Hhs & F3 & S3 & V3). apply wp_ret.
    destruct (filling_done _ _ _ _ _ Hhs F3) as (R & X & G). by eapply HQ.
Qed.

(** The class and the method id a callback looks up first. *)
Lemma wp_class_and_method {A} o name sig (k : ptr → ptr → N A) E Q s :
  (∀ c id s', s'.1 = s.1 → static_jvm s'.2 = static_jvm s.2 → jview s' = add_local (jview s) →
    method_name id = (name, sig) → wp (k (Some c) (Some id)) E Q s') →
  wp (c ← java (GetObjectClass (Some o)); id ← java (GetMethodID c name sig); k c id) E Q s.
Proof.
  intros HQ. unfold jview in *.
  apply wp_bind. eapply wp_java_law; [apply jni_GetObjectClass|]. intros r s1 M1 S1 ((c & ->) & V1).
  apply wp_bind. eapply wp_java_law; [apply jni_GetMethodID|]. intros r s2 M2 S2 ((id & -> & Hid) & V2).
  apply HQ; [congruence..|done].
Qed.

(** ** From C to Java *)

Lemma wp_to_java_array d bs s Q :
  reads_data (heap s.1) d bs → (data_length d ≤ INT_MAX)%Z →
  (∀ a s', s'.1 = s.1 → static_jvm s'.2 = static_jvm s.2 → java_objects (jview s) !! a = None →
    jview s' = set_byte_array a bs (add_local (jview s)) →
    Q (Some a) s') →
  wp (to_java_array d) no_fault Q s.
Proof.
  intros [Hlen Hr] Hmax HQ. unfold to_java_array, jview in *.
  rewrite s32_small by (unfold INT_MAX in Hmax; lia).
  apply wp_bind. eapply wp_java_law; [apply jni_NewByteArray; lia|].
  intros r s1 M1 S1 (a & -> & Hfresh & V1).
  apply wp_bind, wp_native. rewrite M1. eapply wp_run; [by apply read_bytes_run|].
  apply wp_bind. eapply wp_java_law.
  { eapply jni_copy_in; cbn; [rewrite V1; apply byte_array_set|].
    rewrite length_replicate. lia. }
  intros [] s2 M2 S2 V2. apply wp_ret. cbn in *. apply HQ; [congruence..|].
  rewrite V2, V1, set_byte_array_twice.
  rewrite drop_ge by (rewrite length_replicate; lia). by rewrite app_nil_r.
Qed.

(** What a run left behind on the Java side: the global references [refs], [n] more
    local ones, and some calls. *)
Record jvm_moved (refs : gset positive) (n : nat) (calls : list java_call) s s' : Prop := {
  jm_static : static_jvm s'.2 = static_jvm s.2;
  jm_refs : global_refs (jview s') = refs;
  jm_frames : local_frames (jview s') = local_frames (add_locals n (jview s));
  jm_calls : java_calls (jview s') = java_calls (jview s) ++ calls
}.

Abbreviation jvm_kept n calls s s' := (jvm_moved (global_refs (jview s)) n calls s s').

(** Headers whose names and values fit a Java array, few enough for a local frame. *)
Definition fits_java (es : list (list byte * list byte)) : Prop :=
  (Z.of_nat (2 * length es) ≤ INT_MAX)%Z ∧
  Forall (λ e, (Z.of_nat (length e.1) ≤ INT_MAX)%Z ∧ (Z.of_nat (length e.2) ≤ INT_MAX)%Z) es.

Lemma fits_java_lookup es k e :
  fits_java es → es !! k = Some e →
  (Z.of_nat (length e.1) ≤ INT_MAX)%Z ∧ (Z.of_nat (length e.2) ≤ INT_MAX)%Z.
Proof. intros [_ Hf] He. exact (Forall_lookup_1 _ _ _ _ Hf He). Qed.

(** The state of the loop of pass_headers after [k] pairs. *)
Record passing (frames : list nat) (g : positive) es k (start : bool) s s' : Prop := {
  ps_start : start = bool_decide (k = 0);
  ps_mem : s'.1 = s.1;
  ps_static : static_jvm s'.2 = static_jvm s.2;
  ps_refs : global_refs (jview s') = global_refs (jview s);
  ps_frames : local_frames (jview s') = (2 * k) :: frames;
  ps_calls : java_calls (jview s') = java_calls (jview s) ++ header_calls g (take k es)
}.

Lemma wp_pass_one frames eh hs es g id k start s s' :
  reads_headers (heap s.1) eh hs es → fits_java es → g ∈ global_refs (jview s) →
  method_name id = ("passHeader", "([B[BZ)V") → k < length es →
  passing frames g es k start s s' →
  wp (header ← native (load_header (headers_headers eh) (Z.of_nat k));
      key ← to_java_array (header_key header);
      value ← to_java_array (header_value header);
      java (CallVoidMethod (Some g) (Some id) [JObject key; JObject value; JBoolean start]) ;;
      mret false) no_fault (λ start' s'', passing frames g es (S k) start' s s'') s'.
Proof.
  intros (Hlen & Harr & Hitems) Hfit Hg Hid Hk [Pst Pm Psv Pr Pf Pc].
  destruct (lookup_lt_is_Some_2 es k Hk) as [e He].
  destruct (Forall2_lookup_r _ _ _ _ _ Hitems He) as (hd & Hhd & [Rk Rv]).
  destruct (fits_java_lookup _ _ _ Hfit He) as [Mk Mv].
  apply wp_bind, wp_native. rewrite Pm. eapply wp_run; [by eapply load_header_run|].
  apply wp_bind. apply (wp_to_java_array _ e.1); [done|by destruct Rk as [-> _]|].
  intros a1 s1 M1 S1 F1 V1. cbn in M1, S1, F1.
  apply wp_bind. apply (wp_to_java_array _ e.2); [by rewrite M1|by destruct Rv as [-> _]|].
  intros a2 s2 M2 S2 F2 V2. unfold jview in *. cbn in V1.
  apply wp_bind. eapply wp_java_law.
  { apply jni_CallVoidMethod. rewrite V2, V1. cbn. by rewrite Pr. }
  intros [] s3 M3 S3 (R3 & L3 & C3). apply wp_ret.
  assert (Hne : a1 ≠ a2).
  { intros ->. rewrite V1 in F2. cbn in F2. by rewrite lookup_insert_eq in F2. }
  split; unfold jview; [done|congruence|congruence| | |].
  - rewrite R3, V2, V1. cbn. exact Pr.
  - rewrite L3, V2, V1. cbn. rewrite Pf. cbn. f_equal. lia.
  - rewrite C3, V2, V1. cbn. rewrite Pc, (header_calls_snoc _ _ _ _ He), <- app_assoc, Hid, Pst.
    unfold byte_array. cbn. rewrite lookup_insert_ne, !lookup_insert_eq by done. done.
Qed.

Lemma wp_pass_headers eh hs es g s Q :
  headers_ok s.1 eh hs es → fits_java es → g ∈ global_refs (jview s) →
  (∀ s', s'.1 = mem_release (headers_owned eh hs) (headers_external hs) s.1 →
    jvm_kept 0 (header_calls g es) s s' → Q tt s') →
  wp (pass_headers eh (Some g)) no_fault Q s.
Proof.
  intros [Hreads Hown] Hfit Hg HQ. pose proof Hreads as (Hlen & Harr & Hitems).
  pose proof (Forall2_length _ _ _ Hitems) as Hl. pose proof Hfit as [Hmax _].
  unfold pass_headers. apply wp_class_and_method. intros c id s2 M2 S2 V2 Hid.
  apply wp_bind, wp_when; [intros Hbig%bool_decide_eq_true; lia|intros _].
  apply wp_bind. eapply wp_java_law; [apply jni_PushLocalFrame; lia|].
  intros r s3 M3 S3 V3. apply wp_bind. rewrite Hlen, Hl. unfold for_range. rewrite Nat2Z.id.
  apply (wp_fold_upto (λ k start s',
    passing (local_frames (add_local (view (jvm s.2)))) g es k start s s')).
  - split; unfold jview; [done|congruence|congruence|..]; rewrite V3; unfold jview in V2; rewrite V2; cbn; [done|done|].
    by rewrite app_nil_r.
  - intros k start s' Hk Hp. rewrite Z.add_0_l. by eapply wp_pass_one.
  - intros start s' [_ Pm Psv Pr Pf Pc]. unfold jview in *.
    apply wp_bind. eapply wp_java_law; [apply jni_PopLocalFrame|]. intros [] s4 M4 S4 V4.
    apply wp_bind. eapply wp_java_law; [apply jni_DeleteLocalRef|]. intros [] s5 M5 S5 V5.
    apply wp_native.
    assert (Hm : s5.1 = s.1) by congruence. rewrite Hm.
    eapply wp_run; [apply release_envoy_headers_run; [done|done|exact Hown]|].
    apply HQ; [done|]. split; unfold jview; cbn; [congruence|..]; rewrite V5, V4; cbn.
    + exact Pr.
    + rewrite Pf. cbn. by destruct (local_frames (view (jvm s.2))).
    + rewrite Pc, firstn_all. done.
Qed.
End conversions.

Abbreviation jvm_kept n calls s s' := (jvm_moved (global_refs (jview s)) n calls s s').

(** ** The callbacks *)

Section callbacks.
Context {mode : BuildMode} `{Allocator} {J : Type} `{!JNI J} `{!JNILaws J}.
Abbreviation N := (M (mem * jni_state J)).
Implicit Types (s : mem * jni_state J) (v : jvm_view) (j : J).

Lemma moved_refl s s' : static_jvm s'.2 = static_jvm s.2 → jview s' = jview s → jvm_kept 0 [] s s'.
Proof. intros ? Hv. split; rewrite ?Hv; [done|done|by rewrite add_locals_0|by rewrite app_nil_r]. Qed.

Section step.
Context (R : gset positive) (n : nat) (c : list java_call) (s s1 s2 : mem * jni_state J).
Context (Hs : static_jvm s2.2 = static_jvm s1.2).

Lemma moved_add : jvm_moved R n c s s1 → jview s2 = add_local (jview s1) → jvm_moved R (S n) c s s2.
Proof.
  intros [A B C D] Hv. split; [congruence|rewrite Hv; exact B| |rewrite Hv; exact D].
  rewrite Hv. cbn. rewrite C. cbn. by destruct (local_frames (jview s)).
Qed.

Lemma moved_array a bs :
  jvm_moved R n c s s1 → jview s2 = set_byte_array a bs (add_local (jview s1)) →
  jvm_moved R (S n) c s s2.
Proof.
  intros [A B C D] Hv. split; [congruence|rewrite Hv; exact B| |rewrite Hv; exact D].
  rewrite Hv. cbn. rewrite C. cbn. by destruct (local_frames (jview s)).
Qed.

Lemma moved_drop :
  jvm_moved R (S n) c s s1 → jview s2 = drop_local (jview s1) → jvm_moved R n c s s2.
Proof.
  intros [A B C D] Hv. split; [congruence|rewrite Hv; exact B| |rewrite Hv; exact D].
  rewrite Hv. cbn. rewrite C. cbn. by destruct (local_frames (jview s)).
Qed.

Lemma moved_same : jvm_moved R n c s s1 → jview s2 = jview s1 → jvm_moved R n c s s2.
Proof. intros [A B C D] Hv. split; rewrite ?Hv; [congruence|done..]. Qed.

Lemma moved_delete g :
  jvm_moved R n c s s1 →
  jview s2 = set_global_refs (global_refs (jview s1) ∖ {[g]}) (jview s1) →
  jvm_moved (R ∖ {[g]}) n c s s2.
Proof. intros [A B C D] Hv. split; rewrite ?Hv; cbn; [congruence|by rewrite B|done..]. Qed.

Lemma moved_new g :
  jvm_moved R n c s s1 →
  jview s2 = set_global_refs ({[g]} ∪ global_refs (jview s1)) (jview s1) →
  jvm_moved ({[g]} ∪ R) n c s s2.
Proof. intros [A B C D] Hv. split; rewrite ?Hv; cbn; [congruence|by rewrite B|done..]. Qed.

Lemma moved_call call (r : ptr) :
  jvm_moved R n c s s1 →
  called call (if r is Some _ then add_local (jview s1) else jview s1) (jview s2) →
  jvm_moved R (if r is Some _ then S n else n) (c ++ [call]) s s2.
Proof.
  intros [A B C D] (K1 & L & K).
  split; [congruence|rewrite K1; by destruct r| |rewrite K, app_assoc, <- D; by destruct r].
  rewrite L. destruct r; cbn; rewrite C; [|done]. cbn. by destruct (local_frames (jview s)).
Qed.

Lemma moved_trans n2 c2 R2 :
  jvm_moved R n c s s1 → jvm_moved R2 n2 c2 s1 s2 → jvm_moved R2 (n2 + n) (c ++ c2) s s2.
Proof.
  intros [A B C D] [A' B' C' D']. split; [congruence..| |by rewrite D', D, app_assoc].
  rewrite C'. cbn. rewrite C. cbn. destruct (local_frames (jview s)); [done|].
  by rewrite Nat.add_assoc.
Qed.
End step.

Lemma moved_valid n c s s' g : jvm_kept n c s s' → g ∈ global_refs (jview s) → g ∈ global_refs (jview s').
Proof. intros [_ -> _ _]. done. Qed.

Definition result_locals (r : ptr) : nat := if r is Some _ then 1 else 0.

(** What the Java object behind [g] ensures of the results of a method, whatever the
    local references. *)
Record java_ensures (g : positive) (method sig : string) (P : ptr → jvm_view → Prop) : Prop := {
  ensures_call id args j :
    g ∈ global_refs (view j) → method_name id = (method, sig) →
    wp (CallObjectMethod (Some g) (Some id) args) no_fault (λ r j', P r (view j')) j;
  ensures_locals r v f : P r v → P r (set_local_frames f v)
}.

Lemma ensures_nothing g method sig : java_ensures g method sig (λ _ _, True).
Proof.
  split; [|done]. intros id args j Hg _.
  eapply wp_conseq; [by apply jni_CallObjectMethod|done].
Qed.

(** Headers and trailers: the pairs, then the callback with their number. *)
Lemma wp_jvm_on_headers P method eh hs es end_stream g s Q :
  java_ensures g method "(JZ)Ljava/lang/Object;" P →
  ready_vm s → headers_ok s.1 eh hs es → fits_java es → g ∈ global_refs (jview s) →
  (∀ r s', s'.1 = mem_release (headers_owned eh hs) (headers_external hs) s.1 →
    jvm_kept (result_locals r) (header_calls g es ++
      [JavaCall g (method, "(JZ)Ljava/lang/Object;") [ALong (headers_length eh); ABoolean end_stream]]) s s' →
    P r (jview s') → Q r s') →
  wp (jvm_on_headers method eh end_stream (Some g)) no_fault Q s.
Proof.
  intros HP Hvm Hok Hfit Hg HQ. unfold jvm_on_headers.
  apply wp_bind, wp_use_env; [done|]. intros s0 M0 Hvm0 V0.
  apply wp_bind. eapply wp_pass_headers; [by rewrite M0|done|by rewrite V0|]. intros s1 M1 J1.
  assert (Jm : jvm_kept 0 (header_calls g es) s s1).
  { rewrite <- V0. apply (moved_trans (global_refs (jview s)) 0 [] s s0 s1 0 (header_calls g es)); [apply moved_refl; [by rewrite Hvm0|exact V0]|exact J1]. }
  pose proof (moved_valid _ _ _ _ _ Jm Hg) as Hg1. unfold jview in *.
  apply wp_class_and_method. intros c id s3 M3 S3 V3 Hid. unfold jview in V3.
  apply wp_bind. eapply wp_java_law; 
    [by apply wp_and; [apply jni_CallObjectMethod; rewrite V3|apply (ensures_call _ _ _ _ HP); [rewrite V3|]]|].
  intros r s4 M4 S4 [C4 P4].
  apply wp_bind. eapply wp_java_law; [apply jni_DeleteLocalRef|]. intros [] s5 M5 S5 V5.
  apply wp_ret. apply HQ; [by rewrite M5, M4, M3, M1, M0| |rewrite V5; by apply HP].
  assert (J3 := moved_add _ _ _ _ _ _ S3 Jm V3).
  assert (J4 := moved_call _ _ _ _ _ _ S4 _ r J3 C4). rewrite Hid in J4.
  destruct r; by eapply moved_drop.
Qed.

Lemma wp_jvm_on_trailers P method eh hs es g s Q :
  java_ensures g method "(J)Ljava/lang/Object;" P →
  ready_vm s → headers_ok s.1 eh hs es → fits_java es → g ∈ global_refs (jview s) →
  (∀ r s', s'.1 = mem_release (headers_owned eh hs) (headers_external hs) s.1 →
    jvm_kept (result_locals r) (header_calls g es ++
      [JavaCall g (method, "(J)Ljava/lang/Object;") [ALong (headers_length eh)]]) s s' →
    P r (jview s') → Q r s') →
  wp (jvm_on_trailers method eh (Some g)) no_fault Q s.
Proof.
  intros HP Hvm Hok Hfit Hg HQ. unfold jvm_on_trailers.
  apply wp_bind, wp_use_env; [done|]. intros s0 M0 Hvm0 V0.
  apply wp_bind. eapply wp_pass_headers; [by rewrite M0|done|by rewrite V0|]. intros s1 M1 J1.
  assert (Jm : jvm_kept 0 (header_calls g es) s s1).
  { rewrite <- V0. apply (moved_trans (global_refs (jview s)) 0 [] s s0 s1 0 (header_calls g es));
      [apply moved_refl; [by rewrite Hvm0|exact V0]|exact J1]. }
  pose proof (moved_valid _ _ _ _ _ Jm Hg) as Hg1. unfold jview in *.
  apply wp_class_and_method. intros c id s3 M3 S3 V3 Hid. unfold jview in V3.
  apply wp_bind. eapply wp_java_law; 
    [by apply wp_and; [apply jni_CallObjectMethod; rewrite V3|apply (ensures_call _ _ _ _ HP); [rewrite V3|]]|].
  intros r s4 M4 S4 [C4 P4].
  apply wp_bind. eapply wp_java_law; [apply jni_DeleteLocalRef|]. intros [] s5 M5 S5 V5.
  apply wp_ret. apply HQ; [by rewrite M5, M4, M3, M1, M0| |rewrite V5; by apply HP].
  assert (J3 := moved_add _ _ _ _ _ _ S3 Jm V3).
  assert (J4 := moved_call _ _ _ _ _ _ S4 _ r J3 C4). rewrite Hid in J4.
  destruct r; by eapply moved_drop.
Qed.

(** Data: handed over as an array, and released. *)
Lemma wp_jvm_on_data method d bs end_stream g s Q :
  ready_vm s → data_ok s.1 d bs → (data_length d ≤ INT_MAX)%Z → g ∈ global_refs (jview s) →
  (∀ r s', s'.1 = mem_release (data_owned d) (data_external d) s.1 →
    jvm_kept (result_locals r)
      [JavaCall g (method, "([BZ)Ljava/lang/Object;") [ABytes bs; ABoolean end_stream]] s s' →
    Q r s') →
  wp (jvm_on_data method d end_stream (Some g)) no_fault Q s.
Proof.
  intros Hvm [Hr Hown] Hmax Hg HQ. unfold jvm_on_data.
  apply wp_bind, wp_use_env; [done|]. intros s0 M0 Hvm0 V0. unfold jview in *.
  assert (J0 : jvm_kept 0 [] s s0) by (apply moved_refl; [by rewrite Hvm0|exact V0]).
  apply wp_class_and_method. intros c id s2 M2 S2 V2 Hid. unfold jview in V2.
  apply wp_bind. apply (wp_to_java_array _ bs); [by rewrite M2, M0|done|].
  intros a s3 M3 S3 _ V3. unfold jview in V3.
  apply wp_bind. eapply wp_java_law; [apply jni_CallObjectMethod; by rewrite V3, V2, V0|].
  intros r s4 M4 S4 C4.
  assert (Hm : s4.1 = s.1) by congruence.
  apply wp_bind, wp_native. rewrite Hm. eapply wp_run; [apply release_data_run, Hown|].
  apply wp_bind. eapply wp_java_law; [apply jni_DeleteLocalRef|]. intros [] s5 M5 S5 V5.
  apply wp_bind. eapply wp_java_law; [apply jni_DeleteLocalRef|]. intros [] s6 M6 S6 V6.
  apply wp_ret. apply HQ; [by rewrite M6, M5|]. cbn in S5, V5.
  assert (J2 := moved_add _ _ _ _ _ _ S2 J0 V2).
  assert (J3 := moved_array _ _ _ _ _ _ S3 _ _ J2 V3).
  assert (J4 := moved_call _ _ _ _ _ _ S4 _ r J3 C4). rewrite Hid, V3 in J4. cbn in J4.
  rewrite byte_array_set in J4.
  destruct r; (eapply moved_drop; [exact S6| |exact V6]); by eapply moved_drop.
Qed.

Lemma wp_jvm_on_error er bs g s Q :
  ready_vm s → data_ok s.1 (CTypes.error_message er) bs →
  (data_length (CTypes.error_message er) ≤ INT_MAX)%Z → g ∈ global_refs (jview s) →
  (∀ r s', s'.1 = mem_release (data_owned (CTypes.error_message er))
      (data_external (CTypes.error_message er)) s.1 →
    jvm_moved (global_refs (jview s) ∖ {[g]}) (result_locals r)
      [JavaCall g ("onError", "(I[BI)Ljava/lang/Object;")
        [AInt (error_code_value (error_code er)); ABytes bs; AInt (error_attempt_count er)]] s s' →
    Q r s') →
  wp (jvm_on_error er (Some g)) no_fault Q s.
Proof.
  intros Hvm [Hr Hown] Hmax Hg HQ. unfold jvm_on_error.
  apply wp_bind, wp_use_env; [done|]. intros s0 M0 Hvm0 V0. unfold jview in *.
  assert (J0 : jvm_kept 0 [] s s0) by (apply moved_refl; [by rewrite Hvm0|exact V0]).
  apply wp_class_and_method. intros c id s2 M2 S2 V2 Hid. unfold jview in V2.
  apply wp_bind. apply (wp_to_java_array _ bs); [by rewrite M2, M0|done|].
  intros a s3 M3 S3 _ V3. unfold jview in V3.
  apply wp_bind. eapply wp_java_law; [apply jni_CallObjectMethod; by rewrite V3, V2, V0|].
  intros r s4 M4 S4 C4.
  assert (Hm : s4.1 = s.1) by congruence.
  apply wp_bind, wp_native. rewrite Hm. eapply wp_run; [apply release_data_run, Hown|].
  assert (J2 := moved_add _ _ _ _ _ _ S2 J0 V2).
  assert (J3 := moved_array _ _ _ _ _ _ S3 _ _ J2 V3).
  assert (J4 := moved_call _ _ _ _ _ _ S4 _ r J3 C4). rewrite Hid, V3 in J4. cbn in J4.
  rewrite byte_array_set in J4.
  apply wp_bind. eapply wp_java_law.
  { apply jni_DeleteGlobalRef. cbn. destruct J4 as [_ E _ _]. unfold jview in E. by rewrite E. }
  intros [] s5 M5 S5 V5. cbn in S5, V5. assert (J5 := moved_delete _ _ _ _ _ _ S5 _ J4 V5).
  apply wp_bind. eapply wp_java_law; [apply jni_DeleteLocalRef|]. intros [] s6 M6 S6 V6.
  apply wp_bind. eapply wp_java_law; [apply jni_DeleteLocalRef|]. intros [] s7 M7 S7 V7.
  apply wp_ret. apply HQ; [by rewrite M7, M6, M5|].
  destruct r; (eapply moved_drop; [exact S7| |exact V7]); by eapply moved_drop.
Qed.

Lemma wp_jvm_on_complete g s Q :
  ready_vm s → g ∈ global_refs (jview s) →
  (∀ s', s'.1 = s.1 → jvm_moved (global_refs (jview s) ∖ {[g]}) 0 [] s s' → Q NULL s') →
  wp (jvm_on_complete (Some g)) no_fault Q s.
Proof.
  intros Hvm Hg HQ. unfold jvm_on_complete.
  apply wp_bind, wp_use_env; [done|]. intros s0 M0 Hvm0 V0. unfold jview in *.
  assert (J0 : jvm_kept 0 [] s s0) by (apply moved_refl; [by rewrite Hvm0|exact V0]).
  apply wp_bind. eapply wp_java_law; [apply jni_DeleteGlobalRef; by rewrite V0|].
  intros [] s1 M1 S1 V1. apply wp_ret. apply HQ; [congruence|by eapply moved_delete].
Qed.

Lemma wp_jvm_on_cancel g s Q :
  ready_vm s → g ∈ global_refs (jview s) →
  (∀ r s', s'.1 = s.1 → jvm_moved (global_refs (jview s) ∖ {[g]}) (result_locals r)
      [JavaCall g ("onCancel", "()Ljava/lang/Object;") []] s s' → Q r s') →
  wp (jvm_on_cancel (Some g)) no_fault Q s.
Proof.
  intros Hvm Hg HQ. unfold jvm_on_cancel.
  apply wp_bind, wp_use_env; [done|]. intros s0 M0 Hvm0 V0. unfold jview in *.
  assert (J0 : jvm_kept 0 [] s s0) by (apply moved_refl; [by rewrite Hvm0|exact V0]).
  apply wp_class_and_method. intros c id s2 M2 S2 V2 Hid. unfold jview in V2.
  apply wp_bind. eapply wp_java_law; [apply jni_CallObjectMethod; by rewrite V2, V0|].
  intros r s4 M4 S4 C4.
  assert (J2 := moved_add _ _ _ _ _ _ S2 J0 V2).
  assert (J4 := moved_call _ _ _ _ _ _ S4 _ r J2 C4). rewrite Hid in J4. cbn in J4.
  apply wp_bind. eapply wp_java_law.
  { apply jni_DeleteGlobalRef. destruct J4 as [_ E _ _]. unfold jview in E. by rewrite E. }
  intros [] s5 M5 S5 V5. assert (J5 := moved_delete _ _ _ _ _ _ S5 _ J4 V5).
  apply wp_bind. eapply wp_java_law; [apply jni_DeleteLocalRef|]. intros [] s6 M6 S6 V6.
  apply wp_ret. apply HQ; [congruence|]. destruct r; by eapply moved_drop.
Qed.

(** ** The answers of a filter *)

(** A Java array of a boxed status and a flattened array of headers. *)
Definition headers_answered (n : Z) (es : list (list byte * list byte)) (r : ptr) (v : jvm_view) : Prop :=
  ∃ x st hd, r = Some x ∧ object_array v x = Some [Some st; Some hd] ∧
    boxed_integer v st = Some n ∧ java_headers v hd es.

Lemma wp_unbox_integer st n s Q :
  boxed_integer (jview s) st = Some n →
  (∀ s', s'.1 = s.1 → static_jvm s'.2 = static_jvm s.2 → jview s' = add_local (jview s) → Q n s') →
  wp (unbox_integer (Some st)) no_fault Q s.
Proof.
  intros Hn HQ. unfold unbox_integer, jview in *.
  apply wp_bind. eapply wp_java_law; [apply jni_FindClass|]. intros r s1 M1 S1 ((c & ->) & V1).
  apply wp_bind. eapply wp_java_law; [apply jni_GetMethodID|]. intros r s2 M2 S2 ((id & -> & Hid) & V2).
  eapply wp_java_law; [apply jni_intValue; [|exact Hid]; rewrite V2, V1; exact Hn|].
  intros r s3 M3 S3 [-> V3]. apply HQ; congruence.
Qed.

(** The class of Integer and the arrays of the headers stay referenced. *)
Lemma wp_headers_answer r n es s Q :
  mem_wf s.1 → (Z.of_nat (2 * length es) ≤ INT_MAX)%Z → headers_answered n es r (jview s) →
  (∀ eh hs s', reads_headers (heap s'.1) eh hs es → Forall header_contained hs →
    grows (headers_owned eh hs) s.1 s'.1 → static_jvm s'.2 = static_jvm s.2 →
    jview s' = add_locals (2 * length es) (jview s) → Q (n, eh) s') →
  wp (headers_answer r) oom Q s.
Proof.
  intros Hwf Hmax (x & st & hd & -> & Hx & Hst & Hes) HQ. unfold headers_answer, jview in *.
  apply wp_bind. eapply wp_java_law; [by eapply (jni_GetObjectArrayElement x _ 0)|].
  intros r s1 M1 S1 [-> V1]. apply wp_bind.
  eapply wp_java_law; [eapply (jni_GetObjectArrayElement x _ 1); [by rewrite V1|done]|].
  intros r s2 M2 S2 [-> V2]. apply wp_bind.
  eapply wp_mono; [apply (wp_unbox_integer st n s2 (λ r s', r = n ∧ s'.1 = s2.1 ∧
    static_jvm s'.2 = static_jvm s2.2 ∧ jview s' = add_local (jview s2)))|done|].
  { unfold jview. rewrite V2, V1. exact Hst. } { done. }
  intros r s3 (-> & M3 & S3 & V3). unfold jview in V3.
  rewrite add_local_1 in V1. rewrite V1, add_local_locals in V2. rewrite V2, add_local_locals in V3.
  apply wp_bind, (wp_to_native_headers hd es); [by rewrite M3, M2, M1|done|by unfold jview; rewrite V3|].
  intros eh hs s4 R4 X4 G4 _ S4 V4. unfold jview in V4. rewrite V3, add_locals_locals in V4.
  replace (2 * length es + 3) with (S (S (S (2 * length es)))) in V4 by lia.
  do 3 (apply wp_bind; eapply wp_java_law; [apply jni_DeleteLocalRef|]; intros [] ? ? ? ?).
  apply wp_ret. apply (HQ eh hs); [congruence|done|congruence|congruence|].
  unfold jview. repeat match goal with H : view _ = drop_local _ |- _ => rewrite H; clear H end.
  by rewrite V4, !drop_local_locals.
Qed.
End callbacks.
