(* ===== verification/JniReference.v ===== *)
(** * A small virtual machine

    An instance of the native interface of Jni.v with its laws. Its methods return null,
    except that a filter's onRequestHeaders answers with a status and a header that it
    makes. The examples of JniProps.v run on it. *)

From S2P Require Export Jni Reference.

(** What native code can tell is all there is. *)
Definition ref_jvm : Type := jvm_view.
Definition rj_view (j : ref_jvm) : jvm_view := j.
Definition on_view (f : jvm_view → jvm_view) (j : ref_jvm) : ref_jvm := f j.

Definition add_call (c : java_call) (v : jvm_view) : jvm_view :=
  JvmView (java_objects v) (global_refs v) (local_frames v) (java_calls v ++ [c]).

Definition ref_method_name (id : positive) : string * string := default ("", "") (decode id).

(** An array with a header in it, and an array of a status and that array. *)
Definition ref_objects : gmap positive java_object :=
  {[ 10%positive := ByteArray (bytes_of "Key"); 11%positive := ByteArray (bytes_of "ab");
     12%positive := ObjectArray [Some 10%positive; Some 11%positive];
     13%positive := BoxedInteger 0;
     14%positive := ObjectArray [Some 13%positive; Some 12%positive] ]}.

Definition ref_answers (m : string * string) : bool :=
  bool_decide (m = ("onRequestHeaders", "(JZ)Ljava/lang/Object;")).
Definition ref_answer (m : string * string) : ptr := if ref_answers m then Some 14%positive else NULL.
Definition ref_made (m : string * string) (v : jvm_view) : jvm_view :=
  if ref_answers m
  then JvmView (ref_objects ∪ java_objects v) (global_refs v) (local_frames v) (java_calls v)
  else v.

Definition ref_call (o id : ptr) (args : list java_value) : M ref_jvm ptr := λ j,
  match o, id with
  | Some g, Some id =>
      let m := ref_method_name id in
      if decide (g ∈ global_refs (rj_view j)) then
        Ok (ref_answer m, on_view (λ v, add_call (JavaCall g m (seen v <$> args)) (ref_made m
          (if ref_answer m is Some _ then add_local v else v))) j)
      else match byte_buffer (rj_view j) g with
      | Some (ArrayBuffer a) =>
          if decide (m = ("array", "()[B")) then Ok (Some a, on_view add_local j)
          else Fault (Undefined "no such method")
      | _ => Fault (Undefined "call on a deleted reference")
      end
  | _, _ => Fault (Undefined "call on null")
  end.

Definition ref_get {A} (f : jvm_view → option A) : M ref_jvm A := λ j,
  match f (rj_view j) with Some a => Ok (a, j) | None => Fault (Undefined "invalid use of a reference") end.

#[export] Instance ref_jni : JNI ref_jvm := {
  view := rj_view;
  method_name := ref_method_name;
  GetEnv := mret JNI_EDETACHED;
  AttachCurrentThread := mret JNI_OK;
  DetachCurrentThread := mret JNI_OK;
  FindClass _ := modify (on_view add_local) ;; mret (Some 1%positive);
  GetObjectClass _ := modify (on_view add_local) ;; mret (Some 1%positive);
  GetMethodID _ name sig := mret (Some (encode (name, sig)));
  CallObjectMethod := ref_call;
  CallVoidMethod o id args := λ j,
    match o, id with
    | Some g, Some id =>
        if decide (g ∈ global_refs (rj_view j)) then
          Ok (tt, on_view (λ v, add_call (JavaCall g (ref_method_name id) (seen v <$> args)) v) j)
        else Fault (Undefined "call on a deleted reference")
    | _, _ => Fault (Undefined "call on null")
    end;
  CallIntMethod o _ _ := ref_get (λ v, o ≫= boxed_integer v);
  NewGlobalRef _ := λ j,
    let g := fresh (global_refs (rj_view j)) in
    Ok (Some g, on_view (λ v, set_global_refs ({[g]} ∪ global_refs v) v) j);
  DeleteGlobalRef o :=
    match o with
    | Some g => λ j,
        if decide (g ∈ global_refs (rj_view j)) then
          Ok (tt, on_view (λ v, set_global_refs (global_refs v ∖ {[g]}) v) j)
        else Fault (Undefined "reference deleted twice")
    | None => mret tt
    end;
  DeleteLocalRef _ := modify (on_view drop_local);
  PushLocalFrame _ := modify (on_view push_frame) ;; mret 0%Z;
  PopLocalFrame := modify (on_view pop_frame);
  GetArrayLength o := ref_get (λ v, o ≫= λ o,
    match java_objects v !! o with
    | Some (ByteArray bs) => Some (Z.of_nat (length bs))
    | Some (ObjectArray os) => Some (Z.of_nat (length os))
    | _ => None
    end);
  GetObjectArrayElement o i :=
    r ← ref_get (λ v, o ≫= λ o, object_array v o ≫= λ os, os !! Z.to_nat i);
    modify (on_view add_local) ;; mret r;
  NewByteArray n := λ j,
    let a := fresh (dom (java_objects (rj_view j))) in
    Ok (Some a, on_view (λ v, set_byte_array a (replicate (Z.to_nat n) x00) (add_local v)) j);
  copy_out o n := ref_get (λ v, o ≫= byte_array v);
  copy_in o bs :=
    old ← ref_get (λ v, o ≫= byte_array v);
    modify (on_view (λ v, match o with
      | Some a => set_byte_array a (bs ++ drop (length bs) old) v
      | None => v
      end));
  GetDirectBufferAddress o := ref_get (λ v, o ≫= λ o,
    (λ b, match b with DirectBuffer address _ => Some address | ArrayBuffer _ => NULL end)
      <$> byte_buffer v o);
  GetDirectBufferCapacity o := ref_get (λ v, (o ≫= byte_buffer v) ≫= λ b,
    match b with DirectBuffer _ n => Some n | ArrayBuffer _ => None end);
  NewStringUTF _ := modify (on_view add_local) ;; mret (Some 1%positive);
  GetStringUTFChars _ := mret "name"
}.

Lemma wp_ref_get {A} (f : jvm_view → option A) a j Q :
  f (rj_view j) = Some a → Q a j → wp (ref_get f) no_fault Q j.
Proof. unfold wp, ref_get. by intros ->. Qed.

#[export] Instance ref_jni_laws : JNILaws ref_jvm.
Proof.
  split; try by (intros; cbn; eauto).
  - intros j. split; [by right|done].
  - intros name j. split; [by eexists|done].
  - intros o j. split; [by eexists|done].
  - intros c name sig j. split; [|done]. exists (encode (name, sig)). split; [done|].
    unfold method_name. cbn. unfold ref_method_name. by rewrite decode_encode.
  - intros g id args j Hg. unfold wp. cbn in *. rewrite decide_True by done.
    unfold called, ref_answer, ref_made, on_view. by destruct (ref_answers _).
  - intros g id args j Hg. unfold wp. cbn in *. by rewrite decide_True.
  - intros o id n j Ho _. by eapply wp_ref_get.
  - intros o id a j Hg Ho Hm. unfold wp. cbn in *. rewrite decide_False, Ho, decide_True by done. done.
  - intros o j. exists (fresh (global_refs (rj_view j))). split; [done|]. split; [|done].
    apply is_fresh.
  - intros g j Hg. unfold wp. cbn in *. by rewrite decide_True.
  - intros a bs j Ha. eapply wp_ref_get; [|done]. cbn. unfold byte_array in Ha. cbn in Ha.
    by destruct (java_objects _ !! a) as [[]|]; simplify_eq.
  - intros a os j Ha. eapply wp_ref_get; [|done]. cbn. unfold object_array in Ha. cbn in Ha.
    by destruct (java_objects _ !! a) as [[]|]; simplify_eq.
  - intros a os i o j Ha Hi. cbn in *. apply wp_bind. eapply wp_ref_get;
      [cbn; rewrite Ha; cbn; by rewrite Nat2Z.id|]. done.
  - intros n j Hn. eexists. split; [done|]. split; [|done].
    apply not_elem_of_dom. apply is_fresh.
  - intros a bs n j Ha _. by eapply wp_ref_get.
  - intros a old bs j Ha Hl. apply wp_bind. by eapply wp_ref_get.
  - intros o b j Ho. eapply wp_ref_get; [cbn in *; by rewrite Ho|]. by destruct b.
  - intros o address n j Ho. eapply wp_ref_get; [cbn in *; by rewrite Ho|]. done.
Qed.
