(* ===== verification/JniProps.v ===== *)
(** * What the Java platform promises

    The theorems about the JNI layer: headers round-trip, the life of the Java context
    of a stream, and what the functions Java calls and the filter functions do and
    leave behind. *)

From S2P Require Import Engine EngineInv EngineProps.
From S2P Require Export JniSpecs JniReference ProcessProps.

Section round_trip.
Context {mode : BuildMode} `{Allocator} {J : Type} `{!JNI J} `{!JNILaws J}.
Implicit Types (s : mem * jni_state J).

(** Headers round-trip between Java and C. A flattened Java array of names and
    values, turned into an envoy_headers and handed back to a Java context, arrives as
    one passHeader call for each pair, with the same bytes and in the same order, the
    start flag set for the first pair only; afterwards the C heap is as it was, and so
    are the global references. *)
Theorem java_headers_round_trip a es g s :
  mem_wf s.1 → fits_java es → java_headers (jview s) a es → g ∈ global_refs (jview s) →
  wp (headers ← to_native_headers (Some a); pass_headers headers (Some g)) oom (λ _ s',
    heap s'.1 = heap s.1 ∧ released s'.1 = released s.1 ∧
    java_calls (jview s') = java_calls (jview s) ++ header_calls g es ∧
    global_refs (jview s') = global_refs (jview s)) s.
Proof.
  intros Hwf Hfit Ha Hg. apply wp_bind, (wp_to_native_headers a es); [done|apply Hfit|done|].
  intros eh hs s1 R1 X1 G1 _ S1 V1.
  eapply wp_mono; [apply (wp_pass_headers eh hs es g s1 (λ _ s',
    s'.1 = mem_release (headers_owned eh hs) (headers_external hs) s1.1 ∧
    jvm_kept 0 (header_calls g es) s1 s'))|done|].
  - split; [done|by eapply grows_allocated].
  - done.
  - by rewrite V1.
  - done.
  - intros [] s' [-> [_ R _ C]]. rewrite contained_headers_external by done.
    split; [by apply grows_release|]. cbn. rewrite app_nil_r, (grows_released _ _ _ G1).
    by rewrite C, R, V1.
Qed.

(** ** The life of a stream's context *)

(** The callback the dispatcher makes through the struct of startStream. *)
Definition jvm_callback (context : ptr) (ev : bridge_event) : M (mem * jni_state J) unit :=
  match ev with
  | OnHeaders headers end_stream => jvm_on_response_headers headers end_stream context ;; mret tt
  | OnData data end_stream => jvm_on_response_data data end_stream context ;; mret tt
  | OnTrailers trailers => jvm_on_response_trailers trailers context ;; mret tt
  | OnError error => jvm_on_error error context ;; mret tt
  | OnComplete => jvm_on_complete context ;; mret tt
  | OnCancel => jvm_on_cancel context ;; mret tt
  end.

(** What the dispatcher hands over is valid in the memory of that time, and not larger
    than a Java array. *)
Definition payload_ok (c : mem) (ev : bridge_event) : Prop :=
  match ev with
  | OnHeaders headers _ | OnTrailers headers => ∃ hs es, headers_ok c headers hs es ∧ fits_java es
  | OnData data _ => ∃ bs, data_ok c data bs ∧ (data_length data ≤ INT_MAX)%Z
  | OnError error =>
      ∃ bs, data_ok c (CTypes.error_message error) bs ∧
        (data_length (CTypes.error_message error) ≤ INT_MAX)%Z
  | OnComplete | OnCancel => True
  end.

Lemma wp_jvm_callback g ev s :
  ready_vm s → payload_ok s.1 ev → g ∈ global_refs (jview s) →
  wp (jvm_callback (Some g) ev) no_fault (λ _ s', ready_vm s' ∧
    global_refs (jview s') = global_refs (jview s) ∖ (if terminal ev then {[g]} else ∅)) s.
Proof.
  intros Hvm Hok Hg. unfold ready_vm in *.
  destruct ev as [eh es|d es|eh|er| |]; cbn; apply wp_bind.
  - destruct Hok as (hs & l & Hok & Hfit).
    eapply wp_jvm_on_headers; [apply ensures_nothing|done..|]. intros r s' _ [A B _ _] _.
    apply wp_ret. rewrite A, B. split; [done|set_solver].
  - destruct Hok as (bs & Hok & Hmax). eapply wp_jvm_on_data; [done..|]. intros r s' _ [A B _ _].
    apply wp_ret. rewrite A, B. split; [done|set_solver].
  - destruct Hok as (hs & l & Hok & Hfit).
    eapply wp_jvm_on_trailers; [apply ensures_nothing|done..|]. intros r s' _ [A B _ _] _.
    apply wp_ret. rewrite A, B. split; [done|set_solver].
  - destruct Hok as (bs & Hok & Hmax). eapply wp_jvm_on_error; [done..|]. intros r s' _ [A B _ _].
    apply wp_ret. by rewrite A, B.
  - apply wp_jvm_on_complete; [done..|]. intros s' _ [A B _ _]. apply wp_ret. by rewrite A, B.
  - apply wp_jvm_on_cancel; [done..|]. intros r s' _ [A B _ _]. apply wp_ret. by rewrite A, B.
Qed.

(** The callbacks of a stream, each in the memory of its time. *)
Definition run_callbacks (g : positive) (l : list (mem * bridge_event))
    : M (mem * jni_state J) unit :=
  for_each l (λ p, modify (λ s, (p.1, s.2)) ;; jvm_callback (Some g) p.2).

Lemma spec_stuck evs :
  foldl (λ (p : option phase) ev, p ≫= λ p, spec_step p ev) None evs = None.
Proof. by induction evs. Qed.

Lemma wp_run_callbacks g l p p' s :
  ready_vm s → Forall (λ x, payload_ok x.1 x.2) l → p ≠ Closed →
  foldl (λ p ev, p ≫= λ p, spec_step p ev) (Some p) l.*2 = Some p' → g ∈ global_refs (jview s) →
  wp (run_callbacks g l) no_fault (λ _ s', global_refs (jview s') =
    if decide (p' = Closed) then global_refs (jview s) ∖ {[g]} else global_refs (jview s)) s.
Proof.
  revert p s. induction l as [|[c ev] l IH]; intros p s Hvm Hok Hp Hf Hg.
  { injection Hf as ->. apply wp_ret. by rewrite decide_False. }
  inversion Hok as [|? ? Hev Hok']; subst. cbn in Hf, Hev. unfold run_callbacks. cbn.
  apply wp_bind, wp_bind, wp_modify. cbn.
  eapply wp_conseq; [by apply wp_jvm_callback|]. intros [] s1 [Hvm1 Hr1].
  destruct (spec_step p ev) as [p1|] eqn:Hstep; [|by rewrite spec_stuck in Hf].
  destruct (decide (p1 = Closed)) as [->|Hp1].
  - assert (terminal ev = true) as Ht by (by destruct p, ev as [? []|? []| | | |]).
    assert (l = []) as ->.
    { destruct l as [|[c2 ev2] l]; [done|]. cbn in Hf. by rewrite spec_stuck in Hf. }
    injection Hf as <-. apply wp_ret. rewrite decide_True by done. by rewrite Hr1, Ht.
  - assert (terminal ev = false) as Ht by (by destruct p, ev as [? []|? []| | | |]; naive_solver).
    rewrite Ht in Hr1.
    assert (global_refs (jview s1) = global_refs (jview s)) as E by (rewrite Hr1; unfold jview; cbn; set_solver).
    eapply wp_conseq; [apply (IH p1); [done..|by rewrite E]|]. intros [] s2. by rewrite E.
Qed.
End round_trip.

Section context.
#[local] Existing Instance debug_build.
Context `{Allocator} {HM : Type} `{!HeaderMap HM} `{!EnvoyCodec HM}
  {B : Type} `{!BufferInstance B} {J : Type} `{!JNI J} `{!JNILaws J}.

(** C9: The Java context of a stream lives exactly as long as its callbacks. Take any
    stream of any reachable dispatcher and let the JNI layer handle the callbacks the
    dispatcher has made for it so far, with payloads that are valid when they arrive:
    none of them uses the global reference after it was deleted (no call is undefined),
    and the reference is still held if the dispatcher still has the stream and has been
    deleted, once, if it does not. No other global reference is touched. *)
Theorem context_lives_until_terminal scope ls (d : state HM B) o g l s :
  reachable scope ls d → o < next_object d → l.*2 = bridge_trace o (trace d) →
  Forall (λ x, payload_ok x.1 x.2) l → ready_vm s → g ∈ global_refs (jview s) →
  wp (run_callbacks g l) no_fault (λ _ s', global_refs (jview s') =
    if bool_decide (o ∈ (map_to_list (streams_ d)).*2) then global_refs (jview s)
    else global_refs (jview s) ∖ {[g]}) s.
Proof.
  intros Hd Ho Hl Hok Hvm Hg. pose proof (reachable_phase _ _ _ _ Hd Ho) as Hp.
  unfold phase_of, spec_run in Hp. rewrite <- Hl in Hp.
  eapply wp_conseq; [by eapply (wp_run_callbacks g l Open)|]. intros [] s'.
  by case_bool_decide.
Qed.
End context.

(** ** What Java calls *)

Section exports.
Context {mode : BuildMode} `{Allocator} {HM : Type} `{!HeaderMap HM} `{!EnvoyCodec HM}
  {B : Type} `{!BufferInstance B} `{!EnvoyServer} {J : Type} `{!JNI J} `{!JNILaws J}.
Abbreviation globals_t := (main_state HM B (envoy_http_filter (jni_state J))).
Implicit Types (x : globals_t * jni_state J) (e : engine_object HM B).

(** Sending headers from Java. The array is copied: whatever happens to it later,
    the functor that sendHeaders queues on the dispatcher of the running engine carries
    an envoy_headers with the same pairs, in fresh blocks that it owns. Without an
    engine the call returns ENVOY_FAILURE and these blocks stay allocated with nobody to
    free them. *)
Theorem java_sendHeaders h a es end_stream x :
  mem_wf (memory_now x.1) → fits_java es → java_headers (view (jvm x.2)) a es →
  (∀ e, strong_engine_ x.1 = Some e → usable e) →
  wp (Java_sendHeaders h (Some a) end_stream) oom (λ st x', ∃ eh hs c,
    reads_headers (heap c) eh hs es ∧ Forall header_contained hs ∧
    grows (headers_owned eh hs) (memory_now x.1) c ∧ memory_now x'.1 = c ∧
    stream_called (PostSendHeaders h eh end_stream) c x.1 st x'.1) x.
Proof.
  intros Hwf Hfit Ha Hu. unfold Java_sendHeaders. apply wp_bind, wp_on_native.
  apply (wp_to_native_headers a es); [done|apply Hfit|done|].
  intros eh hs [c j] R X G _ _ _. cbn in R, G. cbn [fst snd].
  apply wp_on_main. cbn [fst snd].
  eapply wp_mono; [by apply (wp_interface_call (PostSendHeaders h eh end_stream))|done|].
  intros st g Hg. exists eh, hs, c. split_and!; [done..| |exact Hg].
  unfold stream_called, memory_now in *. cbn.
  destruct (strong_engine_ x.1) as [e|] eqn:He; destruct Hg as [_ ->]; cbn; rewrite ?He; [|done].
  unfold queued. cbn. by case_match.
Qed.

Lemma wp_on_java {A} (m : M J A) L Q x :
  wp m no_fault L (jvm x.2) →
  (∀ a x', x'.1 = x.1 → L a (jvm x'.2) → Q a x') →
  wp (on_java m) no_fault Q x.
Proof.
  intros Hm HQ. apply wp_on_native. eapply wp_java_law; [exact Hm|]. intros a s' M S HL. cbn in M.
  apply HQ; [|done]. cbn. by rewrite M, set_memory_now.
Qed.

(** Starting a stream from Java takes a new global reference to the context. With an
    engine it is the context of the callbacks in the queued functor; without one it is
    deleted again, and the global references are as before. *)
Theorem java_startStream h o x :
  (∀ e, strong_engine_ x.1 = Some e → usable e) →
  wp (Java_startStream h (Some o)) no_fault (λ st x',
    ∃ g, (g ∉ global_refs (view (jvm x.2))) ∧
    stream_called (PostStartStream h (jvm_callbacks (Some g))) (memory_now x.1) x.1 st x'.1 ∧
    global_refs (view (jvm x'.2)) =
      match strong_engine_ x.1 with
      | Some _ => {[g]} ∪ global_refs (view (jvm x.2))
      | None => global_refs (view (jvm x.2))
      end) x.
Proof.
  intros Hu. unfold Java_startStream.
  apply wp_bind. eapply wp_on_java; [apply jni_GetObjectClass|]. intros r x1 M1 ((c & ->) & V1).
  apply wp_bind. eapply wp_on_java; [apply jni_NewGlobalRef|]. intros r x2 M2 (g & -> & Hg & V2).
  assert (Hx : x2.1 = set_memory (memory_now x.1) x.1) by (rewrite set_memory_now; congruence).
  apply wp_bind, wp_on_main. rewrite Hx.
  eapply wp_conseq; [by apply (wp_interface_call (PostStartStream h (jvm_callbacks (Some g))))|].
  intros st s3 Hcalled. cbn [fst snd]. rewrite V1 in Hg. cbn in Hg.
  assert (Hv : global_refs (view (jvm x2.2)) = {[g]} ∪ global_refs (view (jvm x.2))) by (rewrite V2, V1; done).
  apply wp_bind, wp_when; intros Hst;
    [apply bool_decide_eq_true in Hst|apply bool_decide_eq_false, dec_stable in Hst].
  - unfold stream_called in Hcalled. destruct (strong_engine_ x.1) as [e|] eqn:He; [by destruct Hcalled|].
    eapply wp_on_java; [apply jni_DeleteGlobalRef; cbn; rewrite Hv; set_solver|].
    intros [] x4 M4 V4. apply wp_bind. eapply wp_on_java; [apply jni_DeleteLocalRef|].
    intros [] x5 M5 V5. apply wp_ret. exists g. split; [done|]. cbn in M4. rewrite M5, M4.
    split; [unfold stream_called; by rewrite He|]. rewrite V5, V4. cbn. rewrite Hv. set_solver.
  - apply wp_bind. eapply wp_on_java; [apply jni_DeleteLocalRef|].
    intros [] x5 M5 V5. apply wp_ret. exists g. split; [done|]. rewrite M5. split; [done|].
    rewrite V5. cbn. rewrite Hv. unfold stream_called in Hcalled.
    destruct (strong_engine_ x.1); [done|]. by destruct Hcalled as [-> _].
Qed.
End exports.

(** ** What a filter in Java answers *)

Section filters.
Context {mode : BuildMode} `{Allocator} {J : Type} `{!JNI J} `{!JNILaws J}.
Implicit Types (s : mem * jni_state J).

(** The two filter functions for headers, with the method they call. *)
Definition headers_filters
    : list ((envoy_headers → bool → ptr → M (mem * jni_state J) envoy_filter_headers_status) * string) :=
  [(jvm_http_filter_on_request_headers, "onRequestHeaders");
   (jvm_http_filter_on_response_headers, "onResponseHeaders")].

(** A Java filter sees and answers headers. Both filter functions hand the pairs to
    the filter object and release the envoy_headers they were given; if its method
    returns a status and headers, that status and those headers, in fresh blocks they
    own, are the result. But although native code has to release local references on
    Envoy's thread itself, each call leaves one for the class of Integer and two for
    every header of the answer. *)
Theorem filter_headers_answer f method eh hs es end_stream g n es' s :
  (f, method) ∈ headers_filters → ready_vm s → mem_wf s.1 → headers_ok s.1 eh hs es →
  fits_java es → (Z.of_nat (2 * length es') ≤ INT_MAX)%Z → g ∈ global_refs (jview s) →
  java_ensures g method "(JZ)Ljava/lang/Object;" (headers_answered n es') →
  wp (f eh end_stream (Some g)) oom (λ r s',
    headers_status r = n ∧
    (∃ hs', reads_headers (heap s'.1) (result_headers r) hs' es' ∧ Forall header_contained hs' ∧
      grows (headers_owned (result_headers r) hs')
        (mem_release (headers_owned eh hs) (headers_external hs) s.1) s'.1) ∧
    jvm_kept (2 * length es' + 1) (header_calls g es ++
      [JavaCall g (method, "(JZ)Ljava/lang/Object;") [ALong (headers_length eh); ABoolean end_stream]])
      s s') s.
Proof.
  intros Hf Hvm Hwf Hok Hfit Hmax Hg Hans.
  assert (f eh end_stream (Some g) = (use_env ;;
    result ← jvm_on_headers method eh end_stream (Some g);
    answer ← headers_answer result;
    mret (FilterHeadersResult answer.1 answer.2))) as ->.
  { by apply elem_of_cons in Hf as [[= -> ->]|[[= -> ->]|[]%elem_of_nil]%elem_of_cons]. }
  apply wp_bind, wp_use_env; [done|]. intros s0 M0 Hvm0 V0.
  assert (J0 : jvm_kept 0 [] s s0) by (apply moved_refl; [by rewrite Hvm0|exact V0]).
  apply wp_bind. eapply wp_mono.
  { eapply wp_jvm_on_headers; [exact Hans|done|by rewrite M0|done|by rewrite V0|].
    intros r s1 M1 J1 A1. exact (conj M1 (conj J1 A1)). } { done. }
  cbn beta. intros r s1 (M1 & J1 & A1). rewrite M0 in M1.
  apply wp_bind, (wp_headers_answer r n es'); [by rewrite M1; apply mem_wf_release|done|done|].
  intros eh' hs' s2 R2 X2 G2 S2 V2. apply wp_ret. cbn. rewrite M1 in G2.
  split; [done|]. split; [by exists hs'|].
  destruct A1 as (y & st & hd & -> & _). cbn in J1.
  destruct J0 as [A B C D], J1 as [A' B' C' D'].
  split; [congruence|by rewrite V2, <- B, <- B'| |by rewrite V2; cbn; rewrite D', D, app_nil_r].
  rewrite V2. cbn. rewrite C'. cbn. rewrite C. cbn. destruct (local_frames (jview s)); [done|].
  f_equal. lia.
Qed.
End filters.

(** ** Examples *)

#[local] Existing Instance ref_server.

(** The objects of JniReference.v, one global reference, one frame. *)
Definition ref_view : jvm_view := JvmView ref_objects {[20%positive]} [0] [].
Definition ref_java : jni_state ref_jvm := JniState true false ref_view.
Definition ref_native (c : mem) : mem * jni_state ref_jvm := (c, ref_java).

Lemma ref_java_headers f : java_headers (set_local_frames f ref_view) 12 ref_pairs.
Proof.
  exists [Some 10%positive; Some 11%positive]. split; [by vm_compute|]. split; [done|].
  intros [|i] e [= <-]. exists 10%positive, 11%positive. by vm_compute.
Qed.

Lemma ref_fits : fits_java ref_pairs.
Proof. split; [vm_compute; congruence|]. constructor; [vm_compute; split; congruence|constructor]. Qed.

Lemma java_headers_round_trip_witness :
  wp (headers ← to_native_headers (Some 12%positive); pass_headers headers (Some 20%positive)) oom
    (λ _ s', heap s'.1 = heap ref_mem ∧ released s'.1 = released ref_mem ∧
      java_calls (jview s') = [JavaCall 20 ("passHeader", "([B[BZ)V")
        [ABytes (bytes_of "Key"); ABytes (bytes_of "ab"); ABoolean true]] ∧
      global_refs (jview s') = {[20%positive]}) (ref_native ref_mem).
Proof.
  eapply wp_conseq.
  - apply (java_headers_round_trip (J := ref_jvm) 12 ref_pairs 20 (ref_native ref_mem)).
    + apply ref_mem_wf.
    + apply ref_fits.
    + apply (ref_java_headers [0]).
    + apply (bool_decide_unpack _). by vm_compute.
  - intros [] s' (A & B & C & D). split; [exact A|]. split; [exact B|].
    split; [rewrite C; reflexivity|exact D].
Defined.

(** The stream the connection manager reset in [two_streams]. *)
Definition ref_callbacks_of (o : nat) : list (mem * bridge_event) :=
  (λ ev, (mem_empty, ev)) <$> bridge_trace o (trace (two_streams_end (mode := debug_build))).

Lemma ref_payloads : Forall (λ x, payload_ok x.1 x.2) (ref_callbacks_of 1).
Proof.
  assert (ref_callbacks_of 1 = [(mem_empty, OnError (EnvoyError ENVOY_STREAM_RESET envoy_nodata (-1)))])
    as -> by (vm_compute; reflexivity).
  constructor; [|constructor]. exists []. split; [|vm_compute; congruence].
  split; [split; [done|by left]|]. split; [constructor|]. intros l Hl. cbn in Hl. by apply elem_of_nil in Hl.
Qed.

Lemma context_lives_until_terminal_witness :
  wp (run_callbacks 20 (ref_callbacks_of 1)) no_fault
    (λ _ s', global_refs (jview s') = {[20%positive]} ∖ {[20%positive]}) (ref_native ref_mem).
Proof.
  refine (wp_conseq _ _ _ _ _ (context_lives_until_terminal (J := ref_jvm) no_stats two_streams
    (two_streams_end (mode := debug_build)) 1 20 (ref_callbacks_of 1) (ref_native ref_mem)
    two_streams_reachable _ _ ref_payloads _ _) _).
  - vm_compute. lia.
  - vm_compute. reflexivity.
  - reflexivity.
  - apply (bool_decide_unpack _). by vm_compute.
  - intros [] s' ->. reflexivity.
Defined.

Definition ref_process : main_state ref_map ref_buffer (envoy_http_filter (jni_state ref_jvm)) * jni_state ref_jvm :=
  (main_init ref_mem, ref_java).

Lemma java_sendHeaders_witness :
  wp (Java_sendHeaders 1 (Some 12%positive) true) oom (λ st x', ∃ eh hs c,
    reads_headers (heap c) eh hs ref_pairs ∧ Forall header_contained hs ∧
    grows (headers_owned eh hs) ref_mem c ∧ memory_now x'.1 = c ∧
    stream_called (PostSendHeaders 1 eh true) c (main_init ref_mem) st x'.1) ref_process.
Proof.
  refine (wp_conseq _ _ _ _ _ (java_sendHeaders 1 12 ref_pairs true ref_process
    ref_mem_wf ref_fits (ref_java_headers [0]) _) _).
  - done.
  - intros st x' Hx. exact Hx.
Defined.

Lemma java_startStream_witness :
  ∃ g st x', Java_startStream 1 (Some 12%positive) ref_process = Ok (st, x') ∧
    (g ∉ ({[20%positive]} : gset positive)) ∧
    stream_called (PostStartStream 1 (jvm_callbacks (Some g))) ref_mem (main_init ref_mem) st x'.1 ∧
    global_refs (view (jvm x'.2)) = {[20%positive]}.
Proof.
  destruct (wp_total _ _ _ (java_startStream 1 12 ref_process ltac:(done))) as (st & x' & Hx & g & H1 & H2 & H3).
  exists g, st, x'. split; [exact Hx|]. split; [exact H1|]. split; [exact H2|exact H3].
Defined.

Lemma ref_ensures :
  java_ensures (J := ref_jvm) 20 "onRequestHeaders" "(JZ)Ljava/lang/Object;"
    (headers_answered 0 ref_pairs).
Proof.
  split.
  - intros id args j Hg Hm.
    assert (CallObjectMethod (Some 20%positive) (Some id) args j = Ok (Some 14%positive,
      add_call (JavaCall 20 (method_name id) (seen j <$> args)) (JvmView
        (ref_objects ∪ java_objects j) (global_refs j) (local_frames (add_local j)) (java_calls j)))) as Hrun.
    { cbn in *. rewrite decide_True by done. rewrite Hm. reflexivity. }
    eapply wp_run; [exact Hrun|].
    exists 14%positive, 13%positive, 12%positive. split; [done|].
    assert (Hobj : ∀ k o, ref_objects !! k = Some o → (ref_objects ∪ java_objects j) !! k = Some o)
      by (intros; by apply lookup_union_Some_l).
    split; [|split].
    + unfold object_array. cbn. by rewrite (Hobj 14%positive _ eq_refl).
    + unfold boxed_integer. cbn. by rewrite (Hobj 13%positive _ eq_refl).
    + exists [Some 10%positive; Some 11%positive]. unfold object_array, java_pair, byte_array. cbn.
      rewrite (Hobj 12%positive _ eq_refl). split; [done|]. split; [done|].
      intros [|i] e [= <-]. exists 10%positive, 11%positive.
      by rewrite (Hobj 10%positive _ eq_refl), (Hobj 11%positive _ eq_refl).
  - intros r v f (x & st & hd & -> & H1 & H2 & H3). exists x, st, hd. by split_and!.
Qed.

Lemma filter_headers_answer_witness :
  wp (jvm_http_filter_on_request_headers ref_headers false (Some 20%positive)) oom (λ r s',
    headers_status r = 0%Z ∧ local_frames (jview s') = [3]) (ref_native ref_mem).
Proof.
  refine (wp_conseq _ _ _ _ _ (filter_headers_answer (J := ref_jvm)
    jvm_http_filter_on_request_headers "onRequestHeaders" ref_headers [ref_header] ref_pairs false 20 0
    ref_pairs (ref_native ref_mem) _ eq_refl ref_mem_wf ref_headers_ok ref_fits _ _ ref_ensures) _).
  - by left.
  - vm_compute. congruence.
  - apply (bool_decide_unpack _). by vm_compute.
  - intros r s' (Hn & _ & [_ _ Hf _]). split; [exact Hn|]. rewrite Hf. reflexivity.
Defined.
