(* ===== verification/ConfigTemplate.v ===== *)
(** * The configuration template

    Models library/common/config_template.cc, the YAML that Envoy is started with:
    its lines, as the source writes them, around the lines of certificates.inc, which
    is data of Mozilla and an argument here. What YAML says about the header that
    routes a request and about the clusters is read off the lines by indentation. *)

From Stdlib Require Import Strings.Ascii.
From S2P Require Export Prelude.

(** ** Text *)

Definition newline : string := String "010"%char "".
Definition quoted (s : string) : string := String "034"%char (s +:+ String "034"%char "").

(** Lines, each with its end. *)
Definition unlines (ls : list string) : string := foldr (λ l s, l +:+ newline +:+ s) "" ls.

(** A raw string literal that starts with a line break. *)
Definition literal (ls : list string) : string := unlines ("" :: ls).

Definition filter_lines : list string :=
  [ "          - name: envoy.filters.http.platform_bridge";
    "            typed_config:";
    "              " +:+ quoted "@type" +:+ ": type.googleapis.com/envoymobile.extensions.filters.http.platform_bridge.PlatformBridge";
    "              platform_filter_name: {{ platform_filter_name }}" ].

Definition platform_filter_template : string := literal filter_lines.

Definition config_head : list string :=
  [ "static_resources:";
    "  listeners:";
    "  - name: base_api_listener";
    "    address:";
    "      socket_address:";
    "        protocol: TCP";
    "        address: 0.0.0.0";
    "        port_value: 10000";
    "    api_listener:";
    "      api_listener:";
    "        " +:+ quoted "@type" +:+ ": type.googleapis.com/envoy.extensions.filters.network.http_connection_manager.v3.HttpConnectionManager";
    "        stat_prefix: hcm";
    "        route_config:";
    "          name: api_router";
    "          virtual_hosts:";
    "            - name: api";
    "              include_attempt_count_in_response: true";
    "              virtual_clusters: {{ virtual_clusters }}";
    "              domains:";
    "                - " +:+ quoted "*";
    "              routes:";
    "                - match:";
    "                    prefix: " +:+ quoted "/";
    "                  route:";
    "                    cluster_header: x-envoy-mobile-cluster";
    "                    retry_policy:";
    "                      retry_back_off:";
    "                        base_interval: 0.25s";
    "                        max_interval: 60s";
    "        http_filters:";
    "{{ platform_filter_chain }}";
    "          - name: envoy.filters.http.dynamic_forward_proxy";
    "            typed_config:";
    "              " +:+ quoted "@type" +:+ ": type.googleapis.com/envoy.extensions.filters.http.dynamic_forward_proxy.v3.FilterConfig";
    "              dns_cache_config: &dns_cache_config";
    "                name: dynamic_forward_proxy_cache_config";
    "                # TODO: Support IPV6 https://github.com/lyft/envoy-mobile/issues/1022";
    "                dns_lookup_family: V4_ONLY";
    "                dns_refresh_rate: {{ dns_refresh_rate_seconds }}s";
    "                dns_failure_refresh_rate:";
    "                  base_interval: {{ dns_failure_refresh_rate_seconds_base }}s";
    "                  max_interval: {{ dns_failure_refresh_rate_seconds_max }}s";
    "          # TODO: make this configurable for users.";
    "          - name: envoy.filters.http.decompressor";
    "            typed_config:";
    "              " +:+ quoted "@type" +:+ ": type.googleapis.com/envoy.extensions.filters.http.decompressor.v3.Decompressor";
    "              decompressor_library:";
    "                name: gzip";
    "                typed_config:";
    "                  " +:+ quoted "@type" +:+ ": type.googleapis.com/envoy.extensions.compression.gzip.decompressor.v3.Gzip";
    "                  # Maximum window bits to allow for any stream to be decompressed. Optimally this";
    "                  # would be set to 0. According to the zlib manual this would allow the decompressor";
    "                  # to use the window bits in the zlib header to perform the decompression.";
    "                  # Unfortunately, the proto field constraint makes this impossible currently.";
    "                  window_bits: 15";
    "              request_direction_config:";
    "                common_config:";
    "                  enabled:";
    "                    default_value: false";
    "                    runtime_key: request_decompressor_enabled";
    "          - name: envoy.router";
    "            typed_config:";
    "              " +:+ quoted "@type" +:+ ": type.googleapis.com/envoy.extensions.filters.http.router.v3.Router";
    "  clusters:";
    "  - name: base";
    "    connect_timeout: {{ connect_timeout_seconds }}s";
    "    lb_policy: CLUSTER_PROVIDED";
    "    cluster_type:";
    "      name: envoy.clusters.dynamic_forward_proxy";
    "      typed_config:";
    "        " +:+ quoted "@type" +:+ ": type.googleapis.com/envoy.extensions.clusters.dynamic_forward_proxy.v3.ClusterConfig";
    "        dns_cache_config: *dns_cache_config";
    "    transport_socket: &base_transport_socket";
    "      name: envoy.transport_sockets.tls";
    "      typed_config:";
    "        " +:+ quoted "@type" +:+ ": type.googleapis.com/envoy.extensions.transport_sockets.tls.v3.UpstreamTlsContext";
    "        common_tls_context:";
    "          validation_context:";
    "            trusted_ca:";
    "              inline_string: |" ].

Definition config_tail : list string :=
  [ "    upstream_connection_options: &upstream_opts";
    "      tcp_keepalive:";
    "        keepalive_interval: 10";
    "        keepalive_probes: 1";
    "        keepalive_time: 5";
    "    circuit_breakers: &circuit_breakers_settings";
    "      thresholds:";
    "        - priority: DEFAULT";
    "          # n.b: with mobile clients there are scenarios where all concurrent requests might be";
    "          # retries (e.g., when the phone goes offline). Therefore, Envoy Mobile allows for the same";
    "          # amount of concurrency for retries as the default value for concurrency for requests.";
    "          # This configuration uses the default for max concurrent requests (1024) because there is";
    "          # no reasonable scenario where a mobile client should have even close to that many concurrent";
    "          # requests.";
    "          #";
    "          # `max_retries` could be used but maintainers advised against it, as there are plans to";
    "          # deprecate that setting.";
    "          # https://github.com/lyft/envoy-mobile/pull/811#issuecomment-619169529.";
    "          retry_budget:";
    "            budget_percent:";
    "              value: 100";
    "            min_retry_concurrency: 1024";
    "  - name: base_wlan";
    "    connect_timeout: {{ connect_timeout_seconds }}s";
    "    lb_policy: CLUSTER_PROVIDED";
    "    cluster_type:";
    "      name: envoy.clusters.dynamic_forward_proxy";
    "      typed_config:";
    "        " +:+ quoted "@type" +:+ ": type.googleapis.com/envoy.extensions.clusters.dynamic_forward_proxy.v3.ClusterConfig";
    "        dns_cache_config: *dns_cache_config";
    "    transport_socket: *base_transport_socket";
    "    upstream_connection_options: *upstream_opts";
    "    circuit_breakers: *circuit_breakers_settings";
    "  - name: base_wwan";
    "    connect_timeout: {{ connect_timeout_seconds }}s";
    "    lb_policy: CLUSTER_PROVIDED";
    "    cluster_type:";
    "      name: envoy.clusters.dynamic_forward_proxy";
    "      typed_config:";
    "        " +:+ quoted "@type" +:+ ": type.googleapis.com/envoy.extensions.clusters.dynamic_forward_proxy.v3.ClusterConfig";
    "        dns_cache_config: *dns_cache_config";
    "    transport_socket: *base_transport_socket";
    "    upstream_connection_options: *upstream_opts";
    "    circuit_breakers: *circuit_breakers_settings";
    "  - name: base_h2";
    "    http2_protocol_options: {}";
    "    connect_timeout: {{ connect_timeout_seconds }}s";
    "    lb_policy: CLUSTER_PROVIDED";
    "    cluster_type:";
    "      name: envoy.clusters.dynamic_forward_proxy";
    "      typed_config:";
    "        " +:+ quoted "@type" +:+ ": type.googleapis.com/envoy.extensions.clusters.dynamic_forward_proxy.v3.ClusterConfig";
    "        dns_cache_config: *dns_cache_config";
    "    transport_socket: *base_transport_socket";
    "    upstream_connection_options: *upstream_opts";
    "    circuit_breakers: *circuit_breakers_settings";
    "  - name: base_wlan_h2";
    "    http2_protocol_options: {}";
    "    connect_timeout: {{ connect_timeout_seconds }}s";
    "    lb_policy: CLUSTER_PROVIDED";
    "    cluster_type:";
    "      name: envoy.clusters.dynamic_forward_proxy";
    "      typed_config:";
    "        " +:+ quoted "@type" +:+ ": type.googleapis.com/envoy.extensions.clusters.dynamic_forward_proxy.v3.ClusterConfig";
    "        dns_cache_config: *dns_cache_config";
    "    transport_socket: *base_transport_socket";
    "    upstream_connection_options: *upstream_opts";
    "    circuit_breakers: *circuit_breakers_settings";
    "  - name: base_wwan_h2";
    "    http2_protocol_options: {}";
    "    connect_timeout: {{ connect_timeout_seconds }}s";
    "    lb_policy: CLUSTER_PROVIDED";
    "    cluster_type:";
    "      name: envoy.clusters.dynamic_forward_proxy";
    "      typed_config:";
    "        " +:+ quoted "@type" +:+ ": type.googleapis.com/envoy.extensions.clusters.dynamic_forward_proxy.v3.ClusterConfig";
    "        dns_cache_config: *dns_cache_config";
    "    transport_socket: *base_transport_socket";
    "    upstream_connection_options: *upstream_opts";
    "    circuit_breakers: *circuit_breakers_settings";
    "  - name: stats";
    "    connect_timeout: {{ connect_timeout_seconds }}s";
    "    dns_refresh_rate: {{ dns_refresh_rate_seconds }}s";
    "    http2_protocol_options: {}";
    "    lb_policy: ROUND_ROBIN";
    "    load_assignment:";
    "      cluster_name: stats";
    "      endpoints:";
    "        - lb_endpoints:";
    "            - endpoint:";
    "                address:";
    "                  socket_address: {address: {{ stats_domain }}, port_value: 443}";
    "    transport_socket: *base_transport_socket";
    "    type: LOGICAL_DNS";
    "stats_flush_interval: {{ stats_flush_interval_seconds }}s";
    "stats_sinks:";
    "  - name: envoy.metrics_service";
    "    typed_config:";
    "      " +:+ quoted "@type" +:+ ": type.googleapis.com/envoy.config.metrics.v3.MetricsServiceConfig";
    "      report_counters_as_deltas: true";
    "      grpc_service:";
    "        envoy_grpc:";
    "          cluster_name: stats";
    "stats_config:";
    "  stats_matcher:";
    "    inclusion_list:";
    "      patterns:";
    "        - safe_regex:";
    "            google_re2: {}";
    "            regex: '^cluster\.[\w]+?\.upstream_cx_[\w]+'";
    "        - safe_regex:";
    "            google_re2: {}";
    "            regex: '^cluster\.[\w]+?\.upstream_rq_[\w]+'";
    "        - safe_regex:";
    "            google_re2: {}";
    "            regex: '^http.dispatcher.*'";
    "        - safe_regex:";
    "            google_re2: {}";
    "            regex: '^client.*'";
    "        - safe_regex:";
    "            google_re2: {}";
    "            regex: '^http.hcm.decompressor.*'";
    "        - safe_regex:";
    "            google_re2: {}";
    "            regex: '^http.hcm.downstream_rq_(?:[12345]xx|total|completed)'";
    "        - safe_regex:";
    "            google_re2: {}";
    "            regex: '^vhost.api.vcluster\.[\w]+?\.upstream_rq_(?:[12345]xx|retry.*|time|timeout|total)'";
    "watchdog:";
    "  megamiss_timeout: 60s";
    "  miss_timeout: 60s";
    "node:";
    "  metadata:";
    "    app_id : {{ app_id }}";
    "    app_version : {{ app_version }}";
    "    os: {{ device_os }}";
    "# Needed due to warning in https://github.com/envoyproxy/envoy/blob/6eb7e642d33f5a55b63c367188f09819925fca34/source/server/server.cc#L546";
    "layered_runtime:";
    "  layers:";
    "    - name: static_layer_0";
    "      static_layer:";
    "        overload:";
    "          global_downstream_max_connections: 50000" ].

Definition config_template (certificates : list string) : string :=
  literal config_head +:+ literal certificates +:+ literal config_tail.

Definition config_lines (certificates : list string) : list string :=
  "" :: config_head ++ "" :: certificates ++ "" :: config_tail.

Lemma append_assoc (s1 s2 s3 : string) : (s1 +:+ s2) +:+ s3 = s1 +:+ s2 +:+ s3.
Proof. induction s1 as [|c s1 IH]; [done|].
  change (String c ((s1 +:+ s2) +:+ s3) = String c (s1 +:+ s2 +:+ s3)). by rewrite IH.
Qed.

Lemma unlines_app ls1 ls2 : unlines (ls1 ++ ls2) = unlines ls1 +:+ unlines ls2.
Proof.
  unfold unlines. induction ls1 as [|l ls1 IH]; [done|]. cbn. by rewrite IH, !append_assoc.
Qed.

Lemma config_template_lines certificates :
  config_template certificates = unlines (config_lines certificates).
Proof.
  unfold config_template, literal. rewrite <- !unlines_app. unfold config_lines.
  by rewrite <- app_comm_cons, <- app_comm_cons.
Qed.

(** ** Reading the configuration *)

(** What follows the prefix [p]. *)
Fixpoint after (p s : string) : option string :=
  match p, s with
  | "", _ => Some s
  | String a p, String b s => if decide (a = b) then after p s else None
  | String _ _, "" => None
  end.

(** The header whose value names the cluster of a request, in the one route. *)
Definition route_header (ls : list string) : option string :=
  head (omap (after "                    cluster_header: ") ls).

(** The lines below the line [key]. *)
Fixpoint below (key : string) (ls : list string) : list string :=
  match ls with
  | [] => []
  | l :: ls => if decide (l = key) then ls else below key ls
  end.

(** The lines up to the first that is neither blank nor indented. *)
Definition indented (l : string) : bool :=
  bool_decide (l = "") || bool_decide (is_Some (after "  " l)).
Fixpoint block (ls : list string) : list string :=
  match ls with
  | [] => []
  | l :: ls => if indented l then l :: block ls else []
  end.

(** The items of a list of mappings: each has its name and the lines below it. *)
Definition item_step (l : string) (st : list string * list (string * list string))
    : list string * list (string * list string) :=
  match after "  - name: " l with
  | Some name => ([], (name, st.1) :: st.2)
  | None => (l :: st.1, st.2)
  end.
Definition items (ls : list string) : list (string * list string) :=
  (foldr item_step ([], []) ls).2.

(** The clusters of the static resources. *)
Definition clusters (certificates : list string) : list (string * list string) :=
  items (block (below "  clusters:" (config_lines certificates))).

Definition http2_line : string := "    http2_protocol_options: {}".

(** The cluster speaks HTTP/2 to its hosts. *)
Definition speaks_http2 (c : string * list string) : Prop :=
  http2_line ∈ c.2.

(** certificates.inc is the text of a block scalar: blank or deeply indented lines. *)
Definition certificate_line (l : string) : Prop :=
  l = "" ∨ is_Some (after "                " l).

(** *** What it says *)

Section reading.
Context (certificates : list string) (Hcerts : Forall certificate_line certificates).

Lemma after_app p q s : after (p +:+ q) s = after p s ≫= after q.
Proof.
  revert s. induction p as [|a p IH]; intros s; [done|].
  destruct s as [|b s]; [done|]. change (String a p +:+ q) with (String a (p +:+ q)).
  cbn. case_decide; [apply IH|done].
Qed.

Lemma certificate_indented l : certificate_line l → indented l = true.
Proof.
  unfold indented. intros [->|[x Hx]]; [done|]. apply orb_true_iff. right.
  apply bool_decide_eq_true. change (after ("  " +:+ "              ") l = Some x) in Hx.
  rewrite after_app in Hx. by destruct (after "  " l).
Qed.

Lemma certificate_no_item l : certificate_line l → after "  - name: " l = None.
Proof.
  intros [->|[x Hx]]; [done|]. destruct l as [|a [|b [|c l]]]; try done; cbn in *;
    by repeat case_decide; simplify_eq.
Qed.

Lemma certificate_not_http2 l : certificate_line l → l ≠ http2_line.
Proof. intros [->|[x Hx]] Hl; [done|]. by rewrite Hl in Hx. Qed.

Lemma below_app key ls1 ls2 :
  key ∈ ls1 → below key (ls1 ++ ls2) = below key ls1 ++ ls2.
Proof.
  induction ls1 as [|l ls1 IH]; [by intros ?%not_elem_of_nil|]. cbn.
  case_decide as Heq; [done|]. intros [->|Hin]%elem_of_cons; [done|by apply IH].
Qed.

Lemma block_app ls1 ls2 :
  Forall (λ l, indented l = true) ls1 → block (ls1 ++ ls2) = ls1 ++ block ls2.
Proof. induction 1 as [|l ls1 Hl H1 IH]; [done|]. cbn. by rewrite Hl, IH. Qed.

Lemma item_steps_plain ls st :
  Forall (λ l, after "  - name: " l = None) ls →
  foldr item_step st ls = (ls ++ st.1, st.2).
Proof.
  induction 1 as [|l ls Hl H1 IH]; [by destruct st|]. cbn. unfold item_step at 1.
  by rewrite Hl, IH.
Qed.

(** A section whose first item starts before the lines [cs] and ends after them. *)
Lemma items_around key pre cs post hd name rest :
  key ∈ pre → below key pre = hd :: rest → after "  - name: " hd = Some name →
  Forall (λ l, indented l = true) (hd :: rest) → Forall (λ l, indented l = true) cs →
  Forall (λ l, after "  - name: " l = None) rest →
  Forall (λ l, after "  - name: " l = None) cs →
  items (block (below key (pre ++ cs ++ post))) =
    (name, rest ++ cs ++ (foldr item_step ([], []) (block post)).1) ::
    (foldr item_step ([], []) (block post)).2.
Proof.
  intros Hkey Hbelow Hhd Hi1 Hi2 Hr Hc. unfold items.
  rewrite below_app, Hbelow, block_app, block_app by done.
  rewrite foldr_app, (foldr_app _ _ item_step cs), (item_steps_plain cs) by done.
  cbn [foldr]. rewrite (item_steps_plain rest) by done. unfold item_step at 1. by rewrite Hhd.
Qed.

(** The clusters, by where their lines stand. *)
Definition base_lines : list string := below "  - name: base" (config_head ++ [""]).
Definition tail_items : list string * list (string * list string) :=
  foldr item_step ([], []) (block ("" :: config_tail)).

Lemma clusters_eq :
  clusters certificates =
  ("base", base_lines ++ certificates ++ tail_items.1) :: tail_items.2.
Proof.
  assert (config_lines certificates =
    ("" :: config_head ++ [""]) ++ certificates ++ "" :: config_tail) as Hl.
  { unfold config_lines. by rewrite <- app_comm_cons, <- app_assoc. }
  unfold clusters. rewrite Hl.
  apply (items_around "  clusters:" ("" :: config_head ++ [""]) certificates ("" :: config_tail)
    "  - name: base").
  - apply list_elem_of_In. vm_compute. tauto.
  - vm_compute. reflexivity.
  - reflexivity.
  - vm_compute. repeat constructor.
  - eapply Forall_impl; [exact Hcerts|]. apply certificate_indented.
  - vm_compute. repeat constructor.
  - eapply Forall_impl; [exact Hcerts|]. apply certificate_no_item.
Qed.

Lemma cluster_names : (clusters certificates).*1 =
  ["base"; "base_wlan"; "base_wwan"; "base_h2"; "base_wlan_h2"; "base_wwan_h2"; "stats"].
Proof. rewrite clusters_eq. vm_compute. reflexivity. Qed.

(** The first cluster, around the certificates, has no HTTP/2 options. *)
Lemma base_lines_http1 : bool_decide (http2_line ∈ base_lines ++ tail_items.1) = false.
Proof. vm_compute. reflexivity. Qed.

Lemma base_http1 : ¬ speaks_http2 ("base", base_lines ++ certificates ++ tail_items.1).
Proof.
  pose proof base_lines_http1 as Hno. apply bool_decide_eq_false in Hno.
  unfold speaks_http2. cbn [snd]. rewrite elem_of_app in Hno. rewrite !elem_of_app.
  intros [Hin|[Hin|Hin]]; [by apply Hno; left| |by apply Hno; right].
  eapply Forall_forall in Hin; [|exact Hcerts]. by apply certificate_not_http2 in Hin.
Qed.

Lemma route_header_eq : route_header (config_lines certificates) = Some "x-envoy-mobile-cluster".
Proof. vm_compute. reflexivity. Qed.
End reading.
