(* ===== verification/Configuration.v ===== *)
(** * Resolving the configuration template

    Models EnvoyConfiguration.resolveTemplate of
    library/java/src/io/envoyproxy/envoymobile/engine/EnvoyConfiguration.java, which
    turns the template of config_template.cc into the configuration the engine runs:
    every key between double braces is replaced, and what is still in double braces at
    the end is an error. *)

From Stdlib Require Import Strings.Ascii.
From stdpp Require Import pretty.
From S2P Require Export ConfigTemplate.

(** ** java.lang.String *)

(** [s.startsWith(p)]. *)
Definition startsWith (p s : string) : bool := bool_decide (is_Some (after p s)).

(** [s.replace(target, replacement)], for a target that is not empty: every occurrence
    from the left, none inside a replacement. [skip] characters of an occurrence are
    still to be passed. *)
Fixpoint replace (target replacement : string) (skip : nat) (s : string) : string :=
  match s with
  | "" => ""
  | String c s' =>
      match skip with
      | S skip => replace target replacement skip s'
      | O =>
          if startsWith target s
          then replacement +:+ replace target replacement (String.length target - 1) s'
          else String c (replace target replacement 0 s')
      end
  end.

(** [s.contains(p)]. *)
Fixpoint contains (p s : string) : bool :=
  startsWith p s || match s with "" => false | String _ s => contains p s end.

(** ** EnvoyConfiguration *)

(** The fields are not null. The filter factories are given by their names. *)
Record EnvoyConfiguration := {
  statsDomain : string;
  connectTimeoutSeconds : Z;
  dnsRefreshSeconds : Z;
  dnsFailureRefreshSecondsBase : Z;
  dnsFailureRefreshSecondsMax : Z;
  httpFilterFactories : list string;
  statsFlushSeconds : Z;
  appVersion : string;
  appId : string;
  virtualClusters : string
}.

(** A key of the template. *)
Definition key (name : string) : string := "{{ " +:+ name +:+ " }}".

Definition filterConfigChain (c : EnvoyConfiguration) (filterTemplateYAML : string) : string :=
  foldl (λ builder name,
    builder +:+ replace (key "platform_filter_name") name 0 filterTemplateYAML)
    "" (httpFilterFactories c).

(** The replacements, in order. [String.format] prints an int in decimal. *)
Definition replacements (c : EnvoyConfiguration) (filterTemplateYAML : string)
    : list (string * string) :=
  [ ("stats_domain", statsDomain c);
    ("platform_filter_chain", filterConfigChain c filterTemplateYAML);
    ("connect_timeout_seconds", pretty (connectTimeoutSeconds c));
    ("dns_refresh_rate_seconds", pretty (dnsRefreshSeconds c));
    ("dns_failure_refresh_rate_seconds_base", pretty (dnsFailureRefreshSecondsBase c));
    ("dns_failure_refresh_rate_seconds_max", pretty (dnsFailureRefreshSecondsMax c));
    ("stats_flush_interval_seconds", pretty (statsFlushSeconds c));
    ("device_os", "Android");
    ("app_version", appVersion c);
    ("app_id", appId c);
    ("virtual_clusters", virtualClusters c) ].

Definition resolveTemplate (c : EnvoyConfiguration) (templateYAML filterTemplateYAML : string)
    : result string :=
  let resolvedConfiguration :=
    foldl (λ s r, replace (key r.1) r.2 0 s) templateYAML (replacements c filterTemplateYAML) in
  if contains "{{" resolvedConfiguration then Fault (Thrown "Unresolved Template Key")
  else Ok resolvedConfiguration.

(** ** Templates as text and keys *)

Inductive piece := Text (t : string) | Key (name : string).

Definition render_piece (p : piece) : string :=
  match p with Text t => t | Key name => key name end.
Definition render (ps : list piece) : string := foldr (λ p s, render_piece p +:+ s) "" ps.

Definition fill (name value : string) (ps : list piece) : list piece :=
  (λ p, if p is Key n then if decide (n = name) then Text value else p else p) <$> ps.

(** Text that no key can begin in: no double brace, and no brace at its end. *)
Fixpoint plain (t : string) : bool :=
  match t with
  | "" => true
  | String c t' =>
      (if decide (c = "{"%char) then
         match t' with "" => false | String d _ => bool_decide (d ≠ "{"%char) end
       else true) && plain t'
  end.

(** The names of keys have no brace and no space. *)
Fixpoint plain_name (n : string) : bool :=
  match n with
  | "" => true
  | String c n => bool_decide (c ≠ "{"%char ∧ c ≠ " "%char) && plain_name n
  end.

Definition piece_ok (p : piece) : bool :=
  match p with Text t => plain t | Key name => plain_name name end.

(** The pieces of a string. *)
Fixpoint split_key (s : string) : string * string :=
  match s with
  | "" => ("", "")
  | String c s' =>
      match after " }}" s with
      | Some rest => ("", rest)
      | None => let '(name, rest) := split_key s' in (String c name, rest)
      end
  end.
Fixpoint pieces (fuel : nat) (text s : string) : list piece :=
  match fuel with
  | O => [Text (text +:+ s)]
  | S fuel =>
      match after "{{ " s with
      | Some s' => let '(name, rest) := split_key s' in
          Text text :: Key name :: pieces fuel "" rest
      | None =>
          match s with
          | "" => [Text text]
          | String c s' => pieces fuel (text +:+ String c "") s'
          end
      end
  end.
Definition parse (s : string) : list piece := pieces (String.length s) "" s.

(** ** Lemmas *)

(** *** Strings *)

Lemma append_cons c (s t : string) : String c s +:+ t = String c (s +:+ t).
Proof. done. Qed.
Lemma append_nil (s : string) : "" +:+ s = s.
Proof. done. Qed.
Lemma append_nil_r (s : string) : s +:+ "" = s.
Proof. induction s as [|c s IH]; [done|]. by rewrite append_cons, IH. Qed.

Lemma after_refl p s : after p (p +:+ s) = Some s.
Proof.
  induction p as [|c p IH]; [done|]. rewrite append_cons. cbn. by rewrite decide_True.
Qed.

Lemma startsWith_append p s : startsWith p (p +:+ s) = true.
Proof. unfold startsWith. by rewrite after_refl. Qed.

Lemma startsWith_cons a p c s :
  startsWith (String a p) (String c s) = bool_decide (a = c) && startsWith p s.
Proof.
  unfold startsWith. cbn. destruct (decide (a = c)) as [Heq|Hne].
  - by rewrite (bool_decide_eq_true_2 (a = c)).
  - by rewrite (bool_decide_eq_false_2 (a = c)) by done.
Qed.

Lemma replace_skip target v p s :
  replace target v (String.length p) (p +:+ s) = replace target v 0 s.
Proof. induction p as [|c p IH]; [done|]. rewrite append_cons. cbn. apply IH. Qed.

Lemma plain_append t1 t2 : plain t1 = true → plain t2 = true → plain (t1 +:+ t2) = true.
Proof.
  induction t1 as [|c t1 IH]; [done|]. intros [Hc H1]%andb_true_iff H2.
  rewrite append_cons. cbn. rewrite IH by done. rewrite andb_true_r.
  case_decide; [|done]. by destruct t1.
Qed.

(** Nothing that begins with a double brace begins in plain text. *)
Lemma plain_no_start x c t s :
  plain (String c t) = true → startsWith ("{{" +:+ x) (String c (t +:+ s)) = false.
Proof.
  intros [Hc _]%andb_true_iff.
  change ("{{" +:+ x) with (String "{" (String "{" x)). rewrite startsWith_cons.
  case_bool_decide as Heq; [|done]. subst c. rewrite decide_True in Hc by done.
  destruct t as [|d t]; [done|]. apply bool_decide_eq_true in Hc.
  rewrite append_cons, startsWith_cons. by rewrite bool_decide_eq_false_2 by congruence.
Qed.

Lemma replace_plain x v t s :
  plain t = true → replace ("{{" +:+ x) v 0 (t +:+ s) = t +:+ replace ("{{" +:+ x) v 0 s.
Proof.
  induction t as [|c t IH]; intros Ht; [done|]. rewrite !(append_cons c t).
  cbn [replace]. rewrite plain_no_start by done. f_equal. apply IH.
  by apply andb_true_iff in Ht as [_ ?].
Qed.

Lemma contains_plain t s : plain t = true → contains "{{" (t +:+ s) = contains "{{" s.
Proof.
  induction t as [|c t IH]; intros Ht; [done|]. rewrite append_cons. cbn [contains].
  pose proof (plain_no_start "" c t s Ht) as Hno. change ("{{" +:+ "") with "{{" in Hno.
  rewrite Hno. cbn. apply IH. by apply andb_true_iff in Ht as [_ ?].
Qed.

(** *** Keys *)

Lemma key_eq n : key n = "{{" +:+ (" " +:+ n +:+ " }}").
Proof. done. Qed.

(** Past its first brace, a key is plain. *)
Definition key_rest (n : string) : string := "{ " +:+ n +:+ " }}".
Lemma key_cons n : key n = String "{" (key_rest n).
Proof. done. Qed.
Lemma plain_key_rest n : plain_name n = true → plain (key_rest n) = true.
Proof.
  intros Hn. change (plain ("{ " +:+ (n +:+ " }}")) = true).
  apply plain_append; [done|]. apply plain_append; [|done].
  induction n as [|c n IH]; [done|]. apply andb_true_iff in Hn as [Hc Hn].
  apply bool_decide_eq_true in Hc as [Hc _]. cbn. rewrite decide_False by done. by apply IH.
Qed.

Lemma names_differ n m x y :
  plain_name n = true → plain_name m = true →
  startsWith (n +:+ " " +:+ x) (m +:+ " " +:+ y) = true → n = m.
Proof.
  revert m. induction n as [|c n IH]; intros [|d m] Hn Hm; [done|..];
    rewrite ?append_nil, ?append_cons.
  - apply andb_true_iff in Hm as [[_ Hd]%bool_decide_eq_true _].
    change (" " +:+ x) with (String " " x). by rewrite startsWith_cons, bool_decide_eq_false_2 by congruence.
  - apply andb_true_iff in Hn as [[_ Hc]%bool_decide_eq_true _].
    change (" " +:+ y) with (String " " y). by rewrite startsWith_cons, bool_decide_eq_false_2 by congruence.
  - apply andb_true_iff in Hn as [_ Hn]. apply andb_true_iff in Hm as [_ Hm].
    rewrite startsWith_cons. intros [->%bool_decide_eq_true Hs]%andb_true_iff.
    f_equal. by apply IH.
Qed.

Lemma key_starts n m s :
  plain_name n = true → plain_name m = true →
  startsWith (key n) (key m +:+ s) = bool_decide (m = n).
Proof.
  intros Hn Hm. case_bool_decide as Heq; [subst; apply startsWith_append|].
  apply not_true_is_false. intros Hs. apply Heq. symmetry.
  apply (names_differ n m "}}" ("}}" +:+ s)); [done..|].
  unfold key in Hs. rewrite !append_assoc in Hs. exact Hs.
Qed.

(** *** Replacing a key *)

Lemma replace_key n v m s :
  plain_name n = true → plain_name m = true →
  replace (key n) v 0 (key m +:+ s) =
  (if decide (m = n) then v else key m) +:+ replace (key n) v 0 s.
Proof.
  intros Hn Hm. rewrite (key_cons m), append_cons. cbn [replace].
  rewrite <- append_cons, <- key_cons, key_starts by done.
  case_decide as Heq; [rewrite bool_decide_eq_true_2 by done|rewrite bool_decide_eq_false_2 by done].
  - subst m. f_equal. rewrite key_cons. cbn [String.length].
    rewrite Nat.sub_succ, Nat.sub_0_r. apply replace_skip.
  - rewrite (key_cons m), append_cons. f_equal. rewrite key_eq. by apply replace_plain, plain_key_rest.
Qed.

Lemma replace_render n v ps :
  plain_name n = true → forallb piece_ok ps = true →
  replace (key n) v 0 (render ps) = render (fill n v ps).
Proof.
  intros Hn. induction ps as [|p ps IH]; [done|]. intros [Hp Hps]%andb_true_iff.
  cbn [render foldr]. destruct p as [t|m].
  - cbn [render_piece]. rewrite key_eq, replace_plain, <- key_eq by done.
    cbn. f_equal. by apply IH.
  - cbn [render_piece]. rewrite replace_key by done. cbn.
    case_decide; cbn; f_equal; by apply IH.
Qed.

(** *** Resolving all keys *)

Definition fills (rs : list (string * string)) (ps : list piece) : list piece :=
  foldl (λ ps r, fill r.1 r.2 ps) ps rs.

(** The names of the keys of a template. *)
Definition key_names (ps : list piece) : list string :=
  omap (λ p, if p is Key n then Some n else None) ps.

Lemma elem_of_key_names ps n : n ∈ key_names ps ↔ Key n ∈ ps.
Proof.
  unfold key_names. rewrite list_elem_of_omap. split.
  - intros ([t|m] & Hin & [= ->]). done.
  - intros Hin. by exists (Key n).
Qed.

(** A replacement that leaves no trace of keys of its own. *)
Definition replacement_ok (r : string * string) : Prop :=
  plain_name r.1 = true ∧ plain r.2 = true.

Lemma fill_ok n v ps :
  plain v = true → forallb piece_ok ps = true → forallb piece_ok (fill n v ps) = true.
Proof.
  intros Hv. induction ps as [|p ps IH]; [done|]. intros [Hp Hps]%andb_true_iff.
  cbn. apply andb_true_iff. split; [|by apply IH]. destruct p as [t|m]; [done|]. by case_decide.
Qed.

Lemma replace_all_render rs ps :
  Forall replacement_ok rs → forallb piece_ok ps = true →
  foldl (λ s r, replace (key r.1) r.2 0 s) (render ps) rs = render (fills rs ps) ∧
  forallb piece_ok (fills rs ps) = true.
Proof.
  intros Hrs. revert ps. induction Hrs as [|r rs [Hn Hv] Hrs IH]; intros ps Hps; [done|].
  cbn [foldl]. rewrite replace_render by done. apply IH. by apply fill_ok.
Qed.

Lemma key_in_fill n v ps m : Key m ∈ fill n v ps ↔ Key m ∈ ps ∧ m ≠ n.
Proof.
  unfold fill. rewrite list_elem_of_fmap. split.
  - intros ([t|m'] & Heq & Hin); [done|]. case_decide; [done|]. by injection Heq as ->.
  - intros [Hin Hne]. exists (Key m). by rewrite decide_False.
Qed.

Lemma key_in_fills rs ps m : Key m ∈ fills rs ps ↔ Key m ∈ ps ∧ m ∉ rs.*1.
Proof.
  revert ps. induction rs as [|r rs IH]; intros ps; cbn.
  - rewrite elem_of_nil. tauto.
  - unfold fills in IH. rewrite IH, key_in_fill, not_elem_of_cons. tauto.
Qed.

Lemma contains_app_r p t s : contains p s = true → contains p (t +:+ s) = true.
Proof.
  intros Hs. induction t as [|c t IH]; [done|]. rewrite append_cons. cbn [contains].
  rewrite IH. apply orb_true_r.
Qed.

Lemma contains_key ps m :
  Key m ∈ ps → contains "{{" (render ps) = true.
Proof.
  induction ps as [|p ps IH]; [by intros ?%not_elem_of_nil|].
  intros [<-|Hin]%elem_of_cons; [done|]. by apply contains_app_r, IH.
Qed.

Lemma render_no_key ps :
  forallb piece_ok ps = true → (∀ m, Key m ∉ ps) → plain (render ps) = true.
Proof.
  induction ps as [|p ps IH]; [done|]. intros [Hp Hps]%andb_true_iff Hno.
  destruct p as [t|m]; [|by destruct (Hno m); left].
  apply plain_append; [done|]. apply IH; [done|]. intros m Hm. apply (Hno m). by right.
Qed.

Lemma contains_no_key ps :
  forallb piece_ok ps = true → (∀ m, Key m ∉ ps) → contains "{{" (render ps) = false.
Proof.
  intros Hps Hno. rewrite <- (append_nil_r (render ps)).
  by rewrite contains_plain by (by apply render_no_key).
Qed.

(** Resolution, of any template: the keys that are known are replaced, and the
    result is an error exactly if there are others. *)
Lemma resolveTemplate_run c f ps :
  Forall replacement_ok (replacements c f) → forallb piece_ok ps = true →
  let known := (replacements c f).*1 in
  (key_names ps ⊆ known →
    resolveTemplate c (render ps) f = Ok (render (fills (replacements c f) ps))) ∧
  (∀ n, n ∈ key_names ps → n ∉ known →
    resolveTemplate c (render ps) f = Fault (Thrown "Unresolved Template Key")).
Proof.
  intros Hrs Hps known. unfold resolveTemplate.
  destruct (replace_all_render _ _ Hrs Hps) as [-> Hok]. split.
  - intros Hall. rewrite contains_no_key; [done..|].
    intros m [Hin%elem_of_key_names Hm]%key_in_fills. by apply Hm, Hall.
  - intros n Hin%elem_of_key_names Hn. by rewrite (contains_key _ n) by (by apply key_in_fills).
Qed.

(** *** The built-in templates *)

Lemma render_cons p ps : render (p :: ps) = render_piece p +:+ render ps.
Proof. done. Qed.

Lemma render_app ps1 ps2 : render (ps1 ++ ps2) = render ps1 +:+ render ps2.
Proof.
  induction ps1 as [|p ps1 IH]; [done|].
  by rewrite <- app_comm_cons, !render_cons, append_assoc, IH.
Qed.

Definition config_pieces (certificates : list string) : list piece :=
  parse (literal config_head) ++ Text (literal certificates) :: parse (literal config_tail).

Lemma config_pieces_render certificates :
  render (config_pieces certificates) = config_template certificates.
Proof.
  unfold config_pieces, config_template. rewrite render_app.
  assert (render (parse (literal config_head)) = literal config_head) as ->
    by (vm_compute; reflexivity).
  assert (render (parse (literal config_tail)) = literal config_tail) as Htail
    by (vm_compute; reflexivity).
  rewrite render_cons, Htail. reflexivity.
Qed.

Lemma plain_unlines ls : forallb plain ls = true → plain (unlines ls) = true.
Proof.
  induction ls as [|l ls IH]; [done|]. intros [Hl Hls]%andb_true_iff.
  cbn [unlines foldr]. apply plain_append; [done|]. apply plain_append; [done|]. by apply IH.
Qed.

Lemma config_pieces_ok certificates :
  forallb plain certificates = true → forallb piece_ok (config_pieces certificates) = true.
Proof.
  intros Hc. unfold config_pieces. rewrite forallb_app. apply andb_true_iff.
  split; [vm_compute; reflexivity|]. cbn [forallb]. apply andb_true_iff.
  split; [by apply plain_unlines|]. vm_compute. reflexivity.
Qed.

(** *** Values without braces *)

Lemma plain_digit x s : plain s = true → plain (String (pretty_N_char x) s) = true.
Proof.
  intros Hs. cbn. rewrite decide_False; [done|]. unfold pretty_N_char.
  by repeat case_match.
Qed.

Lemma plain_pretty_N (x : N) : plain (pretty x) = true.
Proof.
  unfold pretty, pretty_N. case_decide; [done|].
  assert (Hgo : ∀ s, plain s = true → plain (pretty_N_go x s) = true); [|by apply Hgo].
  clear. induction (N.lt_wf_0 x) as [x _ IH]; intros s Hs.
  destruct (decide (x = 0%N)) as [->|Hx]; [by rewrite pretty_N_go_0|].
  rewrite pretty_N_go_step by lia. apply IH; [by apply N.div_lt; lia|]. by apply plain_digit.
Qed.

Lemma plain_pretty_Z (z : Z) : plain (pretty z) = true.
Proof.
  destruct z as [|p|p]; [done|apply plain_pretty_N|].
  change (plain ("-" +:+ pretty (N.pos p)) = true).
  apply plain_append; [done|]. apply plain_pretty_N.
Qed.

(** The application's strings have no double brace, nor a brace at their end. *)
Definition plain_configuration (c : EnvoyConfiguration) : bool :=
  forallb plain ([statsDomain c; appVersion c; appId c; virtualClusters c]
                  ++ httpFilterFactories c).

Lemma filter_pieces : render (parse platform_filter_template) = platform_filter_template.
Proof. vm_compute. reflexivity. Qed.

Lemma filter_keys : key_names (parse platform_filter_template) = ["platform_filter_name"].
Proof. vm_compute. reflexivity. Qed.

Lemma plain_filter name :
  plain name = true →
  plain (replace (key "platform_filter_name") name 0 platform_filter_template) = true.
Proof.
  intros Hn. rewrite <- filter_pieces. rewrite replace_render by (vm_compute; reflexivity).
  apply render_no_key; [by apply fill_ok; [|vm_compute; reflexivity]|].
  intros m [Hin%elem_of_key_names Hm]%key_in_fill. apply Hm.
  rewrite filter_keys in Hin. by apply list_elem_of_singleton in Hin.
Qed.

Lemma plain_chain c :
  plain_configuration c = true → plain (filterConfigChain c platform_filter_template) = true.
Proof.
  unfold plain_configuration, filterConfigChain. rewrite forallb_app.
  intros [_ Hf]%andb_true_iff.
  assert (Hgo : ∀ ns b, plain b = true → forallb plain ns = true →
    plain (foldl (λ b name, b +:+ replace (key "platform_filter_name") name 0
      platform_filter_template) b ns) = true); [|by apply Hgo].
  intros ns. induction ns as [|n ns IH]; intros b Hb; [done|].
  intros [Hn Hns]%andb_true_iff. cbn [foldl]. apply IH; [|done].
  apply plain_append; [done|]. by apply plain_filter.
Qed.

Lemma replacements_ok c :
  plain_configuration c = true →
  Forall replacement_ok (replacements c platform_filter_template).
Proof.
  intros Hc. pose proof (plain_chain c Hc) as Hchain.
  unfold plain_configuration in Hc. cbn [app forallb] in Hc.
  rewrite !andb_true_iff in Hc. destruct Hc as (H1 & H2 & H3 & H4 & _).
  unfold replacements. repeat (apply Forall_cons; split; [split; [reflexivity|]|]);
    first [done|apply plain_pretty_Z|constructor].
Qed.

Lemma config_keys certificates :
  key_names (config_pieces certificates) =
  ["virtual_clusters"; "platform_filter_chain"; "dns_refresh_rate_seconds";
   "dns_failure_refresh_rate_seconds_base"; "dns_failure_refresh_rate_seconds_max"]
  ++ replicate 7 "connect_timeout_seconds" ++
  ["dns_refresh_rate_seconds"; "stats_domain"; "stats_flush_interval_seconds"; "app_id";
   "app_version"; "device_os"].
Proof. unfold config_pieces, key_names. rewrite omap_app. vm_compute. reflexivity. Qed.

(** Every key of the built-in template is known. *)
Lemma config_keys_known c f certificates :
  key_names (config_pieces certificates) ⊆ (replacements c f).*1.
Proof.
  rewrite config_keys. unfold replacements. cbn [fmap list_fmap fst].
  assert (Hall : ∀ l l' : list string, bool_decide (Forall (.∈ l') l) = true → l ⊆ l').
  { intros l l' Hl n Hn. apply bool_decide_eq_true in Hl.
    rewrite Forall_forall in Hl. by apply Hl. }
  apply Hall. vm_compute. reflexivity.
Qed.
