(* ===== verification/ConfigProps.v ===== *)
(** * The configuration and the code that uses it

    The routes of the dispatcher against the clusters of the configuration template,
    and the resolution of the template. *)

From S2P Require Export Configuration DispatcherSpecs.

(** ** Routes *)

#[export] Instance speaks_http2_dec c : Decision (speaks_http2 c).
Proof. unfold speaks_http2. apply _. Defined.

(** The clusters after the first, by name and protocol. *)
Lemma tail_clusters :
  (λ c, (c.1, bool_decide (speaks_http2 c))) <$> tail_items.2 =
  [("base_wlan", false); ("base_wwan", false); ("base_h2", true); ("base_wlan_h2", true);
   ("base_wwan_h2", true); ("stats", true)].
Proof. vm_compute. reflexivity. Qed.

(** The cluster of each network and protocol. *)
Lemma cluster_configured certificates network use_h2 :
  Forall certificate_line certificates →
  ∃ c, c ∈ clusters certificates ∧ c.1 = cluster_name network use_h2 ∧
    (speaks_http2 c ↔ use_h2 = true).
Proof.
  intros Hcerts. rewrite clusters_eq by done.
  assert (Htail : (cluster_name network use_h2, use_h2) ∈
    ((λ c, (c.1, bool_decide (speaks_http2 c))) <$> tail_items.2) →
    ∃ c, c ∈ ("base", base_lines ++ certificates ++ tail_items.1) :: tail_items.2 ∧
      c.1 = cluster_name network use_h2 ∧ (speaks_http2 c ↔ use_h2 = true)).
  { intros (c & [= -> Hb] & Hin)%list_elem_of_fmap. exists c. split; [by right|].
    split; [done|]. rewrite Hb. by rewrite bool_decide_eq_true. }
  destruct network, use_h2; try (apply Htail; rewrite tail_clusters; by repeat constructor).
  eexists. split; [by left|]. split; [done|].
  split; [|done]. by intros ?%base_http1.
Qed.

Section routes.
Context {mode : BuildMode} `{Allocator} {HM : Type} `{!HeaderMap HM} `{!EnvoyCodec HM}
  {B : Type} `{!BufferInstance B} `{!HeaderMapLaws HM}.
Implicit Types (s : state HM B).

(** C37: Requests are routed to clusters that exist. Whatever the network and the
    protocol the platform selects, setDestinationCluster appends to the header that the
    route of the configuration template reads the name of one of the template's
    clusters, which are all named differently; and that cluster speaks HTTP/2 exactly
    if the platform asked for it. A value the platform has given this header itself is
    kept, in front. *)
Theorem routes_are_configured certificates s (hm : HM) :
  Forall certificate_line certificates →
  known_protocol (hm_entries hm) → hm_inline hm ClusterHeader = false →
  NoDup (clusters certificates).*1 ∧
  ∃ h hm' c, route_header (config_lines certificates) = Some h ∧
    setDestinationCluster hm s = Ok (hm', s) ∧
    values h (hm_entries hm') = values h (hm_entries hm) ++ [c.1] ∧
    c ∈ clusters certificates ∧
    (speaks_http2 c ↔ values H2UpstreamHeader (hm_entries hm) = ["http2"]).
Proof.
  intros Hcerts Hk Hi. split.
  { rewrite cluster_names by done. apply (bool_decide_unpack _). vm_compute. reflexivity. }
  destruct (setDestinationCluster_run s hm Hk) as (hm' & Hrun & He). specialize (He Hi).
  destruct (cluster_configured certificates (preferred_network_ s) (uses_h2 (hm_entries hm)))
    as (c & Hin & Hname & Hh2); [done|].
  exists ClusterHeader, hm', c. split_and!; [apply route_header_eq|done| |done|].
  - rewrite (He ClusterHeader). unfold routed. rewrite values_app, values_filter_ne.
    rewrite decide_False by done. by rewrite Hname.
  - rewrite Hh2. unfold uses_h2. by rewrite bool_decide_eq_true.
Qed.
End routes.

(** ** Resolution *)

(** C38: The built-in configuration always resolves, and an unknown key never goes
    unnoticed. For an application whose strings have no double brace (or brace at
    their end), resolving the template of config_template.cc replaces each of its keys by
    the application's value for it, the filters by one entry each, and succeeds. A
    template of the application's own that has a key which is not known is refused. *)
Theorem template_resolves c :
  plain_configuration c = true →
  (∀ certificates, forallb plain certificates = true →
    resolveTemplate c (config_template certificates) platform_filter_template =
    Ok (render (fills (replacements c platform_filter_template) (config_pieces certificates)))) ∧
  (∀ ps n, forallb piece_ok ps = true → n ∈ key_names ps →
    n ∉ (replacements c platform_filter_template).*1 →
    resolveTemplate c (render ps) platform_filter_template =
    Fault (Thrown "Unresolved Template Key")).
Proof.
  intros Hc. pose proof (replacements_ok c Hc) as Hrs. split.
  - intros certificates Hcerts. rewrite <- config_pieces_render.
    apply resolveTemplate_run; [done|by apply config_pieces_ok|apply config_keys_known].
  - intros ps n Hps Hin Hn. by eapply resolveTemplate_run.
Qed.

(** ** Witnesses *)

Definition h2_request : ref_map :=
  RefMap RequestHeaderMapImpl [(":path", "/"); ("x-envoy-mobile-upstream-protocol", "http2")].
Definition some_certificates : list string := [""; "                -----BEGIN CERTIFICATE-----"].
Definition wlan_state : state ref_map ref_buffer :=
  set_preferred_network ENVOY_NET_WLAN (init_state mem_empty).

Lemma some_certificates_lines : Forall certificate_line some_certificates.
Proof. apply Forall_cons. split; [by left|]. apply Forall_singleton. right. by eexists. Qed.

Lemma routes_are_configured_witness :
  NoDup (clusters some_certificates).*1 ∧
  ∃ h hm' c, route_header (config_lines some_certificates) = Some h ∧
    setDestinationCluster (mode := debug_build) h2_request wlan_state = Ok (hm', wlan_state) ∧
    values h (hm_entries hm') = values h (hm_entries h2_request) ++ [c.1] ∧
    c ∈ clusters some_certificates ∧
    (speaks_http2 c ↔ values H2UpstreamHeader (hm_entries h2_request) = ["http2"]).
Proof.
  apply (routes_are_configured (mode := debug_build) some_certificates wlan_state h2_request).
  - apply some_certificates_lines.
  - apply list_elem_of_In. vm_compute. tauto.
  - reflexivity.
Defined.

Definition an_application : EnvoyConfiguration := {|
  statsDomain := "stats.example.com"; connectTimeoutSeconds := 30; dnsRefreshSeconds := 60;
  dnsFailureRefreshSecondsBase := 2; dnsFailureRefreshSecondsMax := 10;
  httpFilterFactories := ["first"; "second"]; statsFlushSeconds := 60;
  appVersion := "1.0"; appId := "app"; virtualClusters := "[{name: all}]"
|}.

Lemma template_resolves_witness :
  resolveTemplate an_application (config_template some_certificates) platform_filter_template =
  Ok (render (fills (replacements an_application platform_filter_template)
    (config_pieces some_certificates))) ∧
  resolveTemplate an_application (render [Text "a: "; Key "b"]) platform_filter_template =
  Fault (Thrown "Unresolved Template Key").
Proof.
  destruct (template_resolves an_application) as [H1 H2]; [vm_compute; reflexivity|].
  split; [apply H1; vm_compute; reflexivity|].
  apply (H2 _ "b"); [reflexivity|by left|].
  rewrite list_elem_of_In. vm_compute. intuition congruence.
Defined.
