(* ===== verification/Foundation.v ===== *)
(** * Strings and collections of the Objective-C platform

    What library/objective-c uses of Apple's Foundation: NSString, as a sequence of
    Unicode characters with its UTF-8 form and its length in UTF-16 units; Swift's Int;
    NSData; and the dictionaries of headers. *)

From S2P Require Export Prelude.

(** ** NSString *)

(** The characters of a string, where a surrogate without its other half stands for
    itself. *)
Definition NSString : Type := list N.

(** A Unicode scalar value: not a surrogate, and not above the last plane. *)
Definition scalar (c : N) : Prop := (c < 0xD800 ∨ 0xE000 ≤ c ≤ 0x10FFFF)%N.
#[export] Instance scalar_dec c : Decision (scalar c).
Proof. unfold scalar. apply _. Defined.

(** [s.length]: a character outside the basic plane has two units. *)
Definition utf16_units (c : N) : Z := if decide (c < 0x10000)%N then 1 else 2.
Definition utf16_length (s : NSString) : Z := foldr (λ c n, utf16_units c + n)%Z 0%Z s.

Definition byte_of (n : N) : byte := default x00 (Byte.of_N n).

(** UTF-8, as of RFC 3629. *)
Definition utf8_char (c : N) : list byte :=
  if decide (c < 0x80)%N then [byte_of c]
  else if decide (c < 0x800)%N then
    [byte_of (0xC0 + c / 0x40); byte_of (0x80 + c mod 0x40)]
  else if decide (c < 0x10000)%N then
    [byte_of (0xE0 + c / 0x1000); byte_of (0x80 + (c / 0x40) mod 0x40);
     byte_of (0x80 + c mod 0x40)]
  else
    [byte_of (0xF0 + c / 0x40000); byte_of (0x80 + (c / 0x1000) mod 0x40);
     byte_of (0x80 + (c / 0x40) mod 0x40); byte_of (0x80 + c mod 0x40)].
Definition utf8 (s : NSString) : list byte := s ≫= utf8_char.

(** [s.UTF8String], without the terminator: NULL when a character has no UTF-8 form. *)
Definition UTF8String (s : NSString) : option (list byte) :=
  if decide (Forall scalar s) then Some (utf8 s) else None.

(** The six bits of a continuation byte. *)
Definition continuation (b : byte) : option N :=
  let n := Byte.to_N b in
  if decide (0x80 ≤ n < 0xC0)%N then Some (n - 0x80)%N else None.

(** [initWithBytes:length:encoding:NSUTF8StringEncoding]: nil for what is not UTF-8
    (continuation bytes missing, a longer form than needed, not a scalar). A byte order
    mark is a character like the others. *)
Fixpoint utf8_decode (bs : list byte) : option NSString :=
  match bs with
  | [] => Some []
  | b :: bs =>
      let n := Byte.to_N b in
      if decide (n < 0x80)%N then cons n <$> utf8_decode bs
      else match bs with
      | [] => None
      | b1 :: bs =>
          n1 ← continuation b1;
          if decide (n < 0xE0)%N then
            let c := ((n - 0xC0) * 0x40 + n1)%N in
            if decide (0xC0 ≤ n ∧ 0x80 ≤ c)%N then cons c <$> utf8_decode bs else None
          else match bs with
          | [] => None
          | b2 :: bs =>
              n2 ← continuation b2;
              if decide (n < 0xF0)%N then
                let c := ((n - 0xE0) * 0x1000 + n1 * 0x40 + n2)%N in
                if decide (0x800 ≤ c ∧ scalar c)%N then cons c <$> utf8_decode bs else None
              else match bs with
              | [] => None
              | b3 :: bs =>
                  n3 ← continuation b3;
                  let c := ((n - 0xF0) * 0x40000 + n1 * 0x1000 + n2 * 0x40 + n3)%N in
                  if decide (0x10000 ≤ c ∧ scalar c)%N then cons c <$> utf8_decode bs
                  else None
              end
          end
      end
  end.

(** ** Int *)

(** The largest Int: the word size differs between the devices the library is built for. *)
Class SwiftInt := Int_max : Z.
Definition Int_32 : SwiftInt := (2 ^ 31 - 1)%Z.
Definition Int_64 : SwiftInt := (2 ^ 63 - 1)%Z.

(** ** NSData and headers *)

Definition NSData : Type := list byte.

(** The typedef EnvoyHeaders, an NSDictionary<NSString *, NSArray<NSString *> *>; the name
    is the constructor of the C struct here. *)
Abbreviation NSHeaders := (gmap NSString (list NSString)).

(** The order a dictionary enumerates its keys in is its own affair. *)
Class Dictionary := enumeration : NSHeaders → list NSString.
Class DictionaryLaws `{!Dictionary} : Prop :=
  enumeration_keys (d : NSHeaders) : enumeration d ≡ₚ (map_to_list d).*1.

(** [addObject:] to the list of [key], which is made if there is none. *)
Definition dict_add (key value : NSString) (d : NSHeaders) : NSHeaders :=
  <[key := default [] (d !! key) ++ [value]]> d.

(** [for (x in l)], where the body updates a variable. *)
Fixpoint for_in {St A B} (l : list A) (body : A → B → M St B) (acc : B) : M St B :=
  match l with
  | [] => mret acc
  | x :: l => acc' ← body x acc; for_in l body acc'
  end.

(** ** Lemmas *)

Lemma to_N_byte_of n : (n < 256)%N → Byte.to_N (byte_of n) = n.
Proof.
  intros Hn. unfold byte_of. destruct (Byte.of_N n) as [b|] eqn:Hb; cbn.
  - by apply Byte.to_of_N.
  - apply Byte.of_N_None_iff in Hb. lia.
Qed.

Lemma continuation_byte_of n : (n < 0x40)%N → continuation (byte_of (0x80 + n)) = Some n.
Proof.
  intros Hn. unfold continuation. rewrite to_N_byte_of by lia.
  rewrite decide_True by lia. f_equal. lia.
Qed.

Lemma mod_64 n : (n mod 0x40 < 0x40)%N.
Proof. by apply N.mod_upper_bound. Qed.

(** Split off the last six bits. *)
Lemma div_mod_64 n : (n = (n / 0x40) * 0x40 + n mod 0x40)%N.
Proof. rewrite (N.div_mod' n 0x40) at 1. lia. Qed.

Lemma utf8_decode_char c bs :
  scalar c → utf8_decode (utf8_char c ++ bs) = cons c <$> utf8_decode bs.
Proof.
  intros Hc. unfold scalar in Hc. pose proof (mod_64 c). pose proof (mod_64 (c / 0x40)).
  pose proof (mod_64 (c / 0x1000)). pose proof (div_mod_64 c).
  pose proof (div_mod_64 (c / 0x40)) as H64. rewrite N.Div0.div_div in H64.
  change (0x40 * 0x40)%N with 0x1000%N in H64.
  pose proof (div_mod_64 (c / 0x1000)) as H4096. rewrite N.Div0.div_div in H4096.
  change (0x1000 * 0x40)%N with 0x40000%N in H4096.
  unfold utf8_char.
  generalize dependent (c mod 0x40)%N. generalize dependent ((c / 0x40) mod 0x40)%N.
  generalize dependent ((c / 0x1000) mod 0x40)%N. generalize dependent (c / 0x40000)%N.
  generalize dependent (c / 0x1000)%N. generalize dependent (c / 0x40)%N.
  intros q1 q2 q3 r3 H4096 r2 H64 r1 Hdiv Hr1 Hr2 Hr3.
  repeat case_decide; cbn [app utf8_decode];
    rewrite ?to_N_byte_of by lia; rewrite ?continuation_byte_of by done; cbn [mbind option_bind].
  - by rewrite decide_True.
  - rewrite decide_False, decide_True, decide_True by lia. do 2 f_equal. lia.
  - rewrite decide_False, decide_False, decide_True, decide_True; unfold scalar; try lia.
    do 2 f_equal. lia.
  - rewrite decide_False, decide_False, decide_False, decide_True; unfold scalar; try lia.
    do 2 f_equal. lia.
Qed.

(** Decoding inverts encoding. *)
Lemma utf8_decode_encode s : Forall scalar s → utf8_decode (utf8 s) = Some s.
Proof.
  induction 1 as [|c s Hc Hs IH]; [done|].
  change (utf8 (c :: s)) with (utf8_char c ++ utf8 s).
  by rewrite utf8_decode_char, IH.
Qed.

(** A character has at least as many bytes as units, and as many only if it is ASCII. *)
Definition ascii (s : NSString) : Prop := Forall (λ c, c < 0x80)%N s.

#[export] Instance ascii_dec s : Decision (ascii s).
Proof. unfold ascii. apply _. Defined.

Lemma utf8_char_length c :
  (1 ≤ utf16_units c ≤ Z.of_nat (length (utf8_char c)))%Z ∧
  (utf16_units c = Z.of_nat (length (utf8_char c)) ↔ (c < 0x80)%N).
Proof. unfold utf16_units, utf8_char. repeat case_decide; cbn; lia. Qed.

Lemma utf8_length s :
  (0 ≤ utf16_length s ≤ Z.of_nat (length (utf8 s)))%Z ∧
  (utf16_length s = Z.of_nat (length (utf8 s)) ↔ ascii s).
Proof.
  unfold ascii. induction s as [|c s [IH1 IH2]]; [by repeat split|].
  change (utf8 (c :: s)) with (utf8_char c ++ utf8 s). cbn [utf16_length foldr].
  change (foldr _ _ s) with (utf16_length s).
  destruct (utf8_char_length c) as [H1 H2]. rewrite length_app, Forall_cons, <- H2, <- IH2. lia.
Qed.

Lemma ascii_scalar s : ascii s → Forall scalar s.
Proof. intros H. eapply Forall_impl; [exact H|]. intros c Hc. left. cbn in Hc. lia. Qed.

(** ** Lemmas on headers *)

(** The values of a key among pairs, in order. *)
Definition values_of {K V} `{!EqDecision K} (k : K) (ps : list (K * V)) : list V :=
  (filter (λ p, p.1 = k) ps).*2.

Definition dict_of (ps : list (NSString * NSString)) : NSHeaders :=
  foldl (λ d p, dict_add p.1 p.2 d) ∅ ps.

Lemma values_of_app {K V} `{!EqDecision K} (k : K) (ps qs : list (K * V)) : values_of k (ps ++ qs) = values_of k ps ++ values_of k qs.
Proof. unfold values_of. by rewrite filter_app, fmap_app. Qed.

Lemma values_of_cons {K V} `{!EqDecision K} (k : K) (p : K * V) ps :
  values_of k (p :: ps) = if decide (p.1 = k) then p.2 :: values_of k ps else values_of k ps.
Proof. unfold values_of. rewrite filter_cons. by case_decide. Qed.

Lemma values_of_none {K V} `{!EqDecision K} (k : K) (ps : list (K * V)) :
  (∀ p, p ∈ ps → p.1 ≠ k) → values_of k ps = [].
Proof.
  induction ps as [|p ps IH]; intros Hps; [done|]. rewrite values_of_cons, decide_False, IH; set_solver.
Qed.

Lemma dict_of_snoc ps p : dict_of (ps ++ [p]) = dict_add p.1 p.2 (dict_of ps).
Proof. unfold dict_of. by rewrite foldl_app. Qed.

Lemma values_of_key {K V} `{!EqDecision K} (k k' : K) (vs : list V) :
  values_of k (pair k' <$> vs) = if decide (k' = k) then vs else [].
Proof.
  unfold values_of. induction vs as [|v vs IH]; [by case_decide|].
  rewrite fmap_cons, filter_cons. cbn. case_decide as E; [|done]. cbn. by rewrite IH.
Qed.

(** The dictionary groups the pairs by key and keeps the order of the values. *)
Lemma dict_of_lookup ps k :
  dict_of ps !! k = if decide (values_of k ps = []) then None else Some (values_of k ps).
Proof.
  induction ps as [|[k' v] ps IH] using rev_ind; [apply lookup_empty|].
  rewrite dict_of_snoc, values_of_app. change [(k', v)] with (pair k' <$> [v]).
  rewrite values_of_key. unfold dict_add. cbn [fst snd].
  destruct (decide (k' = k)) as [->|Hne].
  - rewrite lookup_insert_eq, IH. rewrite (decide_False (P := _ ++ _ = [])) by (by intros []%app_nil).
    case_decide as E; cbn; by rewrite ?E.
  - rewrite lookup_insert_ne by done. by rewrite app_nil_r.
Qed.

(** An injective encoding of keys and values maps the values of a key. *)
Lemma values_of_map {K V K' V'} `{!EqDecision K, !EqDecision K'} (f : K → K') (g : V → V')
    `{!Inj (=) (=) f} k ps :
  values_of (f k) (prod_map f g <$> ps) = g <$> values_of k ps.
Proof.
  unfold values_of. induction ps as [|[a b] ps IH]; [done|].
  rewrite fmap_cons, !filter_cons. cbn.
  destruct (decide (a = k)) as [->|Hne]; [rewrite decide_True by done|rewrite decide_False by naive_solver];
    cbn; by rewrite IH.
Qed.

Section dictionaries.
Context `{!Dictionary}.
Implicit Types (d : NSHeaders).

(** The pairs of a dictionary, in the order of its enumeration. *)
Definition pairs_of d : list (NSString * NSString) :=
  enumeration d ≫= λ k, pair k <$> default [] (d !! k).

Lemma values_of_bind k (f : NSString → list NSString) ks :
  NoDup ks → values_of k (ks ≫= λ k', pair k' <$> f k') = if decide (k ∈ ks) then f k else [].
Proof.
  induction 1 as [|k' ks Hk' _ IH]; [done|]. cbn [mbind list_bind].
  change (list_bind _ _ ?g ks) with (ks ≫= g). rewrite values_of_app, values_of_key, IH.
  destruct (decide (k' = k)) as [->|Hne].
  - rewrite decide_False, decide_True by set_solver. apply app_nil_r.
  - case_decide; [rewrite decide_True by set_solver|rewrite decide_False by set_solver]; done.
Qed.

Context `{!DictionaryLaws}.

Lemma values_of_pairs k d : values_of k (pairs_of d) = default [] (d !! k).
Proof.
  unfold pairs_of. rewrite (values_of_bind k (λ k, default [] (d !! k))).
  - case_decide as E; [done|]. destruct (d !! k) as [vs|] eqn:Hk; [|done].
    destruct E. rewrite enumeration_keys. apply list_elem_of_fmap.
    exists (k, vs). by rewrite elem_of_map_to_list.
  - rewrite enumeration_keys. apply NoDup_fst_map_to_list.
Qed.

(** Only an empty list of values is lost when a dictionary is flattened. *)
Lemma dict_of_pairs_of d : dict_of (pairs_of d) = filter (λ e, e.2 ≠ []) d.
Proof.
  apply map_eq. intros k. rewrite dict_of_lookup, values_of_pairs, map_lookup_filter.
  destruct (d !! k) as [vs|]; [|done]. cbn. by destruct vs.
Qed.

Lemma dict_of_pairs d : (∀ k, d !! k ≠ Some []) → dict_of (pairs_of d) = d.
Proof.
  intros Hd. rewrite dict_of_pairs_of. apply map_filter_id. intros k vs Hk Hvs. cbn in Hvs. by apply (Hd k); rewrite Hk, Hvs.
Qed.

Lemma pairs_of_Forall (P : NSString → Prop) d :
  map_Forall (λ k vs, P k ∧ Forall P vs) d → Forall (λ p, P p.1 ∧ P p.2) (pairs_of d).
Proof.
  intros Hd. apply Forall_forall. intros [k v]. unfold pairs_of.
  rewrite list_elem_of_bind. intros (k' & Hv & _). apply list_elem_of_fmap in Hv as (v' & [= <- <-] & Hv).
  destruct (d !! k) as [vs|] eqn:Hk; cbn in Hv; [|by apply elem_of_nil in Hv].
  destruct (Hd _ _ Hk) as [H1 H2]. rewrite Forall_forall in H2. by split; [|apply H2].
Qed.
End dictionaries.

Lemma for_in_app {St A B} (l1 l2 : list A) (body : A → B → M St B) acc s :
  for_in (l1 ++ l2) body acc s = (for_in l1 body acc ≫= for_in l2 body) s.
Proof.
  revert acc s. induction l1 as [|x l1 IH]; intros acc s; [done|].
  cbn. rewrite bind_assoc. unfold mbind, M_bind. destruct (body x acc s) as [[]|]; [|done]. apply IH.
Qed.

(** A loop in a loop is one over the pairs. *)
Lemma for_in_nested {St A B K} (ks : list K) (f : K → list A) (body : K → A → B → M St B) acc s :
  for_in ks (λ k, for_in (f k) (body k)) acc s =
  for_in (ks ≫= λ k, pair k <$> f k) (λ p, body p.1 p.2) acc s.
Proof.
  revert acc s. induction ks as [|k ks IH]; intros acc s; [done|]. cbn [mbind list_bind].
  change (list_bind _ _ ?g ks) with (ks ≫= g). rewrite for_in_app.
  assert (∀ l acc s, for_in l (body k) acc s = for_in (pair k <$> l) (λ p, body p.1 p.2) acc s) as E.
  { intros l. induction l as [|x l IHl]; intros acc' s'; [done|]. cbn. unfold mbind, M_bind.
    destruct (body k x acc' s') as [[]|]; [|done]. apply IHl. }
  cbn [for_in]. unfold mbind, M_bind. rewrite <- E. destruct (for_in (f k) (body k) acc s) as [[]|]; [|done]. apply IH.
Qed.

(** ** ASCII text *)

Definition ascii_bytes (bs : list byte) : Prop := Forall (λ b, Byte.to_N b < 0x80)%N bs.

#[export] Instance ascii_bytes_dec bs : Decision (ascii_bytes bs).
Proof. unfold ascii_bytes. apply _. Defined.

Lemma ascii_bytes_decode bs :
  ascii_bytes bs → utf8_decode bs = Some (Byte.to_N <$> bs) ∧ ascii (Byte.to_N <$> bs) ∧
    utf8 (Byte.to_N <$> bs) = bs.
Proof.
  intros Hbs. split_and!.
  - induction Hbs as [|b bs Hb Hbs IH]; [done|]. cbn. rewrite decide_True by done. by rewrite IH.
  - unfold ascii. by rewrite Forall_fmap.
  - induction Hbs as [|b bs Hb Hbs IH]; [done|].
    change (utf8 (Byte.to_N <$> b :: bs)) with (utf8_char (Byte.to_N b) ++ utf8 (Byte.to_N <$> bs)).
    rewrite IH. unfold utf8_char. rewrite decide_True by done. cbn. f_equal.
    unfold byte_of. by rewrite Byte.of_to_N.
Qed.
