(* ===== verification/IosUtility.v ===== *)
(** * Conversions between Foundation objects and the C structs

    Models library/objective-c/EnvoyBridgeUtility.h: the functions the Objective-C layer
    moves headers, data and strings across the C interface with. The lemmas give their
    results and their effect on memory; the theorems say what survives the way there and
    back, and what does not. *)

From S2P Require Export Foundation CTypes.

(** ** To C *)

(** sizeof(envoy_data) and sizeof(envoy_headers). *)
Definition SIZEOF_ENVOY_DATA : Z := 32.
Definition SIZEOF_ENVOY_HEADERS : Z := 16.

(** The raw memory of [p] becomes the struct. *)
Definition store_box (p : ptr) (b : block) : M mem unit :=
  l ← deref "write through NULL" p;
  h ← gets heap;
  match h !! l with
  | Some _ => modify (λ m, set_heap (<[l := b]> (heap m)) m)
  | None => fail (Undefined "write to a block that is not allocated")
  end.

(** An NSUInteger is a size_t; the sum converts back to an envoy_header_size_t. *)
Definition add_count (length : Z) (values : list NSString) : Z :=
  s32 (u64 (u64 length + Z.of_nat (List.length values))).

Section to_native.
Context `{Allocator} `{!Dictionary}.

Definition toNativeData (data : option NSData) : M mem envoy_data :=
  match data with
  | None => mret envoy_nodata
  | Some data =>
      let length := Z.of_nat (length data) in
      native_bytes ← safe_malloc length bytes_block;
      write_bytes native_bytes data ;;
      mret (EnvoyData length native_bytes c_free_release native_bytes)
  end.

Definition toNativeDataPtr (data : option NSData) : M mem ptr :=
  match data with
  | None => mret NULL
  | Some _ =>
      ret ← safe_malloc SIZEOF_ENVOY_DATA bytes_block;
      d ← toNativeData data;
      store_box ret (BDataBox d) ;;
      mret ret
  end.

(** What memcpy reads at [s.UTF8String]: the terminator is behind the last byte. *)
Definition read_c_string (s : NSString) (length : Z) : M mem (list byte) :=
  if decide (length = 0%Z) then mret []
  else
    bytes ← deref "UTF8String is NULL" (UTF8String s);
    if decide (length ≤ Z.of_nat (List.length bytes) + 1)%Z
    then mret (take (Z.to_nat length) (bytes ++ [x00]))
    else fail (Undefined "read past the end of a C string").

Definition toManagedNativeString (s : NSString) : M mem envoy_data :=
  let length := utf16_length s in
  native_string ← safe_malloc length bytes_block;
  bytes ← read_c_string s length;
  write_bytes native_string bytes ;;
  mret (EnvoyData length native_string c_free_release native_string).

Definition toNativeHeaders (headers : option NSHeaders) : M mem envoy_headers :=
  match headers with
  | None => mret envoy_noheaders
  | Some headers =>
      let valuesOf headerKey := default [] (headers !! headerKey) in
      length ← for_in (enumeration headers) (λ headerKey length,
        mret (add_count length (valuesOf headerKey))) 0%Z;
      header_array ← safe_malloc (header_array_size length) headers_block;
      for_in (enumeration headers) (λ headerKey,
        for_in (valuesOf headerKey) (λ headerValue header_index,
          key ← toManagedNativeString headerKey;
          value ← toManagedNativeString headerValue;
          store_header header_array header_index (EnvoyHeader key value) ;;
          if decide (header_index < INT_MAX)%Z then mret (header_index + 1)%Z
          else fail (Undefined "signed overflow of the header index"))) 0%Z ;;
      mret (EnvoyHeaders length header_array)
  end.

Definition toNativeHeadersPtr (headers : option NSHeaders) : M mem ptr :=
  match headers with
  | None => mret NULL
  | Some _ =>
      ret ← safe_malloc SIZEOF_ENVOY_HEADERS bytes_block;
      h ← toNativeHeaders headers;
      store_box ret (BHeadersBox h) ;;
      mret ret
  end.
End to_native.

(** ** To Foundation *)

Definition to_ios_data (data : envoy_data) : M mem NSData :=
  platformData ← read_bytes (data_bytes data) (data_length data);
  release_data data ;;
  mret platformData.

(** [[NSString alloc] initWithBytes:length:encoding:]. *)
Definition ios_string (d : envoy_data) : M mem (option NSString) :=
  bytes ← read_bytes (data_bytes d) (data_length d); mret (utf8_decode bytes).

(** A nil key cannot be set, and a nil value cannot be added. *)
Definition dict_add_object (key value : option NSString) (d : NSHeaders) : M mem NSHeaders :=
  match key, value with
  | Some key, Some value => mret (dict_add key value d)
  | _, _ => fail (Thrown "NSInvalidArgumentException")
  end.

Definition to_ios_headers (headers : envoy_headers) : M mem NSHeaders :=
  headerDict ← for_range (headers_length headers) (λ i headerDict,
    header ← load_header (headers_headers headers) i;
    headerKey ← ios_string (header_key header);
    headerValue ← ios_string (header_value header);
    dict_add_object headerKey headerValue headerDict) ∅;
  release_envoy_headers headers ;;
  mret headerDict.

(** ** Specifications *)

(** The bytes that reach C: as many bytes of the UTF-8 form as the string has UTF-16
    units. *)
Definition native_string (s : NSString) : list byte :=
  take (Z.to_nat (utf16_length s)) (utf8 s).
Definition native_pairs (ps : list (NSString * NSString)) : list (list byte * list byte) :=
  prod_map native_string native_string <$> ps.

(** The text of a pair of byte strings, if it is text. *)
Definition ios_pair (e : list byte * list byte) : option (NSString * NSString) :=
  k ← utf8_decode e.1; v ← utf8_decode e.2; Some (k, v).

Lemma native_string_length s : Z.of_nat (length (native_string s)) = utf16_length s.
Proof.
  unfold native_string. pose proof (utf8_length s) as [[H1 H2] _]. rewrite length_take. lia.
Qed.

Lemma native_string_ascii s : native_string s = utf8 s ↔ ascii s.
Proof.
  destruct (utf8_length s) as [[H1 H2] H3]. rewrite <- H3. unfold native_string. split.
  - intros E%(f_equal length). rewrite length_take in E. lia.
  - intros E. rewrite take_ge; [done|]. lia.
Qed.

Lemma read_c_string_run s m :
  Forall scalar s → read_c_string s (utf16_length s) m = Ok (native_string s, m).
Proof.
  intros Hs. destruct (utf8_length s) as [[H1 H2] _]. unfold read_c_string.
  case_decide as Hz; [unfold native_string; by rewrite Hz|].
  unfold UTF8String. rewrite decide_True by done. cbn [deref]. rewrite ret_bind.
  rewrite decide_True by lia. rewrite take_app_le by lia. done.
Qed.

Section specs.
Context `{Allocator}.

Lemma wp_toManagedNativeString s m :
  Forall scalar s → mem_wf m →
  wp (toManagedNativeString s) oom (λ d m',
    reads_data (heap m') d (native_string s) ∧ self_contained d ∧ grows (data_owned d) m m') m.
Proof.
  intros Hs Hwf. change (toManagedNativeString s) with
    (copy_envoy_data_from (utf16_length s) (read_c_string s (utf16_length s))).
  rewrite <- native_string_length at 1. apply wp_copy_envoy_data_from; [done|].
  intros. by apply read_c_string_run.
Qed.

Lemma wp_toNativeData bs m :
  mem_wf m →
  wp (toNativeData (Some bs)) oom (λ d m',
    reads_data (heap m') d bs ∧ self_contained d ∧ grows (data_owned d) m m') m.
Proof.
  intros Hwf. change (toNativeData (Some bs)) with
    (copy_envoy_data_from (Z.of_nat (length bs)) (mret bs)).
  by apply wp_copy_envoy_data_from.
Qed.
End specs.

(** What read as text pair by pair. *)
Definition encodable (ps : list (NSString * NSString)) : Prop :=
  Forall (λ p, Forall scalar p.1 ∧ Forall scalar p.2) ps.

Lemma native_pairs_length ps : length (native_pairs ps) = length ps.
Proof. apply length_fmap. Qed.

Section headers.
Context `{Allocator}.

(** The body of the inner loop of toNativeHeaders. *)
Definition native_header (header_array : ptr) (p : NSString * NSString) (header_index : Z) : M mem Z :=
  key ← toManagedNativeString p.1;
  value ← toManagedNativeString p.2;
  store_header header_array header_index (EnvoyHeader key value) ;;
  if decide (header_index < INT_MAX)%Z then mret (header_index + 1)%Z
  else fail (Undefined "signed overflow of the header index").

Lemma wp_fill_pairs m0 p ps rest hs m :
  mem_wf m0 → (Z.of_nat (length ps) ≤ INT_MAX)%Z → encodable ps →
  rest = drop (length hs) ps → length hs ≤ length ps → filling m0 p (native_pairs ps) hs m →
  wp (for_in rest (native_header p) (Z.of_nat (length hs))) oom
    (λ _ m', ∃ hs', length hs' = length ps ∧ filling m0 p (native_pairs ps) hs' m') m.
Proof.
  intros Hwf Hmax Henc. revert hs m.
  induction rest as [|q rest IH]; intros hs m Hrest Hle F; cbn [for_in].
  { apply wp_ret. exists hs. split; [|done].
    apply (f_equal length) in Hrest. rewrite length_drop in Hrest. cbn in Hrest. lia. }
  assert (ps !! length hs = Some q) as Hq.
  { rewrite <- (Nat.add_0_r (length hs)), <- lookup_drop, <- Hrest. done. }
  pose proof (lookup_lt_Some _ _ _ Hq) as Hlt.
  destruct (Forall_lookup_1 _ _ _ _ Henc Hq) as [H1 H2].
  pose proof (wp_fill_step m0 p (native_pairs ps) hs (native_string q.1, native_string q.2)
    (read_c_string q.1 (utf16_length q.1)) (read_c_string q.2 (utf16_length q.2)) m Hwf F) as Hstep.
  specialize (Hstep ltac:(unfold native_pairs; by rewrite list_lookup_fmap, Hq)
    ltac:(intros; by apply read_c_string_run) ltac:(intros; by apply read_c_string_run)).
  cbn [fst snd] in Hstep. rewrite !native_string_length in Hstep.
  change (copy_envoy_data_from (utf16_length ?s) (read_c_string ?s _)) with (toManagedNativeString s) in Hstep.
  apply wp_bind. unfold native_header.
  unfold wp in *. unfold mbind, M_bind in *.
  destruct (toManagedNativeString q.1 m) as [[key m1]|]; [|done].
  destruct (toManagedNativeString q.2 m1) as [[value m2]|]; [|done].
  destruct (store_header _ _ _ m2) as [[[] m3]|]; [|done].
  destruct Hstep as [hd F'].
  case_decide as Hov; [|lia]. cbn.
  replace (Z.of_nat (length hs) + 1)%Z with (Z.of_nat (length (hs ++ [hd])))
    by (rewrite length_app; cbn; lia).
  apply IH; [|rewrite length_app; cbn; lia|done].
  rewrite length_app. cbn. rewrite Nat.add_1_r.
  by rewrite (drop_S _ _ _ Hq) in Hrest; injection Hrest.
Qed.

Lemma add_counts_run {K} (ks : list K) (f : K → list NSString) n (m : mem) :
  (Z.of_nat (n + length (ks ≫= λ k, pair k <$> f k)) ≤ INT_MAX)%Z →
  for_in ks (λ k length, mret (add_count length (f k))) (Z.of_nat n) m =
  Ok (Z.of_nat (n + length (ks ≫= λ k, pair k <$> f k)), m).
Proof.
  revert n. induction ks as [|k ks IH]; intros n Hmax; [by rewrite Nat.add_0_r|].
  change ((k :: ks) ≫= ?g) with (g k ++ (ks ≫= g)) in *.
  rewrite length_app, length_fmap, Nat.add_assoc in *.
  assert (add_count (Z.of_nat n) (f k) = Z.of_nat (n + length (f k))) as E.
  { unfold add_count, INT_MAX in *. rewrite (u64_small (Z.of_nat n)), u64_small, s32_small by lia. lia. }
  cbn [for_in]. rewrite ret_bind, E. by apply IH.
Qed.

Context `{!Dictionary}.

(** toNativeHeaders: a fresh envoy_headers with the strings that reach C, in the order
    of the enumeration. *)
Lemma wp_toNativeHeaders d m :
  mem_wf m → (Z.of_nat (length (pairs_of d)) ≤ INT_MAX)%Z → encodable (pairs_of d) →
  wp (toNativeHeaders (Some d)) oom (λ eh m', ∃ hs,
    reads_headers (heap m') eh hs (native_pairs (pairs_of d)) ∧ Forall header_contained hs ∧
    grows (headers_owned eh hs) m m') m.
Proof.
  intros Hwf Hmax Henc. unfold toNativeHeaders.
  apply wp_bind. eapply wp_run; [apply (add_counts_run (enumeration d) (λ k, default [] (d !! k)) 0); exact Hmax|].
  change (length _) with (length (pairs_of d)). rewrite Nat.add_0_l.
  rewrite <- (native_pairs_length (pairs_of d)) in *.
  apply wp_bind, wp_start_fill; [done..|]. intros p m1 F.
  apply wp_bind. unfold wp at 1. rewrite for_in_nested.
  change (wp (for_in (pairs_of d) (native_header p) (Z.of_nat (length (@nil envoy_header)))) oom
    (λ _ m', wp (mret (EnvoyHeaders (Z.of_nat (length (native_pairs (pairs_of d)))) p)) oom
      (λ eh m', ∃ hs, reads_headers (heap m') eh hs (native_pairs (pairs_of d)) ∧
        Forall header_contained hs ∧ grows (headers_owned eh hs) m m') m') m1).
  rewrite native_pairs_length in Hmax.
  eapply wp_conseq; [apply (wp_fill_pairs m p (pairs_of d)); [done..|cbn; lia|exact F]|].
  intros _ m' (hs & Hlen & F'). apply wp_ret. exists hs.
  apply filling_done; [by rewrite native_pairs_length|done].
Qed.

(** The struct in a box of its own. *)
Lemma wp_store_box p l b Q m :
  p = Some l → is_Some (heap m !! l) → Q tt (set_heap (<[l := b]> (heap m)) m) →
  wp (store_box p b) no_fault Q m.
Proof.
  intros -> [b0 Hl] HQ. unfold store_box. apply wp_bind, wp_ret, wp_bind, wp_gets. rewrite Hl. by apply wp_modify.
Qed.

Lemma grows_box l ls m m1 m2 b :
  mem_wf m → grows [l] m m1 → grows ls m1 m2 →
  is_Some (heap m2 !! l) ∧ (l ∉ ls) ∧ grows (l :: ls) m (set_heap (<[l := b]> (heap m2)) m2).
Proof.
  intros Hwf G1 G2. destruct (grows_new _ _ _ G1 l ltac:(by left)) as (Hl & _ & Hlt).
  assert (Hn : l ∉ ls).
  { intros Hin. destruct (grows_new _ _ _ G2 l Hin) as (_ & ? & _). lia. }
  split_and!; [by rewrite (grows_old _ _ _ G2)|done|].
  apply grows_update; [exact (grows_trans _ _ _ _ _ G1 G2)|by left].
Qed.

Lemma wp_toNativeHeadersPtr d m :
  mem_wf m → (Z.of_nat (length (pairs_of d)) ≤ INT_MAX)%Z → encodable (pairs_of d) →
  wp (toNativeHeadersPtr (Some d)) oom (λ p m', ∃ l eh hs, p = Some l ∧
    heap m' !! l = Some (BHeadersBox eh) ∧ reads_headers (heap m') eh hs (native_pairs (pairs_of d)) ∧
    Forall header_contained hs ∧ grows (l :: headers_owned eh hs) m m') m.
Proof.
  intros Hwf Hmax Henc. unfold toNativeHeadersPtr.
  apply wp_bind, wp_safe_malloc; [unfold SIZEOF_ENVOY_HEADERS; lia|].
  set (m1 := alloc_block _ m). assert (G1 : grows [next_loc m] m m1) by apply grows_alloc.
  assert (Hwf1 : mem_wf m1) by (by eapply grows_wf).
  apply wp_bind. eapply wp_conseq; [by apply wp_toNativeHeaders|]. intros eh m2 (hs & R & X & G2).
  destruct (grows_box _ _ _ _ _ (BHeadersBox eh) Hwf G1 G2) as (Hl & Hn & G).
  apply wp_bind. eapply wp_mono; [by eapply (wp_store_box _ _ _ (λ _ m',
    m' = set_heap (<[next_loc m := BHeadersBox eh]> (heap m2)) m2))|done|].
  intros [] m' ->. apply wp_ret. exists (next_loc m), eh, hs. split_and!; [done|apply lookup_insert_eq| |done|done].
  eapply reads_headers_owned; [done| |exact R]. intros l Hin. cbn. rewrite lookup_insert_ne; [done|]. by intros <-.
Qed.

Lemma wp_toNativeDataPtr bs m :
  mem_wf m →
  wp (toNativeDataPtr (Some bs)) oom (λ p m', ∃ l d, p = Some l ∧
    heap m' !! l = Some (BDataBox d) ∧ reads_data (heap m') d bs ∧ self_contained d ∧
    grows (l :: data_owned d) m m') m.
Proof.
  intros Hwf. unfold toNativeDataPtr.
  apply wp_bind, wp_safe_malloc; [unfold SIZEOF_ENVOY_DATA; lia|].
  set (m1 := alloc_block _ m). assert (G1 : grows [next_loc m] m m1) by apply grows_alloc.
  assert (Hwf1 : mem_wf m1) by (by eapply grows_wf).
  apply wp_bind. eapply wp_conseq; [by apply wp_toNativeData|]. intros d m2 (R & X & G2).
  destruct (grows_box _ _ _ _ _ (BDataBox d) Hwf G1 G2) as (Hl & Hn & G).
  apply wp_bind. eapply wp_mono; [by eapply (wp_store_box _ _ _ (λ _ m',
    m' = set_heap (<[next_loc m := BDataBox d]> (heap m2)) m2))|done|].
  intros [] m' ->. apply wp_ret. exists (next_loc m), d. split_and!; [done|apply lookup_insert_eq| |done|done].
  eapply reads_data_owned; [done| |exact R]. intros l Hin. cbn. rewrite lookup_insert_ne; [done|]. by intros <-.
Qed.
End headers.

(** *** To Foundation *)

Lemma ios_string_run d bs m :
  reads_data (heap m) d bs → ios_string d m = Ok (utf8_decode bs, m).
Proof.
  intros [Hlen Hr]. unfold ios_string. by rewrite (bind_run _ _ _ _ _ (read_bytes_run _ _ _ _ Hlen Hr)).
Qed.

Lemma to_ios_data_run d bs m :
  data_ok m d bs → to_ios_data d m = Ok (bs, mem_release (data_owned d) (data_external d) m).
Proof.
  intros [[Hlen Hr] [_ Ha]]. unfold to_ios_data.
  rewrite (bind_run _ _ _ _ _ (read_bytes_run _ _ _ _ Hlen Hr)).
  by rewrite (bind_run _ _ _ _ _ (release_data_run _ _ Ha)).
Qed.

Definition ios_headers (es : list (list byte * list byte)) : option NSHeaders :=
  dict_of <$> mapM ios_pair es.

(** The copy loop, on the pairs left. *)
Lemma to_ios_loop eh hs es k d m :
  headers_length eh = Z.of_nat (length hs) →
  reads_array (heap m) (headers_headers eh) hs → Forall2 (reads_header (heap m)) hs es →
  fold_upto (Z.of_nat k) (length hs - k) (λ i headerDict,
    header ← load_header (headers_headers eh) i;
    headerKey ← ios_string (header_key header);
    headerValue ← ios_string (header_value header);
    dict_add_object headerKey headerValue headerDict) d m =
  match mapM ios_pair (drop k es) with
  | Some ps => Ok (foldl (λ d p, dict_add p.1 p.2 d) d ps, m)
  | None => Fault (Thrown "NSInvalidArgumentException")
  end.
Proof.
  intros Hlen Harr Hitems. pose proof (Forall2_length _ _ _ Hitems) as Hl.
  remember (length hs - k) as n eqn:Hn. revert k d Hn. induction n as [|n IH]; intros k d Hn.
  { rewrite drop_ge by lia. done. }
  destruct (lookup_lt_is_Some_2 es k) as [e He]; [lia|].
  destruct (Forall2_lookup_r _ _ _ _ _ Hitems He) as (hd & Hhd & Hk & Hv).
  rewrite (drop_S _ _ _ He). cbn [fold_upto].
  rewrite bind_assoc, (bind_run _ _ _ _ _ (load_header_run _ _ _ _ _ Harr Hhd)).
  rewrite bind_assoc, (bind_run _ _ _ _ _ (ios_string_run _ _ _ Hk)).
  rewrite bind_assoc, (bind_run _ _ _ _ _ (ios_string_run _ _ _ Hv)).
  change (mapM ios_pair (e :: ?l)) with (p ← ios_pair e; ps ← mapM ios_pair l; Some (p :: ps)).
  assert (ios_pair e = (k ← utf8_decode e.1; v ← utf8_decode e.2; Some (k, v))) as -> by done.
  destruct (utf8_decode e.1) as [key|]; [|done]. destruct (utf8_decode e.2) as [value|]; [|done].
  cbn [dict_add_object mbind option_bind]. rewrite ret_bind.
  replace (Z.of_nat k + 1)%Z with (Z.of_nat (S k)) by lia. rewrite IH by lia. cbn.
  by destruct (mapM ios_pair (drop (S k) es)).
Qed.

(** to_ios_headers consumes its argument; text that is not UTF-8 is an exception. *)
Lemma to_ios_headers_run eh hs es m :
  headers_ok m eh hs es →
  to_ios_headers eh m =
  match ios_headers es with
  | Some d => Ok (d, mem_release (headers_owned eh hs) (headers_external hs) m)
  | None => Fault (Thrown "NSInvalidArgumentException")
  end.
Proof.
  intros [(Hlen & Harr & Hitems) Hown]. unfold to_ios_headers, for_range, ios_headers.
  pose proof (to_ios_loop eh hs es 0 ∅ m Hlen Harr Hitems) as Hloop.
  rewrite Nat.sub_0_r, drop_0 in Hloop. rewrite Hlen, Nat2Z.id.
  destruct (mapM ios_pair es) as [ps|].
  - rewrite (bind_run _ _ _ _ _ Hloop).
    by rewrite (bind_run _ _ _ _ _ (release_envoy_headers_run _ _ _ Hlen Harr Hown)).
  - by rewrite (bind_Fault _ _ _ _ Hloop).
Qed.
