(* ===== verification/IosUtilityProps.v ===== *)
(** * What survives the way between Foundation and C

    The theorems about the conversions of IosUtility.v: headers and data that are ASCII
    text round-trip in both directions, a string that is not ASCII is cut short, and text
    that is not UTF-8 is an exception. *)

From S2P Require Export IosUtility Reference.

(** ** Pairs with the same values are the same pairs *)

Lemma values_of_split {K V} `{!EqDecision K} (k : K) (v : V) vs ps :
  values_of k ps = v :: vs → ∃ ps1 ps2, ps = ps1 ++ (k, v) :: ps2 ∧ values_of k ps1 = [] ∧
    values_of k ps2 = vs.
Proof.
  induction ps as [|[k' v'] ps IH]; [done|]. rewrite values_of_cons. cbn. case_decide as Hk.
  - subst k'. intros [= -> <-]. by exists [], ps.
  - intros (ps1 & ps2 & -> & H1 & H2)%IH. exists ((k', v') :: ps1), ps2.
    split_and!; [done| |done]. rewrite values_of_cons. cbn. by rewrite decide_False.
Qed.

Lemma values_of_permutation {K V} `{!EqDecision K} (ps qs : list (K * V)) :
  (∀ k, values_of k ps = values_of k qs) → ps ≡ₚ qs.
Proof.
  revert qs. induction ps as [|[k v] ps IH]; intros qs Hv.
  - destruct qs as [|[k v] qs]; [done|]. specialize (Hv k). rewrite values_of_cons in Hv.
    cbn in Hv. by rewrite decide_True in Hv.
  - pose proof (Hv k) as Hk. rewrite values_of_cons in Hk. cbn in Hk. rewrite decide_True in Hk by done.
    symmetry in Hk. apply values_of_split in Hk as (q1 & q2 & -> & H1 & H2).
    rewrite <- Permutation_middle. f_equiv. apply IH. intros k'. specialize (Hv k').
    rewrite values_of_app in *. rewrite !values_of_cons in Hv. cbn in Hv. case_decide; [|done].
    subst k'. rewrite H1 in Hv |- *. by injection Hv.
Qed.

(** ** ASCII pairs *)

Definition ascii_pairs (ps : list (NSString * NSString)) : Prop :=
  Forall (λ p, ascii p.1 ∧ ascii p.2) ps.
Definition ascii_entries (es : list (list byte * list byte)) : Prop :=
  Forall (λ e, ascii_bytes e.1 ∧ ascii_bytes e.2) es.
Definition text (bs : list byte) : NSString := Byte.to_N <$> bs.
Definition text_pairs (es : list (list byte * list byte)) : list (NSString * NSString) :=
  prod_map text text <$> es.

#[export] Instance to_N_inj : Inj (=) (=) Byte.to_N.
Proof. intros a b E. apply (f_equal Byte.of_N) in E. rewrite !Byte.of_to_N in E. by injection E. Qed.
#[export] Instance text_inj : Inj (=) (=) text.
Proof. unfold text. apply _. Qed.

Lemma ascii_encodable ps : ascii_pairs ps → encodable ps.
Proof. intros H. eapply Forall_impl; [exact H|]. intros p [H1 H2]. split; by apply ascii_scalar. Qed.

Lemma native_string_decode s : ascii s → utf8_decode (native_string s) = Some s.
Proof.
  intros Hs. rewrite (proj2 (native_string_ascii s) Hs). by apply utf8_decode_encode, ascii_scalar.
Qed.

Lemma text_native_string s : ascii s → text (native_string s) = s ∧ ascii_bytes (native_string s).
Proof.
  intros Hs. rewrite (proj2 (native_string_ascii s) Hs).
  induction Hs as [|c s Hc Hs [IH1 IH2]]; [by split; [|constructor]|].
  assert (utf8 (c :: s) = byte_of c :: utf8 s) as ->.
  { change (utf8 (c :: s)) with (utf8_char c ++ utf8 s). unfold utf8_char. by rewrite decide_True. }
  assert (Byte.to_N (byte_of c) = c) as E by (apply to_N_byte_of; lia).
  split; [cbn; by rewrite E; f_equal|]. constructor; [by rewrite E|done].
Qed.

Lemma text_native_pairs ps :
  ascii_pairs ps → text_pairs (native_pairs ps) = ps ∧ ascii_entries (native_pairs ps).
Proof.
  unfold ascii_entries, native_pairs, text_pairs. induction 1 as [|[k v] ps [Hk Hv] _ [IH1 IH2]].
  { by split; [|constructor]. }
  destruct (text_native_string k Hk), (text_native_string v Hv). cbn in *.
  split; [by rewrite IH1; do 2 f_equal|by constructor].
Qed.

Lemma ios_headers_native ps : ascii_pairs ps → ios_headers (native_pairs ps) = Some (dict_of ps).
Proof.
  intros Hps. unfold ios_headers. assert (mapM ios_pair (native_pairs ps) = Some ps) as ->; [|done].
  apply mapM_Some. unfold native_pairs. apply Forall2_fmap_l. apply Forall_Forall2_diag.
  eapply Forall_impl; [exact Hps|]. intros [k v] [Hk Hv]. unfold ios_pair. cbn in *.
  by rewrite !native_string_decode.
Qed.

Lemma ios_headers_ascii es :
  ascii_entries es → ios_headers es = Some (dict_of (text_pairs es)) ∧ ascii_pairs (text_pairs es).
Proof.
  intros Hes. unfold ios_headers. split.
  - assert (mapM ios_pair es = Some (text_pairs es)) as ->; [|done].
    apply mapM_Some. unfold text_pairs. apply Forall2_fmap_r. apply Forall_Forall2_diag.
    eapply Forall_impl; [exact Hes|]. intros [k v] [Hk Hv]. unfold ios_pair. cbn in *.
    by rewrite (proj1 (ascii_bytes_decode k Hk)), (proj1 (ascii_bytes_decode v Hv)).
  - unfold ascii_pairs, text_pairs. rewrite Forall_fmap. eapply Forall_impl; [exact Hes|].
    intros [k v] [Hk Hv]. cbn in *. split; by apply ascii_bytes_decode.
Qed.

Section dictionaries.
Context `{!Dictionary} `{!DictionaryLaws}.

(** Headers that are grouped by name and flattened again. *)
Lemma regrouped es :
  ascii_entries es →
  let ps := pairs_of (dict_of (text_pairs es)) in
  ascii_pairs ps ∧ native_pairs ps ≡ₚ es ∧ ∀ k, values_of k (native_pairs ps) = values_of k es.
Proof.
  intros Hes ps. destruct (ios_headers_ascii es Hes) as [_ Hascii].
  assert (Hvals : ∀ k, values_of k ps = values_of k (text_pairs es)).
  { intros k. unfold ps. rewrite values_of_pairs, dict_of_lookup. by case_decide as E; rewrite ?E. }
  assert (Hps : ascii_pairs ps).
  { unfold ascii_pairs. by rewrite (values_of_permutation _ _ Hvals). }
  assert (Hk : ∀ k, values_of k (native_pairs ps) = values_of k es).
  { intros k. specialize (Hvals (text k)).
    rewrite <- (proj1 (text_native_pairs ps Hps)) in Hvals. unfold text_pairs in Hvals.
    rewrite !(values_of_map text text) in Hvals. by apply (inj (fmap text)) in Hvals. }
  split; [done|]. split; [by apply values_of_permutation|done].
Qed.
End dictionaries.

(** ** Theorems *)

Section theorems.
Context `{Allocator} `{!Dictionary} `{!DictionaryLaws}.

(** C24: Headers of the application come back as they were. A dictionary of headers in
    ASCII, with a value for each name, that is turned into an envoy_headers and back is
    the same dictionary, whatever order it is enumerated in, and leaves the C memory as
    it was: each block allocated on the way is freed once. *)
Theorem ios_headers_round_trip d m :
  mem_wf m → (Z.of_nat (length (pairs_of d)) ≤ INT_MAX)%Z →
  map_Forall (λ k vs, ascii k ∧ Forall ascii vs ∧ vs ≠ []) d →
  wp (headers ← toNativeHeaders (Some d); to_ios_headers headers) oom (λ d' m',
    d' = d ∧ heap m' = heap m ∧ released m' = released m) m.
Proof.
  intros Hwf Hmax Hd.
  assert (Hps : ascii_pairs (pairs_of d)).
  { apply (pairs_of_Forall ascii). intros k vs Hk. by destruct (Hd k vs Hk) as (? & ? & _). }
  apply wp_bind. eapply wp_conseq; [apply wp_toNativeHeaders; [done..|by apply ascii_encodable]|].
  intros eh m1 (hs & R & X & G).
  pose proof (to_ios_headers_run eh hs _ m1 (conj R (grows_allocated _ _ _ G))) as Hrun.
  rewrite ios_headers_native in Hrun by done. eapply wp_run; [exact Hrun|].
  split; [apply dict_of_pairs; intros k Hk; by destruct (Hd _ _ Hk) as (_ & _ & [])|].
  rewrite contained_headers_external by done. split; [by apply grows_release|].
  cbn. by rewrite app_nil_r, (grows_released _ _ _ G).
Qed.

(** Headers of Envoy are only grouped. The pairs of an envoy_headers in ASCII, handed
    to the application as a dictionary and turned into an envoy_headers again, are the
    same pairs in another order, those of one name in the order they had; what came in is
    released, and what goes out is in fresh blocks that it owns. *)
Theorem ios_headers_regroup eh hs es m :
  mem_wf m → headers_ok m eh hs es → (Z.of_nat (length es) ≤ INT_MAX)%Z → ascii_entries es →
  wp (headers ← to_ios_headers eh; toNativeHeaders (Some headers)) oom (λ eh' m', ∃ hs' es',
    reads_headers (heap m') eh' hs' es' ∧ Forall header_contained hs' ∧
    grows (headers_owned eh' hs') (mem_release (headers_owned eh hs) (headers_external hs) m) m' ∧
    es' ≡ₚ es ∧ ∀ k, values_of k es' = values_of k es) m.
Proof.
  intros Hwf Hok Hmax Hes. destruct (regrouped es Hes) as (Hps & Hperm & Hvals).
  destruct (ios_headers_ascii es Hes) as [Hios _].
  pose proof (to_ios_headers_run eh hs es m Hok) as Hrun. rewrite Hios in Hrun.
  apply wp_bind. eapply wp_run; [exact Hrun|].
  eapply wp_conseq.
  { apply wp_toNativeHeaders; [by apply mem_wf_release| |by apply ascii_encodable].
    by rewrite <- (native_pairs_length (pairs_of _)), Hperm. }
  intros eh' m' (hs' & R & X & G). by exists hs', (native_pairs (pairs_of (dict_of (text_pairs es)))).
Qed.

(** C29: Text is cut to its number of UTF-16 units. For any string that has a UTF-8 form,
    toManagedNativeString reads inside it and gives C that many bytes from its front, in
    a fresh block: all of it exactly when the string is ASCII, and of any other string
    fewer bytes than it has. *)
Theorem native_strings_truncate s m :
  Forall scalar s → mem_wf m →
  wp (toManagedNativeString s) oom (λ d m', ∃ bs rest,
    reads_data (heap m') d bs ∧ self_contained d ∧ grows (data_owned d) m m' ∧
    utf8 s = bs ++ rest ∧ data_length d = utf16_length s ∧ (rest = [] ↔ ascii s)) m.
Proof.
  intros Hs Hwf. eapply wp_conseq; [by apply wp_toManagedNativeString|].
  intros d m' (R & X & G). exists (native_string s), (drop (Z.to_nat (utf16_length s)) (utf8 s)).
  split_and!; [done..|symmetry; apply take_drop| |].
  - destruct R as [-> _]. apply native_string_length.
  - rewrite <- native_string_ascii. destruct (utf8_length s) as [[L1 L2] L3]. split.
    + intros E%(f_equal length). rewrite length_drop in E. cbn in E.
      apply take_ge. lia.
    + intros E. unfold native_string in E. rewrite <- (take_drop (Z.to_nat (utf16_length s)) (utf8 s)) in E at 2.
      rewrite <- (app_nil_r (take _ _)) in E at 1. by apply app_inv_head in E.
Qed.

(** Text that is not UTF-8 is an exception. Headers from the network are bytes; when a
    name or a value is not UTF-8, to_ios_headers ends with NSInvalidArgumentException and
    releases nothing, and it does so only then. *)
Theorem ios_headers_exception eh hs es m :
  headers_ok m eh hs es →
  (to_ios_headers eh m = Fault (Thrown "NSInvalidArgumentException") ↔
   Exists (λ e, utf8_decode e.1 = None ∨ utf8_decode e.2 = None) es).
Proof.
  intros Hok. rewrite (to_ios_headers_run eh hs es m Hok). unfold ios_headers.
  destruct (mapM ios_pair es) as [ps|] eqn:Hps; cbn.
  - split; [done|]. intros He. exfalso. apply mapM_Some in Hps.
    apply Exists_exists in He as (e & He & Hbad).
    apply list_elem_of_lookup in He as [i Hi].
    destruct (Forall2_lookup_l _ _ _ _ _ Hps Hi) as (q & _ & Hq). unfold ios_pair in Hq.
    destruct Hbad as [Hb|Hb]; rewrite Hb in Hq; [done|]. by destruct (utf8_decode e.1).
  - split; [intros _|done]. apply mapM_None in Hps. eapply Exists_impl; [exact Hps|].
    intros e He. unfold ios_pair in He. destruct (utf8_decode e.1); [|by left].
    destruct (utf8_decode e.2); [done|by right].
Qed.
End theorems.

(** ** Examples *)

(** Dictionaries that are enumerated in the order of stdpp's maps. *)
#[export] Instance ref_dictionary : Dictionary | 100 := λ d, (map_to_list d).*1.
#[export] Instance ref_dictionary_laws : DictionaryLaws.
Proof. intros d. done. Qed.

Definition ns (s : string) : NSString := text (bytes_of s).
Definition ref_dict : NSHeaders := {[ ns "accept" := [ns "a"; ns "b"]; ns "x" := [ns "1"] ]}.

Lemma ref_dict_ascii : map_Forall (λ k vs, ascii k ∧ Forall ascii vs ∧ vs ≠ []) ref_dict.
Proof. apply (bool_decide_unpack _). by vm_compute. Qed.

Lemma ios_headers_round_trip_witness :
  wp (headers ← toNativeHeaders (Some ref_dict); to_ios_headers headers) oom (λ d' m',
    d' = ref_dict ∧ heap m' = heap ref_mem ∧ released m' = released ref_mem) ref_mem.
Proof.
  apply (ios_headers_round_trip ref_dict ref_mem).
  - apply ref_mem_wf.
  - vm_compute. congruence.
  - apply ref_dict_ascii.
Defined.

Lemma ios_headers_regroup_witness :
  wp (headers ← to_ios_headers ref_headers; toNativeHeaders (Some headers)) oom (λ eh' m', ∃ hs' es',
    reads_headers (heap m') eh' hs' es' ∧ es' ≡ₚ ref_pairs) ref_mem.
Proof.
  refine (wp_conseq _ _ _ _ _ (ios_headers_regroup ref_headers [ref_header] ref_pairs ref_mem
    ref_mem_wf ref_headers_ok _ _) _).
  - vm_compute. congruence.
  - apply (bool_decide_unpack _). by vm_compute.
  - intros eh' m' (hs' & es' & H1 & _ & _ & H2 & _). by exists hs', es'.
Defined.

(** An "e" with an acute accent: one unit, two bytes. *)
Lemma native_strings_truncate_witness :
  wp (toManagedNativeString [0xE9%N]) oom (λ d m', reads_data (heap m') d [xc3] ∧ data_length d = 1%Z)
    ref_mem.
Proof.
  refine (wp_conseq _ _ _ _ _ (native_strings_truncate [0xE9%N] ref_mem _ ref_mem_wf) _).
  - apply (bool_decide_unpack _). by vm_compute.
  - intros d m' (bs & rest & [Hl Hr] & _ & _ & Hb & Hn & _).
    change (utf16_length [0xE9%N]) with 1%Z in Hn.
    assert (bs = [xc3]) as -> by (destruct bs as [|b [|b' bs]]; rewrite Hn in Hl; cbn in Hl; [lia| |lia];
      by vm_compute in Hb; injection Hb as <- _).
    by split; [split|].
Defined.

(** A memory whose one value is the byte of "e" with an acute accent in Latin-1. *)
Definition latin_mem : mem :=
  Mem {[ 1%positive := BBytes (Some <$> bytes_of "Key");
         2%positive := BBytes [Some xe9; None];
         3%positive := BHeaders [Some (EnvoyHeader ref_key
           (EnvoyData 1 (Some 2%positive) c_free_release (Some 2%positive)))] ]} 4 [].

Lemma latin_headers_ok :
  headers_ok latin_mem ref_headers
    [EnvoyHeader ref_key (EnvoyData 1 (Some 2%positive) c_free_release (Some 2%positive))]
    [(bytes_of "Key", [xe9])].
Proof.
  split; [split_and!; [done| |]|].
  - right. exists 3%positive, []. split; [done|]. by vm_compute.
  - constructor; [|constructor]. split; (split; [done|]); right.
    + exists 1%positive, []. split; [done|]. by vm_compute.
    + exists 2%positive, [None]. split; [done|]. by vm_compute.
  - split; [apply (bool_decide_unpack _); by vm_compute|].
    intros l Hl. cbn in Hl. rewrite !elem_of_cons, elem_of_nil in Hl.
    destruct Hl as [->|[->|[->|[]]]]; by vm_compute; eexists.
Qed.

Lemma ios_headers_exception_witness :
  to_ios_headers ref_headers latin_mem = Fault (Thrown "NSInvalidArgumentException").
Proof.
  apply (ios_headers_exception _ _ _ _ latin_headers_ok). apply (bool_decide_unpack _). by vm_compute.
Defined.
