(* ===== verification/IosStream.v ===== *)
(** * Streams of the Objective-C platform

    Models library/objective-c/EnvoyHTTPStreamImpl.m, with the callback record of
    EnvoyEngine.h. A stream object keeps itself alive through [_strongSelf] until a
    terminal callback has been handled; the C callbacks find it through a context in C
    memory, and hand each event to the application's dispatch queue. Reference counting is
    explicit: an object is deallocated when nothing designates it any more. *)

From S2P Require Import Engine.
From S2P Require Export IosUtility Process.

(** ** Data *)

(** EnvoyHTTPCallbacks: the queue the application wants its callbacks on, by identity, and
    whether each closure is there. *)
Record EnvoyHTTPCallbacks := HTTPCallbacks {
  dispatchQueue : positive;
  onHeaders_closure : bool;
  onData_closure : bool;
  onTrailers_closure : bool;
  onError_closure : bool;
  onCancel_closure : bool
}.

(** A call of one of the closures. The error code and the attempt count are converted to
    uint64_t and int32_t. *)
Inductive app_call :=
| CallHeaders (headers : NSHeaders) (endStream : bool)
| CallData (data : NSData) (endStream : bool)
| CallTrailers (trailers : NSHeaders)
| CallError (errorCode : Z) (message : option NSString) (attemptCount : Z)
| CallCancel.

(** ios_context. The objects are not retained through it. *)
Record ios_context := IosContext {
  ctx_stream : nat;
  ctx_callbacks : EnvoyHTTPCallbacks;
  ctx_closed : ptr
}.

(** The object's fields, and the reference [alloc] made: the initialiser's, and then the
    application's, until it gives it up. *)
Record EnvoyHTTPStreamImpl := StreamImpl {
  strongSelf : bool;
  platformCallbacks : EnvoyHTTPCallbacks;
  native_context : ptr;
  streamHandle : Z;
  app_reference : bool
}.

(** A block on its queue: the callback that made it, whose arguments it captures. All
    capture [callbacks]; those of terminal callbacks capture the stream too, the others
    only name it here. *)
Record queued_block := QueuedBlock {
  block_stream : nat;
  block_callbacks : EnvoyHTTPCallbacks;
  block_body : bridge_event
}.

(** The stream objects, what the contexts hold, the blocks that wait, and the calls of
    closures so far, each with the stream it is for. *)
Record ios_state := IosState {
  stream_objects : gmap nat EnvoyHTTPStreamImpl;
  next_stream : nat;
  contexts : gmap positive ios_context;
  blocks : list queued_block;
  app_calls : list (nat * app_call)
}.

Definition set_stream_objects v (s : ios_state) : ios_state :=
  IosState v (next_stream s) (contexts s) (blocks s) (app_calls s).
Definition set_next_stream v (s : ios_state) : ios_state :=
  IosState (stream_objects s) v (contexts s) (blocks s) (app_calls s).
Definition set_contexts v (s : ios_state) : ios_state :=
  IosState (stream_objects s) (next_stream s) v (blocks s) (app_calls s).
Definition set_blocks v (s : ios_state) : ios_state :=
  IosState (stream_objects s) (next_stream s) (contexts s) v (app_calls s).
Definition set_app_calls v (s : ios_state) : ios_state :=
  IosState (stream_objects s) (next_stream s) (contexts s) (blocks s) v.

Definition set_strong_self b (o : EnvoyHTTPStreamImpl) : EnvoyHTTPStreamImpl :=
  StreamImpl b (platformCallbacks o) (native_context o) (streamHandle o) (app_reference o).
Definition set_app_reference b (o : EnvoyHTTPStreamImpl) : EnvoyHTTPStreamImpl :=
  StreamImpl (strongSelf o) (platformCallbacks o) (native_context o) (streamHandle o) b.

#[export] Instance ios_mem : Part (mem * ios_state) mem :=
  { part_get := fst; part_set m s := (m, s.2) }.
#[export] Instance ios_mem_laws : PartLaws (mem * ios_state) mem.
Proof. split; [done|by intros []|done]. Qed.
#[export] Instance ios_objects : Part (mem * ios_state) ios_state :=
  { part_get := snd; part_set i s := (s.1, i) }.
#[export] Instance ios_objects_laws : PartLaws (mem * ios_state) ios_state.
Proof. split; [done|by intros []|done]. Qed.

(** ** The C callbacks *)

Section callbacks.
Abbreviation I := (M (mem * ios_state)).

Definition c_memory {A} (m : M mem A) : I A := zoom m.
Definition objects_do (f : ios_state → ios_state) : I unit := zoom (modify f : M ios_state unit).

(** [(ios_context * )context], read. *)
Definition load_context (context : ptr) : I ios_context :=
  l ← deref "context is NULL" context;
  s ← gets id;
  match heap s.1 !! l, contexts s.2 !! l with
  | Some _, Some c => mret c
  | _, _ => fail (Undefined "the context was freed")
  end.

Definition dispatch_async (b : queued_block) : I unit :=
  objects_do (λ i, set_blocks (blocks i ++ [b]) i).

(** What the six functions have in common. *)
Definition enqueue (context : ptr) (b : bridge_event) : I ptr :=
  c ← load_context context;
  dispatch_async (QueuedBlock (ctx_stream c) (ctx_callbacks c) b) ;;
  mret NULL.

Definition ios_on_headers (headers : envoy_headers) (end_stream : bool) (context : ptr) : I ptr :=
  enqueue context (OnHeaders headers end_stream).
Definition ios_on_data (data : envoy_data) (end_stream : bool) (context : ptr) : I ptr :=
  enqueue context (OnData data end_stream).
Definition ios_on_metadata (metadata : envoy_headers) (context : ptr) : I ptr := mret NULL.
Definition ios_on_trailers (trailers : envoy_headers) (context : ptr) : I ptr :=
  enqueue context (OnTrailers trailers).
Definition ios_on_complete (context : ptr) : I ptr := enqueue context OnComplete.
Definition ios_on_cancel (context : ptr) : I ptr := enqueue context OnCancel.
Definition ios_on_error (error : envoy_error) (context : ptr) : I ptr :=
  enqueue context (OnError error).

(** *** The blocks *)

Definition call_app (o : nat) (c : app_call) : I unit :=
  objects_do (λ i, set_app_calls (app_calls i ++ [(o, c)]) i).

Definition update_stream (o : nat) (f : EnvoyHTTPStreamImpl → EnvoyHTTPStreamImpl) : I unit :=
  i ← gets snd;
  deref "message to a deallocated stream" (stream_objects i !! o) ;;
  objects_do (λ i, set_stream_objects (alter f o (stream_objects i)) i).

(** [_strongSelf = nil]. Who sends the message has a reference of its own. *)
Definition cleanUp (o : nat) : I unit := update_stream o (set_strong_self false).

Definition run_body (o : nat) (callbacks : EnvoyHTTPCallbacks) (b : bridge_event) : I unit :=
  match b with
  | OnHeaders headers end_stream =>
      when (onHeaders_closure callbacks)
        (h ← c_memory (to_ios_headers headers); call_app o (CallHeaders h end_stream))
  | OnData data end_stream =>
      when (onData_closure callbacks)
        (d ← c_memory (to_ios_data data); call_app o (CallData d end_stream))
  | OnTrailers trailers =>
      when (onTrailers_closure callbacks)
        (h ← c_memory (to_ios_headers trailers); call_app o (CallTrailers h))
  | OnComplete => cleanUp o
  | OnCancel => when (onCancel_closure callbacks) (call_app o CallCancel) ;; cleanUp o
  | OnError error =>
      when (onError_closure callbacks)
        (errorMessage ← c_memory (ios_string (error_message error));
         c_memory (release_data (error_message error)) ;;
         call_app o (CallError (u64 (error_code_value (error_code error))) errorMessage
                       (s32 (error_attempt_count error)))) ;;
      cleanUp o
  end.

(** *** References *)

(** [dealloc] of EnvoyHTTPStreamImpl. *)
Definition dealloc (stream : EnvoyHTTPStreamImpl) : I unit :=
  context ← load_context (native_context stream);
  c_memory (c_free (ctx_closed context)) ;;
  c_memory (c_free (native_context stream)) ;;
  objects_do (λ i, set_contexts
    (match native_context stream with Some l => delete l (contexts i) | None => contexts i end) i).

Definition captured (o : nat) (l : list queued_block) : bool :=
  existsb (λ b, bool_decide (block_stream b = o) && terminal (block_body b)) l.

(** What ARC does when a reference to the object goes. *)
Definition release_object (o : nat) : I unit :=
  i ← gets snd;
  match stream_objects i !! o with
  | Some stream =>
      if strongSelf stream || app_reference stream || captured o (blocks i) then mret tt
      else objects_do (λ i, set_stream_objects (delete o (stream_objects i)) i) ;; dealloc stream
  | None => mret tt
  end.

(** A block that is the first on its queue runs, and is destroyed with its captures. *)
Definition run_block (n : nat) : I unit :=
  i ← gets snd;
  b ← deref "no such block" (blocks i !! n);
  objects_do (set_blocks (delete n (blocks i))) ;;
  run_body (block_stream b) (block_callbacks b) (block_body b) ;;
  when (terminal (block_body b)) (release_object (block_stream b)).

(** The application gives its reference up. *)
Definition app_release (o : nat) : I unit :=
  update_stream o (set_app_reference false) ;; release_object o.

(** *** The part of initWithHandle before and after start_stream *)

(** sizeof(ios_context) and sizeof(atomic_bool). *)
Definition SIZEOF_IOS_CONTEXT : Z := 24.
Definition SIZEOF_ATOMIC_BOOL : Z := 1.

Definition init_stream_object `{Allocator} (handle : Z) (callbacks : EnvoyHTTPCallbacks) : I (nat * ptr) :=
  o ← gets (λ s, next_stream s.2);
  context ← c_memory (safe_malloc SIZEOF_IOS_CONTEXT bytes_block);
  closed ← c_memory (safe_malloc SIZEOF_ATOMIC_BOOL bytes_block);
  c_memory (write_bytes closed [x00]) ;;
  l ← deref "write through NULL" context;
  objects_do (λ i, set_contexts (<[l := IosContext o callbacks closed]> (contexts i)) i) ;;
  objects_do (λ i, set_next_stream (S o) (set_stream_objects
    (<[o := StreamImpl true callbacks context handle true]> (stream_objects i)) i)) ;;
  mret (o, context).

(** [return self] hands the reference to the caller; [return nil] drops it. *)
Definition finish_init (o : nat) (result : envoy_status_t) : I (option nat) :=
  if decide (result = ENVOY_SUCCESS) then mret (Some o)
  else update_stream o (set_strong_self false) ;; app_release o ;; mret None.
End callbacks.

(** ** The stream's methods

    A method's name is its selector with underscores. *)

(** The identities of the static functions. *)
Definition ios_on_headers_f : positive := 1.
Definition ios_on_data_f : positive := 2.
Definition ios_on_metadata_f : positive := 3.
Definition ios_on_trailers_f : positive := 4.
Definition ios_on_error_f : positive := 5.
Definition ios_on_complete_f : positive := 6.
Definition ios_on_cancel_f : positive := 7.
Definition ios_callbacks (context : ptr) : envoy_http_callbacks :=
  EnvoyHttpCallbacks ios_on_headers_f ios_on_data_f ios_on_metadata_f ios_on_trailers_f
    ios_on_error_f ios_on_complete_f ios_on_cancel_f context.

Section methods.
Context {mode : BuildMode} `{Allocator} `{!Dictionary} {HM : Type} `{!HeaderMap HM} `{!EnvoyCodec HM}
  {B : Type} `{!BufferInstance B} `{!EnvoyServer} {A : Type}.
Abbreviation globals_t := (main_state HM B A).
Abbreviation E := (M (globals_t * ios_state)).

Definition initWithHandle_callbacks (handle : Z) (callbacks : EnvoyHTTPCallbacks) : E (option nat) :=
  self ← on_native (init_stream_object handle callbacks);
  result ← on_main (start_stream handle (ios_callbacks self.2));
  on_native (finish_init self.1 result).

(** A message to nil does nothing. *)
Definition with_stream (o : option nat) (m : EnvoyHTTPStreamImpl → E unit) : E unit :=
  match o with
  | None => mret tt
  | Some o =>
      stream ← gets (λ x, stream_objects x.2 !! o);
      stream ← deref "message to a deallocated stream" stream;
      m stream
  end.

Definition sendHeaders_close (o : option nat) (headers : NSHeaders) (close : bool) : E unit :=
  with_stream o (λ stream,
    headers ← on_native (c_memory (toNativeHeaders (Some headers)));
    on_main (send_headers (streamHandle stream) headers close) ;; mret tt).
Definition sendData_close (o : option nat) (data : NSData) (close : bool) : E unit :=
  with_stream o (λ stream,
    data ← on_native (c_memory (toNativeData (Some data)));
    on_main (send_data (streamHandle stream) data close) ;; mret tt).
Definition sendTrailers_ (o : option nat) (trailers : NSHeaders) : E unit :=
  with_stream o (λ stream,
    trailers ← on_native (c_memory (toNativeHeaders (Some trailers)));
    on_main (send_trailers (streamHandle stream) trailers) ;; mret tt).

Definition status_number (s : envoy_status_t) : Z :=
  match s with ENVOY_SUCCESS => 0 | ENVOY_FAILURE => 1 end.

Definition cancel (o : option nat) : E Z :=
  match o with
  | None => mret 0%Z
  | Some o =>
      stream ← gets (λ x, stream_objects x.2 !! o);
      stream ← deref "message to a deallocated stream" stream;
      status ← on_main (reset_stream (streamHandle stream));
      mret (status_number status)
  end.

(** [startStreamWithCallbacks:] of EnvoyEngineImpl.m. *)
Definition startStreamWithCallbacks (callbacks : EnvoyHTTPCallbacks) : E (option nat) :=
  handle ← on_main init_stream; initWithHandle_callbacks handle callbacks.

(** [recordCounterInc:count:] and the gauges; the count is an NSUInteger. *)
Definition recordCounterInc_count (elements : string) (count : Z) : E Z :=
  status ← on_main (record_counter elements (u64 count)); mret (status_number status).
Definition recordGaugeSet_value (elements : string) (value : Z) : E Z :=
  status ← on_main (record_gauge_set elements (u64 value)); mret (status_number status).
Definition recordGaugeAdd_amount (elements : string) (amount : Z) : E Z :=
  status ← on_main (record_gauge_add elements (u64 amount)); mret (status_number status).
Definition recordGaugeSub_amount (elements : string) (amount : Z) : E Z :=
  status ← on_main (record_gauge_sub elements (u64 amount)); mret (status_number status).
End methods.
