(* ===== verification/IosStreamInv.v ===== *)
(** * Streams of the Objective-C platform in their environment

    The steps of IosStream.v under everything that happens around them: Envoy's callbacks,
    as the stream contract of Dispatcher.v allows them, the dispatch queues, the
    application giving its references up, and the rest of the program, which works on
    the same memory. The file has the invariant of all runs, and that every step keeps it
    and does not fault. *)

From S2P Require Import DispatcherProps.
From S2P Require Export IosStream.

(** ** Runs *)

(** What Envoy handed over with an event: the blocks the platform owns from then on, and
    the call of a closure it is to become, if there is a closure for it. *)
Record payload := Payload {
  payload_owned : list positive;
  payload_call : option app_call
}.
Definition arrival : Type := bridge_event * payload.

(** A stream whose start_stream succeeded. *)
Record started_stream := Started {
  sd_context : positive;
  sd_closed : positive;
  sd_callbacks : EnvoyHTTPCallbacks
}.

(** The machine, and what its history was: the streams, the events Envoy had for them, and
    those of them whose blocks wait. *)
Record ios_run := IosRun {
  machine : mem * ios_state;
  started_streams : gmap nat started_stream;
  received : list (nat * arrival);
  waiting : list (nat * arrival)
}.

Inductive ios_action :=
| AStart (handle : Z) (callbacks : EnvoyHTTPCallbacks)
| AStartFails (handle : Z) (callbacks : EnvoyHTTPCallbacks)
| AEvent (o : nat) (ev : bridge_event) (p : payload)
| ARun (n : nat)
| ARelease (o : nat)
| AMemory (m : mem).

Definition ios_callback (context : ptr) (ev : bridge_event) : M (mem * ios_state) ptr :=
  match ev with
  | OnHeaders headers end_stream => ios_on_headers headers end_stream context
  | OnData data end_stream => ios_on_data data end_stream context
  | OnTrailers trailers => ios_on_trailers trailers context
  | OnError error => ios_on_error error context
  | OnComplete => ios_on_complete context
  | OnCancel => ios_on_cancel context
  end.

(** The callbacks of a stream are given its context, whatever has become of it. *)
Definition act `{Allocator} (a : ios_action) (r : ios_run) : M (mem * ios_state) unit :=
  match a with
  | AStart handle callbacks =>
      self ← init_stream_object handle callbacks; finish_init self.1 ENVOY_SUCCESS ;; mret tt
  | AStartFails handle callbacks =>
      self ← init_stream_object handle callbacks; finish_init self.1 ENVOY_FAILURE ;; mret tt
  | AEvent o ev _ => ios_callback (sd_context <$> started_streams r !! o) ev ;; mret tt
  | ARun n => run_block n
  | ARelease o => app_release o
  | AMemory m => modify (λ s, (m, s.2))
  end.

(** The context of the newest stream object. *)
Definition newest (cb : EnvoyHTTPCallbacks) (i : ios_state) : option started_stream :=
  obj ← stream_objects i !! pred (next_stream i);
  l ← native_context obj;
  c ← contexts i !! l;
  b ← ctx_closed c;
  Some (Started l b cb).

Definition history (a : ios_action) (r : ios_run) (s : mem * ios_state) : ios_run :=
  match a with
  | AStart _ cb =>
      IosRun s
        (match newest cb s.2 with
         | Some sd => <[next_stream (machine r).2 := sd]> (started_streams r)
         | None => started_streams r
         end) (received r) (waiting r)
  | AEvent o ev p =>
      IosRun s (started_streams r) (received r ++ [(o, (ev, p))]) (waiting r ++ [(o, (ev, p))])
  | ARun n => IosRun s (started_streams r) (received r) (delete n (waiting r))
  | _ => IosRun s (started_streams r) (received r) (waiting r)
  end.

(** ** What may happen *)

(** The struct owns what it designates, or it is envoy_nodata. *)
Definition data_plain (d : envoy_data) : Prop := self_contained d ∨ d = envoy_nodata.

(** The payload of an event, valid in memory, and the call it makes: none if it is headers
    with a name or a value that is not UTF-8. *)
Definition carries (m : mem) (ev : bridge_event) (owned : list positive) (c : option app_call) : Prop :=
  match ev with
  | OnHeaders h end_stream => ∃ hs es, reads_headers (heap m) h hs es ∧ Forall header_contained hs ∧
      owned = headers_owned h hs ∧ c = (λ d, CallHeaders d end_stream) <$> ios_headers es
  | OnData d end_stream => ∃ bs, reads_data (heap m) d bs ∧ data_plain d ∧
      owned = data_owned d ∧ c = Some (CallData bs end_stream)
  | OnTrailers h => ∃ hs es, reads_headers (heap m) h hs es ∧ Forall header_contained hs ∧
      owned = headers_owned h hs ∧ c = CallTrailers <$> ios_headers es
  | OnError e => ∃ bs, reads_data (heap m) (error_message e) bs ∧ data_plain (error_message e) ∧
      owned = data_owned (error_message e) ∧
      c = Some (CallError (u64 (error_code_value (error_code e))) (utf8_decode bs)
            (s32 (error_attempt_count e)))
  | OnComplete => owned = [] ∧ c = None
  | OnCancel => owned = [] ∧ c = Some CallCancel
  end.

Definition closure_for (cb : EnvoyHTTPCallbacks) (ev : bridge_event) : bool :=
  match ev with
  | OnHeaders _ _ => onHeaders_closure cb | OnData _ _ => onData_closure cb
  | OnTrailers _ => onTrailers_closure cb | OnError _ => onError_closure cb
  | OnCancel => onCancel_closure cb | OnComplete => false
  end.

Definition payload_of (m : mem) (cb : EnvoyHTTPCallbacks) (ev : bridge_event) (p : payload) : Prop :=
  ∃ c, carries m ev (payload_owned p) c ∧ payload_call p = if closure_for cb ev then c else None.

(** Headers or trailers with a name or a value that is not UTF-8. *)
Definition not_utf8 (m : mem) (ev : bridge_event) : Prop :=
  ∃ h hs es, ((∃ end_stream, ev = OnHeaders h end_stream) ∨ ev = OnTrailers h) ∧
    reads_headers (heap m) h hs es ∧ ios_headers es = None.

(** A payload the block of the event can read, if the closure is there to read it for. *)
Definition readable (cb : EnvoyHTTPCallbacks) (ev : bridge_event) (p : payload) : Prop :=
  closure_for cb ev = true → payload_call p ≠ None.
#[export] Instance readable_dec cb ev p : Decision (readable cb ev p).
Proof. unfold readable. destruct (closure_for cb ev), (payload_call p); solve_decision || (left; done) || (right; by intros H; apply H). Defined.

Lemma readable_or_not m cb ev p :
  payload_of m cb ev p → readable cb ev p ∨ closure_for cb ev = true ∧ not_utf8 m ev.
Proof.
  intros (c & Hc & Hp). unfold readable. destruct (closure_for cb ev) eqn:Hcl; [|by left]. rewrite Hp.
  destruct ev as [h b|d b|h|e| |]; cbn in Hc, Hcl.
  - destruct Hc as (hs & es & R & _ & _ & ->). destruct (ios_headers es) eqn:Hi; [by left|right].
    split; [done|]. exists h, hs, es. eauto.
  - destruct Hc as (bs & _ & _ & _ & ->). by left.
  - destruct Hc as (hs & es & R & _ & _ & ->). destruct (ios_headers es) eqn:Hi; [by left|right].
    split; [done|]. exists h, hs, es. eauto.
  - destruct Hc as (bs & _ & _ & _ & ->). by left.
  - done.
  - destruct Hc as [_ ->]. by left.
Qed.

(** The blocks of C memory the platform uses: the contexts, and what waits. *)
Definition context_blocks (cs : gmap positive ios_context) : list positive :=
  map_to_list cs ≫= λ e, e.1 :: option_list (ctx_closed e.2).
Definition waiting_blocks (w : list (nat * arrival)) : list positive :=
  w ≫= λ e, payload_owned e.2.2.
Definition used (r : ios_run) : list positive :=
  context_blocks (contexts (machine r).2) ++ waiting_blocks (waiting r).

Definition events_of (o : nat) (l : list (nat * arrival)) : list bridge_event := fst <$> values_of o l.
Definition calls_of (l : list arrival) : list app_call := omap (λ a, payload_call a.2) l.

(** Envoy keeps the stream contract and hands over valid payloads; a queue runs its blocks
    one by one and in order; the application gives up what it has; the rest of the
    program leaves alone what the platform uses, and no address is used twice. *)
Definition permitted (a : ios_action) (r : ios_run) : Prop :=
  let m := (machine r).1 in let i := (machine r).2 in
  match a with
  | AStart _ _ | AStartFails _ _ => True
  | AEvent o ev p => ∃ sd, started_streams r !! o = Some sd ∧
      is_Some (spec_run (events_of o (received r) ++ [ev])) ∧
      payload_of m (sd_callbacks sd) ev p ∧ allocated m (used r ++ payload_owned p)
  | ARun n => ∃ b, blocks i !! n = Some b ∧
      ∀ k b', k < n → blocks i !! k = Some b' →
        dispatchQueue (block_callbacks b') ≠ dispatchQueue (block_callbacks b)
  | ARelease o => ∃ obj, stream_objects i !! o = Some obj ∧ app_reference obj = true
  | AMemory m' => mem_wf m' ∧ (next_loc m ≤ next_loc m')%positive ∧
      (∀ l, l ∈ used r → heap m' !! l = heap m !! l) ∧
      (∀ l, (l < next_loc m)%positive → heap m !! l = None → heap m' !! l = None)
  end.

Inductive ios_steps `{Allocator} : ios_run → Prop :=
| ios_begin m : mem_wf m → ios_steps (IosRun (m, IosState ∅ 0 ∅ [] []) ∅ [] [])
| ios_step a r s : ios_steps r → permitted a r → act a r (machine r) = Ok (tt, s) →
    ios_steps (history a r s).

(** ** The invariant *)

(** A stream is live until its terminal block has run. *)
Definition handled (l : list arrival) : bool := existsb (λ a, terminal a.1) l.

(** The part of the invariant about one stream. [done] are the events whose blocks ran. When
    [checked], nothing that is unreferenced is still there. *)
Definition stream_ok (checked : bool) (r : ios_run) (o : nat) (sd : started_stream) : Prop :=
  let m := (machine r).1 in let i := (machine r).2 in
  is_Some (spec_run (events_of o (received r))) ∧
  (sd_context sd < next_loc m)%positive ∧ (sd_closed sd < next_loc m)%positive ∧
  ∃ done, values_of o (received r) = done ++ values_of o (waiting r) ∧
    values_of o (app_calls i) = calls_of done ∧
    match stream_objects i !! o with
    | Some obj =>
        native_context obj = Some (sd_context sd) ∧ platformCallbacks obj = sd_callbacks sd ∧
        contexts i !! sd_context sd = Some (IosContext o (sd_callbacks sd) (Some (sd_closed sd))) ∧
        strongSelf obj = negb (handled done) ∧
        (checked = true → strongSelf obj || app_reference obj = true)
    | None => handled done = true ∧ heap m !! sd_context sd = None ∧ heap m !! sd_closed sd = None
    end.

Definition block_ok (r : ios_run) (b : queued_block) (w : nat * arrival) : Prop :=
  block_stream b = w.1 ∧ block_body b = w.2.1 ∧
  payload_of (machine r).1 (block_callbacks b) w.2.1 w.2.2 ∧
  sd_callbacks <$> started_streams r !! w.1 = Some (block_callbacks b).

(** [x] is a stream whose references are just being dropped. *)
Record ios_inv (x : option nat) (r : ios_run) : Prop := {
  ios_inv_wf : mem_wf (machine r).1;
  ios_inv_used : allocated (machine r).1 (used r);
  ios_inv_streams o sd : started_streams r !! o = Some sd → stream_ok (bool_decide (x ≠ Some o)) r o sd;
  ios_inv_unknown o : started_streams r !! o = None →
    stream_objects (machine r).2 !! o = None ∧ values_of o (received r) = [] ∧
    values_of o (app_calls (machine r).2) = [];
  ios_inv_contexts l c : contexts (machine r).2 !! l = Some c →
    ∃ sd, started_streams r !! ctx_stream c = Some sd ∧ sd_context sd = l ∧
      is_Some (stream_objects (machine r).2 !! ctx_stream c);
  ios_inv_blocks : Forall2 (block_ok r) (blocks (machine r).2) (waiting r);
  ios_inv_fresh o : next_stream (machine r).2 ≤ o → started_streams r !! o = None
}.

(** ** Lemmas on the parts *)

Lemma context_blocks_elem cs l c :
  cs !! l = Some c → ∀ b, b ∈ l :: option_list (ctx_closed c) → b ∈ context_blocks cs.
Proof.
  intros Hl b Hb. unfold context_blocks. apply list_elem_of_bind. exists (l, c).
  by rewrite elem_of_map_to_list.
Qed.

Lemma context_blocks_insert cs l c :
  cs !! l = None →
  context_blocks (<[l := c]> cs) ≡ₚ (l :: option_list (ctx_closed c)) ++ context_blocks cs.
Proof. intros Hl. unfold context_blocks. by rewrite (map_to_list_insert _ _ _ Hl). Qed.

Lemma context_blocks_delete cs l c :
  cs !! l = Some c →
  context_blocks cs ≡ₚ (l :: option_list (ctx_closed c)) ++ context_blocks (delete l cs).
Proof. intros Hl. unfold context_blocks. by rewrite <- (map_to_list_delete _ _ _ Hl). Qed.

Lemma waiting_blocks_delete w n e :
  w !! n = Some e → waiting_blocks w ≡ₚ payload_owned e.2.2 ++ waiting_blocks (delete n w).
Proof.
  intros Hn. rewrite <- (take_drop_middle _ _ _ Hn) at 1. rewrite delete_take_drop.
  unfold waiting_blocks. rewrite !bind_app. cbn [mbind list_bind]. solve_Permutation.
Qed.

#[export] Instance allocated_proper m : Proper ((≡ₚ) ==> iff) (allocated m).
Proof. intros l1 l2 Hl. unfold allocated. by setoid_rewrite Hl. Qed.

Lemma spec_run_terminal evs p : spec_run evs = Some p → p ≠ Closed → existsb terminal evs = false.
Proof.
  intros H%spec_run_shape Hp. rewrite decide_False in H by done.
  induction H as [|ev evs Hev _ IH]; [done|]. cbn. by rewrite Hev.
Qed.

Lemma spec_run_after evs ev : is_Some (spec_run (evs ++ [ev])) → existsb terminal evs = false.
Proof.
  rewrite spec_run_snoc. intros [p Hp]. destruct (spec_run evs) as [q|] eqn:Hq; [|done].
  apply (spec_run_terminal evs q Hq). intros ->. by destruct ev.
Qed.

Lemma spec_run_prefix evs evs' : is_Some (spec_run (evs ++ evs')) → is_Some (spec_run evs).
Proof.
  revert evs. induction evs' as [|ev evs' IH]; intros evs; [by rewrite app_nil_r|].
  rewrite cons_middle, app_assoc. intros H%IH. rewrite spec_run_snoc in H.
  destruct (spec_run evs); [done|]. by destruct H.
Qed.

(** A terminal event is the last of its stream. *)
Lemma spec_run_last evs ev evs' :
  is_Some (spec_run (evs ++ ev :: evs')) → existsb terminal (evs ++ [ev]) = true → evs' = [].
Proof.
  destruct evs' as [|ev' evs']; [done|]. intros H Ht. exfalso.
  rewrite cons_middle, app_assoc, (cons_middle ev'), app_assoc in H. apply spec_run_prefix in H.
  apply spec_run_after in H. by rewrite H in Ht.
Qed.

Lemma existsb_fmap {A B} (f : A → B) (g : B → bool) l : existsb g (f <$> l) = existsb (g ∘ f) l.
Proof. induction l as [|a l IH]; [done|]. cbn. by rewrite IH. Qed.

Lemma handled_events l : handled l = existsb terminal (fst <$> l).
Proof. unfold handled. by rewrite existsb_fmap. Qed.

Lemma handled_app l1 l2 : handled (l1 ++ l2) = handled l1 || handled l2.
Proof. apply existsb_app. Qed.

(** What an event carries depends on its blocks only. *)
Lemma reads_plain_owned h h' d bs :
  data_plain d → (∀ l, l ∈ data_owned d → h' !! l = h !! l) → reads_data h d bs → reads_data h' d bs.
Proof.
  intros [Hd| ->]; [by apply reads_data_owned|]. intros _ [Hl Hr]. split; [done|].
  destruct bs; [by left|]. cbn in Hl. lia.
Qed.

Lemma carries_keep m m' ev owned c :
  (∀ l, l ∈ owned → heap m' !! l = heap m !! l) → carries m ev owned c → carries m' ev owned c.
Proof.
  intros Hsame. destruct ev as [h b|d b|h|e| |]; cbn; [| | | |done..].
  - intros (hs & es & R & X & -> & ->). exists hs, es. split_and!; [|done..].
    by eapply reads_headers_owned.
  - intros (bs & R & X & -> & ->). exists bs. split_and!; [|done..]. by eapply reads_plain_owned.
  - intros (hs & es & R & X & -> & ->). exists hs, es. split_and!; [|done..].
    by eapply reads_headers_owned.
  - intros (bs & R & X & -> & ->). exists bs. split_and!; [|done..]. by eapply reads_plain_owned.
Qed.

Lemma payload_keep m m' cb ev p :
  (∀ l, l ∈ payload_owned p → heap m' !! l = heap m !! l) → payload_of m cb ev p → payload_of m' cb ev p.
Proof. intros Hsame (c & Hc & Hp). exists c. split; [by eapply carries_keep|done]. Qed.

Lemma data_plain_external d : data_plain d → data_external d = [].
Proof. intros [Hd| ->]; [by apply contained_external|done]. Qed.

(** Memory goes on: what was freed stays free. *)
Definition later (m m' : mem) : Prop :=
  (next_loc m ≤ next_loc m')%positive ∧
  ∀ l, (l < next_loc m)%positive → heap m !! l = None → heap m' !! l = None.

#[export] Instance later_preorder : PreOrder later.
Proof.
  split; [by split|]. intros m1 m2 m3 [N1 H1] [N2 H2]. split; [lia|].
  intros l Hl Hn. apply H2; [lia|]. by apply H1.
Qed.

Lemma later_release ls ext m : later m (mem_release ls ext m).
Proof. split; [cbn; lia|]. intros l _ Hl. rewrite lookup_mem_release. by case_decide. Qed.

Lemma later_grows ls m m' : grows ls m m' → later m m'.
Proof.
  intros G. split; [apply G|]. intros l Hl Hn. rewrite (grows_old _ _ _ G); [done|].
  intros Hin. destruct (grows_new _ _ _ G l Hin) as (_ & ? & _). lia.
Qed.

(** ** Frames *)

Definition set_machine (s : mem * ios_state) (r : ios_run) : ios_run :=
  IosRun s (started_streams r) (received r) (waiting r).

(** A step that does not touch a stream keeps what the invariant says of it. *)
Lemma stream_ok_frame checked checked' r r' o sd :
  (checked' = true → checked = true) →
  later (machine r).1 (machine r').1 →
  values_of o (received r') = values_of o (received r) →
  values_of o (waiting r') = values_of o (waiting r) →
  values_of o (app_calls (machine r').2) = values_of o (app_calls (machine r).2) →
  stream_objects (machine r').2 !! o = stream_objects (machine r).2 !! o →
  (∀ c, ctx_stream c = o → contexts (machine r).2 !! sd_context sd = Some c →
    contexts (machine r').2 !! sd_context sd = Some c) →
  stream_ok checked r o sd → stream_ok checked' r' o sd.
Proof.
  intros Hch [Hn Hfree] E1 E2 E3 E4 Hc (Hp & L1 & L2 & done & D1 & D2 & Hobj). unfold stream_ok, events_of in *.
  rewrite E1, E2, E3, E4. split_and!; [done|lia|lia|]. exists done. split_and!; [done..|].
  revert Hobj. destruct (stream_objects (machine r).2 !! o) as [obj|].
  - intros (A & B & C & D & F). split_and!; [done..| |done|auto]. by apply Hc.
  - intros (A & B & C). split_and!; [done|by apply Hfree..].
Qed.

Lemma block_ok_keep r r' b w :
  (∀ l, l ∈ payload_owned w.2.2 → heap (machine r').1 !! l = heap (machine r).1 !! l) →
  sd_callbacks <$> started_streams r' !! w.1 = sd_callbacks <$> started_streams r !! w.1 →
  block_ok r b w → block_ok r' b w.
Proof.
  intros Hm Hs (A & B & C & D). split_and!; [done..|by eapply payload_keep|exact (eq_trans Hs D)].
Qed.

Lemma blocks_keep r r' bs ws :
  (∀ l, l ∈ waiting_blocks ws → heap (machine r').1 !! l = heap (machine r).1 !! l) →
  (∀ w, w ∈ ws → sd_callbacks <$> started_streams r' !! w.1 = sd_callbacks <$> started_streams r !! w.1) →
  Forall2 (block_ok r) bs ws → Forall2 (block_ok r') bs ws.
Proof.
  intros Hm Hs H. induction H as [|b w bs ws Hb _ IH]; [constructor|].
  unfold waiting_blocks in *. cbn [mbind list_bind] in Hm. constructor.
  - eapply block_ok_keep; [|by apply Hs; left|exact Hb]. intros l Hl. apply Hm. set_solver.
  - apply IH; [|set_solver]. intros l Hl. apply Hm. set_solver.
Qed.

Lemma used_contexts x r l : ios_inv x r → l ∈ context_blocks (contexts (machine r).2) → is_Some (heap (machine r).1 !! l).
Proof. intros I Hl. apply (ios_inv_used _ _ I). unfold used. set_solver. Qed.

Lemma load_context_run m i l c :
  is_Some (heap m !! l) → contexts i !! l = Some c → load_context (Some l) (m, i) = Ok (c, (m, i)).
Proof.
  intros [b Hb] Hc. unfold load_context. cbn [deref]. rewrite ret_bind.
  unfold mbind, M_bind, gets, id. cbn [fst snd]. by rewrite Hb, Hc.
Qed.

(** The context of a stream whose object is there. *)
Lemma context_present x r o sd obj :
  ios_inv x r → started_streams r !! o = Some sd → stream_objects (machine r).2 !! o = Some obj →
  native_context obj = Some (sd_context sd) ∧
  contexts (machine r).2 !! sd_context sd = Some (IosContext o (sd_callbacks sd) (Some (sd_closed sd))) ∧
  is_Some (heap (machine r).1 !! sd_context sd) ∧ is_Some (heap (machine r).1 !! sd_closed sd).
Proof.
  intros I Hsd Hobj. destruct (ios_inv_streams _ _ I _ _ Hsd) as (_ & _ & _ & done & _ & _ & Ho).
  rewrite Hobj in Ho. destruct Ho as (A & _ & C & _). split_and!; [done..| |];
    (eapply used_contexts; [done|]; eapply context_blocks_elem; [exact C|cbn; set_solver]).
Qed.

(** ** Dropping references *)

Lemma Forall2_elem {A B} (P : A → B → Prop) l k x :
  Forall2 P l k → x ∈ l → ∃ y, y ∈ k ∧ P x y.
Proof. induction 1; set_solver. Qed.

(** A terminal block that waits keeps its stream alive. *)
Lemma captured_live r o done :
  Forall2 (block_ok r) (blocks (machine r).2) (waiting r) →
  is_Some (spec_run (events_of o (received r))) →
  values_of o (received r) = done ++ values_of o (waiting r) →
  captured o (blocks (machine r).2) = true → handled done = false.
Proof.
  intros Hb Hp Hd Hc. unfold captured in Hc. apply existsb_exists in Hc as (b & Hin & Hc).
  apply andb_true_iff in Hc as [<-%bool_decide_eq_true Ht]. apply list_elem_of_In in Hin.
  destruct (Forall2_elem _ _ _ _ Hb Hin) as ([o' [ev p]] & Hw & Hs & Hbody & _). cbn in *. subst o'.
  assert ((ev, p) ∈ values_of (block_stream b) (waiting r)) as Hin'.
  { unfold values_of. apply list_elem_of_fmap. exists (block_stream b, (ev, p)). split; [done|].
    by apply list_elem_of_filter. }
  apply list_elem_of_split in Hin' as (l1 & l2 & Hl). unfold events_of in Hp.
  rewrite Hd, Hl, !fmap_app, fmap_cons in Hp. cbn in Hp.
  rewrite app_assoc, (cons_middle ev), app_assoc in Hp.
  apply spec_run_prefix, spec_run_after in Hp. rewrite existsb_app in Hp.
  apply orb_false_iff in Hp as [Hp _]. by rewrite handled_events.
Qed.

Lemma dealloc_run m i obj l c b :
  native_context obj = Some l → contexts i !! l = Some c → ctx_closed c = Some b → l ≠ b →
  is_Some (heap m !! l) → is_Some (heap m !! b) →
  dealloc obj (m, i) = Ok (tt, (mem_release [b; l] [] m, set_contexts (delete l (contexts i)) i)).
Proof.
  intros Hn Hc Hb Hne Hl Hbs. unfold dealloc. rewrite Hn.
  rewrite (bind_run _ _ _ _ _ (load_context_run m i l c Hl Hc)), Hb.
  assert (∀ p m' k, is_Some (heap m' !! p) →
    (c_memory (c_free (Some p)) : M (mem * ios_state) unit) (m', k) = Ok (tt, (mem_release [p] [] m', k))) as Hfree.
  { intros p m' k Hp. unfold c_memory, zoom. cbn [part_get ios_mem fst].
    by rewrite (c_free_run p m' Hp). }
  rewrite (bind_run _ _ _ _ _ (Hfree b m i Hbs)).
  rewrite (bind_run _ _ _ _ _ (Hfree l (mem_release [b] [] m) i ltac:(rewrite lookup_mem_release;
    by rewrite decide_False by set_solver))).
  by rewrite mem_release_app.
Qed.

(** An object that nothing designates any more is deallocated, and its two blocks freed. *)
Lemma dealloc_inv r o sd obj :
  ios_inv (Some o) r → started_streams r !! o = Some sd → stream_objects (machine r).2 !! o = Some obj →
  strongSelf obj = false →
  let i := (machine r).2 in
  ios_inv None (set_machine (mem_release [sd_closed sd; sd_context sd] [] (machine r).1,
    set_contexts (delete (sd_context sd) (contexts i))
      (set_stream_objects (delete o (stream_objects i)) i)) r).
Proof.
  intros I Hsd Hobj Hself i. subst i.
  destruct (context_present _ _ _ _ _ I Hsd Hobj) as (Hn & Hc & Hl1 & Hl2).
  pose proof (ios_inv_used _ _ I) as Hused. unfold used in Hused.
  rewrite (context_blocks_delete _ _ _ Hc), <- app_assoc in Hused. cbn [ctx_closed option_list] in Hused.
  assert (Hdead : ∀ l, l ∈ [sd_context sd; sd_closed sd] →
    l ∉ context_blocks (delete (sd_context sd) (contexts (machine r).2)) ++ waiting_blocks (waiting r)).
  { apply allocated_app in Hused. apply Hused. }
  split; cbn [machine set_machine started_streams received waiting stream_objects contexts blocks next_stream
    set_contexts set_stream_objects fst snd].
  - apply mem_wf_release, I.
  - unfold used. cbn.
    eapply (allocated_release _ [sd_closed sd; sd_context sd]). revert Hused.
    apply allocated_proper. solve_Permutation.
  - intros o' sd' Hsd'. destruct (decide (o' = o)) as [->|Hne].
    + assert (sd' = sd) as -> by congruence.
      destruct (ios_inv_streams _ _ I _ _ Hsd) as (A & B & C & done & D1 & D2 & Ho).
      rewrite Hobj in Ho. destruct Ho as (_ & _ & _ & Hs & _).
      split_and!; [done..|]. exists done. split_and!; [done..|].
      cbn [machine set_machine stream_objects set_contexts set_stream_objects fst snd]. rewrite lookup_delete_eq.
      rewrite !lookup_mem_release, !decide_True by set_solver. split; [|done].
      rewrite Hself in Hs. by destruct (handled done).
    + apply (stream_ok_frame true _ r); [done|apply later_release|done..| | |].
      * cbn. by rewrite lookup_delete_ne.
      * intros c Hoc Hcc. cbn. rewrite lookup_delete_ne; [done|]. intros E. rewrite E, Hcc in Hc.
        injection Hc as ->. cbn in Hoc. congruence.
      * pose proof (ios_inv_streams _ _ I _ _ Hsd') as Hok.
        by rewrite bool_decide_eq_true_2 in Hok by congruence.
  - intros o' Ho'. destruct (ios_inv_unknown _ _ I _ Ho') as [A B]. split; [|done].
    rewrite lookup_delete_ne; [done|]. congruence.
  - intros l c Hlc. apply lookup_delete_Some in Hlc as [Hne Hlc].
    destruct (ios_inv_contexts _ _ I _ _ Hlc) as (sd' & A & B & C). exists sd'. split_and!; [done..|].
    rewrite lookup_delete_ne; [done|]. intros E. rewrite <- E in A. congruence.
  - eapply blocks_keep; [| |apply I]; [|done]. intros l Hl.
    cbn [machine set_machine fst]. rewrite lookup_mem_release, decide_False; [done|]. intros Hin. apply (Hdead l); set_solver.
  - apply I.
Qed.

Lemma ios_inv_checked r o :
  ios_inv (Some o) r →
  (∀ obj, stream_objects (machine r).2 !! o = Some obj → strongSelf obj || app_reference obj = true) →
  ios_inv None r.
Proof.
  intros I Hrefs. split; try apply I. intros o' sd Hsd.
  rewrite bool_decide_eq_true_2 by done. pose proof (ios_inv_streams _ _ I _ _ Hsd) as Hok.
  destruct (decide (o' = o)) as [->|Hne]; [|by rewrite bool_decide_eq_true_2 in Hok by congruence].
  destruct Hok as (A & B & C & done & D1 & D2 & Ho). split_and!; [done..|].
  exists done. split_and!; [done..|]. specialize (Hrefs).
  destruct (stream_objects (machine r).2 !! o) as [obj|]; [|done].
  destruct Ho as (E & F & G & K & _). split_and!; [done..|]. intros _. by apply Hrefs.
Qed.

Lemma set_machine_id r : set_machine (machine r) r = r.
Proof. by destruct r. Qed.

Lemma wp_release_object r o sd :
  ios_inv (Some o) r → started_streams r !! o = Some sd →
  wp (release_object o) no_fault (λ _ s, ios_inv None (set_machine s r)) (machine r).
Proof.
  intros I Hsd. unfold release_object. apply wp_bind, wp_gets.
  destruct (stream_objects (machine r).2 !! o) as [obj|] eqn:Hobj.
  - destruct (strongSelf obj || app_reference obj || captured o (blocks (machine r).2)) eqn:Hrefs.
    + apply wp_ret. rewrite set_machine_id. apply (ios_inv_checked r o I).
      intros obj' Ho. assert (obj' = obj) as -> by congruence.
      apply orb_true_iff in Hrefs as [Hrefs|Hcap]; [done|].
      destruct (ios_inv_streams _ _ I _ _ Hsd) as (A & _ & _ & done & D1 & _ & Hok).
      rewrite Hobj in Hok. destruct Hok as (_ & _ & _ & Hs & _). rewrite Hs.
      by rewrite (captured_live r o done (ios_inv_blocks _ _ I) A D1 Hcap).
    + apply orb_false_iff in Hrefs as [[Hs Ha]%orb_false_iff Hcap].
      destruct (context_present _ _ _ _ _ I Hsd Hobj) as (Hn & Hc & Hl1 & Hl2).
      pose proof (ios_inv_used _ _ I) as Hused. unfold used in Hused.
      rewrite (context_blocks_delete _ _ _ Hc), <- app_assoc in Hused.
      apply allocated_app in Hused as ([Hnd _] & _). cbn in Hnd.
      apply NoDup_cons in Hnd as [Hnd _].
      pose proof (dealloc_inv r o sd obj I Hsd Hobj Hs) as Hinv.
      apply wp_bind. unfold objects_do. apply wp_zoom, wp_modify. cbn [part_set ios_objects part_get].
      eapply wp_run; [|exact Hinv]. destruct (machine r) as [m i]. cbn [fst snd] in *.
      apply (dealloc_run m (set_stream_objects (delete o (stream_objects i)) i) obj (sd_context sd)
        (IosContext o (sd_callbacks sd) (Some (sd_closed sd))) (sd_closed sd)); [done..|set_solver|done|done].
  - apply wp_ret. rewrite set_machine_id. apply (ios_inv_checked r o I). congruence.
Qed.

(** ** Running a block *)

Definition with_calls (o : nat) (c : option app_call) (i : ios_state) : ios_state :=
  set_app_calls (app_calls i ++ (pair o <$> option_list c)) i.
Definition after_body (o : nat) (ev : bridge_event) (c : option app_call) (i : ios_state) : ios_state :=
  let i := with_calls o c i in
  if terminal ev then set_stream_objects (alter (set_strong_self false) o (stream_objects i)) i else i.

Lemma with_calls_None o i : with_calls o None i = i.
Proof. unfold with_calls. cbn. rewrite app_nil_r. by destruct i. Qed.

Lemma c_memory_run {A} (k : M mem A) m i a m' :
  k m = Ok (a, m') → (c_memory k : M (mem * ios_state) A) (m, i) = Ok (a, (m', i)).
Proof. intros Hk. unfold c_memory, zoom. cbn [part_get ios_mem fst]. by rewrite Hk. Qed.

Lemma cleanUp_run o m i :
  is_Some (stream_objects i !! o) →
  cleanUp o (m, i) =
  Ok (tt, (m, set_stream_objects (alter (set_strong_self false) o (stream_objects i)) i)).
Proof.
  intros [obj Ho]. unfold cleanUp, update_stream, mbind, M_bind, gets. cbn [snd]. by rewrite Ho.
Qed.

Lemma to_ios_headers_plain h hs es d m :
  reads_headers (heap m) h hs es → Forall header_contained hs → ios_headers es = Some d →
  allocated m (headers_owned h hs) →
  to_ios_headers h m = Ok (d, mem_release (headers_owned h hs) [] m).
Proof.
  intros R X Hd Ha. rewrite (to_ios_headers_run h hs es m (conj R Ha)), Hd.
  by rewrite contained_headers_external.
Qed.

(** Without a closure the block does nothing. *)
#[local] Ltac no_closure m :=
  exists m; split; [unfold after_body; cbn [terminal]; by rewrite with_calls_None|by left].

Lemma run_body_run o cb ev p m i :
  payload_of m cb ev p → readable cb ev p → allocated m (payload_owned p) →
  (terminal ev = true → is_Some (stream_objects i !! o)) →
  ∃ m', run_body o cb ev (m, i) = Ok (tt, (m', after_body o ev (payload_call p) i)) ∧
    (m' = m ∨ m' = mem_release (payload_owned p) [] m).
Proof.
  intros (c & Hc & Hp) Hread Ha Ht. unfold readable in Hread.
  destruct ev as [h b|d b|h|e| |]; cbn [carries closure_for terminal run_body] in *.
  - destruct Hc as (hs & es & R & X & Ho & ->). rewrite Ho in *.
    destruct (onHeaders_closure cb); rewrite Hp in *; [|no_closure m].
    destruct (ios_headers es) as [d|] eqn:Hd; [|by destruct (Hread eq_refl)].
    eexists. split; [|by right]. unfold when.
    by rewrite (bind_run _ _ _ _ _ (c_memory_run _ m i _ _ (to_ios_headers_plain h hs es d m R X Hd Ha))).
  - destruct Hc as (bs & R & X & Ho & ->). rewrite Ho in *.
    destruct (onData_closure cb); rewrite Hp; [|no_closure m].
    pose proof (to_ios_data_run d bs m (conj R Ha)) as Hrun. rewrite data_plain_external in Hrun by done.
    eexists. split; [|by right]. unfold when.
    by rewrite (bind_run _ _ _ _ _ (c_memory_run _ m i _ _ Hrun)).
  - destruct Hc as (hs & es & R & X & Ho & ->). rewrite Ho in *.
    destruct (onTrailers_closure cb); rewrite Hp in *; [|no_closure m].
    destruct (ios_headers es) as [d|] eqn:Hd; [|by destruct (Hread eq_refl)].
    eexists. split; [|by right]. unfold when.
    by rewrite (bind_run _ _ _ _ _ (c_memory_run _ m i _ _ (to_ios_headers_plain h hs es d m R X Hd Ha))).
  - destruct Hc as (bs & R & X & Ho & ->). rewrite Ho in *. specialize (Ht eq_refl).
    destruct (onError_closure cb); rewrite Hp.
    + eexists. split; [|by right]. unfold when. rewrite !bind_assoc.
      rewrite (bind_run _ _ _ _ _ (c_memory_run _ m i _ _ (ios_string_run _ _ _ R))), bind_assoc.
      destruct Ha as [_ Ha]. pose proof (release_data_run _ _ Ha) as Hrel.
      rewrite data_plain_external in Hrel by done.
      rewrite (bind_run _ _ _ _ _ (c_memory_run _ m i _ _ Hrel)).
      by apply (cleanUp_run o _ (with_calls o (Some _) i)).
    + exists m. split; [|by left]. unfold when, after_body. rewrite ret_bind, with_calls_None.
      by apply cleanUp_run.
  - destruct Hc as [Ho ->]. rewrite Hp. exists m. split; [|by left].
    unfold after_body. rewrite with_calls_None. by apply cleanUp_run, Ht.
  - destruct Hc as [Ho ->]. exists m. split; [|by left]. specialize (Ht eq_refl).
    destruct (onCancel_closure cb); rewrite Hp; unfold when, after_body.
    + by apply (cleanUp_run o _ (with_calls o (Some _) i)).
    + rewrite ret_bind, with_calls_None. by apply cleanUp_run.
Qed.

(** A block that cannot read its headers throws. *)
Lemma run_body_throws o cb ev p m i :
  payload_of m cb ev p → ¬ readable cb ev p → allocated m (payload_owned p) →
  run_body o cb ev (m, i) = Fault (Thrown "NSInvalidArgumentException").
Proof.
  intros (c & Hc & Hp) Hread Ha. unfold readable in Hread.
  assert (Hthrows : ∀ h hs es (k : NSHeaders → M (mem * ios_state) unit),
    reads_headers (heap m) h hs es → ios_headers es = None →
    allocated m (headers_owned h hs) →
    (d ← c_memory (to_ios_headers h); k d) (m, i) = Fault (Thrown "NSInvalidArgumentException")).
  { intros h hs es k R Hd Hall. apply bind_Fault. pose proof (to_ios_headers_run h hs es m (conj R Hall)) as Hrun.
    rewrite Hd in Hrun. unfold c_memory, zoom. cbn. by rewrite Hrun. }
  destruct ev as [h b|d b|h|e| |]; cbn [carries closure_for run_body] in *.
  - destruct Hc as (hs & es & R & X & Ho & ->). rewrite Ho in *.
    destruct (onHeaders_closure cb); rewrite Hp in *; [|by destruct Hread].
    destruct (ios_headers es) eqn:Hd; [by destruct Hread|]. by eapply Hthrows.
  - destruct Hc as (bs & _ & _ & _ & ->). destruct Hread. intros Hcl. by rewrite Hp, Hcl.
  - destruct Hc as (hs & es & R & X & Ho & ->). rewrite Ho in *.
    destruct (onTrailers_closure cb); rewrite Hp in *; [|by destruct Hread].
    destruct (ios_headers es) eqn:Hd; [by destruct Hread|]. by eapply Hthrows.
  - destruct Hc as (bs & _ & _ & _ & ->). destruct Hread. intros Hcl. by rewrite Hp, Hcl.
  - by destruct Hread.
  - destruct Hc as [_ ->]. destruct Hread. intros Hcl. by rewrite Hp, Hcl.
Qed.

(** The first block of a queue is the first of its stream. *)
Lemma first_of_stream r n b :
  Forall2 (block_ok r) (blocks (machine r).2) (waiting r) →
  blocks (machine r).2 !! n = Some b →
  (∀ k b', k < n → blocks (machine r).2 !! k = Some b' →
    dispatchQueue (block_callbacks b') ≠ dispatchQueue (block_callbacks b)) →
  ∃ p, waiting r !! n = Some (block_stream b, (block_body b, p)) ∧
    block_ok r b (block_stream b, (block_body b, p)) ∧
    values_of (block_stream b) (waiting r) =
      (block_body b, p) :: values_of (block_stream b) (delete n (waiting r)).
Proof.
  intros Hb Hn Hfirst.
  destruct (Forall2_lookup_l _ _ _ _ _ Hb Hn) as ([o [ev p]] & Hw & Hok).
  assert (E := Hok). destruct E as (Hs & Hbody & _ & Hcb). cbn in Hs, Hbody, Hcb.
  exists p. rewrite Hs, Hbody. split; [done|]. split; [done|].
  rewrite <- (take_drop_middle _ _ _ Hw) at 1. rewrite delete_take_drop.
  rewrite !values_of_app, values_of_cons. cbn [fst snd]. rewrite decide_True by done.
  assert (values_of o (take n (waiting r)) = []) as ->; [|done].
  apply values_of_none. intros w Hin Hwo.
  apply list_elem_of_lookup in Hin as [k Hk]. apply lookup_take_Some in Hk as [Hk Hkn].
  destruct (Forall2_lookup_r _ _ _ _ _ Hb Hk) as (b' & Hb' & _ & _ & _ & Hcb').
  apply (Hfirst k b' Hkn Hb'). rewrite Hwo, Hcb in Hcb'. by injection Hcb' as ->.
Qed.

Lemma values_of_delete_ne {V} n (l : list (nat * V)) o o' v :
  l !! n = Some (o, v) → o' ≠ o → values_of o' (delete n l) = values_of o' l.
Proof.
  intros Hn Hne. rewrite <- (take_drop_middle _ _ _ Hn) at 2. rewrite delete_take_drop.
  rewrite !values_of_app, values_of_cons. cbn [fst snd]. by rewrite decide_False.
Qed.

(** The machine after the block [n], which is [ev] for the stream [o], before its capture of
    the stream is dropped. *)
Definition ran_block (n o : nat) (ev : bridge_event) (p : payload) (m : mem) (r : ios_run) : ios_run :=
  IosRun (m, after_body o ev (payload_call p) (set_blocks (delete n (blocks (machine r).2)) (machine r).2))
    (started_streams r) (received r) (delete n (waiting r)).

Lemma after_body_fields o ev c i :
  contexts (after_body o ev c i) = contexts i ∧ next_stream (after_body o ev c i) = next_stream i ∧
  blocks (after_body o ev c i) = blocks i ∧
  app_calls (after_body o ev c i) = app_calls i ++ (pair o <$> option_list c) ∧
  stream_objects (after_body o ev c i) =
    (if terminal ev then alter (set_strong_self false) o (stream_objects i) else stream_objects i).
Proof. unfold after_body. by destruct (terminal ev). Qed.

Lemma calls_snoc l a : calls_of (l ++ [a]) = calls_of l ++ option_list (payload_call a.2).
Proof. unfold calls_of. rewrite omap_app. cbn. by destruct (payload_call a.2). Qed.

(** The stream whose block ran. *)
Lemma body_stream_ok r n o ev p m' sd :
  ios_inv None r → started_streams r !! o = Some sd →
  values_of o (waiting r) = (ev, p) :: values_of o (delete n (waiting r)) →
  later (machine r).1 m' →
  stream_ok (bool_decide ((if terminal ev then Some o else None) ≠ Some o))
    (ran_block n o ev p m' r) o sd.
Proof.
  intros I Hsd Hv Hlater.
  destruct (after_body_fields o ev (payload_call p)
    (set_blocks (delete n (blocks (machine r).2)) (machine r).2)) as (F1 & F2 & F3 & F4 & F5).
  cbn [contexts next_stream blocks app_calls stream_objects set_blocks] in F1, F2, F3, F4, F5.
  destruct (ios_inv_streams _ _ I _ _ Hsd) as (A & B & C & done & D1 & D2 & Ho).
  rewrite Hv in D1.
  assert (handled done = false) as Hdone.
  { unfold events_of in A. rewrite D1, fmap_app, fmap_cons in A. cbn in A.
    rewrite cons_middle, app_assoc in A.
    apply spec_run_prefix, spec_run_after in A. by rewrite handled_events. }
  rewrite Hdone in Ho. destruct (stream_objects (machine r).2 !! o) as [obj|] eqn:Hobj; [|by destruct Ho].
  destruct Ho as (E & F & G & K & L). destruct Hlater as [Hnext _].
  unfold ran_block. split; [done|]. cbn [machine fst]. split; [lia|]. split; [lia|].
  exists (done ++ [(ev, p)]). cbn [machine waiting received fst snd].
  split; [by rewrite <- app_assoc|]. split.
  { rewrite F4, values_of_app, D2, calls_snoc, values_of_key, decide_True by done. done. }
  rewrite F5, handled_app, Hdone. cbn [handled existsb fst orb]. rewrite orb_false_r, F1.
  destruct (terminal ev); [rewrite lookup_alter_eq|]; rewrite Hobj; cbn [fmap option_fmap option_map].
  - rewrite bool_decide_eq_false_2 by (intros []; done). by split_and!.
  - by split_and!.
Qed.

Lemma body_inv r n o ev p m' sd :
  ios_inv None r → started_streams r !! o = Some sd → waiting r !! n = Some (o, (ev, p)) →
  values_of o (waiting r) = (ev, p) :: values_of o (delete n (waiting r)) →
  (m' = (machine r).1 ∨ m' = mem_release (payload_owned p) [] (machine r).1) →
  ios_inv (if terminal ev then Some o else None) (ran_block n o ev p m' r).
Proof.
  intros I Hsd Hw Hv Hm.
  destruct (after_body_fields o ev (payload_call p)
    (set_blocks (delete n (blocks (machine r).2)) (machine r).2)) as (F1 & F2 & F3 & F4 & F5).
  cbn [contexts next_stream blocks app_calls stream_objects set_blocks] in F1, F2, F3, F4, F5.
  pose proof (ios_inv_used _ _ I) as Hused.
  assert (used r ≡ₚ payload_owned p ++ context_blocks (contexts (machine r).2) ++
    waiting_blocks (delete n (waiting r))) as Hperm.
  { unfold used. rewrite (waiting_blocks_delete _ _ _ Hw). cbn. solve_Permutation. }
  rewrite Hperm in Hused.
  assert (Hlater : later (machine r).1 m') by (destruct Hm as [->| ->]; [done|apply later_release]).
  assert (Hsame : ∀ l, l ∈ waiting_blocks (delete n (waiting r)) → heap m' !! l = heap (machine r).1 !! l).
  { intros l Hl. destruct Hm as [->| ->]; [done|]. rewrite lookup_mem_release, decide_False; [done|].
    intros Hin. apply allocated_app in Hused as (_ & _ & Hdisj). apply (Hdisj l Hin). set_solver. }
  split; unfold ran_block; cbn [machine started_streams received waiting fst snd].
  - destruct Hm as [->| ->]; [apply I|apply mem_wf_release, I].
  - unfold used. cbn [machine waiting fst snd]. rewrite F1. destruct Hm as [->| ->].
    + by apply allocated_app in Hused as (_ & ? & _).
    + by apply (allocated_release _ (payload_owned p)).
  - intros o' sd' Hsd'. destruct (decide (o' = o)) as [->|Hne].
    + assert (sd' = sd) as -> by congruence. by apply body_stream_ok.
    + eapply (stream_ok_frame _ _ r); [|exact Hlater|done|..|exact (ios_inv_streams _ _ I _ _ Hsd')];
        cbn [machine waiting fst snd].
      * done.
      * by eapply values_of_delete_ne.
      * rewrite F4, values_of_app, values_of_key, decide_False, app_nil_r by done. done.
      * rewrite F5. destruct (terminal ev); [by rewrite lookup_alter_ne|done].
      * intros c _. by rewrite F1.
  - intros o' Ho'. destruct (ios_inv_unknown _ _ I _ Ho') as (A & B & C). assert (o' ≠ o) by congruence.
    rewrite F4, F5, values_of_app, C, values_of_key, decide_False by done. split_and!; [|done..].
    destruct (terminal ev); [|done]. by rewrite lookup_alter_ne.
  - intros l c. rewrite F1. intros Hl. destruct (ios_inv_contexts _ _ I _ _ Hl) as (sd' & A & B & C).
    exists sd'. split_and!; [done..|]. rewrite F5. destruct (terminal ev); [|done].
    rewrite lookup_alter. case_decide as E; [|done]. rewrite E. by apply fmap_is_Some.
  - rewrite F3. eapply blocks_keep; [exact Hsame|done|]. apply Forall2_delete, I.
  - intros o' Ho'. rewrite F2 in Ho'. by apply (ios_inv_fresh _ _ I).
Qed.

(** The exception of a block that waits with headers that are not UTF-8, for a closure
    that wants them. *)
Definition throws (a : ios_action) r (f : fault) : Prop :=
  ∃ n o ev p sd, a = ARun n ∧ waiting r !! n = Some (o, (ev, p)) ∧ started_streams r !! o = Some sd ∧
    closure_for (sd_callbacks sd) ev = true ∧ not_utf8 (machine r).1 ev ∧ ¬ readable (sd_callbacks sd) ev p ∧
    f = Thrown "NSInvalidArgumentException".

Lemma wp_run_step r n :
  ios_inv None r → permitted (ARun n) r →
  wp (run_block n) (throws (ARun n) r) (λ _ s, ios_inv None (history (ARun n) r s)) (machine r).
Proof.
  intros I (b & Hb & Hfirst).
  destruct (first_of_stream r n b (ios_inv_blocks _ _ I) Hb Hfirst) as (p & Hw & (_ & _ & Hp & Hcb) & Hv).
  cbn [fst snd] in Hp, Hcb.
  apply fmap_Some in Hcb as (sd & Hsd & Hcb).
  unfold run_block. apply wp_bind, wp_gets. rewrite Hb. cbn [deref]. apply wp_bind, wp_ret.
  apply wp_bind. unfold objects_do at 1. apply wp_zoom, wp_modify. cbn [part_set part_get ios_objects].
  cbn [fst snd block_ok] in Hp.
  assert (Hlive : terminal (block_body b) = true → is_Some (stream_objects (machine r).2 !! block_stream b)).
  { intros _. destruct (ios_inv_streams _ _ I _ _ Hsd) as (A & _ & _ & done & D1 & _ & Ho).
    destruct (stream_objects (machine r).2 !! block_stream b) as [obj|]; [done|].
    destruct Ho as [Ho _]. unfold events_of in A. rewrite D1, Hv, fmap_app, fmap_cons in A. cbn in A.
    rewrite cons_middle, app_assoc in A. apply spec_run_prefix, spec_run_after in A.
    rewrite handled_events in Ho. congruence. }
  assert (Hown : allocated (machine r).1 (payload_owned p)).
  { pose proof (ios_inv_used _ _ I) as Hused. unfold used in Hused.
    rewrite (waiting_blocks_delete _ _ _ Hw) in Hused. cbn in Hused.
    by apply allocated_app in Hused as (_ & [? _]%allocated_app & _). }
  destruct (decide (readable (block_callbacks b) (block_body b) p)) as [Hread|Hread].
  2:{ apply wp_bind. unfold wp. erewrite run_body_throws by done. rewrite Hcb in Hread, Hp.
      destruct (readable_or_not _ _ _ _ Hp) as [?|[Hcl Hbad]]; [done|].
      exists n, (block_stream b), (block_body b), p, sd. by split_and!. }
  destruct (run_body_run (block_stream b) (block_callbacks b) (block_body b) p (machine r).1
    (set_blocks (delete n (blocks (machine r).2)) (machine r).2) Hp Hread Hown Hlive) as (m' & Hrun & Hm).
  apply wp_bind. eapply wp_run; [exact Hrun|].
  pose proof (body_inv r n _ _ p m' sd I Hsd Hw Hv Hm) as I'.
  apply wp_when; intros Ht; rewrite Ht in I'.
  - eapply wp_mono; [by apply (wp_release_object (ran_block n (block_stream b) (block_body b) p m' r) _ sd)|done|done].
  - exact I'.
Qed.

(** ** The other steps *)

Lemma object_started x r o :
  ios_inv x r → is_Some (stream_objects (machine r).2 !! o) → ∃ sd, started_streams r !! o = Some sd.
Proof.
  intros I Ho. destruct (started_streams r !! o) as [sd|] eqn:Hsd; [eauto|].
  destruct (ios_inv_unknown _ _ I _ Hsd) as [E _]. rewrite E in Ho. by destruct Ho.
Qed.

Lemma unreferenced_inv r o :
  ios_inv None r →
  ios_inv (Some o) (set_machine ((machine r).1,
    set_stream_objects (alter (set_app_reference false) o (stream_objects (machine r).2)) (machine r).2) r).
Proof.
  intros I. split; cbn [machine set_machine started_streams received waiting fst snd]; try apply I.
  - intros o' sd Hsd. pose proof (ios_inv_streams _ _ I _ _ Hsd) as Hok.
    destruct (decide (o' = o)) as [->|Hne].
    + rewrite bool_decide_eq_false_2 by congruence.
      destruct Hok as (A & B & C & done & D1 & D2 & Ho). split_and!; [done..|]. exists done.
      split_and!; [done..|]. cbn. rewrite lookup_alter_eq.
      destruct (stream_objects (machine r).2 !! o) as [obj|]; [|done].
      destruct Ho as (E & F & G & K & _). by split_and!.
    + rewrite bool_decide_eq_true_2 by congruence.
      apply (stream_ok_frame true true r); try done. cbn. by rewrite lookup_alter_ne.
  - intros o' Ho'. destruct (ios_inv_unknown _ _ I _ Ho') as [A B]. split; [|done]. cbn.
    rewrite lookup_alter. case_decide as E; [|done]. by rewrite E, A.
  - intros l c Hl. destruct (ios_inv_contexts _ _ I _ _ Hl) as (sd & A & B & C). exists sd.
    split_and!; [done..|]. cbn. rewrite lookup_alter. case_decide as E; [|done]. rewrite E. by apply fmap_is_Some.
Qed.

Lemma wp_release_step r o :
  ios_inv None r → permitted (ARelease o) r →
  wp (app_release o) no_fault (λ _ s, ios_inv None (history (ARelease o) r s)) (machine r).
Proof.
  intros I (obj & Hobj & _). destruct (object_started _ _ o I) as [sd Hsd]; [by rewrite Hobj|].
  unfold app_release, update_stream. apply wp_bind, wp_bind, wp_gets. rewrite Hobj. cbn [deref].
  apply wp_bind, wp_ret. unfold objects_do. apply wp_zoom, wp_modify.
  by apply (wp_release_object (set_machine _ r) o sd); [apply unreferenced_inv|].
Qed.

(** The event of a stream finds its context. *)
Lemma wp_event_step r o ev p :
  ios_inv None r → permitted (AEvent o ev p) r →
  wp (ios_callback (sd_context <$> started_streams r !! o) ev ;; mret tt) no_fault
    (λ _ s, ios_inv None (history (AEvent o ev p) r s)) (machine r).
Proof.
  intros I (sd & Hsd & Hspec & Hp & Hown).
  assert (Hev : ∀ ctx, ios_callback ctx ev = enqueue ctx ev) by (by destruct ev). rewrite Hev, Hsd.
  destruct (ios_inv_streams _ _ I _ _ Hsd) as (A & B & C & done & D1 & D2 & Ho).
  assert (Hopen : handled done = false).
  { unfold events_of in Hspec. rewrite D1, fmap_app in Hspec. apply spec_run_after in Hspec.
    rewrite existsb_app in Hspec. apply orb_false_iff in Hspec as [Hspec _]. by rewrite handled_events. }
  rewrite Hopen in Ho. destruct (stream_objects (machine r).2 !! o) as [obj|] eqn:Hobj; [|by destruct Ho].
  destruct (context_present _ _ _ _ _ I Hsd Hobj) as (_ & Hc & Hl & _).
  pose proof (load_context_run (machine r).1 (machine r).2 _ _ Hl Hc) as Hload.
  rewrite <- surjective_pairing in Hload.
  apply wp_bind. unfold enqueue. cbn [fmap option_fmap option_map].
  apply wp_bind. eapply wp_run; [exact Hload|].
  apply wp_bind. unfold dispatch_async, objects_do. apply wp_zoom, wp_modify. apply wp_ret, wp_ret.
  assert (Hused : ∀ w, waiting_blocks (w ++ [(o, (ev, p))]) = waiting_blocks w ++ payload_owned p).
  { intros w. unfold waiting_blocks. rewrite bind_app. cbn. by rewrite app_nil_r. }
  split; unfold history; cbn [machine started_streams received waiting part_set part_get ios_objects fst snd
    contexts next_stream blocks app_calls stream_objects set_blocks ctx_stream ctx_callbacks].
  - apply I.
  - unfold used. cbn [machine waiting contexts set_blocks fst snd]. by rewrite Hused, app_assoc.
  - intros o' sd' Hsd'. destruct (decide (o' = o)) as [->|Hne].
    + assert (sd' = sd) as -> by congruence. unfold stream_ok, events_of.
      cbn [machine received waiting fst snd app_calls stream_objects contexts set_blocks].
      rewrite !values_of_app, (values_of_key o o [(ev, p)] : values_of o [(o, (ev, p))] = _), decide_True by done.
      rewrite fmap_app. split; [exact Hspec|]. split_and!; [done..|]. exists done.
      rewrite D1, <- app_assoc, Hobj, Hopen. split; [done|]. split; [exact D2|]. exact Ho.
    + eapply (stream_ok_frame _ _ r); [|reflexivity|..|exact (ios_inv_streams _ _ I _ _ Hsd')];
        cbn [machine received waiting fst snd]; try done;
        rewrite values_of_app, (values_of_key o' o [(ev, p)] : values_of o' [(o, (ev, p))] = _),
          decide_False, app_nil_r by done; done.
  - intros o' Ho'. destruct (ios_inv_unknown _ _ I _ Ho') as (E1 & E2 & E3). split_and!; [done| |done].
    rewrite values_of_app, E2, (values_of_key o' o [(ev, p)] : values_of o' [(o, (ev, p))] = _).
    rewrite decide_False; [done|]. congruence.
  - apply I.
  - apply Forall2_app; [eapply blocks_keep; [| |apply I]; done|]. constructor; [|constructor].
    split_and!; [done..|]. cbn. by rewrite Hsd.
  - apply I.
Qed.

Lemma later_inv r m :
  ios_inv None r → permitted (AMemory m) r → ios_inv None (history (AMemory m) r (m, (machine r).2)).
Proof.
  intros I (Hwf & Hnext & Hkeep & Hfree). split; unfold history; cbn [machine started_streams received waiting fst snd];
    try apply I.
  - done.
  - destruct (ios_inv_used _ _ I) as [Hnd Hl]. split; [exact Hnd|]. intros l Hin.
    rewrite Hkeep by exact Hin. by apply Hl.
  - intros o sd Hsd. eapply (stream_ok_frame _ _ r); [done|by split|done..|exact (ios_inv_streams _ _ I _ _ Hsd)].
  - eapply blocks_keep; [| |apply I]; [|done]. intros l Hl. apply Hkeep. unfold used. set_solver.
Qed.

(** *** Starting a stream *)

Definition with_object (o : nat) (obj : EnvoyHTTPStreamImpl) (l : positive) (c : ios_context)
    (i : ios_state) : ios_state :=
  set_next_stream (S o) (set_stream_objects (<[o := obj]> (stream_objects i))
    (set_contexts (<[l := c]> (contexts i)) i)).

Lemma wp_init_stream_object `{Allocator} h cb m i :
  mem_wf m →
  wp (init_stream_object h cb) oom (λ self s, ∃ l c m',
    let o := next_stream i in
    self = (o, Some l) ∧ grows [l; c] m m' ∧ mem_wf m' ∧
    s = (m', with_object o (StreamImpl true cb (Some l) h true) l (IosContext o cb (Some c)) i)) (m, i).
Proof.
  intros Hwf. unfold init_stream_object. apply wp_bind, wp_gets, wp_bind.
  apply wp_zoom, wp_safe_malloc; [unfold SIZEOF_IOS_CONTEXT; lia|]. cbn [part_get ios_mem fst].
  set (m1 := alloc_block _ m). assert (G1 : grows [next_loc m] m m1) by apply grows_alloc.
  apply wp_bind, wp_zoom, wp_safe_malloc; [unfold SIZEOF_ATOMIC_BOOL; lia|]. cbn [part_get part_set ios_mem fst snd].
  set (m2 := alloc_block _ m1). assert (G2 : grows [next_loc m1] m1 m2) by apply grows_alloc.
  apply wp_bind, wp_zoom. cbn [part_get part_set ios_mem fst snd].
  eapply wp_mono; [apply (write_bytes_fresh (Some (next_loc m1)) [x00] m2)|done|].
  { right. exists (next_loc m1). split; [done|]. unfold m2. cbn. by rewrite lookup_insert_eq. }
  intros [] m3 [_ H3]. cbn [deref]. apply wp_bind, wp_ret, wp_bind, wp_zoom, wp_modify, wp_bind, wp_zoom, wp_modify, wp_ret.
  assert (grows [next_loc m; next_loc m1] m m3) as G.
  { pose proof (grows_trans _ _ _ _ _ G1 G2) as G. destruct H3 as [->|(b & [= <-] & ->)]; [done|].
    apply grows_update; [done|]. set_solver. }
  exists (next_loc m), (next_loc m1), m3. split_and!; [done|done|by eapply grows_wf|done].
Qed.

Lemma grows_used m m' ls r :
  machine r = (m, (machine r).2) → mem_wf m → grows ls m m' → allocated m (used r) →
  allocated m' (ls ++ used r).
Proof.
  intros _ Hwf G Hused. apply allocated_app. split; [by eapply grows_allocated|]. split.
  - by eapply allocated_grows.
  - intros l Hl Hin. destruct (grows_new _ _ _ G l Hl) as (_ & Hle & _).
    destruct Hused as [_ Hused]. specialize (Hwf l (Hused l Hin)). lia.
Qed.

Lemma newest_with_object o cb l h c i :
  next_stream i = o →
  newest cb (with_object o (StreamImpl true cb (Some l) h true) l (IosContext o cb (Some c)) i) =
  Some (Started l c cb).
Proof. intros <-. unfold newest, with_object. cbn. by rewrite lookup_insert_eq; cbn; rewrite lookup_insert_eq. Qed.

(** A fresh block is no context. *)
Lemma fresh_context x r ls m' l :
  ios_inv x r → grows ls (machine r).1 m' → l ∈ ls → contexts (machine r).2 !! l = None.
Proof.
  intros I G Hin. destruct (contexts _ !! l) as [c|] eqn:E; [|done]. exfalso.
  assert (is_Some (heap (machine r).1 !! l)) as Hs.
  { eapply used_contexts; [exact I|]. eapply context_blocks_elem; [exact E|by left]. }
  destruct (grows_new _ _ _ G l Hin) as (_ & Hle & _). specialize (ios_inv_wf _ _ I l Hs). lia.
Qed.

(** Nothing waits for a stream that is not known. *)
Lemma waiting_known x r o w :
  ios_inv x r → started_streams r !! o = None → w ∈ waiting r → w.1 ≠ o.
Proof.
  intros I Hfresh [k Hk]%list_elem_of_lookup Hwo.
  destruct (Forall2_lookup_r _ _ _ _ _ (ios_inv_blocks _ _ I) Hk) as (b & _ & _ & _ & _ & Hb).
  by rewrite Hwo, Hfresh in Hb.
Qed.

(** A new stream is well-formed, with nothing received. *)
Lemma started_stream_ok x r o cb l h c m' streams :
  ios_inv x r → started_streams r !! o = None → grows [l; c] (machine r).1 m' →
  stream_ok (bool_decide (x ≠ Some o)) (IosRun (m', with_object o (StreamImpl true cb (Some l) h true) l
    (IosContext o cb (Some c)) (machine r).2) streams (received r) (waiting r)) o (Started l c cb).
Proof.
  intros I Hfresh G. destruct (ios_inv_unknown _ _ I _ Hfresh) as (Hnone & Hrec & Hcalls).
  assert (values_of o (waiting r) = []) as Hw
    by (apply values_of_none; intros w Hw; by eapply waiting_known).
  destruct (grows_new _ _ _ G l ltac:(by left)) as (_ & _ & ?).
  destruct (grows_new _ _ _ G c ltac:(right; by left)) as (_ & _ & ?).
  unfold stream_ok, events_of.
  cbn [machine received waiting fst snd with_object stream_objects contexts app_calls set_next_stream
    set_stream_objects set_contexts sd_context sd_closed sd_callbacks].
  rewrite Hrec, Hw, !lookup_insert_eq. split_and!; [done..|]. exists []. by split_and!.
Qed.

Lemma wp_start_step `{Allocator} r h cb :
  ios_inv None r →
  wp (act (AStart h cb) r) oom (λ _ s, ios_inv None (history (AStart h cb) r s)) (machine r).
Proof.
  intros I. set (m := (machine r).1). set (i := (machine r).2).
  assert (machine r = (m, i)) as Em by apply surjective_pairing. rewrite Em. cbn [act].
  apply wp_bind. eapply wp_conseq; [apply wp_init_stream_object, I|].
  intros self s (l & c & m' & -> & G & Hwf & ->). cbn [fst].
  apply wp_bind. unfold finish_init. rewrite decide_True by done. apply wp_ret, wp_ret.
  set (o := next_stream i) in *. assert (Hfresh : started_streams r !! o = None) by (by apply (ios_inv_fresh _ _ I)).
  assert (Hl : contexts i !! l = None) by (eapply fresh_context; [exact I|exact G|by left]).
  pose proof (newest_with_object o cb l h c i eq_refl) as Hn.
  assert (Hwait : ∀ w, w ∈ waiting r → w.1 ≠ o) by (intros w; by apply (waiting_known None)).
  split; unfold history; cbn [machine started_streams received waiting fst snd]; rewrite ?Em; cbn [snd]; fold o; rewrite ?Hn.
  - done.
  - pose proof (grows_used m m' _ r Em (ios_inv_wf _ _ I) G (ios_inv_used _ _ I)) as Hused. revert Hused.
    unfold used. cbn [machine waiting fst snd with_object contexts set_next_stream set_stream_objects set_contexts].
    rewrite context_blocks_insert by done. by rewrite <- app_assoc.
  - intros o' sd Hsd. destruct (decide (o' = o)) as [->|Hne].
    + change (partial_alter (λ _, Some (Started l c cb)) o (started_streams r)) with
        (<[o := Started l c cb]> (started_streams r)) in Hsd.
      rewrite lookup_insert_eq in Hsd. injection Hsd as <-.
      by apply started_stream_ok.
    + change (partial_alter (λ _, Some (Started l c cb)) o (started_streams r)) with
        (<[o := Started l c cb]> (started_streams r)) in Hsd.
      rewrite lookup_insert_ne in Hsd by done.
      eapply (stream_ok_frame _ _ r); [done|by eapply later_grows|done..| | |exact (ios_inv_streams _ _ I _ _ Hsd)]; cbn.
      * by rewrite lookup_insert_ne.
      * intros c' _ Hc'. rewrite lookup_insert_ne; [done|]. intros ->. unfold i in Hl. congruence.
  - intros o' Ho'.
    apply lookup_insert_None in Ho' as [Ho' Hne]. destruct (ios_inv_unknown _ _ I _ Ho') as (A & B & C).
    split_and!; [|done..]. cbn. by rewrite lookup_insert_ne.
  - intros l' c' Hl'. cbn in Hl'. cbn.
    apply lookup_insert_Some in Hl' as [[<- <-]|[Hne Hl']].
    + exists (Started l c cb). cbn. rewrite !lookup_insert_eq. by split_and!.
    + destruct (ios_inv_contexts _ _ I _ _ Hl') as (sd & A & B & C). exists sd.
      rewrite !lookup_insert_ne by congruence. by split_and!.
  - eapply blocks_keep; [| |apply I]; cbn [machine started_streams fst].
    + intros b Hb. eapply grows_old; [exact G|]. intros Hin.
      destruct (grows_new _ _ _ G b Hin) as (_ & Hle & _).
      assert (is_Some (heap m !! b)) as Hs by (apply (ios_inv_used _ _ I); unfold used; set_solver).
      specialize (ios_inv_wf _ _ I b Hs). unfold m in *. lia.
    + intros w Hw. specialize (Hwait w Hw). by rewrite lookup_insert_ne.
  - intros o' Ho'. cbn in Ho'.
    rewrite lookup_insert_ne by lia. apply (ios_inv_fresh _ _ I). unfold o, i in *. lia.
Qed.

(** *** A stream that does not start *)

Lemma update_stream_run o f m i obj :
  stream_objects i !! o = Some obj →
  update_stream o f (m, i) = Ok (tt, (m, set_stream_objects (alter f o (stream_objects i)) i)).
Proof. intros Ho. unfold update_stream, mbind, M_bind, gets. cbn [snd]. by rewrite Ho. Qed.

Lemma captured_none r o :
  Forall2 (block_ok r) (blocks (machine r).2) (waiting r) → started_streams r !! o = None →
  captured o (blocks (machine r).2) = false.
Proof.
  intros Hb Ho. apply not_true_is_false. intros Hc. unfold captured in Hc.
  apply existsb_exists in Hc as (b & Hin & Hc).
  apply andb_true_iff in Hc as [<-%bool_decide_eq_true _]. apply list_elem_of_In in Hin.
  destruct (Forall2_elem _ _ _ _ Hb Hin) as (w & _ & Hs & _ & _ & Hcb).
  rewrite <- Hs, Ho in Hcb. done.
Qed.

Lemma delete_altered {V} (objs : gmap nat V) o f g x :
  objs !! o = None → delete o (alter f o (alter g o (<[o := x]> objs))) = objs.
Proof.
  intros Ho. apply map_eq. intros k. destruct (decide (k = o)) as [->|Hk]; [by rewrite lookup_delete_eq|].
  by rewrite lookup_delete_ne, !lookup_alter_ne, lookup_insert_ne.
Qed.

(** finish_init on failure takes the object back. *)
Lemma finish_init_fails o cb l c h m i :
  stream_objects i !! o = None → contexts i !! l = None → captured o (blocks i) = false → l ≠ c →
  is_Some (heap m !! l) → is_Some (heap m !! c) →
  finish_init o ENVOY_FAILURE
    (m, with_object o (StreamImpl true cb (Some l) h true) l (IosContext o cb (Some c)) i) =
  Ok (None, (mem_release [c; l] [] m, set_next_stream (S o) i)).
Proof.
  intros Ho Hl Hcap Hne Hhl Hhc. unfold finish_init, app_release. rewrite decide_False by done.
  set (i0 := with_object _ _ _ _ _).
  assert (Hi0 : stream_objects i0 !! o = Some (StreamImpl true cb (Some l) h true)) by apply lookup_insert_eq.
  rewrite (bind_run _ _ _ _ _ (update_stream_run o (set_strong_self false) m i0 _ Hi0)).
  set (i0' := set_stream_objects _ i0).
  assert (Hi0' : stream_objects i0' !! o = Some (StreamImpl false cb (Some l) h true)).
  { unfold i0'. cbn [stream_objects set_stream_objects]. by rewrite lookup_alter_eq, Hi0. }
  rewrite bind_assoc, (bind_run _ _ _ _ _ (update_stream_run o (set_app_reference false) m i0' _ Hi0')).
  set (obj := StreamImpl false cb (Some l) h false).
  set (i1 := set_stream_objects _ i0').
  assert (Hi1 : stream_objects i1 !! o = Some obj).
  { unfold i1. cbn [stream_objects set_stream_objects]. by rewrite lookup_alter_eq, Hi0'. }
  assert (release_object o (m, i1) = Ok (tt, (mem_release [c; l] [] m, set_next_stream (S o) i))) as Hrun.
  { unfold release_object, mbind at 1, M_bind at 1, gets. cbn [snd]. rewrite Hi1. cbn [strongSelf app_reference obj orb].
    change (blocks i1) with (blocks i). rewrite Hcap.
    set (i2 := set_stream_objects (delete o (stream_objects i1)) i1).
    assert (objects_do (λ i0, set_stream_objects (delete o (stream_objects i0)) i0) (m, i1) = Ok (tt, (m, i2)))
      as H2 by done.
    rewrite (bind_run _ _ _ _ _ H2).
    rewrite (dealloc_run m i2 obj l (IosContext o cb (Some c)) c); [|done| |done..].
    - do 3 f_equal. unfold i2, i1, i0', i0, with_object, set_contexts, set_stream_objects, set_next_stream.
      cbn [stream_objects contexts next_stream blocks app_calls].
      by rewrite delete_insert_id, delete_altered.
    - cbn. by rewrite lookup_insert_eq. }
  by rewrite (bind_run _ _ _ _ _ Hrun).
Qed.

Lemma unchanged_inv r m n :
  ios_inv None r → mem_wf m → later (machine r).1 m → heap m = heap (machine r).1 →
  next_stream (machine r).2 ≤ n →
  ios_inv None (set_machine (m, set_next_stream n (machine r).2) r).
Proof.
  intros I Hwf Hlater Hheap Hn. split; cbn [machine set_machine started_streams received waiting fst snd];
    try apply I.
  - done.
  - destruct (ios_inv_used _ _ I) as [Hnd Hl]. split; [exact Hnd|]. intros l Hin. rewrite Hheap. by apply Hl.
  - intros o sd Hsd. eapply (stream_ok_frame _ _ r); [done..|exact (ios_inv_streams _ _ I _ _ Hsd)].
  - eapply blocks_keep; [| |apply I]; [|done]. intros l Hl. cbn. by rewrite Hheap.
  - intros o Ho. apply (ios_inv_fresh _ _ I). cbn in Ho. lia.
Qed.

Lemma wp_start_fails_step `{Allocator} r h cb :
  ios_inv None r →
  wp (act (AStartFails h cb) r) oom (λ _ s, ios_inv None (history (AStartFails h cb) r s)) (machine r).
Proof.
  intros I. assert (machine r = ((machine r).1, (machine r).2)) as Em by apply surjective_pairing.
  cbn [act]. rewrite Em at 1. apply wp_bind. eapply wp_conseq; [apply wp_init_stream_object, I|].
  intros self s (l & c & m' & -> & G & Hwf & ->). cbn [fst].
  pose proof (ios_inv_fresh _ _ I _ (le_n _)) as Hfresh.
  destruct (ios_inv_unknown _ _ I _ Hfresh) as (Hnone & _ & _).
  apply wp_bind. eapply wp_run.
  { apply finish_init_fails; [done| |by apply captured_none, Hfresh; apply I| | |].
    - eapply fresh_context; [done|exact G|by left].
    - pose proof (grows_nodup _ _ _ G) as Hnd. apply NoDup_cons in Hnd as [Hnd _]. set_solver.
    - eapply (grows_new _ _ _ G). by left.
    - eapply (grows_new _ _ _ G). right. by left. }
  apply wp_ret. unfold history. apply unchanged_inv; [done| | | |lia].
  - by apply mem_wf_release.
  - etrans; [by eapply later_grows|apply later_release].
  - assert (grows [c; l] (machine r).1 m') as G' by (revert G; apply grows_proper; [constructor|done..]).
    by eapply grows_release; [apply I|exact G'].
Qed.

(** *** Every step *)

Theorem wp_step `{Allocator} a r :
  ios_inv None r → permitted a r →
  wp (act a r) (λ f, oom f ∨ throws a r f) (λ _ s, ios_inv None (history a r s)) (machine r).
Proof.
  intros I Ha. destruct a.
  - eapply wp_mono; [by apply wp_start_step|by left|done].
  - eapply wp_mono; [by apply wp_start_fails_step|by left|done].
  - eapply wp_mono; [by apply wp_event_step|done|done].
  - eapply wp_mono; [by apply wp_run_step|by right|done].
  - eapply wp_mono; [by apply wp_release_step|done|done].
  - apply wp_modify. by apply later_inv.
Qed.

Lemma begin_inv m : mem_wf m → ios_inv None (IosRun (m, IosState ∅ 0 ∅ [] []) ∅ [] []).
Proof.
  intros Hwf. split; cbn; try done.
  - split; [constructor|]. intros l Hl. cbn in Hl. by apply elem_of_nil in Hl.
Qed.

Lemma steps_inv `{Allocator} r : ios_steps r → ios_inv None r.
Proof.
  induction 1 as [m Hwf|a r s _ I Ha Hrun]; [by apply begin_inv|].
  exact (wp_Ok _ _ _ _ _ _ (wp_step a r I Ha) Hrun).
Qed.
