(* ===== verification/IosStreamProps.v ===== *)
(** * What a stream of the Objective-C platform promises

    The theorems about IosStream.v: no step of any run touches freed memory or a
    deallocated object, a stream object and its context live exactly as long as they are
    needed, the application's closures are called in Envoy's order with what Envoy had,
    and what starting a stream leaves behind. *)

From S2P Require Import Engine EngineInv EngineProps.
From S2P Require Export IosStreamInv IosUtilityProps ProcessProps.

Section streams.
Context `{Allocator}.
Implicit Types (r : ios_run).

(** C22: The stream objects never fault. In every state the streams, their callbacks, the
    dispatch queues, the application and the rest of the program can reach together, each
    thing that may happen next runs to its end: no callback or block uses a context or an
    object that was freed, and nothing is freed twice. Only two things can go wrong: an
    allocation fails; or the block that runs has headers or trailers for a closure of the
    application with a name or a value that is not UTF-8, and throws an exception. *)
Theorem ios_streams_never_fault a r :
  ios_steps r → permitted a r →
  wp (act a r) (λ f, oom f ∨ throws a r f) (λ _ s, ios_steps (history a r s)) (machine r).
Proof.
  intros Hr Ha. pose proof (wp_step a r (steps_inv r Hr) Ha) as Hwp. unfold wp in *.
  destruct (act a r (machine r)) as [[[] s]|f] eqn:Hrun; [|done]. by eapply ios_step.
Qed.

(** A stream lives as long as it is needed. A stream object that is there holds on to
    itself until a terminal callback of Envoy has arrived and its block has run; it goes
    when the application has given it up as well, and not before. While it is there its
    context is allocated and names it; when it is gone, a terminal callback was the last
    event, no block of the stream waits, and both blocks of C memory were freed. *)
Theorem ios_stream_lifetime r o sd :
  ios_steps r → started_streams r !! o = Some sd →
  match stream_objects (machine r).2 !! o with
  | Some obj =>
      strongSelf obj = negb (handled (values_of o (received r))) || handled (values_of o (waiting r)) ∧
      strongSelf obj || app_reference obj = true ∧
      native_context obj = Some (sd_context sd) ∧
      load_context (native_context obj) (machine r) =
        Ok (IosContext o (sd_callbacks sd) (Some (sd_closed sd)), machine r) ∧
      is_Some (heap (machine r).1 !! sd_closed sd)
  | None =>
      handled (values_of o (received r)) = true ∧ values_of o (waiting r) = [] ∧
      heap (machine r).1 !! sd_context sd = None ∧ heap (machine r).1 !! sd_closed sd = None
  end.
Proof.
  intros Hr Hsd. pose proof (steps_inv r Hr) as I.
  destruct (ios_inv_streams _ _ I _ _ Hsd) as (A & _ & _ & done & D1 & _ & Ho).
  assert (Hafter : handled done = true → values_of o (waiting r) = []).
  { intros Hd. destruct (values_of o (waiting r)) as [|[ev p] w]; [reflexivity|]. exfalso.
    unfold events_of in A. rewrite D1, fmap_app, fmap_cons, cons_middle, app_assoc in A.
    apply spec_run_prefix, spec_run_after in A. rewrite handled_events in Hd. congruence. }
  destruct (stream_objects (machine r).2 !! o) as [obj|] eqn:Hobj.
  - destruct (context_present _ _ _ _ _ I Hsd Hobj) as (Hn & Hc & Hl1 & Hl2).
    destruct Ho as (_ & _ & _ & Hs & Href).
    split_and!; [|by apply Href|done| |done].
    + rewrite Hs, D1, handled_app. destruct (handled done) eqn:Hd; [by rewrite Hafter|].
      cbn. by destruct (handled (values_of o (waiting r))).
    + rewrite Hn. pose proof (load_context_run (machine r).1 (machine r).2 _ _ Hl1 Hc) as Hrun.
      by rewrite <- surjective_pairing in Hrun.
  - destruct Ho as (Hd & H1 & H2). split_and!; [|by apply Hafter|done..].
    by rewrite D1, handled_app, Hd.
Qed.

(** The application hears everything, once and in order. The calls of closures made so
    far for a stream, and those the waiting blocks will make, are what Envoy's callbacks
    carried when they arrived, in the order they arrived, without those there is no
    closure for. *)
Theorem ios_calls_in_order r o sd :
  ios_steps r → started_streams r !! o = Some sd →
  calls_of (values_of o (received r)) =
  values_of o (app_calls (machine r).2) ++ calls_of (values_of o (waiting r)).
Proof.
  intros Hr Hsd. destruct (ios_inv_streams _ _ (steps_inv r Hr) _ _ Hsd) as (_ & _ & _ & done & -> & -> & _).
  unfold calls_of. apply omap_app.
Qed.

(** Running the blocks that wait, oldest first. *)
Fixpoint drain (n : nat) r : result ios_run :=
  match n with
  | O => Ok r
  | S n =>
      match act (ARun 0) r (machine r) with
      | Ok (_, s) => drain n (history (ARun 0) r s)
      | Fault f => Fault f
      end
  end.

(** The blocks that wait can read what they have. *)
Definition all_readable r : Prop :=
  ∀ o ev p sd, (o, (ev, p)) ∈ waiting r → started_streams r !! o = Some sd →
    readable (sd_callbacks sd) ev p.

Lemma run_first r :
  ios_steps r → all_readable r → waiting r ≠ [] →
  ∃ s, act (ARun 0) r (machine r) = Ok (tt, s) ∧ ios_steps (history (ARun 0) r s).
Proof.
  intros Hr Hread Hw. pose proof (steps_inv r Hr) as I.
  assert (Ha : permitted (ARun 0) r).
  { pose proof (ios_inv_blocks _ _ I) as Hb. inversion Hb as [|b w bs ws _ _ Hbs Hws]; [congruence|].
    exists b. split; [by rewrite <- Hbs|]. lia. }
  pose proof (wp_run_step r 0 I Ha) as Hwp. unfold wp in Hwp. cbn [act].
  destruct (run_block 0 (machine r)) as [[[] s]|f] eqn:Hrun.
  - exists s. split; [done|]. by eapply ios_step.
  - destruct Hwp as (n & o & ev & p & sd & [= <-] & Hn & Hsd & _ & _ & Hbad & _).
    destruct Hbad. apply (Hread o ev p sd); [by eapply list_elem_of_lookup_2|done].
Qed.

Lemma drain_run n r :
  ios_steps r → all_readable r → length (waiting r) = n →
  ∃ r', drain n r = Ok r' ∧ ios_steps r' ∧ waiting r' = [] ∧ received r' = received r ∧
    started_streams r' = started_streams r.
Proof.
  revert r. induction n as [|n IH]; intros r Hr Hread Hn.
  - exists r. apply nil_length_inv in Hn. by split_and!.
  - destruct (run_first r Hr Hread) as (s & Hrun & Hs); [intros Hw; by rewrite Hw in Hn|].
    destruct (IH _ Hs) as (r' & Hd & Hr' & Hw & Hrec & Hst).
    { intros o ev p sd Hin. cbn in Hin. apply Hread. destruct (waiting r); [done|by right]. }
    { cbn. destruct (waiting r); [done|]. by injection Hn. }
    exists r'. cbn [drain]. rewrite Hrun. by split_and!.
Qed.

(** Blocks whose headers are UTF-8 can read what they have. *)
Lemma utf8_readable r :
  ios_steps r →
  (∀ o ev p sd, (o, (ev, p)) ∈ waiting r → started_streams r !! o = Some sd →
    closure_for (sd_callbacks sd) ev = true → ¬ not_utf8 (machine r).1 ev) → all_readable r.
Proof.
  intros Hr Hutf8 o ev p sd Hin Hsd. pose proof (ios_inv_blocks _ _ (steps_inv r Hr)) as Hb.
  apply list_elem_of_lookup in Hin as Hn. destruct Hn as [n Hn].
  destruct (Forall2_lookup_r _ _ _ _ _ Hb Hn) as (b & _ & _ & _ & Hp & Hcb). cbn in Hp, Hcb.
  rewrite Hsd in Hcb. injection Hcb as Hcb. rewrite <- Hcb in Hp.
  destruct (readable_or_not _ _ _ _ Hp) as [?|[Hcl Hbad]]; [done|]. by destruct (Hutf8 o ev p sd).
Qed.

(** C23: Streams that are over are freed. In any state in which the headers and trailers
    that wait for a closure are UTF-8, running the blocks that wait takes as many steps as
    there are blocks, none of which fails, not even for want of memory; the application has
    then been called for everything Envoy reported. Of a stream that had
    its terminal callback, nothing then remains but what the application holds: the
    object no longer holds on to itself, and if the application has given it up, it
    and its context are freed. *)
Theorem ios_streams_drain r :
  ios_steps r →
  (∀ o ev p sd, (o, (ev, p)) ∈ waiting r → started_streams r !! o = Some sd →
    closure_for (sd_callbacks sd) ev = true → ¬ not_utf8 (machine r).1 ev) →
  ∃ r', drain (length (waiting r)) r = Ok r' ∧ ios_steps r' ∧ waiting r' = [] ∧
    ∀ o sd, started_streams r !! o = Some sd →
      values_of o (app_calls (machine r').2) = calls_of (values_of o (received r)) ∧
      (handled (values_of o (received r)) = true →
       match stream_objects (machine r').2 !! o with
       | Some obj => strongSelf obj = false ∧ app_reference obj = true
       | None => heap (machine r').1 !! sd_context sd = None ∧ heap (machine r').1 !! sd_closed sd = None
       end).
Proof.
  intros Hr Hutf8. destruct (drain_run _ r Hr (utf8_readable r Hr Hutf8) eq_refl) as (r' & Hd & Hr' & Hw & Hrec & Hst).
  exists r'. split_and!; [done..|]. intros o sd Hsd. rewrite <- Hst in Hsd. rewrite <- Hrec. split.
  - pose proof (ios_calls_in_order r' o sd Hr' Hsd) as Hcalls. rewrite Hw in Hcalls.
    by rewrite Hcalls, app_nil_r.
  - intros Hh. pose proof (ios_stream_lifetime r' o sd Hr' Hsd) as Hlife. rewrite Hw, Hh in Hlife.
    destruct (stream_objects (machine r').2 !! o) as [obj|].
    + destruct Hlife as (Hs & Hrefs & _). cbn in Hs. rewrite Hs in Hrefs. by split.
    + by destruct Hlife as (_ & _ & ? & ?).
Qed.
End streams.

(** ** Under the dispatcher *)

Section under_dispatcher.
#[local] Existing Instance debug_build.
Context `{Allocator} {HM : Type} `{!HeaderMap HM} `{!EnvoyCodec HM} {B : Type} `{!BufferInstance B}.
Implicit Types (d : state HM B) (r : ios_run).

(** The dispatcher's callbacks are a run of the stream contract. *)
Lemma reachable_contract scope ls d k : reachable scope ls d → is_Some (spec_run (bridge_trace k (trace d))).
Proof.
  intros Hd. destruct (decide (k < next_object d)) as [Hk|Hk].
  - pose proof (reachable_phase _ _ _ _ Hd Hk) as Hp. unfold phase_of in Hp. by rewrite Hp.
  - destruct (inv_fresh _ _ (reachable_Inv _ _ _ Hd) k) as (-> & _); [lia|done].
Qed.

(** C11: The iOS stream and the dispatcher's end together. Let an iOS stream, in any state it
    can reach, have been given the callbacks the dispatcher has made so far for one of its
    streams. Whatever the dispatcher does next, the first callback it makes then is handled
    without a fault, if its payload is valid. While the dispatcher has the stream, the iOS
    object is there, holds on to itself and has its context; once the dispatcher has let
    go, the object holds on to itself only until the blocks that wait have run, and when
    the application lets go of it too, object and context are freed. *)
Theorem ios_stream_follows_dispatcher scope ls d k r o sd :
  reachable scope ls d → k < next_object d → ios_steps r → started_streams r !! o = Some sd →
  events_of o (received r) = bridge_trace k (trace d) →
  let has_stream := bool_decide (k ∈ (map_to_list (streams_ d)).*2) in
  (∀ l d' ev evs p, step scope d l d' →
    bridge_trace k (trace d') = bridge_trace k (trace d) ++ ev :: evs →
    payload_of (machine r).1 (sd_callbacks sd) ev p →
    allocated (machine r).1 (used r ++ payload_owned p) →
    wp (act (AEvent o ev p) r) oom (λ _ s, ios_steps (history (AEvent o ev p) r s)) (machine r)) ∧
  match stream_objects (machine r).2 !! o with
  | Some obj =>
      strongSelf obj = has_stream || handled (values_of o (waiting r)) ∧
      strongSelf obj || app_reference obj = true ∧ native_context obj = Some (sd_context sd) ∧
      load_context (native_context obj) (machine r) =
        Ok (IosContext o (sd_callbacks sd) (Some (sd_closed sd)), machine r)
  | None =>
      has_stream = false ∧ values_of o (waiting r) = [] ∧
      heap (machine r).1 !! sd_context sd = None ∧ heap (machine r).1 !! sd_closed sd = None
  end.
Proof.
  intros Hd Hk Hr Hsd Hevents has_stream. split.
  - intros l d' ev evs p Hstep Htrace Hp Hfresh.
    assert (Hd' : reachable scope (ls ++ [l]) d') by (destruct Hd as [m Hs]; exists m; by econstructor).
    pose proof (reachable_contract _ _ _ k Hd') as Hrun. rewrite Htrace, cons_middle, app_assoc in Hrun.
    apply spec_run_prefix in Hrun.
    assert (Ha : permitted (AEvent o ev p) r) by (exists sd; rewrite Hevents; by split_and!).
    assert (Hwp : wp (act (AEvent o ev p) r) oom (λ _ s, ios_inv None (history (AEvent o ev p) r s)) (machine r))
      by (eapply wp_mono; [by apply wp_event_step; [apply steps_inv|]|done|done]).
    unfold wp in *.
    destruct (act _ r (machine r)) as [[[] s]|f] eqn:Hact; [|done]. by eapply ios_step.
  - assert (Hhas : handled (values_of o (received r)) = negb has_stream).
    { rewrite handled_events. fold (events_of o (received r)). rewrite Hevents.
      pose proof (reachable_phase _ _ _ _ Hd Hk) as Hp. unfold phase_of in Hp. fold has_stream in Hp.
      destruct has_stream; [by eapply spec_run_terminal|].
      apply spec_run_shape in Hp. rewrite decide_True in Hp by done.
      destruct Hp as (pre & ev & -> & Hev & _). rewrite existsb_app. cbn. rewrite Hev. apply orb_true_r. }
    pose proof (ios_stream_lifetime r o sd Hr Hsd) as Hlife.
    destruct (stream_objects (machine r).2 !! o) as [obj|].
    + destruct Hlife as (Hs & Hrefs & Hn & Hl & _). rewrite Hs, Hhas, negb_involutive in *. by split_and!.
    + destruct Hlife as (Hh & Hw & H1 & H2). rewrite Hhas in Hh. apply negb_true_iff in Hh. by split_and!.
Qed.
End under_dispatcher.

(** ** Starting a stream *)

Section start.
Context {mode : BuildMode} `{Allocator} {HM : Type} `{!HeaderMap HM} `{!EnvoyCodec HM}
  {B : Type} `{!BufferInstance B} `{!EnvoyServer} {A : Type}.
Abbreviation globals_t := (main_state HM B A).
Implicit Types (x : globals_t * ios_state).

(** Starting a stream takes the C memory it needs or gives it back. With an engine the
    object is returned, designates itself, and its context is that of the callbacks in the
    functor queued for the dispatcher. Without one nil is returned, the object is gone, and
    the heap and the contexts are as they were. *)
Theorem ios_startStream h cb x :
  mem_wf (memory_now x.1) → (∀ e, strong_engine_ x.1 = Some e → usable e) →
  stream_objects x.2 !! next_stream x.2 = None → captured (next_stream x.2) (blocks x.2) = false →
  (∀ l, is_Some (contexts x.2 !! l) → is_Some (heap (memory_now x.1) !! l)) →
  wp (initWithHandle_callbacks h cb) oom (λ result x',
    let o := next_stream x.2 in
    match strong_engine_ x.1 with
    | Some _ => result = Some o ∧ ∃ l c m, grows [l; c] (memory_now x.1) m ∧
        stream_called (PostStartStream h (ios_callbacks (Some l))) m x.1 ENVOY_SUCCESS x'.1 ∧
        x'.2 = with_object o (StreamImpl true cb (Some l) h true) l (IosContext o cb (Some c)) x.2
    | None => result = None ∧ strong_engine_ x'.1 = None ∧ x'.2 = set_next_stream (S o) x.2 ∧
        heap (memory_now x'.1) = heap (memory_now x.1)
    end) x.
Proof.
  intros Hwf Hu Hnone Hcap Hctx. unfold initWithHandle_callbacks. apply wp_bind, wp_on_native.
  destruct x as [g i]. cbn [fst snd] in *.
  eapply wp_conseq; [by apply wp_init_stream_object|].
  intros self s (l & c & m & -> & G & Hwf' & ->). cbn [fst snd].
  apply wp_bind, wp_on_main. cbn [fst snd].
  eapply wp_mono; [by apply (wp_interface_call (PostStartStream h (ios_callbacks (Some l))))|done|].
  intros st g' Hcalled. apply wp_on_native. cbn [fst snd].
  assert (Hm := stream_called_memory _ _ _ _ _ Hcalled). rewrite Hm.
  destruct (strong_engine_ g) as [e|] eqn:He.
  - assert (st = ENVOY_SUCCESS) as -> by (unfold stream_called in Hcalled; rewrite He in Hcalled; apply Hcalled).
    unfold finish_init. rewrite decide_True by done. apply wp_ret. cbn [fst snd].
    split; [done|]. exists l, c, m. rewrite <- Hm, set_memory_now, Hm. by split_and!.
  - assert (st = ENVOY_FAILURE ∧ g' = set_c_mem m g) as [-> ->]
      by (unfold stream_called in Hcalled; by rewrite He in Hcalled).
    eapply wp_run.
    { apply finish_init_fails; [done| |done| | |].
      - destruct (contexts i !! l) eqn:E; [|done]. exfalso.
        destruct (grows_new _ _ _ G l ltac:(by left)) as (_ & Hle & _).
        specialize (Hwf l (Hctx l ltac:(by rewrite E))). lia.
      - pose proof (grows_nodup _ _ _ G) as Hnd. apply NoDup_cons in Hnd as [Hnd _]. set_solver.
      - eapply (grows_new _ _ _ G). by left.
      - eapply (grows_new _ _ _ G). right. by left. }
    cbn [fst snd]. split; [done|]. split; [by rewrite strong_engine_memory; cbn; rewrite He|].
    split; [done|]. rewrite memory_now_set.
    assert (grows [c; l] (memory_now g) m) as G' by (revert G; apply grows_proper; [constructor|done..]).
    by eapply grows_release; [exact Hwf|exact G'].
Qed.
End start.

(** ** Examples *)

#[local] Existing Instance ref_server.

Definition ref_closures : EnvoyHTTPCallbacks := HTTPCallbacks 1 true true true true true.

(** A stream that gets headers and completes, while the application waits for both and
    then gives it up. *)
Definition ref_payload : payload :=
  Payload (headers_owned ref_headers [ref_header])
    (Some (CallHeaders (dict_of (text_pairs ref_pairs)) true)).
Definition step_of (r : ios_run) (a : ios_action) : ios_run :=
  match act a r (machine r) with Ok (_, s) => history a r s | Fault _ => r end.
Definition ref_run (n : nat) : ios_run :=
  foldl step_of (IosRun (ref_mem, IosState ∅ 0 ∅ [] []) ∅ [] [])
    (take n [AStart 7 ref_closures; AEvent 0 (OnHeaders ref_headers true) ref_payload; ARun 0;
             AEvent 0 OnComplete (Payload [] None); ARun 0; ARelease 0]).

Lemma step_of_steps r a :
  ios_steps r → permitted a r → (∃ s, act a r (machine r) = Ok (tt, s)) → ios_steps (step_of r a).
Proof. intros Hr Ha [s Hs]. unfold step_of. rewrite Hs. by eapply ios_step. Qed.

Lemma allocated_check m ls :
  bool_decide (NoDup ls) = true → forallb (λ l, bool_decide (is_Some (heap m !! l))) ls = true →
  allocated m ls.
Proof.
  intros H1%bool_decide_eq_true H2. split; [done|]. intros l Hl. rewrite forallb_forall in H2.
  specialize (H2 l ltac:(by apply list_elem_of_In)). by apply bool_decide_eq_true in H2.
Qed.

Lemma ref_run_1 : ios_steps (ref_run 1).
Proof.
  change (ref_run 1) with (step_of (ref_run 0) (AStart 7 ref_closures)).
  apply step_of_steps; [apply ios_begin, ref_mem_wf|done|]. eexists. vm_compute. reflexivity.
Qed.

Lemma ref_event_permitted : permitted (AEvent 0 (OnHeaders ref_headers true) ref_payload) (ref_run 1).
Proof.
  exists (Started 4 5 ref_closures). split; [by vm_compute|]. split; [vm_compute; by eexists|]. split.
  - exists (Some (CallHeaders (dict_of (text_pairs ref_pairs)) true)). split; [|done].
    exists [ref_header], ref_pairs. split_and!; [| |done|].
    + apply (ref_headers_ok_in (machine (ref_run 1)).1); vm_compute; reflexivity.
    + by repeat constructor.
    + by rewrite (proj1 (ios_headers_ascii ref_pairs ltac:(apply (bool_decide_unpack _); by vm_compute))).
  - apply allocated_check; by vm_compute.
Qed.

Lemma ref_run_2 : ios_steps (ref_run 2).
Proof.
  change (ref_run 2) with (step_of (ref_run 1) (AEvent 0 (OnHeaders ref_headers true) ref_payload)).
  apply step_of_steps; [apply ref_run_1|apply ref_event_permitted|]. eexists. vm_compute. reflexivity.
Qed.

Lemma ref_run_permitted : permitted (ARun 0) (ref_run 2).
Proof. eexists. split; [vm_compute; reflexivity|]. lia. Qed.

Lemma ref_run_6 : ios_steps (ref_run 6).
Proof.
  change (ref_run 6) with (step_of (step_of (step_of (step_of (ref_run 2) (ARun 0))
    (AEvent 0 OnComplete (Payload [] None))) (ARun 0)) (ARelease 0)).
  apply step_of_steps; [apply step_of_steps; [apply step_of_steps; [apply step_of_steps|..]|..]|..];
    try (eexists; vm_compute; reflexivity).
  - apply ref_run_2.
  - apply ref_run_permitted.
  - exists (Started 4 5 ref_closures). split; [by vm_compute|]. split; [vm_compute; by eexists|]. split.
    + by exists None.
    + apply allocated_check; by vm_compute.
  - eexists. split; [vm_compute; reflexivity|]. lia.
  - eexists. split; [vm_compute; reflexivity|done].
Qed.

Lemma ios_streams_never_fault_witness :
  wp (act (ARun 0) (ref_run 2)) (λ f, oom f ∨ throws (ARun 0) (ref_run 2) f) (λ _ s, ios_steps (history (ARun 0) (ref_run 2) s)) (machine (ref_run 2)).
Proof. exact (ios_streams_never_fault (ARun 0) (ref_run 2) ref_run_2 ref_run_permitted). Defined.

Lemma ios_stream_lifetime_witness :
  heap (machine (ref_run 6)).1 !! 4%positive = None ∧ heap (machine (ref_run 6)).1 !! 5%positive = None.
Proof.
  assert (Hsd : started_streams (ref_run 6) !! 0 = Some (Started 4 5 ref_closures)) by (vm_compute; reflexivity).
  assert (Hobj : stream_objects (machine (ref_run 6)).2 !! 0 = None) by (vm_compute; reflexivity).
  pose proof (ios_stream_lifetime (ref_run 6) 0 (Started 4 5 ref_closures) ref_run_6 Hsd) as Hlife.
  rewrite Hobj in Hlife. destruct Hlife as (_ & _ & H1 & H2). exact (conj H1 H2).
Defined.

Lemma ios_calls_in_order_witness :
  [CallHeaders (dict_of (text_pairs ref_pairs)) true] =
  values_of 0 (app_calls (machine (ref_run 6)).2) ++ [].
Proof.
  assert (Hsd : started_streams (ref_run 6) !! 0 = Some (Started 4 5 ref_closures)) by (vm_compute; reflexivity).
  pose proof (ios_calls_in_order (ref_run 6) 0 (Started 4 5 ref_closures) ref_run_6 Hsd) as Hcalls.
  assert (Hrec : calls_of (values_of 0 (received (ref_run 6))) =
    [CallHeaders (dict_of (text_pairs ref_pairs)) true]) by (vm_compute; reflexivity).
  assert (Hwait : values_of 0 (waiting (ref_run 6)) = []) by (vm_compute; reflexivity).
  rewrite Hrec, Hwait in Hcalls. exact Hcalls.
Defined.

Lemma ios_startStream_witness :
  ∃ x', initWithHandle_callbacks (HM := ref_map) (B := ref_buffer) (A := unit)
      7 ref_closures (main_init ref_mem, IosState ∅ 0 ∅ [] []) = Ok (None, x') ∧
    x'.2 = IosState ∅ 1 ∅ [] [] ∧ heap (memory_now x'.1) = heap ref_mem.
Proof.
  destruct (initWithHandle_callbacks (HM := ref_map) (B := ref_buffer) (A := unit)
    7 ref_closures (main_init ref_mem, IosState ∅ 0 ∅ [] [])) as [[res x']|f] eqn:Hrun.
  - assert (Hpost := wp_Ok _ _ _ _ _ _ (ios_startStream (HM := ref_map) (B := ref_buffer) (A := unit)
      7 ref_closures (main_init ref_mem, IosState ∅ 0 ∅ [] [])
      ref_mem_wf ltac:(done) eq_refl eq_refl ltac:(by intros l []; done)) Hrun).
    destruct Hpost as (-> & _ & H1 & H2). exists x'. by split.
  - exfalso. vm_compute in Hrun. discriminate.
Defined.

(** A stream of the dispatcher that the connection manager resets, and the iOS stream that
    hears of it. *)
Definition reset_labels : list ref_label := take 3 two_streams ++ [LHcm (HcmResetStream 0 RemoteReset [])].
Definition after_reset : ref_state :=
  default (init_state mem_empty) (run_labels (mode := debug_build) no_stats reset_labels (init_state mem_empty)).
Definition reset_error : bridge_event := OnError (EnvoyError ENVOY_STREAM_RESET envoy_nodata (-1)).
Definition reset_payload : payload := Payload [] (Some (CallError 1 (Some []) (-1))).
Definition reset_run : ios_run :=
  foldl step_of (ref_run 1) [AEvent 0 reset_error reset_payload; ARun 0; ARelease 0].

Lemma reset_permitted : permitted (AEvent 0 reset_error reset_payload) (ref_run 1).
Proof.
  exists (Started 4 5 ref_closures). split; [by vm_compute|]. split; [vm_compute; by eexists|]. split.
  - exists (Some (CallError 1 (Some []) (-1))). split; [|done]. exists []. split; [by split; [|left]|].
    split; [by right|]. by split.
  - apply allocated_check; by vm_compute.
Qed.

Lemma reset_run_steps : ios_steps reset_run.
Proof.
  change reset_run with (step_of (step_of (step_of (ref_run 1) (AEvent 0 reset_error reset_payload))
    (ARun 0)) (ARelease 0)).
  apply step_of_steps; [apply step_of_steps; [apply step_of_steps;
    [apply ref_run_1|apply reset_permitted|]|..]|..].
  - eexists. vm_compute. reflexivity.
  - eexists. split; [vm_compute; reflexivity|]. lia.
  - eexists. vm_compute. reflexivity.
  - eexists. split; [vm_compute; reflexivity|done].
  - eexists. vm_compute. reflexivity.
Qed.

Lemma ios_stream_follows_dispatcher_witness :
  heap (machine reset_run).1 !! 4%positive = None ∧ heap (machine reset_run).1 !! 5%positive = None.
Proof.
  assert (Hd : reachable (mode := debug_build) no_stats reset_labels after_reset).
  { apply run_labels_reachable with mem_empty. vm_compute. reflexivity. }
  assert (Hk : 0 < next_object after_reset) by (vm_compute; lia).
  assert (Hsd : started_streams reset_run !! 0 = Some (Started 4 5 ref_closures)) by (vm_compute; reflexivity).
  assert (Hev : events_of 0 (received reset_run) = bridge_trace 0 (trace after_reset))
    by (vm_compute; reflexivity).
  assert (Hobj : stream_objects (machine reset_run).2 !! 0 = None) by (vm_compute; reflexivity).
  destruct (ios_stream_follows_dispatcher no_stats reset_labels after_reset 0 reset_run 0
    (Started 4 5 ref_closures) Hd Hk reset_run_steps Hsd Hev) as [_ Hend].
  rewrite Hobj in Hend. destruct Hend as (_ & _ & H1 & H2). exact (conj H1 H2).
Defined.

(** The stream of [ref_run 2] completes while its headers still wait; both blocks run. *)
Definition completed_run : ios_run := step_of (ref_run 2) (AEvent 0 OnComplete (Payload [] None)).

Lemma completed_run_steps : ios_steps completed_run.
Proof.
  apply step_of_steps; [apply ref_run_2| |eexists; vm_compute; reflexivity].
  exists (Started 4 5 ref_closures). split; [by vm_compute|]. split; [vm_compute; by eexists|]. split.
  - by exists None.
  - apply allocated_check; by vm_compute.
Qed.

(** What a struct designates is determined by the memory. *)
Lemma reads_data_det h d bs bs' : reads_data h d bs → reads_data h d bs' → bs = bs'.
Proof.
  intros [L1 R1] [L2 R2]. assert (Hlen : length bs = length bs') by lia.
  destruct R1 as [->|(l & rest & Hl & Hb)]; [by destruct bs'|].
  destruct R2 as [->|(l' & rest' & Hl' & Hb')]; [by destruct bs|].
  rewrite Hl in Hl'. injection Hl' as <-. rewrite Hb in Hb'. injection Hb' as Hb'.
  apply app_inj_1 in Hb' as [Hb' _]; [|by rewrite !length_fmap]. by apply (inj (fmap Some)) in Hb'.
Qed.

Lemma reads_headers_det h eh hs es hs' es' :
  reads_headers h eh hs es → reads_headers h eh hs' es' → es = es'.
Proof.
  intros (L1 & A1 & F1) (L2 & A2 & F2). assert (Hlen : length hs = length hs') by lia.
  assert (hs = hs') as <-.
  { destruct A1 as [->|(l & rest & Hl & Hb)]; [by destruct hs'|].
    destruct A2 as [->|(l' & rest' & Hl' & Hb')]; [by destruct hs|].
    rewrite Hl in Hl'. injection Hl' as <-. rewrite Hb in Hb'. injection Hb' as Hb'.
    apply app_inj_1 in Hb' as [Hb' _]; [|by rewrite !length_fmap]. by apply (inj (fmap Some)) in Hb'. }
  clear A1 A2 L1 L2 Hlen. revert es' F2. induction F1 as [|hd [k v] hs es [K V] _ IH]; intros es' F2;
    inversion F2 as [|? [k' v'] ? ? [K' V'] F2']; [done|]. f_equal; [|by apply IH].
  f_equal; by eapply reads_data_det.
Qed.

Lemma completed_run_utf8 o ev p sd :
  (o, (ev, p)) ∈ waiting completed_run → started_streams completed_run !! o = Some sd →
  closure_for (sd_callbacks sd) ev = true → ¬ not_utf8 (machine completed_run).1 ev.
Proof.
  assert (waiting completed_run = [(0, (OnHeaders ref_headers true, ref_payload));
    (0, (OnComplete, Payload [] None))]) as -> by (vm_compute; reflexivity).
  intros Hin _ _ (h & hs & es & Hev & R & Hnone).
  rewrite !elem_of_cons, elem_of_nil in Hin. destruct Hin as [[= -> -> ->]|[[= -> -> ->]|[]]].
  2:{ by destruct Hev as [[? ?]|?]. }
  destruct Hev as [[? [= <- _]]|?]; [|done].
  assert (Hok : headers_ok (machine completed_run).1 ref_headers [ref_header] ref_pairs)
    by (apply ref_headers_ok_in; vm_compute; reflexivity).
  rewrite (reads_headers_det _ _ _ _ _ _ R (proj1 Hok)) in Hnone.
  by rewrite (proj1 (ios_headers_ascii ref_pairs ltac:(apply (bool_decide_unpack _); by vm_compute))) in Hnone.
Qed.

Lemma ios_streams_drain_witness :
  ∃ r', drain 2 completed_run = Ok r' ∧ waiting r' = [] ∧
    values_of 0 (app_calls (machine r').2) = [CallHeaders (dict_of (text_pairs ref_pairs)) true].
Proof.
  assert (Hsd : started_streams completed_run !! 0 = Some (Started 4 5 ref_closures))
    by (vm_compute; reflexivity).
  assert (Hrec : calls_of (values_of 0 (received completed_run)) =
    [CallHeaders (dict_of (text_pairs ref_pairs)) true]) by (vm_compute; reflexivity).
  assert (Hlen : length (waiting completed_run) = 2) by (vm_compute; reflexivity).
  destruct (ios_streams_drain completed_run completed_run_steps completed_run_utf8) as (r' & Hd & _ & Hw & Hall).
  rewrite Hlen in Hd. exists r'. split; [exact Hd|]. split; [exact Hw|].
  destruct (Hall 0 _ Hsd) as [Hcalls _]. by rewrite Hcalls.
Defined.
