(* ===== verification/IosFilter.v ===== *)
(** * Filters of the Objective-C platform

    Models the filter functions of library/objective-c/EnvoyEngineImpl.m with the objects
    they work on (EnvoyEngine.h, EnvoyHTTPFilterCallbacksImpl.m), and the closures that
    library/swift/src/filters/Filter.swift makes of a filter of the application. A filter
    object is a record of closures that may be missing; what a closure returns is an array
    of objects whose types nobody checks before they are used. *)

From S2P Require Export PlatformBridge IosUtility.

(** ** Objects *)

(** What the arrays hold. A nil of Swift is an NSNull in an array. *)
Inductive ns_object :=
| NumberObject (n : Z)
| HeadersObject (headers : NSHeaders)
| DataObject (data : NSData)
| NullObject.

Section filters.
Context (App : Type).

(** What a closure returns: nil or an NSArray. *)
Definition closure_result : Type := M App (option (list ns_object)).

Record EnvoyHTTPFilter := HTTPFilter {
  onRequestHeaders : option (NSHeaders → bool → closure_result);
  onRequestData : option (NSData → bool → closure_result);
  onRequestTrailers : option (NSHeaders → closure_result);
  onResponseHeaders : option (NSHeaders → bool → closure_result);
  onResponseData : option (NSData → bool → closure_result);
  onResponseTrailers : option (NSHeaders → closure_result);
  setRequestFilterCallbacks : option (positive → M App unit);
  onResumeRequest :
    option (option NSHeaders → option NSData → option NSHeaders → bool → closure_result);
  setResponseFilterCallbacks : option (positive → M App unit);
  onResumeResponse :
    option (option NSHeaders → option NSData → option NSHeaders → bool → closure_result)
}.

Record EnvoyHTTPFilterFactory := HTTPFilterFactory {
  filterName : NSString;
  create : M App EnvoyHTTPFilter
}.

(** The objects C has pointers to, the EnvoyHTTPFilterCallbacksImpl objects, and the state
    of the application. *)
Record filter_objects := FilterObjects {
  filters : gmap positive EnvoyHTTPFilter;
  factories : gmap positive EnvoyHTTPFilterFactory;
  callbacks_objects : gmap positive envoy_http_filter_callbacks;
  next_filter_object : positive;
  app_state : App
}.
End filters.
Arguments HTTPFilter {App} _ _ _ _ _ _ _ _ _ _.
Arguments onRequestHeaders {App} _.
Arguments onRequestData {App} _.
Arguments onRequestTrailers {App} _.
Arguments onResponseHeaders {App} _.
Arguments onResponseData {App} _.
Arguments onResponseTrailers {App} _.
Arguments setRequestFilterCallbacks {App} _.
Arguments onResumeRequest {App} _.
Arguments setResponseFilterCallbacks {App} _.
Arguments onResumeResponse {App} _.
Arguments HTTPFilterFactory {App} _ _.
Arguments filterName {App} _.
Arguments create {App} _.
Arguments FilterObjects {App} _ _ _ _ _.
Arguments filters {App} _.
Arguments factories {App} _.
Arguments callbacks_objects {App} _.
Arguments next_filter_object {App} _.
Arguments app_state {App} _.

Definition no_closures {App} : EnvoyHTTPFilter App :=
  HTTPFilter None None None None None None None None None None.

#[export] Instance filter_c_memory {P} : Part (mem * P) mem | 10 :=
  { part_get := fst; part_set m s := (m, s.2) }.
#[export] Instance filter_c_memory_laws {P} : PartLaws (mem * P) mem.
Proof. split; [done|by intros []|done]. Qed.
#[export] Instance filter_app {App} : Part (mem * filter_objects App) App | 10 :=
  { part_get s := app_state s.2;
    part_set a s := (s.1, FilterObjects (filters s.2) (factories s.2) (callbacks_objects s.2)
      (next_filter_object s.2) a) }.
#[export] Instance filter_app_laws {App} : PartLaws (mem * filter_objects App) App.
Proof. split; [done|by intros [? []]|done]. Qed.

(** ** The functions of EnvoyEngineImpl.m *)

Section functions.
Context `{Allocator} `{!Dictionary} `{!EnvoyFilterEnums} {App : Type}.
Abbreviation F := (M (mem * filter_objects App)).

Definition in_memory {A} (m : M mem A) : F A := zoom m.
Definition in_app {A} (m : M App A) : F A := zoom m.
Definition update_objects (f : filter_objects App → filter_objects App) : F unit :=
  modify (λ s, (s.1, f s.2)).

(** [(__bridge EnvoyHTTPFilter * )context]. *)
Definition bridge_filter (context : ptr) : F (EnvoyHTTPFilter App) :=
  l ← deref "context is NULL" context;
  s ← gets snd;
  deref "the filter was released" (filters s !! l).
Definition bridge_factory (context : ptr) : F (EnvoyHTTPFilterFactory App) :=
  l ← deref "context is NULL" context;
  s ← gets snd;
  deref "the filter factory was released" (factories s !! l).

(** [CFBridgingRetain(filter)]. *)
Definition retain_filter (filter : EnvoyHTTPFilter App) : F ptr :=
  l ← gets (λ s, next_filter_object s.2);
  update_objects (λ o, FilterObjects (<[l := filter]> (filters o)) (factories o)
    (callbacks_objects o) (l + 1) (app_state o)) ;;
  mret (Some l).

(** [result[i]]: nil has nil in every place. *)
Definition element (result : option (list ns_object)) (i : nat) : F (option ns_object) :=
  match result with
  | None => mret None
  | Some objects =>
      match objects !! i with
      | Some x => mret (Some x)
      | None => fail (Thrown "NSRangeException")
      end
  end.
Definition count (result : option (list ns_object)) : nat := length (default [] result).

(** A message the object does not understand. *)
Definition unrecognized_selector {A} : F A := fail (Thrown "NSInvalidArgumentException").

Definition intValue (x : option ns_object) : F Z :=
  match x with
  | None => mret 0%Z
  | Some (NumberObject n) => mret (s32 n)
  | Some _ => unrecognized_selector
  end.
Definition as_headers (x : option ns_object) : F (option NSHeaders) :=
  match x with
  | None => mret None
  | Some (HeadersObject h) => mret (Some h)
  | Some _ => unrecognized_selector
  end.
Definition as_data (x : option ns_object) : F (option NSData) :=
  match x with
  | None => mret None
  | Some (DataObject d) => mret (Some d)
  | Some _ => unrecognized_selector
  end.

Definition headers_element (result : option (list ns_object)) (i : nat) : F envoy_headers :=
  x ← element result i; h ← as_headers x; in_memory (toNativeHeaders h).
Definition data_element (result : option (list ns_object)) (i : nat) : F envoy_data :=
  x ← element result i; d ← as_data x; in_memory (toNativeData d).
(** The box is allocated before an object of another class is sent its first message. *)
Definition headers_ptr_element (result : option (list ns_object)) (i : nat) : F ptr :=
  x ← element result i;
  match x with
  | None => mret NULL
  | Some (HeadersObject h) => in_memory (toNativeHeadersPtr (Some h))
  | Some _ => in_memory (safe_malloc SIZEOF_ENVOY_HEADERS bytes_block) ;; unrecognized_selector
  end.
Definition data_ptr_element (result : option (list ns_object)) (i : nat) : F ptr :=
  x ← element result i;
  match x with
  | None => mret NULL
  | Some (DataObject d) => in_memory (toNativeDataPtr (Some d))
  | Some _ => in_memory (safe_malloc SIZEOF_ENVOY_DATA bytes_block) ;; unrecognized_selector
  end.
Definition status_element (result : option (list ns_object)) : F Z :=
  x ← element result 0; intValue x.

Definition ios_http_filter_init (context : ptr) : F ptr :=
  filterFactory ← bridge_factory context;
  filter ← in_app (create filterFactory);
  retain_filter filter.

(** The functions for requests and responses differ in the closure. *)
Definition ios_http_filter_on_headers
    (closure : EnvoyHTTPFilter App → option (NSHeaders → bool → closure_result App))
    (headers : envoy_headers) (end_stream : bool) (context : ptr) : F envoy_filter_headers_status :=
  filter ← bridge_filter context;
  match closure filter with
  | None => mret (FilterHeadersResult kEnvoyFilterHeadersStatusContinue headers)
  | Some on_headers =>
      platformHeaders ← in_memory (to_ios_headers headers);
      result ← in_app (on_headers platformHeaders end_stream);
      status ← status_element result;
      h ← headers_element result 1;
      mret (FilterHeadersResult status h)
  end.
Definition ios_http_filter_on_request_headers := ios_http_filter_on_headers onRequestHeaders.
Definition ios_http_filter_on_response_headers := ios_http_filter_on_headers onResponseHeaders.

Definition ios_http_filter_on_data
    (closure : EnvoyHTTPFilter App → option (NSData → bool → closure_result App))
    (data : envoy_data) (end_stream : bool) (context : ptr) : F envoy_filter_data_status :=
  filter ← bridge_filter context;
  match closure filter with
  | None => mret (FilterDataResult kEnvoyFilterDataStatusContinue data NULL)
  | Some on_data =>
      platformData ← in_memory (to_ios_data data);
      result ← in_app (on_data platformData end_stream);
      pending_headers ←
        (if decide (count result = 3) then headers_ptr_element result 2
         else in_memory (toNativeHeadersPtr None));
      status ← status_element result;
      d ← data_element result 1;
      mret (FilterDataResult status d pending_headers)
  end.
Definition ios_http_filter_on_request_data := ios_http_filter_on_data onRequestData.
Definition ios_http_filter_on_response_data := ios_http_filter_on_data onResponseData.

Definition ios_http_filter_on_trailers
    (closure : EnvoyHTTPFilter App → option (NSHeaders → closure_result App))
    (trailers : envoy_headers) (context : ptr) : F envoy_filter_trailers_status :=
  filter ← bridge_filter context;
  match closure filter with
  | None => mret (FilterTrailersResult kEnvoyFilterTrailersStatusContinue trailers NULL NULL)
  | Some on_trailers =>
      platformTrailers ← in_memory (to_ios_headers trailers);
      result ← in_app (on_trailers platformTrailers);
      '(pending_headers, pending_data) ←
        (if decide (count result = 4) then
           h ← headers_ptr_element result 2; d ← data_ptr_element result 3; mret (h, d)
         else mret (NULL, NULL));
      status ← status_element result;
      t ← headers_element result 1;
      mret (FilterTrailersResult status t pending_headers pending_data)
  end.
Definition ios_http_filter_on_request_trailers := ios_http_filter_on_trailers onRequestTrailers.
Definition ios_http_filter_on_response_trailers := ios_http_filter_on_trailers onResponseTrailers.

(** Without a closure the pointers are returned. They are the addresses of local variables
    of the caller, which frees what it is given: those are no blocks of the heap, and the
    model stops where they escape. *)
Definition return_address {A} (p : option A) : F ptr :=
  match p with
  | None => mret NULL
  | Some _ => fail (Undefined "the address of a local variable is returned to be freed")
  end.

Definition if_present {A B} (p : option A) (f : A → M mem B) : F (option B) :=
  match p with None => mret None | Some x => y ← in_memory (f x); mret (Some y) end.

Definition ios_http_filter_on_resume
    (closure : EnvoyHTTPFilter App →
       option (option NSHeaders → option NSData → option NSHeaders → bool → closure_result App))
    (headers : option envoy_headers) (data : option envoy_data) (trailers : option envoy_headers)
    (end_stream : bool) (context : ptr) : F envoy_filter_resume_status :=
  filter ← bridge_filter context;
  match closure filter with
  | None =>
      h ← return_address headers; d ← return_address data; t ← return_address trailers;
      mret (FilterResumeResult kEnvoyFilterResumeStatusResumeIteration h d t)
  | Some on_resume =>
      pendingHeaders ← if_present headers to_ios_headers;
      pendingData ← if_present data to_ios_data;
      pendingTrailers ← if_present trailers to_ios_headers;
      result ← in_app (on_resume pendingHeaders pendingData pendingTrailers end_stream);
      status ← status_element result;
      h ← headers_ptr_element result 1;
      d ← data_ptr_element result 2;
      t ← headers_ptr_element result 3;
      mret (FilterResumeResult status h d t)
  end.
Definition ios_http_filter_on_resume_request := ios_http_filter_on_resume onResumeRequest.
Definition ios_http_filter_on_resume_response := ios_http_filter_on_resume onResumeResponse.

(** [[EnvoyHTTPFilterCallbacksImpl alloc] initWithCallbacks:], kept by the closure. *)
Definition initWithCallbacks (callbacks : envoy_http_filter_callbacks) : F positive :=
  l ← gets (λ s, next_filter_object s.2);
  update_objects (λ o, FilterObjects (filters o) (factories o)
    (<[l := callbacks]> (callbacks_objects o)) (l + 1) (app_state o)) ;;
  mret l.

Definition ios_http_filter_set_callbacks (closure : EnvoyHTTPFilter App → option (positive → M App unit))
    (callbacks : envoy_http_filter_callbacks) (context : ptr) : F unit :=
  filter ← bridge_filter context;
  match closure filter with
  | None => mret tt
  | Some set_callbacks => impl ← initWithCallbacks callbacks; in_app (set_callbacks impl)
  end.
Definition ios_http_filter_set_request_callbacks :=
  ios_http_filter_set_callbacks setRequestFilterCallbacks.
Definition ios_http_filter_set_response_callbacks :=
  ios_http_filter_set_callbacks setResponseFilterCallbacks.

(** [CFRelease(context)], of the only reference. *)
Definition ios_http_filter_release (context : ptr) : F unit :=
  bridge_filter context ;;
  update_objects (λ o, FilterObjects
    (match context with Some l => delete l (filters o) | None => filters o end)
    (factories o) (callbacks_objects o) (next_filter_object o) (app_state o)).

(** The struct [registerFilterFactory:] fills in. *)
Definition ios_http_filter (filterFactory : ptr) : envoy_http_filter (filter_objects App) :=
  HttpFilter (Some ios_http_filter_init)
    (Some ios_http_filter_on_request_headers)
    (Some ios_http_filter_on_request_data)
    (Some ios_http_filter_on_request_trailers)
    (Some ios_http_filter_on_response_headers)
    (Some ios_http_filter_on_response_data)
    (Some ios_http_filter_on_response_trailers)
    (Some ios_http_filter_set_request_callbacks)
    (Some ios_http_filter_on_resume_request)
    (Some ios_http_filter_set_response_callbacks)
    (Some ios_http_filter_on_resume_response)
    (Some ios_http_filter_release)
    filterFactory NULL.
End functions.

(** ** EnvoyHTTPFilterCallbacksImpl.m

    The object calls back into the filter bridge its callbacks come from. *)

Section filter_callbacks.
Context {HM B App : Type}.
Abbreviation S := (filter_state HM B (filter_objects App)).

Definition callbacks_object (self : positive) : M S envoy_http_filter_callbacks :=
  o ← gets pb_platform;
  deref "message to a deallocated object" (callbacks_objects o !! self).

Definition resumeIteration (self : positive) : M S unit :=
  callbacks ← callbacks_object self;
  resume_iteration ← deref "call of a null function pointer" (resume_iteration callbacks);
  call_filter_callback resume_iteration (callback_context callbacks).

(** [dealloc], when the last reference to the object goes. *)
Definition callbacks_dealloc (self : positive) : M S unit :=
  callbacks ← callbacks_object self;
  release_callbacks ← deref "call of a null function pointer" (release_callbacks callbacks);
  call_filter_callback release_callbacks (callback_context callbacks) ;;
  modify (λ s, let o := pb_platform s in
    set_pb_platform (FilterObjects (filters o) (factories o) (delete self (callbacks_objects o))
      (next_filter_object o) (app_state o)) s).
End filter_callbacks.

(** ** The closures of Filter.swift *)

(** The enumerations of FilterHeadersStatus.swift, FilterDataStatus.swift,
    FilterTrailersStatus.swift and FilterResumeStatus.swift. *)
Inductive SwiftHeadersStatus :=
| SwiftHeadersContinue (headers : NSHeaders)
| SwiftHeadersStop.
Inductive SwiftDataStatus :=
| SwiftDataContinue (data : NSData)
| SwiftDataStopAndBuffer
| SwiftDataStopNoBuffer
| SwiftDataResume (headers : option NSHeaders) (data : NSData).
Inductive SwiftTrailersStatus :=
| SwiftTrailersContinue (trailers : NSHeaders)
| SwiftTrailersStop
| SwiftTrailersResume (headers : option NSHeaders) (data : option NSData) (trailers : NSHeaders).
Inductive SwiftResumeStatus :=
| SwiftResume (headers : option NSHeaders) (data : option NSData) (trailers : option NSHeaders).

(** [x as Any] in an array. *)
Definition as_any {A} (f : A → ns_object) (x : option A) : ns_object :=
  match x with Some a => f a | None => NullObject end.

Section swift.
Context `{!EnvoyFilterEnums} {App : Type}.

(** RequestFilter and AsyncRequestFilter; those for responses have the same shape. *)
Record SwiftFilter := {
  swift_headers : NSHeaders → bool → M App SwiftHeadersStatus;
  swift_data : NSData → bool → M App SwiftDataStatus;
  swift_trailers : NSHeaders → M App SwiftTrailersStatus;
  swift_resume : option NSHeaders → option NSData → option NSHeaders → bool → M App SwiftResumeStatus
}.

Definition headers_array (envoyHeaders : NSHeaders) (result : SwiftHeadersStatus) : list ns_object :=
  match result with
  | SwiftHeadersContinue headers =>
      [NumberObject kEnvoyFilterHeadersStatusContinue; HeadersObject headers]
  | SwiftHeadersStop =>
      [NumberObject kEnvoyFilterHeadersStatusStopIteration; HeadersObject envoyHeaders]
  end.
Definition data_array (data : NSData) (result : SwiftDataStatus) : list ns_object :=
  match result with
  | SwiftDataContinue data => [NumberObject kEnvoyFilterDataStatusContinue; DataObject data]
  | SwiftDataStopAndBuffer =>
      [NumberObject kEnvoyFilterDataStatusStopIterationAndBuffer; DataObject data]
  | SwiftDataStopNoBuffer =>
      [NumberObject kEnvoyFilterDataStatusStopIterationNoBuffer; DataObject data]
  | SwiftDataResume headers data =>
      [NumberObject kEnvoyFilterDataStatusResumeIteration; as_any HeadersObject headers;
       DataObject data]
  end.
Definition trailers_array (envoyTrailers : NSHeaders) (result : SwiftTrailersStatus) : list ns_object :=
  match result with
  | SwiftTrailersContinue trailers =>
      [NumberObject kEnvoyFilterTrailersStatusContinue; HeadersObject trailers]
  | SwiftTrailersStop =>
      [NumberObject kEnvoyFilterTrailersStatusStopIteration; HeadersObject envoyTrailers]
  | SwiftTrailersResume headers data trailers =>
      [NumberObject kEnvoyFilterTrailersStatusResumeIteration; as_any HeadersObject headers;
       as_any DataObject data; HeadersObject trailers]
  end.
Definition resume_array (result : SwiftResumeStatus) : list ns_object :=
  match result with
  | SwiftResume headers data trailers =>
      [NumberObject kEnvoyFilterResumeStatusResumeIteration; as_any HeadersObject headers;
       as_any DataObject data; as_any HeadersObject trailers]
  end.

Definition headers_closure (f : SwiftFilter) (envoyHeaders : NSHeaders) (endStream : bool)
    : closure_result App :=
  result ← swift_headers f envoyHeaders endStream; mret (Some (headers_array envoyHeaders result)).
Definition data_closure (f : SwiftFilter) (data : NSData) (endStream : bool) : closure_result App :=
  result ← swift_data f data endStream; mret (Some (data_array data result)).
Definition trailers_closure (f : SwiftFilter) (envoyTrailers : NSHeaders) : closure_result App :=
  result ← swift_trailers f envoyTrailers; mret (Some (trailers_array envoyTrailers result)).
Definition resume_closure (f : SwiftFilter) (headers : option NSHeaders) (data : option NSData)
    (trailers : option NSHeaders) (endStream : bool) : closure_result App :=
  result ← swift_resume f headers data trailers endStream; mret (Some (resume_array result)).

(** [EnvoyHTTPFilter(filter:)], by the protocols the filter implements. The callbacks
    objects go to the filter, which keeps them. *)
Definition EnvoyHTTPFilter_new (requestFilter responseFilter : option SwiftFilter)
    (asyncRequestFilter asyncResponseFilter : option (SwiftFilter * (positive → M App unit)))
    : EnvoyHTTPFilter App :=
  HTTPFilter (headers_closure <$> requestFilter) (data_closure <$> requestFilter)
    (trailers_closure <$> requestFilter)
    (headers_closure <$> responseFilter) (data_closure <$> responseFilter)
    (trailers_closure <$> responseFilter)
    (snd <$> asyncRequestFilter) ((λ f, resume_closure f.1) <$> asyncRequestFilter)
    (snd <$> asyncResponseFilter) ((λ f, resume_closure f.1) <$> asyncResponseFilter).
End swift.
Arguments SwiftFilter : clear implicits.
