(* ===== verification/IosFilterProps.v ===== *)
(** * What a filter of the Objective-C platform does to a stream

    The theorems about IosFilter.v: what the C functions make of the closures' answers, that
    a filter that changes nothing is not noticed by the stream, and which answers of a
    Swift filter the C functions cannot read. *)

From S2P Require Import BridgeProps.
From S2P Require Export IosFilter IosUtilityProps PlatformBridgeProps.

Section filters.
Context `{Allocator} `{!Dictionary} `{!DictionaryLaws} `{!EnvoyFilterEnums} {App : Type}.
Implicit Types (o : filter_objects App) (filter : EnvoyHTTPFilter App).

(** The objects after the application's part of a call. *)
Definition with_app (a : App) (o : filter_objects App) : filter_objects App :=
  FilterObjects (filters o) (factories o) (callbacks_objects o) (next_filter_object o) a.

Lemma bridge_filter_run l filter m o :
  filters o !! l = Some filter → bridge_filter (App := App) (Some l) (m, o) = Ok (filter, (m, o)).
Proof. intros Hl. unfold bridge_filter, mbind, M_bind, gets. cbn. by rewrite Hl. Qed.

Lemma in_memory_run {A} (k : M mem A) m o a m' :
  k m = Ok (a, m') → (in_memory k : M (mem * filter_objects App) A) (m, o) = Ok (a, (m', o)).
Proof. intros Hk. unfold in_memory, zoom. cbn. by rewrite Hk. Qed.

Lemma in_app_run {A} (k : M App A) m o a x :
  k (app_state o) = Ok (x, a) →
  (in_app k : M (mem * filter_objects App) A) (m, o) = Ok (x, (m, with_app a o)).
Proof. intros Hk. unfold in_app, zoom. cbn. by rewrite Hk. Qed.

Lemma wp_in_memory {A} (k : M mem A) E Q m o :
  wp k E (λ a m', Q a (m', o)) m → wp (in_memory k) E Q (m, o).
Proof. intros Hk. by apply wp_zoom. Qed.

(** Headers of the application that C can hold. *)
Definition sendable (d : NSHeaders) : Prop :=
  encodable (pairs_of d) ∧ (Z.of_nat (length (pairs_of d)) ≤ INT_MAX)%Z.

Lemma wp_headers_element result i d E Q m o :
  mem_wf m → sendable d → result !! i = Some (HeadersObject d) → (∀ f, oom f → E f) →
  (∀ eh hs m', reads_headers (heap m') eh hs (native_pairs (pairs_of d)) →
    Forall header_contained hs → grows (headers_owned eh hs) m m' → Q eh (m', o)) →
  wp (headers_element (Some result) i) E Q (m, o).
Proof.
  intros Hwf [Henc Hlen] Hi HE HQ. unfold headers_element, element. rewrite Hi.
  apply wp_bind, wp_ret, wp_bind, wp_ret, wp_in_memory.
  eapply wp_mono; [by apply wp_toNativeHeaders|exact HE|]. intros eh m' (hs & R & X & G). by apply (HQ eh hs).
Qed.

Lemma wp_filter_headers closure l filter f eh hs es d end_stream n d' rest a m o :
  filters o !! l = Some filter → closure filter = Some f →
  mem_wf m → headers_ok m eh hs es → ios_headers es = Some d →
  f d end_stream (app_state o) = Ok (Some (NumberObject n :: HeadersObject d' :: rest), a) →
  sendable d' →
  wp (ios_http_filter_on_headers closure eh end_stream (Some l)) oom (λ r s',
    headers_status r = s32 n ∧ s'.2 = with_app a o ∧
    ∃ hs', reads_headers (heap s'.1) (result_headers r) hs' (native_pairs (pairs_of d')) ∧
      Forall header_contained hs' ∧
      grows (headers_owned (result_headers r) hs')
        (mem_release (headers_owned eh hs) (headers_external hs) m) s'.1) (m, o).
Proof.
  intros Hl Hcl Hwf Hok Hd Hf Hsend. unfold ios_http_filter_on_headers.
  apply wp_bind. eapply wp_run; [by apply bridge_filter_run|]. rewrite Hcl.
  pose proof (to_ios_headers_run eh hs es m Hok) as Hios. rewrite Hd in Hios.
  apply wp_bind. eapply wp_run; [by apply in_memory_run|].
  apply wp_bind. eapply wp_run; [by apply in_app_run|].
  apply wp_bind. unfold status_element, element. cbn [lookup list_lookup]. apply wp_bind, wp_ret, wp_ret.
  apply wp_bind. eapply (wp_headers_element _ 1 d'); [by apply mem_wf_release|done..|].
  intros eh' hs' m' R X G. apply wp_ret. split; [done|]. split; [done|]. by exists hs'.
Qed.

(** A filter's closure for headers is asked and obeyed. The function for headers shows
    the closure the headers as a dictionary and releases the envoy_headers it was given;
    when the closure answers with a status and a dictionary, that status and those
    headers, as C can hold them, in fresh blocks they own, are the result. *)
Theorem ios_filter_headers closure l filter f eh hs es d end_stream n d' rest a m o :
  filters o !! l = Some filter → closure filter = Some f →
  mem_wf m → headers_ok m eh hs es → ios_headers es = Some d →
  f d end_stream (app_state o) = Ok (Some (NumberObject n :: HeadersObject d' :: rest), a) →
  sendable d' →
  wp (ios_http_filter_on_headers closure eh end_stream (Some l)) oom (λ r s',
    headers_status r = s32 n ∧ s'.2 = with_app a o ∧
    ∃ hs', reads_headers (heap s'.1) (result_headers r) hs' (native_pairs (pairs_of d')) ∧
      Forall header_contained hs' ∧
      grows (headers_owned (result_headers r) hs')
        (mem_release (headers_owned eh hs) (headers_external hs) m) s'.1) (m, o).
Proof. by apply wp_filter_headers. Qed.

Lemma wp_data_element result i bs E Q m o :
  mem_wf m → result !! i = Some (DataObject bs) → (∀ f, oom f → E f) →
  (∀ d m', reads_data (heap m') d bs → self_contained d → grows (data_owned d) m m' → Q d (m', o)) →
  wp (data_element (Some result) i) E Q (m, o).
Proof.
  intros Hwf Hi HE HQ. unfold data_element, element. rewrite Hi.
  apply wp_bind, wp_ret, wp_bind, wp_ret, wp_in_memory.
  eapply wp_mono; [by apply wp_toNativeData|exact HE|]. intros d m' (R & X & G). by apply HQ.
Qed.

Lemma wp_headers_ptr_element result i d E Q m o :
  mem_wf m → sendable d → result !! i = Some (HeadersObject d) → (∀ f, oom f → E f) →
  (∀ l eh hs m', heap m' !! l = Some (BHeadersBox eh) →
    reads_headers (heap m') eh hs (native_pairs (pairs_of d)) → Forall header_contained hs →
    grows (l :: headers_owned eh hs) m m' → Q (Some l) (m', o)) →
  wp (headers_ptr_element (Some result) i) E Q (m, o).
Proof.
  intros Hwf [Henc Hlen] Hi HE HQ. unfold headers_ptr_element, element. rewrite Hi.
  apply wp_bind, wp_ret, wp_in_memory.
  eapply wp_mono; [by apply wp_toNativeHeadersPtr|exact HE|].
  intros p m' (l & eh & hs & -> & Hl & R & X & G). by apply (HQ l eh hs).
Qed.

Lemma wp_data_ptr_element result i bs E Q m o :
  mem_wf m → result !! i = Some (DataObject bs) → (∀ f, oom f → E f) →
  (∀ l d m', heap m' !! l = Some (BDataBox d) → reads_data (heap m') d bs → self_contained d →
    grows (l :: data_owned d) m m' → Q (Some l) (m', o)) →
  wp (data_ptr_element (Some result) i) E Q (m, o).
Proof.
  intros Hwf Hi HE HQ. unfold data_ptr_element, element. rewrite Hi.
  apply wp_bind, wp_ret, wp_in_memory.
  eapply wp_mono; [by apply wp_toNativeDataPtr|exact HE|].
  intros p m' (l & d & -> & Hl & R & X & G). by apply (HQ l d).
Qed.

(** A filter's closure for data is asked and obeyed. The function for data shows the
    closure the bytes and releases the envoy_data; a status and data are the result, in a
    fresh block, with no pending headers; a dictionary in third place becomes the pending
    headers, in a fresh box with an envoy_headers that owns its blocks. *)
Theorem ios_filter_data closure l filter f d bs end_stream n bs' pending a m o :
  filters o !! l = Some filter → closure filter = Some f → mem_wf m → data_ok m d bs →
  f bs end_stream (app_state o) =
    Ok (Some (NumberObject n :: DataObject bs' :: (HeadersObject <$> option_list pending)), a) →
  (∀ h, pending = Some h → sendable h) →
  wp (ios_http_filter_on_data closure d end_stream (Some l)) oom (λ r s',
    data_status r = s32 n ∧ s'.2 = with_app a o ∧
    ∃ boxed, reads_data (heap s'.1) (result_data r) bs' ∧ self_contained (result_data r) ∧
      grows (boxed ++ data_owned (result_data r))
        (mem_release (data_owned d) (data_external d) m) s'.1 ∧
      match pending with
      | None => data_pending_headers r = NULL ∧ boxed = []
      | Some h => ∃ b eh hs, data_pending_headers r = Some b ∧ boxed = b :: headers_owned eh hs ∧
          heap s'.1 !! b = Some (BHeadersBox eh) ∧
          reads_headers (heap s'.1) eh hs (native_pairs (pairs_of h))
      end) (m, o).
Proof.
  intros Hl Hcl Hwf Hok Hf Hsend. unfold ios_http_filter_on_data.
  apply wp_bind. eapply wp_run; [by apply bridge_filter_run|]. rewrite Hcl.
  apply wp_bind. eapply wp_run; [by apply in_memory_run, to_ios_data_run|].
  apply wp_bind. eapply wp_run; [by apply in_app_run|].
  pose proof (mem_wf_release (data_owned d) (data_external d) m Hwf) as Hwf0.
  set (m0 := mem_release _ _ m) in *. destruct pending as [h|]; cbn [fmap list_fmap option_list].
  - specialize (Hsend h eq_refl). apply wp_bind. cbn [count default length]. rewrite decide_True by done.
    eapply (wp_headers_ptr_element _ 2 h); [done..|]. intros b eh hs m1 Hb R X G1.
    assert (Hwf1 : mem_wf m1) by (by eapply grows_wf).
    apply wp_bind. unfold status_element, element. cbn [lookup list_lookup]. apply wp_bind, wp_ret, wp_ret.
    apply wp_bind. eapply (wp_data_element _ 1 bs'); [done..|]. intros d' m2 R' X' G2. apply wp_ret.
    split; [done|]. split; [done|]. exists (b :: headers_owned eh hs). cbn [fst result_data data_pending_headers].
    split_and!; [done..|exact (grows_trans _ _ _ _ _ G1 G2)|]. exists b, eh, hs.
    split_and!; [done..|by eapply grows_keeps|by eapply reads_headers_grows].
  - apply wp_bind. cbn [count default length]. rewrite decide_False by done. apply wp_in_memory, wp_ret.
    apply wp_bind. unfold status_element, element. cbn [lookup list_lookup]. apply wp_bind, wp_ret, wp_ret.
    apply wp_bind. eapply (wp_data_element _ 1 bs'); [done..|]. intros d' m2 R' X' G2. apply wp_ret.
    split; [done|]. split; [done|]. exists []. by split_and!.
Qed.

(** The exception of a message the object does not understand, unless memory runs out
    before. *)
Definition unreadable (f : fault) : Prop := oom f ∨ f = Thrown "NSInvalidArgumentException".

Lemma wp_box_unreadable n Q m o :
  (0 < n)%Z →
  wp (in_memory (safe_malloc n bytes_block) ;; unrecognized_selector (A := ptr)) unreadable Q (m, o).
Proof.
  intros Hn. apply wp_bind, wp_in_memory. eapply wp_mono.
  - apply (wp_safe_malloc _ _ (λ _ _, True)); [lia|done].
  - intros f ?. by left.
  - intros p m' _. apply wp_fail. by right.
Qed.

(** What a C function does with an object of the wrong type. *)
Lemma wp_headers_ptr_unreadable result i x Q m o :
  result !! i = Some x → (∀ h, x ≠ HeadersObject h) →
  wp (headers_ptr_element (Some result) i) unreadable Q (m, o).
Proof.
  intros Hi Hx. unfold headers_ptr_element, element. rewrite Hi. apply wp_bind, wp_ret.
  destruct x as [n|h|d|]; [|by destruct (Hx h)|..]; by apply wp_box_unreadable.
Qed.
Lemma wp_data_ptr_unreadable result i x Q m o :
  result !! i = Some x → (∀ d, x ≠ DataObject d) →
  wp (data_ptr_element (Some result) i) unreadable Q (m, o).
Proof.
  intros Hi Hx. unfold data_ptr_element, element. rewrite Hi. apply wp_bind, wp_ret.
  destruct x as [n|h|d|]; [| |by destruct (Hx d)|]; by apply wp_box_unreadable.
Qed.

(** C26: The C functions cannot read a Swift filter's ResumeIteration. The arrays that
    Filter.swift builds for it have the pending headers first and the data or the trailers
    last, while EnvoyEngine.h and the C functions want the data or the trailers first; and
    what is missing is an NSNull there, not nil. So whenever a Swift filter answers
    ResumeIteration to data or to trailers, and whenever its answer to on_resume leaves
    out headers, data or trailers, the C function ends with an exception, unless memory
    has run out before. *)
Theorem swift_resume_raises l filter f end_stream a m o :
  filters o !! l = Some filter →
  (∀ closure d bs h bs', closure filter = Some (data_closure f) → data_ok m d bs →
    swift_data f bs end_stream (app_state o) = Ok (SwiftDataResume h bs', a) →
    wp (ios_http_filter_on_data closure d end_stream (Some l)) unreadable (λ _ _, False) (m, o)) ∧
  (∀ closure eh hs es d h bs t, closure filter = Some (trailers_closure f) →
    headers_ok m eh hs es → ios_headers es = Some d →
    swift_trailers f d (app_state o) = Ok (SwiftTrailersResume h bs t, a) →
    wp (ios_http_filter_on_trailers closure eh (Some l)) unreadable (λ _ _, False) (m, o)) ∧
  (∀ closure headers data trailers ph pd pt m1 m2 m3 h bs t,
    closure filter = Some (resume_closure f) →
    if_present headers to_ios_headers (m, o) = Ok (ph, (m1, o)) →
    if_present data to_ios_data (m1, o) = Ok (pd, (m2, o)) →
    if_present trailers to_ios_headers (m2, o) = Ok (pt, (m3, o)) → mem_wf m3 →
    swift_resume f ph pd pt end_stream (app_state o) = Ok (SwiftResume h bs t, a) →
    (∀ d, h = Some d → sendable d) → (∀ d, t = Some d → sendable d) →
    h = None ∨ bs = None ∨ t = None →
    wp (ios_http_filter_on_resume closure headers data trailers end_stream (Some l)) unreadable
      (λ _ _, False) (m, o)).
Proof.
  intros Hl. split_and!.
  - intros closure d bs h bs' Hcl Hok Hf. unfold ios_http_filter_on_data.
    apply wp_bind. eapply wp_run; [by apply bridge_filter_run|]. rewrite Hcl.
    apply wp_bind. eapply wp_run; [by apply in_memory_run, to_ios_data_run|].
    assert (Hc : data_closure f bs end_stream (app_state o) = Ok (Some (data_array bs (SwiftDataResume h bs')), a))
      by (unfold data_closure; by rewrite (bind_run _ _ _ _ _ Hf)).
    apply wp_bind. eapply wp_run; [by apply in_app_run|].
    by apply wp_bind, (wp_headers_ptr_unreadable _ 2 (DataObject bs')).
  - intros closure eh hs es d h bs t Hcl Hok Hd Hf. unfold ios_http_filter_on_trailers.
    apply wp_bind. eapply wp_run; [by apply bridge_filter_run|]. rewrite Hcl.
    pose proof (to_ios_headers_run eh hs es m Hok) as Hios. rewrite Hd in Hios.
    apply wp_bind. eapply wp_run; [by apply in_memory_run|].
    assert (Hc : trailers_closure f d (app_state o) =
      Ok (Some (trailers_array d (SwiftTrailersResume h bs t)), a))
      by (unfold trailers_closure; by rewrite (bind_run _ _ _ _ _ Hf)).
    apply wp_bind. eapply wp_run; [by apply in_app_run|].
    apply wp_bind. cbn [count default length trailers_array]. rewrite decide_True by done.
    by apply wp_bind, (wp_headers_ptr_unreadable _ 2 (as_any DataObject bs)); [|destruct bs].
  - intros closure headers data trailers ph pd pt m1 m2 m3 h bs t Hcl R1 R2 R3 Hwf Hf Hh Ht Hnone. unfold ios_http_filter_on_resume.
    apply wp_bind. eapply wp_run; [by apply bridge_filter_run|]. rewrite Hcl.
    apply wp_bind. eapply wp_run; [exact R1|]. apply wp_bind. eapply wp_run; [exact R2|].
    apply wp_bind. eapply wp_run; [exact R3|].
    assert (Hc : resume_closure f ph pd pt end_stream (app_state o) =
      Ok (Some (resume_array (SwiftResume h bs t)), a))
      by (unfold resume_closure; by rewrite (bind_run _ _ _ _ _ Hf)).
    apply wp_bind. eapply wp_run; [by apply in_app_run|]. cbn [resume_array].
    apply wp_bind. unfold status_element, element. cbn [lookup list_lookup]. apply wp_bind, wp_ret, wp_ret.
    apply wp_bind. destruct h as [h|]; [|by apply (wp_headers_ptr_unreadable _ 1 NullObject)].
    eapply (wp_headers_ptr_element _ 1 h); [done|by apply Hh|done|by left|]. intros b eh hs m4 _ _ _ G4.
    assert (Hwf4 : mem_wf m4) by (by eapply grows_wf).
    apply wp_bind. destruct bs as [bs|]; [|by apply (wp_data_ptr_unreadable _ 2 NullObject)].
    eapply (wp_data_ptr_element _ 2 bs); [done..|by left|]. intros b' d m5 _ _ _ _.
    destruct t as [t|]; [by destruct Hnone as [?|[?|?]]|].
    by apply wp_bind, (wp_headers_ptr_unreadable _ 3 NullObject).
Qed.

Lemma with_app_id o : with_app (app_state o) o = o.
Proof. by destruct o. Qed.

(** A closure for headers that answers Continue with what it was shown, or none. *)
Definition echoes (f : option (NSHeaders → bool → closure_result App)) : Prop :=
  match f with
  | None => True
  | Some f => ∀ d end_stream a,
      f d end_stream a = Ok (Some (headers_array d (SwiftHeadersContinue d)), a)
  end.

(** The enumerators of Envoy are ints. *)
Definition int_value (n : Z) : Prop := (- 2 ^ 31 ≤ n < 2 ^ 31)%Z.

Lemma wp_echo closure l filter eh hs es end_stream m0 m o :
  int_value kEnvoyFilterHeadersStatusContinue →
  filters o !! l = Some filter → echoes (closure filter) →
  mem_wf m0 → grows (headers_owned eh hs) m0 m → reads_headers (heap m) eh hs es →
  Forall header_contained hs → (Z.of_nat (length es) ≤ INT_MAX)%Z → ascii_entries es →
  wp (ios_http_filter_on_headers closure eh end_stream (Some l)) oom (λ r s',
    headers_status r = kEnvoyFilterHeadersStatusContinue ∧ s'.2 = o ∧ ∃ hs' es',
      headers_ok s'.1 (result_headers r) hs' es' ∧
      Forall header_contained hs' ∧ mem_wf s'.1 ∧ released s'.1 = released m0 ∧
      heap (mem_release (headers_owned (result_headers r) hs') [] s'.1) = heap m0 ∧
      ∀ k, values_of k es' = values_of k es) (m, o).
Proof.
  intros Hint Hl Hecho Hwf G R X Hmax Hes.
  assert (Hok : headers_ok m eh hs es) by (split; [done|by eapply grows_allocated]).
  assert (Hwfm : mem_wf m) by (by eapply grows_wf).
  destruct (closure filter) as [f|] eqn:Hcl.
  - destruct (regrouped es Hes) as (Hps & Hperm & Hvals). destruct (ios_headers_ascii es Hes) as [Hios _].
    eapply wp_conseq.
    { eapply (wp_filter_headers closure l filter f eh hs es); [done..|apply Hecho|].
      split; [by apply ascii_encodable|]. by rewrite <- (native_pairs_length (pairs_of _)), Hperm. }
    intros r [m' o'] (Hst & -> & hs' & R' & X' & G'). cbn [fst snd] in *.
    assert (Hm' : mem_wf (mem_release (headers_owned eh hs) (headers_external hs) m)) by (by apply mem_wf_release).
    split; [rewrite Hst; by apply s32_small|]. split; [apply with_app_id|].
    exists hs', (native_pairs (pairs_of (dict_of (text_pairs es)))). split_and!; [| |by eapply grows_wf| | |done].
    + split; [exact R'|by eapply grows_allocated].
    + done.
    + rewrite (grows_released _ _ _ G'), contained_headers_external by done. cbn.
      by rewrite app_nil_r, (grows_released _ _ _ G).
    + rewrite (grows_release _ [] _ _ Hm' G'). by eapply grows_release.
  - unfold ios_http_filter_on_headers. apply wp_bind. eapply wp_run; [by apply bridge_filter_run|].
    rewrite Hcl. apply wp_ret. split; [done|]. split; [done|]. exists hs, es. cbn [fst result_headers].
    split_and!; [done..|by apply (grows_released _ _ _ G)| |done]. by eapply grows_release.
Qed.
End filters.

(** Byte pairs with the same values are string pairs with the same values. *)
Section strings.
Context {HM : Type} `{!HeaderMap HM}.

#[export] Instance bytes_of_inj : Inj (=) (=) bytes_of.
Proof. intros a b E. by rewrite <- (string_of_bytes_of a), E, string_of_bytes_of. Qed.

Lemma lower_entries_values es' (es : list (string * string)) :
  (∀ k, values_of k es' = values_of k (bytes_entries es)) →
  Forall (λ e, LowerCaseString e.1 = e.1) es →
  lower_entries es' ≡ₕ es.
Proof.
  intros Hvals Hlow. set (ss := prod_map string_of string_of <$> es').
  assert (Hes' : es' = bytes_entries ss).
  { unfold bytes_entries, ss. rewrite <- list_fmap_compose, <- (list_fmap_id es') at 1.
    apply list_fmap_ext. intros _ [a b] _. unfold compose, prod_map. cbn [fst snd id]. by rewrite !bytes_of_string_of. }
  assert (Hk : ∀ k, values k ss = values k es).
  { intros k. specialize (Hvals (bytes_of k)). rewrite Hes' in Hvals. unfold bytes_entries in Hvals.
    rewrite !(values_of_map bytes_of bytes_of) in Hvals. by apply (inj (fmap bytes_of)) in Hvals. }
  rewrite Hes', lower_bytes_entries; [exact Hk|].
  assert (ss ≡ₚ es) as ->; [|done]. by apply values_of_permutation.
Qed.
End strings.

Section bridge.
Context {mode : BuildMode} `{Allocator} `{!Dictionary} `{!DictionaryLaws} `{!EnvoyFilterEnums}
  {HM : Type} `{!HeaderMap HM} `{!HeaderMapLaws HM} {B : Type} `{!BufferInstance B} {App : Type}.
Implicit Types (s : filter_state HM B (filter_objects App)).

(** C25: A filter that changes nothing is not noticed. Take a stream whose platform filter is
    an Objective-C one without a closure for request headers, or with one that continues
    with what it was shown. When headers in ASCII, in lower case and with each inline
    header once arrive, the whole way through the C structs, the dictionary and back
    leaves a header map with the same values for every name in the same order, lets the
    stream continue, and leaves nothing in the C heap. *)
Theorem ios_filter_is_transparent s id hm filter factory l end_stream :
  int_value kEnvoyFilterHeadersStatusContinue →
  platform_filter_ s = set_instance_context (Some l) (ios_http_filter factory) →
  filters (pb_platform s) !! l = Some filter → echoes (onRequestHeaders filter) →
  header_maps s !! id = Some hm → mem_wf (pb_mem s) → (hm_size hm ≤ INT_MAX)%Z →
  ascii_entries (bytes_entries (hm_entries hm)) →
  Forall (λ e, LowerCaseString e.1 = e.1) (hm_entries hm) →
  inline_once (hm_clear hm) (hm_entries hm) →
  wp (decodeHeaders id end_stream) oom (λ status s',
    status = HeadersContinue ∧ heap (pb_mem s') = heap (pb_mem s) ∧
    released (pb_mem s') = released (pb_mem s) ∧ pb_platform s' = pb_platform s ∧
    ∃ hm', header_maps s' = <[id := hm']> (header_maps s) ∧ hm_entries hm' ≡ₕ hm_entries hm) s.
Proof.
  intros Hint Hpf Hl Hecho Hm Hwf Hsize Hascii Hlow Honce.
  unfold decodeHeaders. apply wp_bind, wp_gets. rewrite Hpf. cbn [on_request_headers set_instance_context ios_http_filter].
  apply wp_bind. unfold onHeaders.
  apply wp_bind. eapply wp_run; [by apply get_map_run|].
  apply wp_bind, wp_zoom. eapply wp_conseq; [by apply wp_toBridgeHeaders|].
  intros eh m1 (hs & R & X & G). apply wp_bind, wp_gets. cbn [platform_filter_ set_pb_mem part_set filter_state_mem].
  rewrite Hpf. cbn [instance_context set_instance_context]. apply wp_bind, wp_zoom.
  cbn [part_get filter_state_part pb_mem pb_platform set_pb_mem]. unfold ios_http_filter_on_request_headers.
  eapply wp_conseq.
  { eapply (wp_echo onRequestHeaders l filter eh hs); [done..| |done].
    unfold bytes_entries. rewrite length_fmap. by rewrite <- size_entries. }
  intros r [m2 o2] (Hst & Ho & hs2 & es2 & Hok & X2 & Hwf2 & Hrel & Hheap & Hvals). cbn [fst snd] in *. subst o2.
  rewrite decide_True by done. set (s2 := part_set (m2, pb_platform s) _).
  apply wp_bind. eapply wp_run.
  { apply (replaceHeaders_run s2 id hm (result_headers r) hs2 es2); [exact Hm|exact Hok]. }
  apply wp_ret, wp_bind, wp_ret, wp_bind, wp_modify, wp_ret.
  pose proof (lower_entries_values es2 (hm_entries hm) Hvals Hlow) as Heq.
  split; [done|]. split; [|split; [|split; [done|]]].
  - exact Hheap.
  - cbn. rewrite contained_headers_external, app_nil_r by done. exact Hrel.
  - eexists. split; [done|]. rewrite add_entries_equiv.
    + by rewrite clear_entries.
    + intros k Hk. specialize (Honce k Hk). rewrite clear_entries, app_nil_l in *. by rewrite (Heq k).
Qed.
End bridge.

(** ** Resuming from the application *)

Section resume.
Context {mode : BuildMode} `{Allocator} `{!Dictionary} `{!EnvoyFilterEnums}
  {HM : Type} `{!HeaderMap HM} {B : Type} `{!BufferInstance B} {App : Type}.
Abbreviation S := (filter_state HM B (filter_objects App)).
Implicit Types (s : S) (old : gmap positive envoy_http_filter_callbacks).

(** The callbacks objects made since [old] hold weak pointers that designate nothing. *)
Definition objects_empty old s : Prop :=
  ∀ c cb, callbacks_objects (pb_platform s) !! c = Some cb →
    old !! c = Some cb ∨ is_Some (resume_iteration cb) ∧ empty_weak cb s.

Lemma objects_empty_same old s s' :
  pb_platform s' = pb_platform s → weak_boxes s' = weak_boxes s →
  objects_empty old s → objects_empty old s'.
Proof.
  intros Hp Hw Ho c cb. rewrite Hp. intros [?|[Hf He]]%Ho; [by left|right].
  split; [done|]. eapply empty_weak_stable; [|exact He]. by rewrite Hw.
Qed.

(** An iOS function that takes callbacks makes at most one object, which holds them. *)
Lemma wp_set_callbacks closure cb instance (t : mem * filter_objects App) :
  wp (ios_http_filter_set_callbacks closure cb instance) any_fault (λ _ t', ∀ c x,
    callbacks_objects t'.2 !! c = Some x → callbacks_objects t.2 !! c = Some x ∨ x = cb) t.
Proof.
  apply wp_bind, wp_bind, wp_deref; [intros l _|done].
  apply wp_bind, wp_gets, wp_deref; [intros filter _|done].
  destruct (closure filter) as [f|]; [|apply wp_ret; by left].
  apply wp_bind, wp_bind, wp_gets, wp_bind, wp_modify, wp_ret. apply wp_zoom.
  unfold wp. destruct (f _ _) as [[[] a]|]; [|done]. cbn.
  intros c x [[_ <-]|[_ ?]]%lookup_insert_Some; [by right|by left].
Qed.

Lemma wp_give_callbacks_objects old (set : envoy_http_filter_callbacks → S → S) resume closure instance s :
  (resume = envoy_filter_callback_resume_decoding_f ∧ set = set_platform_request_callbacks ∨
   resume = envoy_filter_callback_resume_encoding_f ∧ set = set_platform_response_callbacks) →
  filter_lifetime s = UnderConstruction → objects_empty old s →
  wp (context ← new_weak;
      let callbacks := FilterCallbacks (Some resume) (Some envoy_filter_release_callbacks_f)
        (Some context) in
      modify (set callbacks) ;; zoom (ios_http_filter_set_callbacks closure callbacks instance))
    any_fault (λ _ s', objects_empty old s') s.
Proof.
  intros Hset Hl Ho. apply wp_bind. unfold wp at 1. destruct (new_weak s) as [[b s1]|] eqn:Hnew; [|done].
  apply new_weak_constructing in Hnew as [-> _]; [|done]. apply wp_bind, wp_modify. cbv zeta.
  set (cb := FilterCallbacks _ _ _). set (s2 := set cb _).
  assert (Hkept : pb_platform s2 = pb_platform s ∧ weak_boxes s2 = <[b := false]> (weak_boxes s))
    by (unfold s2; by destruct Hset as [[_ ->]|[_ ->]]).
  destruct Hkept as [Hp Hw]. clearbody s2. apply wp_zoom.
  eapply wp_conseq; [apply wp_set_callbacks|]. intros [] t' Ht' c x Hx.
  apply Ht' in Hx as [Hx|Hx].
  - cbn in Hx. rewrite Hp in Hx. apply Ho in Hx as [?|[Hf He]]; [by left|right].
    split; [done|]. eapply empty_weak_stable; [|exact He]. intros b'. cbn. rewrite Hw, lookup_insert. by case_decide.
  - right. subst x. split; [by eexists|]. intros f [= <-]. split; [by destruct Hset as [[-> _]|[-> _]]; auto|].
    exists b. split; [done|]. cbn. by rewrite Hw, lookup_insert_eq.
Qed.

Lemma wp_ios_init context (t : mem * filter_objects App) :
  wp (ios_http_filter_init context) any_fault (λ _ t',
    callbacks_objects t'.2 = callbacks_objects t.2) t.
Proof.
  apply wp_bind, wp_bind, wp_deref; [intros l _|done].
  apply wp_bind, wp_gets, wp_deref; [intros f _|done].
  apply wp_bind, wp_zoom. unfold wp at 1. destruct (create f _) as [[filter a]|]; [|done].
  apply wp_bind, wp_gets, wp_bind, wp_modify. by apply wp_ret.
Qed.

Lemma wp_ios_filter_new context s :
  constructing s →
  wp (PlatformBridgeFilter_new (ios_http_filter context)) any_fault (λ _ s',
    constructing s' ∧ objects_empty (callbacks_objects (pb_platform s)) s') s.
Proof.
  intros HC. apply wp_and; [by apply wp_PlatformBridgeFilter_new|].
  set (old := callbacks_objects (pb_platform s)).
  assert (Ho : objects_empty old s) by (intros c cb; by left).
  unfold PlatformBridgeFilter_new. apply wp_bind, wp_modify. cbn [init_filter ios_http_filter].
  apply wp_bind, wp_zoom. eapply wp_conseq; [apply wp_ios_init|]. intros instance t Ht.
  apply wp_bind, wp_modify, wp_bind, wp_ASSERT; [|done]. intros _. apply wp_bind, wp_modify.
  set (s1 := set_iteration_state _ _).
  assert (HC1 : constructing s1) by (by eapply constructing_same).
  assert (Ho1 : objects_empty old s1) by (intros c cb Hcb; cbn in Hcb; rewrite Ht in Hcb; by left).
  clearbody s1. apply wp_bind. cbn [set_request_callbacks set_response_callbacks].
  unfold ios_http_filter_set_request_callbacks, ios_http_filter_set_response_callbacks.
  eapply wp_conseq; [apply wp_and|].
  - apply (wp_give_callbacks set_platform_request_callbacks); [by left|done].
  - apply (wp_give_callbacks_objects old set_platform_request_callbacks); [by left|apply HC1|done].
  - intros [] s2 [HC2 Ho2].
    apply (wp_give_callbacks_objects old set_platform_response_callbacks); [by right|apply HC2|done].
Qed.

(** C27: An asynchronous filter on iOS is never resumed. When Envoy has made the bridge for
    a filter of a registered factory, whatever the factory and the application do, every
    callbacks object the filter was given in the course is inert: sending it
    resumeIteration, which should bring about a call of onResumeRequest or
    onResumeResponse, leaves the whole state as it was and posts nothing. *)
Theorem ios_filters_cannot_resume context s s' self :
  filter_lifetime s = UnderConstruction →
  platform_request_callbacks_ s = no_filter_callbacks →
  platform_response_callbacks_ s = no_filter_callbacks →
  make_shared_filter (ios_http_filter context) s = Ok (tt, s') →
  callbacks_objects (pb_platform s) !! self = None →
  is_Some (callbacks_objects (pb_platform s') !! self) →
  resumeIteration self s' = Ok (tt, s').
Proof.
  intros Hl Hq Hr Hmk Hold [cb Hcb].
  assert (HC : constructing s) by (unfold constructing; rewrite Hq, Hr; by split_and!).
  unfold make_shared_filter in Hmk. inv_bind Hmk.
  pose proof (wp_Ok _ _ _ _ _ _ (wp_ios_filter_new context s HC) Hrun) as [_ Ho].
  injection Hrest as <-. cbn in Hcb.
  destruct (Ho self cb Hcb) as [?|[[f Hf] He]]; [congruence|].
  unfold resumeIteration, callbacks_object, mbind, M_bind, gets. cbn. rewrite Hcb. cbn.
  rewrite Hf. cbn. by apply call_empty_weak.
Qed.
End resume.

(** ** Examples *)

(** A Swift filter that forwards what it gets, and resumes at the end of the data. *)
Definition forwarding : SwiftFilter unit := {|
  swift_headers h _ := mret (SwiftHeadersContinue h);
  swift_data d end_stream := mret (if end_stream : bool then SwiftDataResume None d else SwiftDataContinue d);
  swift_trailers t := mret (SwiftTrailersResume None None t);
  swift_resume h d t _ := mret (SwiftResume h d t)
|}.

Section examples.
#[local] Existing Instance ref_enums.

Definition forwarding_filter : EnvoyHTTPFilter unit := EnvoyHTTPFilter_new (Some forwarding) None None None.
Definition forwarding_objects : filter_objects unit :=
  FilterObjects {[ 9%positive := forwarding_filter ]} ∅ ∅ 10 tt.

Lemma ref_sendable : sendable (dict_of (text_pairs ref_pairs)).
Proof.
  split; [|vm_compute; congruence].
  apply ascii_encodable. apply (bool_decide_unpack _). by vm_compute.
Qed.

Lemma ios_filter_headers_witness :
  wp (ios_http_filter_on_request_headers ref_headers true (Some 9%positive)) oom (λ r s',
    headers_status r = 0%Z ∧ s'.2 = forwarding_objects) (ref_mem, forwarding_objects).
Proof.
  refine (wp_conseq _ _ _ _ _ (ios_filter_headers onRequestHeaders 9 forwarding_filter
    (headers_closure forwarding) ref_headers [ref_header] ref_pairs (dict_of (text_pairs ref_pairs)) true 0
    (dict_of (text_pairs ref_pairs)) [] tt ref_mem forwarding_objects _ _ ref_mem_wf ref_headers_ok _ _
    ref_sendable) _).
  - reflexivity.
  - reflexivity.
  - apply ios_headers_ascii. apply (bool_decide_unpack _). by vm_compute.
  - reflexivity.
  - intros r s' (H1 & H2 & _). split; [exact H1|exact H2].
Defined.

Lemma ref_value_ok : data_ok ref_mem ref_value (bytes_of "ab").
Proof.
  split; [apply ref_value_reads|]. split; [apply NoDup_singleton|].
  intros l Hl. apply list_elem_of_singleton in Hl as ->. by vm_compute; eexists.
Qed.

Lemma ios_filter_data_witness :
  wp (ios_http_filter_on_request_data ref_value false (Some 9%positive)) oom (λ r s',
    data_status r = 0%Z ∧ reads_data (heap s'.1) (result_data r) (bytes_of "ab"))
    (ref_mem, forwarding_objects).
Proof.
  refine (wp_conseq _ _ _ _ _ (ios_filter_data onRequestData 9 forwarding_filter
    (data_closure forwarding) ref_value (bytes_of "ab") false 0 (bytes_of "ab") None tt ref_mem
    forwarding_objects _ _ ref_mem_wf ref_value_ok _ _) _).
  - reflexivity.
  - reflexivity.
  - reflexivity.
  - intros h Hh. discriminate.
  - intros r s' (H1 & _ & boxed & H2 & _). split; [exact H1|exact H2].
Defined.

Lemma swift_resume_raises_witness :
  wp (ios_http_filter_on_request_data ref_value true (Some 9%positive)) unreadable
    (λ _ _, False) (ref_mem, forwarding_objects).
Proof.
  refine (proj1 (swift_resume_raises 9 forwarding_filter forwarding true tt ref_mem
    forwarding_objects eq_refl) onRequestData ref_value (bytes_of "ab") None (bytes_of "ab") _ _ _).
  - reflexivity.
  - apply ref_value_ok.
  - reflexivity.
Defined.

(** A stream with that filter and one request header. *)
Definition forwarded_map : ref_map := RefMap RequestHeaderMapImpl [("accept", "a"); ("x-n", "1"); ("accept", "b")].
Definition forwarding_state : filter_state ref_map ref_buffer (filter_objects unit) :=
  FilterState None None None None (Some Ongoing)
    (set_instance_context (Some 9%positive) (ios_http_filter NULL))
    no_filter_callbacks no_filter_callbacks false false {[ 1 := forwarded_map ]} None None Owned ∅ 1
    [] ref_mem forwarding_objects [].

Lemma ios_filter_is_transparent_witness :
  wp (decodeHeaders 1 true) oom (λ status s',
    status = HeadersContinue ∧
    ∃ hm', header_maps s' = <[1 := hm']> {[ 1 := forwarded_map ]} ∧
      hm_entries hm' ≡ₕ [("accept", "a"); ("x-n", "1"); ("accept", "b")]) forwarding_state.
Proof.
  refine (wp_conseq _ _ _ _ _ (ios_filter_is_transparent forwarding_state 1 forwarded_map
    forwarding_filter NULL 9 true _ _ _ _ _ ref_mem_wf _ _ _ _) _).
  - split; vm_compute; congruence.
  - reflexivity.
  - reflexivity.
  - intros d es a. reflexivity.
  - reflexivity.
  - vm_compute. congruence.
  - apply (bool_decide_unpack _). by vm_compute.
  - repeat constructor.
  - intros k Hk. change (ref_inline k = true) in Hk. unfold ref_inline in Hk.
    apply bool_decide_eq_true in Hk. rewrite !elem_of_cons, elem_of_nil in Hk.
    destruct Hk as [->|[->|[->|[->|[]]]]]; vm_compute; lia.
  - intros status s' (H1 & _ & _ & _ & hm' & H2 & H3). split; [exact H1|]. by exists hm'.
Defined.

(** An asynchronous request filter, whose callbacks object becomes number 11. *)
Definition async_factory : EnvoyHTTPFilterFactory unit :=
  HTTPFilterFactory [97%N] (mret (EnvoyHTTPFilter_new (Some forwarding) None
    (Some (forwarding, λ _, mret tt)) None)).
Definition async_unconstructed : filter_state ref_map ref_buffer (filter_objects unit) :=
  FilterState None None None None None null_filter no_filter_callbacks no_filter_callbacks false
    false ∅ None None UnderConstruction ∅ 1 [] ref_mem
    (FilterObjects ∅ {[ 9%positive := async_factory ]} ∅ 10 tt) [].
Definition async_bridge : filter_state ref_map ref_buffer (filter_objects unit) :=
  match make_shared_filter (mode := debug_build) (ios_http_filter (Some 9%positive)) async_unconstructed with
  | Ok (_, s) => s
  | Fault _ => async_unconstructed
  end.

Definition returns {St A} (r : result (A * St)) : bool := if r is Ok _ then true else false.

Lemma ios_filters_cannot_resume_witness : resumeIteration 11 async_bridge = Ok (tt, async_bridge).
Proof.
  assert (Hok : returns (make_shared_filter (mode := debug_build) (ios_http_filter (Some 9%positive))
    async_unconstructed) = true) by (vm_compute; reflexivity).
  apply (ios_filters_cannot_resume (mode := debug_build) (Some 9%positive) async_unconstructed);
    [reflexivity|reflexivity|reflexivity| |reflexivity|].
  - unfold async_bridge.
    destruct (make_shared_filter _ _) as [[[] s]|f]; [reflexivity|discriminate].
  - apply (bool_decide_unpack _). vm_compute. reflexivity.
Defined.
End examples.
