(* ===== verification/IosConfiguration.v ===== *)
(** * Resolving the configuration template on the Objective-C platform

    Models library/objective-c/EnvoyConfiguration.m. It fills the template in with the
    values of a dictionary, in whatever order the dictionary enumerates its keys; the
    specification that order does not matter for is Java's resolveTemplate, of
    Configuration.v, whose names are qualified here.

    A string of the configuration is given by its UTF-8 form, where a search for a key,
    which is ASCII, finds the same places. *)

From stdpp Require Import pretty.
From S2P Require Import Configuration.
From S2P Require Export IosFilter.

(** ** EnvoyConfiguration *)

(** The numbers are UInt32s, and no string is nil. *)
Record EnvoyConfiguration (App : Type) := {
  statsDomain : string;
  connectTimeoutSeconds : N;
  dnsRefreshSeconds : N;
  dnsFailureRefreshSecondsBase : N;
  dnsFailureRefreshSecondsMax : N;
  httpFilterFactories : list (EnvoyHTTPFilterFactory App);
  statsFlushSeconds : N;
  appVersion : string;
  appId : string;
  virtualClusters : string
}.
Arguments Build_EnvoyConfiguration {App} _ _ _ _ _ _ _ _ _ _.
Arguments statsDomain {App} _.
Arguments connectTimeoutSeconds {App} _.
Arguments dnsRefreshSeconds {App} _.
Arguments dnsFailureRefreshSecondsBase {App} _.
Arguments dnsFailureRefreshSecondsMax {App} _.
Arguments httpFilterFactories {App} _.
Arguments statsFlushSeconds {App} _.
Arguments appVersion {App} _.
Arguments appId {App} _.
Arguments virtualClusters {App} _.

(** The UTF-8 form of a string. *)
Definition text (s : NSString) : string := String.string_of_list_byte (utf8 s).

(** The order a dictionary of strings enumerates its keys in. *)
Class TextDictionary := text_keys : gmap string string → list string.
Class TextDictionaryLaws {order : TextDictionary} : Prop :=
  text_keys_all (d : gmap string string) : text_keys d ≡ₚ (map_to_list d).*1.

Section configuration.
Context {App : Type}.
Implicit Types (c : EnvoyConfiguration App).

Definition filterConfigChain c : string :=
  foldl (λ filterConfigChain filterFactory,
    let filterConfig := replace "{{ platform_filter_name }}" (text (filterName filterFactory)) 0
      platform_filter_template in
    filterConfigChain +:+ filterConfig) "" (httpFilterFactories c).

Definition templateKeysToValues c : gmap string string := list_to_map
  [ ("platform_filter_chain", filterConfigChain c);
    ("stats_domain", statsDomain c);
    ("connect_timeout_seconds", pretty (connectTimeoutSeconds c));
    ("dns_refresh_rate_seconds", pretty (dnsRefreshSeconds c));
    ("dns_failure_refresh_rate_seconds_base", pretty (dnsFailureRefreshSecondsBase c));
    ("dns_failure_refresh_rate_seconds_max", pretty (dnsFailureRefreshSecondsMax c));
    ("stats_flush_interval_seconds", pretty (statsFlushSeconds c));
    ("device_os", "iOS");
    ("app_version", appVersion c);
    ("app_id", appId c);
    ("virtual_clusters", virtualClusters c) ].

(** Nil if a key is left. *)
Definition resolveTemplate {order : TextDictionary} c (templateYAML : string) : option string :=
  let templateKeysToValues := templateKeysToValues c in
  let templateYAML := foldl (λ templateYAML templateKey,
    let keyToReplace := "{{ " +:+ templateKey +:+ " }}" in
    replace keyToReplace (default "" (templateKeysToValues !! templateKey)) 0 templateYAML)
    templateYAML (text_keys templateKeysToValues) in
  if contains "{{" templateYAML then None else Some templateYAML.

(** ** Properties *)

(** The same configuration for Java. *)
Definition java_configuration c : Configuration.EnvoyConfiguration := {|
  Configuration.statsDomain := statsDomain c;
  Configuration.connectTimeoutSeconds := Z.of_N (connectTimeoutSeconds c);
  Configuration.dnsRefreshSeconds := Z.of_N (dnsRefreshSeconds c);
  Configuration.dnsFailureRefreshSecondsBase := Z.of_N (dnsFailureRefreshSecondsBase c);
  Configuration.dnsFailureRefreshSecondsMax := Z.of_N (dnsFailureRefreshSecondsMax c);
  Configuration.httpFilterFactories := (λ f, text (filterName f)) <$> httpFilterFactories c;
  Configuration.statsFlushSeconds := Z.of_N (statsFlushSeconds c);
  Configuration.appVersion := appVersion c;
  Configuration.appId := appId c;
  Configuration.virtualClusters := virtualClusters c
|}.

(** The pieces of a template filled in from a dictionary, all at once. *)
Definition fill_from (d : gmap string string) (ps : list piece) : list piece :=
  (λ p, if p is Key n then match d !! n with Some v => Text v | None => p end else p) <$> ps.

Lemma fills_from rs ps : fills rs ps = fill_from (list_to_map rs) ps.
Proof.
  revert ps. induction rs as [|r rs IH]; intros ps.
  - unfold fill_from. symmetry. etransitivity; [|apply list_fmap_id].
    apply list_fmap_ext. by intros _ [] _.
  - cbn [fills foldl]. fold (fills rs (fill r.1 r.2 ps)). rewrite IH.
    unfold fill_from, fill. rewrite <- list_fmap_compose. apply list_fmap_ext.
    intros _ [t|n] _; [done|]. cbn. destruct r as [k v]. cbn. case_decide as Hn.
    + subst. by rewrite lookup_insert_eq.
    + by rewrite lookup_insert_ne.
Qed.

Lemma filterConfigChain_java c :
  filterConfigChain c =
  Configuration.filterConfigChain (java_configuration c) platform_filter_template.
Proof.
  assert (Hgo : ∀ (template b : string) (fs : list (EnvoyHTTPFilterFactory App)),
    foldl (λ b f, b +:+ replace (key "platform_filter_name") (text (filterName f)) 0 template) b fs =
    foldl (λ b n, b +:+ replace (key "platform_filter_name") n 0 template) b
      ((λ f, text (filterName f)) <$> fs)).
  { intros template b fs. revert b. induction fs as [|f fs IH]; intros b; [done|]. apply IH. }
  apply Hgo.
Qed.

Lemma pretty_of_N n : pretty (Z.of_N n) = pretty n.
Proof. by destruct n. Qed.

(** The dictionary is Java's table but for the name of the operating system. *)
Lemma templateKeysToValues_java c :
  templateKeysToValues c = <["device_os" := "iOS"]>
    (list_to_map (replacements (java_configuration c) platform_filter_template)).
Proof.
  unfold templateKeysToValues, replacements. rewrite <- filterConfigChain_java.
  cbn [java_configuration Configuration.statsDomain Configuration.connectTimeoutSeconds
    Configuration.dnsRefreshSeconds Configuration.dnsFailureRefreshSecondsBase
    Configuration.dnsFailureRefreshSecondsMax Configuration.statsFlushSeconds
    Configuration.appVersion Configuration.appId Configuration.virtualClusters].
  rewrite !pretty_of_N.
  cbn [list_to_map foldr fst snd].
  let step k := rewrite (insert_insert_ne _ "device_os" k) by done in
  step "stats_domain"; step "platform_filter_chain"; step "connect_timeout_seconds";
    step "dns_refresh_rate_seconds"; step "dns_failure_refresh_rate_seconds_base";
    step "dns_failure_refresh_rate_seconds_max"; step "stats_flush_interval_seconds".
  rewrite insert_insert_eq.
  by rewrite (insert_insert_ne _ "stats_domain").
Qed.

Lemma values_plain c k v :
  plain_configuration (java_configuration c) = true →
  templateKeysToValues c !! k = Some v → replacement_ok (k, v).
Proof.
  intros Hc. rewrite templateKeysToValues_java.
  intros [[<- <-]|[_ Hin%elem_of_list_to_map_2]]%lookup_insert_Some; [done|].
  pose proof (replacements_ok _ Hc) as Hrs. rewrite Forall_forall in Hrs. by apply Hrs.
Qed.

(** The entries in the order of the keys. *)
Definition entries (d : gmap string string) (ks : list string) : list (string * string) :=
  (λ k, (k, default "" (d !! k))) <$> ks.

Lemma entries_keys d ks : (entries d ks).*1 = ks.
Proof. unfold entries. rewrite <- list_fmap_compose. apply list_fmap_id. Qed.

Lemma entries_all d : entries d (map_to_list d).*1 = map_to_list d.
Proof.
  unfold entries. rewrite <- list_fmap_compose.
  etransitivity; [|apply list_fmap_id]. apply list_fmap_ext.
  intros i [k v] Hin%list_elem_of_lookup_2%elem_of_map_to_list. cbn. by rewrite Hin.
Qed.

Lemma entries_map d ks : ks ≡ₚ (map_to_list d).*1 → list_to_map (entries d ks) = d.
Proof.
  intros Hks. rewrite <- (list_to_map_to_list d) at 2. apply list_to_map_proper.
  - rewrite entries_keys, Hks. apply NoDup_fst_map_to_list.
  - rewrite <- (entries_all d). unfold entries. by rewrite Hks.
Qed.

Context {order : TextDictionary} {laws : TextDictionaryLaws}.

Lemma resolveTemplate_pieces c ps :
  plain_configuration (java_configuration c) = true → forallb piece_ok ps = true →
  resolveTemplate c (render ps) =
  let filled := render (fill_from (templateKeysToValues c) ps) in
  if contains "{{" filled then None else Some filled.
Proof.
  intros Hc Hps. unfold resolveTemplate.
  set (d := templateKeysToValues c). set (rs := entries d (text_keys d)).
  assert (∀ t, foldl (λ t k, replace (key k) (default "" (d !! k)) 0 t) t (text_keys d) =
    foldl (λ s r, replace (key r.1) r.2 0 s) t rs) as Hloop.
  { intros t. unfold rs, entries. revert t. induction (text_keys d) as [|k ks IH]; [done|]. intros t. apply IH. }
  assert (Hrs : Forall replacement_ok rs).
  { apply Forall_forall. intros [k v] Hin. unfold rs in Hin.
    apply (values_plain c); [done|]. fold d.
    apply elem_of_map_to_list. rewrite <- entries_all. unfold entries. by rewrite <- text_keys_all. }
  unfold key in Hloop. rewrite Hloop.
  destruct (replace_all_render rs ps Hrs Hps) as [Hr _]. unfold key in Hr.
  rewrite Hr, fills_from. unfold rs. by rewrite (entries_map d _ (text_keys_all d)).
Qed.

(** Java's table replaces what the dictionary replaces, device_os apart. *)
Lemma fill_from_java c ps :
  fill_from (templateKeysToValues c) ps =
  fills (replacements (java_configuration c) platform_filter_template)
    (fill "device_os" "iOS" ps).
Proof.
  rewrite templateKeysToValues_java, fills_from. unfold fill_from, fill.
  rewrite <- list_fmap_compose. apply list_fmap_ext. intros _ [t|n] _; [done|]. cbn.
  case_decide as Hn; [subst; by rewrite lookup_insert_eq|by rewrite lookup_insert_ne].
Qed.

(** C28: The order of the dictionary does not matter, and the platforms agree. Let the
    application's strings have no double opening brace and no opening brace at their end;
    and let the template be made of text with the same property and of keys {{ name }}
    whose name has no opening brace and no space, so that no key is nested in another.
    Resolving such a template gives, whatever the order the dictionary enumerates its keys
    in, what Java's resolveTemplate gives for the template with "iOS" for device_os, and nil
    exactly where that throws. The built-in template, if its certificates are such text,
    always resolves, to itself with each key replaced by its value. *)
Theorem ios_resolves_as_java c ps certificates :
  plain_configuration (java_configuration c) = true →
  forallb piece_ok ps = true → forallb plain certificates = true →
  resolveTemplate c (render ps) =
    match Configuration.resolveTemplate (java_configuration c)
      (render (fill "device_os" "iOS" ps)) platform_filter_template with
    | Ok resolved => Some resolved
    | Fault _ => None
    end ∧
  resolveTemplate c (config_template certificates) =
    Some (render (fill_from (templateKeysToValues c) (config_pieces certificates))).
Proof.
  intros Hc Hps Hcerts. pose proof (replacements_ok _ Hc) as Hrs. split.
  - rewrite resolveTemplate_pieces, fill_from_java by done. unfold Configuration.resolveTemplate.
    destruct (replace_all_render _ (fill "device_os" "iOS" ps) Hrs) as [-> _]; [by apply fill_ok|].
    cbn zeta. by destruct (contains "{{" _).
  - pose proof (config_pieces_ok certificates Hcerts) as Hok.
    rewrite <- config_pieces_render, (resolveTemplate_pieces c _ Hc Hok). cbn zeta. rewrite fill_from_java, contains_no_key; [done|..].
    + apply replace_all_render; [exact Hrs|]. by apply fill_ok.
    + intros m [[Hin _]%key_in_fill Hm]%key_in_fills. apply Hm.
      by eapply config_keys_known, elem_of_key_names.
Qed.
End configuration.

(** ** Witnesses *)

(** The keys in the order of the map, and the other way around. *)
Definition ref_order : TextDictionary := λ d, (map_to_list d).*1.
Definition reverse_order : TextDictionary := λ d, reverse (map_to_list d).*1.

Lemma ref_order_laws : TextDictionaryLaws (order := ref_order).
Proof. by intros d. Qed.
Lemma reverse_order_laws : TextDictionaryLaws (order := reverse_order).
Proof. intros d. apply reverse_Permutation. Qed.

Definition an_ios_application : EnvoyConfiguration unit := {|
  statsDomain := "stats.example.com"; connectTimeoutSeconds := 30; dnsRefreshSeconds := 60;
  dnsFailureRefreshSecondsBase := 2; dnsFailureRefreshSecondsMax := 10;
  httpFilterFactories := [HTTPFilterFactory [102; 105; 114; 115; 116]%N (mret no_closures)];
  statsFlushSeconds := 60; appVersion := "1.0"; appId := "app";
  virtualClusters := "[{name: all}]"
|}.

Lemma ios_resolves_as_java_witness :
  resolveTemplate (order := reverse_order) an_ios_application
    (render [Text "a: "; Key "app_id"; Text ", b: "; Key "device_os"]) =
    match Configuration.resolveTemplate (java_configuration an_ios_application)
      (render (fill "device_os" "iOS" [Text "a: "; Key "app_id"; Text ", b: "; Key "device_os"]))
      platform_filter_template with
    | Ok resolved => Some resolved
    | Fault _ => None
    end.
Proof.
  refine (proj1 (ios_resolves_as_java (laws := reverse_order_laws)
    an_ios_application _ [] _ _ _)); vm_compute; reflexivity.
Defined.

(** Where a value has a key in it, order does matter: one dictionary resolves the
    template, another leaves a key. *)
Definition keys_in_values : EnvoyConfiguration unit := {|
  statsDomain := "{{ app_id }}"; connectTimeoutSeconds := 30; dnsRefreshSeconds := 60;
  dnsFailureRefreshSecondsBase := 2; dnsFailureRefreshSecondsMax := 10;
  httpFilterFactories := []; statsFlushSeconds := 60; appVersion := "1.0"; appId := "app";
  virtualClusters := "[]"
|}.

Example order_can_matter :
  (resolveTemplate (order := ref_order) keys_in_values "{{ stats_domain }}",
   resolveTemplate (order := reverse_order) keys_in_values "{{ stats_domain }}") =
  (Some "app", None).
Proof. vm_compute. reflexivity. Qed.
