(* ===== verification/IosEngine.v ===== *)
(** * The engine of the Objective-C platform

    Models EnvoyEngineImpl of library/objective-c/EnvoyEngineImpl.m, which registers the
    application's filters and runs the engine with the resolved configuration, and
    EnvoyNetworkMonitor.m, which tells it what network the device is on. *)

From S2P Require Import Engine.
From S2P Require Export IosConfiguration Process.

Definition kEnvoySuccess : Z := 0.
Definition kEnvoyFailure : Z := 1.

(** The NUL-terminated string a [const char *] parameter of the C interface is read as. *)
Fixpoint until_nul (bs : list byte) : list byte :=
  match bs with
  | [] => []
  | b :: bs => if decide (b = x00) then [] else b :: until_nul bs
  end.
Definition c_string (s : NSString) : option string :=
  (λ bs, String.string_of_list_byte (until_nul bs)) <$> UTF8String s.

(** ** EnvoyNetworkMonitor *)

(** Whether BOOL is a signed char, as on the 32-bit architectures, or C's bool. *)
Class ObjcBool := OBJC_BOOL_IS_CHAR : bool.

(** The value of an integer converted to BOOL. *)
Definition as_BOOL `{ObjcBool} (n : Z) : Z :=
  if OBJC_BOOL_IS_CHAR then wrap_signed 8 n else if decide (n = 0)%Z then 0 else 1.

(** What the functions of SystemConfiguration return. *)
Class SystemConfiguration := {
  SCNetworkReachabilityCreateWithName : bool;
  SCNetworkReachabilitySetCallback : bool;
  SCNetworkReachabilitySetDispatchQueue : bool
}.

Definition kSCNetworkReachabilityFlagsIsWWAN : Z := Z.shiftl 1 18.

(** The once token, and whether the callback is set and the monitor on its queue. *)
Record network_monitor := NetworkMonitor {
  reachabilityStarted : bool;
  callback_set : bool;
  monitor_queued : bool
}.

Section monitor.
Context `{ObjcBool} `{!SystemConfiguration} {HM B A : Type}.

Definition _reachability_callback (flags : Z) : M (main_state HM B A) unit :=
  if decide (flags = 0)%Z then mret tt
  else
    let isUsingWWAN := as_BOOL (Z.land flags kSCNetworkReachabilityFlagsIsWWAN) in
    MainInterface.set_preferred_network
      (if decide (isUsingWWAN = 0)%Z then ENVOY_NET_WLAN else ENVOY_NET_WWAN) ;;
    mret tt.

Definition _start_reachability (s : network_monitor) : network_monitor :=
  if SCNetworkReachabilityCreateWithName then
    if SCNetworkReachabilitySetCallback then
      if SCNetworkReachabilitySetDispatchQueue
      then NetworkMonitor (reachabilityStarted s) true true
      else NetworkMonitor (reachabilityStarted s) false (monitor_queued s)
    else s
  else s.

Definition startReachabilityIfNeeded (s : network_monitor) : network_monitor :=
  if reachabilityStarted s then s
  else _start_reachability (NetworkMonitor true (callback_set s) (monitor_queued s)).
End monitor.

(** ** EnvoyEngineImpl *)

(** The engine object: its handle, its closure, and how many times it is registered as an
    observer of the application's termination. *)
Record EnvoyEngineImpl (App : Type) := EngineImpl {
  engineHandle : Z;
  onEngineRunning : option (M App unit);
  termination_observers : nat
}.
Arguments EngineImpl {App} _ _ _.
Arguments engineHandle {App} _.
Arguments onEngineRunning {App} _.
Arguments termination_observers {App} _.

Section engine.
Context {mode : BuildMode} `{Allocator} `{!Dictionary} {order : TextDictionary}
  `{!SystemConfiguration} `{!EnvoyFilterEnums} {HM : Type} `{!HeaderMap HM} `{!EnvoyCodec HM}
  {B : Type} `{!BufferInstance B} `{!EnvoyServer} {App : Type}.

(** The platform's state, and the process. *)
Abbreviation platform := (filter_objects App * EnvoyEngineImpl App)%type.
Abbreviation globals_t := (main_state HM B (envoy_http_filter (filter_objects App))).
Abbreviation E := (M (globals_t * platform)).

Definition on_objects {X} (m : M (mem * filter_objects App) X) : M (mem * platform) X := λ s,
  match m (s.1, s.2.1) with
  | Ok (x, (c, o)) => Ok (x, (c, (o, s.2.2)))
  | Fault f => Fault f
  end.
Definition update_impl (f : EnvoyEngineImpl App → EnvoyEngineImpl App) : E unit :=
  modify (λ x, (x.1, (x.2.1, f x.2.2))).

(** [init]; the monitor is one for all engines. *)
Definition init (monitor : network_monitor) : EnvoyEngineImpl App * network_monitor :=
  (EngineImpl init_engine None 0, startReachabilityIfNeeded monitor).

(** [CFBridgingRetain(filterFactory)]. *)
Definition retain_factory (filterFactory : EnvoyHTTPFilterFactory App)
    : M (mem * filter_objects App) ptr :=
  l ← gets (λ s, next_filter_object s.2);
  update_objects (λ o, FilterObjects (filters o) (<[l := filterFactory]> (factories o))
    (callbacks_objects o) (l + 1) (app_state o)) ;;
  mret (Some l).

(** Fourteen pointers. *)
Definition SIZEOF_ENVOY_HTTP_FILTER : Z := 112.

Definition registerFilterFactory (filterFactory : EnvoyHTTPFilterFactory App) : E Z :=
  on_native (on_objects (in_memory (safe_malloc SIZEOF_ENVOY_HTTP_FILTER bytes_block))) ;;
  static_context ← on_native (on_objects (retain_factory filterFactory));
  name ← deref "std::string(nullptr)" (c_string (filterName filterFactory));
  on_main (register_platform_api name (Some (ios_http_filter static_context))) ;;
  mret kEnvoySuccess.

Definition startObservingLifecycleNotifications : E unit :=
  update_impl (λ i, EngineImpl (engineHandle i) (onEngineRunning i) (S (termination_observers i))).

(** [@try] and [@catch]; what is thrown leaves the state as it was. *)
Definition try_catch {X} (m handler : E X) : E X := λ s,
  match m s with Fault (Thrown _) => handler s | r => r end.

(** Envoy parses the configuration and the log level, on the engine's thread. *)
Definition runWithConfigYAML (configYAML logLevel : string) (closure : option (M App unit)) : E Z :=
  update_impl (λ i, EngineImpl (engineHandle i) closure (termination_observers i)) ;;
  startObservingLifecycleNotifications ;;
  try_catch
    (status ← on_main (run_engine (EngineCallbacks true true));
     mret (match status with ENVOY_SUCCESS => 0 | ENVOY_FAILURE => 1 end)%Z)
    (mret kEnvoyFailure).

(** [config_template] is the constant of config_template.cc. *)
Definition runWithConfig (config_template : string) (config : EnvoyConfiguration App)
    (logLevel : string) (closure : option (M App unit)) : E Z :=
  match resolveTemplate config config_template with
  | None => mret kEnvoyFailure
  | Some resolvedYAML =>
      for_each (httpFilterFactories config) (λ filterFactory,
        registerFilterFactory filterFactory ;; mret tt) ;;
      runWithConfigYAML resolvedYAML logLevel closure
  end.

(** The engine's callbacks. *)
Definition ios_on_engine_running : M (mem * platform) unit :=
  closure ← gets (λ s, onEngineRunning s.2.2);
  match closure with
  | Some closure => on_objects (in_app closure)
  | None => mret tt
  end.
Definition ios_on_exit : M (mem * platform) unit := mret tt.

Definition terminateNotification : E unit := on_main terminate_engine.

(** [dealloc]: no longer an observer. *)
Definition dealloc : E unit :=
  update_impl (λ i, EngineImpl (engineHandle i) (onEngineRunning i) 0).
End engine.
