(* ===== verification/IosEngineProps.v ===== *)
(** * Running the engine on the Objective-C platform

    The theorems about IosEngine.v: a configuration that does not resolve changes nothing,
    one that does leaves every filter registered under its name with a new engine running;
    and what the network monitor makes of the flags it is given. *)

From S2P Require Import EngineInv EngineProps.
From S2P Require Export IosEngine IosFilterProps ProcessProps.

Section engine.
Context {mode : BuildMode} `{Allocator} `{!Dictionary} {order : TextDictionary}
  `{!EnvoyFilterEnums} {HM : Type} `{!HeaderMap HM} `{!EnvoyCodec HM}
  {B : Type} `{!BufferInstance B} `{!EnvoyServer} {App : Type}.
Abbreviation platform := (filter_objects App * EnvoyEngineImpl App)%type.
Abbreviation globals_t := (main_state HM B (envoy_http_filter (filter_objects App))).
Implicit Types (x : globals_t * platform) (c : EnvoyConfiguration App)
  (f : EnvoyHTTPFilterFactory App) (o : filter_objects App).

(** What registering a factory does to the registry and the objects. *)
Definition registered f (ro : registry (envoy_http_filter (filter_objects App)) * filter_objects App) :=
  let '(r, o) := ro in
  let l := next_filter_object o in
  (match c_string (filterName f) with
   | Some name => <[name := Some (ios_http_filter (Some l))]> r
   | None => r
   end,
   FilterObjects (filters o) (<[l := f]> (factories o)) (callbacks_objects o) (l + 1) (app_state o)).

Definition all_registered (fs : list (EnvoyHTTPFilterFactory App)) ro := foldl (λ ro f, registered f ro) ro fs.

(** Factories whose names C can read. *)
Definition readable_names (fs : list (EnvoyHTTPFilterFactory App)) : Prop :=
  Forall (λ f, is_Some (c_string (filterName f))) fs.

(** The process after the registrations: the registry, the objects, and a block of memory
    for each struct. *)
Definition registered_in (fs : list (EnvoyHTTPFilterFactory App)) x x' : Prop :=
  ∃ ls m', length ls = length fs ∧ grows ls (memory_now x.1) m' ∧
    let ro := all_registered fs (registry_ x.1, x.2.1) in
    x' = (set_registry ro.1 (set_memory m' x.1), (ro.2, x.2.2)).

Lemma registered_in_nil x : registered_in [] x x.
Proof.
  exists [], (memory_now x.1). split; [done|]. split; [apply grows_refl|]. cbn.
  rewrite set_memory_now. by destruct x as [[] []].
Qed.

Lemma memory_set_registry (r : registry (envoy_http_filter (filter_objects App))) m (s : globals_t) :
  memory_now (set_registry r (set_memory m s)) = m.
Proof. exact (memory_now_set m s). Qed.

Lemma registered_in_trans fs1 fs2 x x1 x2 :
  registered_in fs1 x x1 → registered_in fs2 x1 x2 → registered_in (fs1 ++ fs2) x x2.
Proof.
  intros (ls1 & m1 & Hl1 & G1 & ->) (ls2 & m2 & Hl2 & G2 & ->).
  cbn [fst snd] in *. rewrite memory_set_registry in G2.
  exists (ls1 ++ ls2), m2. split; [by rewrite !length_app, Hl1, Hl2|].
  split; [by eapply grows_trans|]. unfold all_registered. rewrite foldl_app.
  unfold set_memory. destruct x as [s [o i]]. cbn. destruct (strong_engine_ s) eqn:Hs; cbn.
  - rewrite <- surjective_pairing. done.
  - rewrite Hs, <- surjective_pairing. done.
Qed.

Lemma wp_on_objects {X} (m : M (mem * filter_objects App) X) E Q (y : mem * platform) :
  wp m E (λ a s', Q a (s'.1, (s'.2, y.2.2))) (y.1, y.2.1) → wp (on_objects m) E Q y.
Proof. unfold wp, on_objects. by destruct (m _) as [[a [c o]]|]. Qed.

Lemma registry_set_memory m (s : globals_t) : registry_ (set_memory m s) = registry_ s.
Proof. unfold set_memory. by destruct (strong_engine_ s). Qed.

Lemma wp_registerFilterFactory f x E Q :
  is_Some (c_string (filterName f)) → (∀ e, oom e → E e) →
  (∀ x', registered_in [f] x x' → Q kEnvoySuccess x') →
  wp (registerFilterFactory f) E Q x.
Proof.
  intros [name Hname] HE HQ. unfold registerFilterFactory. eapply wp_mono; [|exact HE|done].
  destruct x as [s [o i]].
  apply wp_bind, wp_on_native, wp_on_objects, wp_in_memory, wp_safe_malloc; [done|]. cbn [fst snd].
  set (m' := alloc_block _ _).
  apply wp_bind, wp_on_native, wp_on_objects. apply wp_bind, wp_gets, wp_bind, wp_modify, wp_ret.
  cbn [fst snd]. rewrite set_memory_now.
  apply wp_bind. rewrite Hname. apply wp_ret, wp_bind, wp_on_main. eapply wp_run; [done|]. apply wp_ret, HQ.
  cbn [fst snd]. exists [next_loc (memory_now s)], m'.
  split; [done|]. split; [apply grows_alloc|]. cbn. by rewrite Hname, registry_set_memory.
Qed.

Lemma wp_registerFactories fs x E Q :
  readable_names fs → (∀ e, oom e → E e) → (∀ x', registered_in fs x x' → Q tt x') →
  wp (for_each fs (λ f, registerFilterFactory f ;; mret tt)) E Q x.
Proof.
  intros Hfs HE. revert x Q. induction Hfs as [|f fs Hf Hfs IH]; intros x Q HQ.
  - apply wp_ret, HQ, registered_in_nil.
  - cbn [for_each]. apply wp_bind, wp_bind, wp_registerFilterFactory; [done..|].
    intros x1 Hx1. apply wp_ret, IH. intros x' Hx'. by eapply HQ, (registered_in_trans [f]).
Qed.

(** *** What the registrations leave *)

Lemma factories_before fs ro l :
  (l < next_filter_object ro.2)%positive → factories (all_registered fs ro).2 !! l = factories ro.2 !! l.
Proof.
  revert ro. induction fs as [|f fs IH]; intros [r o] Hl; [done|].
  cbn [all_registered foldl]. unfold all_registered in IH. rewrite IH; cbn in *; [|lia].
  by rewrite lookup_insert_ne by lia.
Qed.

Lemma registry_other fs ro name :
  Forall (λ g, c_string (filterName g) ≠ Some name) fs →
  (all_registered fs ro).1 !! name = ro.1 !! name.
Proof.
  intros Hfs. revert ro. induction Hfs as [|f fs Hf Hfs IH]; intros [r o]; [done|].
  cbn [all_registered foldl]. unfold all_registered in IH. rewrite IH. cbn.
  destruct (c_string _) as [n|]; [|done]. by rewrite lookup_insert_ne by congruence.
Qed.

(** A factory that is the last of its name is what the registry has for the name. *)
Lemma registered_last fs1 f fs2 ro name :
  c_string (filterName f) = Some name →
  Forall (λ g, c_string (filterName g) ≠ Some name) fs2 →
  ∃ l, (all_registered (fs1 ++ f :: fs2) ro).1 !! name = Some (Some (ios_http_filter (Some l))) ∧
    factories (all_registered (fs1 ++ f :: fs2) ro).2 !! l = Some f.
Proof.
  intros Hname Hfs2. unfold all_registered. rewrite foldl_app. cbn [foldl].
  destruct (foldl _ ro fs1) as [r o]. exists (next_filter_object o).
  fold (all_registered fs2 (registered f (r, o))).
  rewrite registry_other, factories_before by (done || cbn; lia). cbn.
  by rewrite Hname, !lookup_insert_eq.
Qed.

(** *** Running *)

Lemma run_engine_run cb (s : globals_t) :
  ∃ s', run_engine cb s = Ok (ENVOY_SUCCESS, s') ∧ registry_ s' = registry_ s ∧
    memory_now s' = memory_now s ∧
    strong_engine_ s' = Some (EngineObject (Dispatcher.set_preferred_network
      (main_preferred_network_ s) (init_state (memory_now s))) (Engine_new cb)).
Proof. unfold run_engine, mbind, M_bind, gets, modify. cbn. destruct (strong_engine_ s); cbn; by eauto. Qed.

(** A configuration runs as a whole or not at all. When the template does not resolve,
    nothing is registered, no engine runs, and the result is kEnvoyFailure. When it does,
    whatever ran before, a new engine runs with a dispatcher that holds no stream and knows
    the network last reported, the application's closure is kept for it, and each filter
    costs one block of memory, never freed. A filter bridge that Envoy configures under the
    name of one of the factories (the last, where several have it) gets the C functions of
    that factory: its filters are those the factory creates. *)
Theorem ios_runWithConfig template c level closure x :
  (resolveTemplate c template = None →
    runWithConfig template c level closure x = Ok (kEnvoyFailure, x)) ∧
  (is_Some (resolveTemplate c template) → readable_names (httpFilterFactories c) →
    wp (runWithConfig template c level closure) oom (λ status x',
      status = kEnvoySuccess ∧ onEngineRunning x'.2.2 = closure ∧
      strong_engine_ x'.1 = Some (EngineObject (Dispatcher.set_preferred_network
        (main_preferred_network_ x.1) (init_state (memory_now x'.1)))
        (Engine_new (EngineCallbacks true true))) ∧
      (∃ ls, length ls = length (httpFilterFactories c) ∧
        grows ls (memory_now x.1) (memory_now x'.1)) ∧
      ∀ fs1 f fs2 name, httpFilterFactories c = fs1 ++ f :: fs2 →
        c_string (filterName f) = Some name →
        Forall (λ g, c_string (filterName g) ≠ Some name) fs2 →
        ∃ l r, PlatformBridgeFilterConfig_new name (registry_ x'.1) =
            Ok (FilterConfig name (Some (ios_http_filter (Some l))), r) ∧
          ∀ m, ios_http_filter_init (Some l) (m, x'.2.1) =
            (in_app (create f) ≫= retain_filter) (m, x'.2.1)) x).
Proof.
  split; [by unfold runWithConfig; intros ->|].
  intros [yaml Hyaml] Hnames. unfold runWithConfig. rewrite Hyaml.
  apply wp_bind, wp_registerFactories; [done..|].
  intros x1 (ls & m1 & Hls & G & ->). unfold runWithConfigYAML.
  apply wp_bind, wp_modify, wp_bind, wp_modify. cbn [fst snd].
  set (ro := all_registered _ _). set (s1 := set_registry _ _).
  destruct (run_engine_run (EngineCallbacks true true) s1) as (s' & Hrun & Hreg & Hmem & Hengine).
  assert (Hm1 : memory_now s1 = m1) by apply memory_set_registry.
  eapply wp_run.
  { unfold try_catch, mbind, M_bind, on_main at 1. cbn. rewrite Hrun. reflexivity. }
  split; [done|]. split; [done|]. cbn [fst snd]. rewrite Hengine, Hmem, Hm1.
  split.
  { do 3 f_equal. unfold s1, set_memory. by destruct (strong_engine_ x.1). }
  split; [by exists ls|]. intros fs1 f fs2 name Hfs Hname Hlast.
  destruct (registered_last fs1 f fs2 (registry_ x.1, x.2.1) name Hname Hlast) as (l & Hr & Hf).
  rewrite <- Hfs in Hr, Hf. exists l. eexists. split.
  - unfold PlatformBridgeFilterConfig_new, retrieveApi, ASSERT, mbind, M_bind. cbn.
    rewrite Hreg. fold ro in Hr. unfold s1. cbn. rewrite Hr. cbn. by destruct ASSERT_enabled.
  - intros m. unfold ios_http_filter_init, bridge_factory, mbind, M_bind, gets. cbn.
    fold ro in Hf. by rewrite Hf.
Qed.
End engine.

(** ** The network monitor *)

Section monitor.
Context `{ObjcBool} {HM B A : Type}.
Implicit Types (s : main_state HM B A).

Lemma land_single_bit n k :
  (0 ≤ k)%Z → Z.land n (Z.shiftl 1 k) = if Z.testbit n k then Z.shiftl 1 k else 0%Z.
Proof.
  intros Hk. rewrite Z.shiftl_1_l. apply Z.bits_inj'. intros i Hi.
  rewrite Z.land_spec, Z.pow2_bits_eqb by lia. destruct (Z.eqb_spec k i) as [<-|Hne].
  - destruct (Z.testbit n k); [|by rewrite Z.bits_0]. by rewrite Z.pow2_bits_true.
  - rewrite andb_false_r. destruct (Z.testbit n k); [|by rewrite Z.bits_0].
    by rewrite Z.pow2_bits_false.
Qed.

(** Only where BOOL is C's bool does the flag of the mobile network survive. *)
Lemma as_BOOL_wwan flags :
  as_BOOL (Z.land flags kSCNetworkReachabilityFlagsIsWWAN) =
  if negb OBJC_BOOL_IS_CHAR && Z.testbit flags 18 then 1%Z else 0%Z.
Proof.
  unfold kSCNetworkReachabilityFlagsIsWWAN. rewrite land_single_bit by lia.
  unfold as_BOOL. destruct OBJC_BOOL_IS_CHAR, (Z.testbit flags 18); reflexivity.
Qed.

(** The mobile network is noticed exactly where BOOL is not a char. The callback does
    nothing for flags that say the network cannot be reached. For others it makes the
    preferred network of the process and of the dispatcher that runs WWAN if the flag
    kSCNetworkReachabilityFlagsIsWWAN, bit 18, is set, and WLAN if not; but where BOOL is
    a signed char, the bit does not fit, and the preferred network is WLAN always. *)
Theorem reachability_selects_network flags s :
  _reachability_callback 0 s = Ok (tt, s) ∧
  (flags ≠ 0%Z → ∃ s', _reachability_callback flags s = Ok (tt, s') ∧
    let network := if negb OBJC_BOOL_IS_CHAR && Z.testbit flags 18
      then ENVOY_NET_WWAN else ENVOY_NET_WLAN in
    main_preferred_network_ s' = network ∧
    (is_Some (strong_engine_ s') ↔ is_Some (strong_engine_ s)) ∧
    ∀ e, strong_engine_ s' = Some e → preferred_network_ (http_dispatcher_ e) = network).
Proof.
  split; [done|]. intros Hflags. unfold _reachability_callback.
  rewrite decide_False, as_BOOL_wwan by done. eexists. split; [done|].
  destruct (negb OBJC_BOOL_IS_CHAR && Z.testbit flags 18); cbn;
    (split; [done|]; split; [by rewrite fmap_is_Some|]);
    by intros e (e0 & _ & ->)%fmap_Some.
Qed.
End monitor.

(** ** Witnesses *)

Section examples.
#[local] Existing Instances debug_build ref_server ref_enums ref_order.
Abbreviation ref_globals := (main_state ref_map ref_buffer (envoy_http_filter (filter_objects unit))).

#[local] Instance ref_system_configuration : SystemConfiguration := {|
  SCNetworkReachabilityCreateWithName := true;
  SCNetworkReachabilitySetCallback := true;
  SCNetworkReachabilitySetDispatchQueue := true
|}.

Definition ref_process : ref_globals * (filter_objects unit * EnvoyEngineImpl unit) :=
  (main_init ref_mem, (FilterObjects ∅ ∅ ∅ 7 tt, (init (NetworkMonitor false false false)).1)).

Lemma ios_runWithConfig_witness :
  wp (runWithConfig "{{ device_os }}" an_ios_application "info" None) oom (λ status x',
    status = kEnvoySuccess ∧
    ∃ l r, PlatformBridgeFilterConfig_new "first" (registry_ x'.1) =
      Ok (FilterConfig "first" (Some (ios_http_filter (Some l))), r)) ref_process.
Proof.
  destruct (ios_runWithConfig "{{ device_os }}" an_ios_application "info" None ref_process) as [_ Hrun].
  eapply wp_conseq; [apply Hrun|].
  - eexists. vm_compute. reflexivity.
  - apply Forall_singleton. eexists. vm_compute. reflexivity.
  - intros status x' (Hstatus & _ & _ & _ & Hfilters). split; [exact Hstatus|].
    destruct (Hfilters [] (HTTPFilterFactory [102; 105; 114; 115; 116]%N (mret no_closures)) [] "first")
      as (l & r & Hconfig & _); [reflexivity|vm_compute; reflexivity|constructor|].
    by exists l, r.
Defined.

Lemma reachability_selects_network_witness :
  (∃ s', _reachability_callback (H := true) 262146 (main_init ref_mem : ref_globals) = Ok (tt, s') ∧
    main_preferred_network_ s' = ENVOY_NET_WLAN) ∧
  (∃ s', _reachability_callback (H := false) 262146 (main_init ref_mem : ref_globals) = Ok (tt, s') ∧
    main_preferred_network_ s' = ENVOY_NET_WWAN).
Proof.
  split.
  - destruct (proj2 (reachability_selects_network (H := true) 262146 (main_init ref_mem : ref_globals))
      ltac:(done)) as (s' & Hrun & Hnet & _). by exists s'.
  - destruct (proj2 (reachability_selects_network (H := false) 262146 (main_init ref_mem : ref_globals))
      ltac:(done)) as (s' & Hrun & Hnet & _). by exists s'.
Defined.
End examples.
