(* ===== verification/Grpc.v ===== *)
(** * gRPC messages over a stream

    The gRPC clients of the two platforms (under src/library/swift/src/grpc/ and
    src/library/kotlin/src/.../grpc/). A message goes out as its length in a prefix of
    five bytes and its bytes, in two calls of the stream's [sendData]. What comes in is
    cut into chunks at any place; a processor keeps the bytes it has not used yet and
    calls the application's closure for every message that is complete. The processors
    call themselves without bound: [stack] is the number of calls that fit on the stack
    of the thread. The state has the messages the closure was called with. *)

From S2P Require Export Foundation.

(** ** Integers in memory *)

Fixpoint le_value (bs : list byte) : N :=
  match bs with
  | [] => 0
  | b :: bs => Byte.to_N b + 256 * le_value bs
  end.

Fixpoint le_bytes (k : nat) (n : N) : list byte :=
  match k with
  | O => []
  | S k => byte_of (n mod 256) :: le_bytes k (n / 256)
  end.

(** The bytes of a UInt32, the most significant first. *)
Definition be_bytes (n : N) : list byte := reverse (le_bytes 4 n).
Definition be_value (bs : list byte) : N := le_value (reverse bs).

(** ** The calls of [sendData] on the stream: the bytes and whether they end it *)

Definition Sent : Type := list (list byte * bool).

Definition stream_sendData (data : list byte) (endStream : bool) : M Sent unit :=
  modify (λ calls, calls ++ [(data, endStream)]).

(** ** Swift *)

Definition kGRPCPrefixLength : Z := 5.

(** A conversion or an operation whose result does not fit stops the program. *)
Definition trap_unless {St} (b : bool) : M St unit :=
  if b then mret tt else fail (Panic "arithmetic overflow").

(** The devices are little-endian, so [bigEndian] and CFSwapInt32BigToHost exchange the
    bytes. *)
Definition byteSwapped (n : N) : N := le_value (reverse (le_bytes 4 n)).

#[global] Arguments be_bytes n : simpl never.
#[global] Arguments be_value bs : simpl never.
#[global] Arguments byteSwapped n : simpl never.

(** [integer(atIndex:)] for a type of [size] bytes. *)
Definition integer (size : nat) (index : Z) (data : NSData) : option N :=
  if decide (Z.of_nat (length data) < index + Z.of_nat size)%Z then None
  else Some (le_value (take size (drop (Z.to_nat index) data))).

(** [subdata(in: first ..< last)] *)
Definition subdata (first last : Z) (data : NSData) : NSData :=
  take (Z.to_nat (last - first)) (drop (Z.to_nat first) data).

Module Swift.

(** sendMessage of GRPCStream *)
Definition sendMessage (messageData : NSData) : M Sent unit :=
  trap_unless (bool_decide (Z.of_nat (length messageData) < 2 ^ 32)%Z) ;;
  let length := byteSwapped (N.of_nat (length messageData)) in
  let prefixData := [x00] ++ le_bytes 4 length in
  stream_sendData prefixData false ;;
  stream_sendData messageData false.

Definition close : M Sent unit := stream_sendData [] true.

(** GRPCMessageProcessor.State *)
Inductive State :=
| expectingCompressionFlag
| expectingMessageLength
| expectingMessage (messageLength : N).

(** What the closure of setOnResponseMessage captures, and the messages. *)
Record Processor := {
  buffer : NSData;
  state : State;
  messages : list NSData
}.

Definition with_buffer (b : NSData) (p : Processor) : Processor :=
  {| buffer := b; state := state p; messages := messages p |}.
Definition with_state (s : State) (p : Processor) : Processor :=
  {| buffer := buffer p; state := s; messages := messages p |}.
Definition onMessage (message : NSData) : M Processor unit :=
  modify (λ p, {| buffer := buffer p; state := state p; messages := messages p ++ [message] |}).

Section processor.
Context `{!SwiftInt}.

Fixpoint processBuffer (stack : nat) : M Processor unit :=
  match stack with
  | O => fail (Undefined "stack overflow")
  | S stack =>
      st ← gets state;
      data ← gets buffer;
      match st with
      | expectingCompressionFlag =>
          match integer 1 0 data with
          | None => mret tt
          | Some compressionFlag =>
              if decide (compressionFlag = 0%N) then
                modify (with_state expectingMessageLength) ;;
                processBuffer stack
              else
                modify (with_buffer []) ;;
                modify (with_state expectingCompressionFlag)
          end
      | expectingMessageLength =>
          match integer 4 1 data with
          | None => mret tt
          | Some messageLength =>
              modify (with_state (expectingMessage (byteSwapped messageLength))) ;;
              processBuffer stack
          end
      | expectingMessage messageLength =>
          let prefixedLength := (kGRPCPrefixLength + Z.of_N messageLength)%Z in
          trap_unless (bool_decide (prefixedLength ≤ Int_max)%Z) ;;
          if decide (Z.of_nat (length data) < prefixedLength)%Z then mret tt
          else
            (if decide (0 < messageLength)%N
             then onMessage (subdata kGRPCPrefixLength prefixedLength data)
             else onMessage []) ;;
            modify (with_buffer (drop (Z.to_nat prefixedLength) data)) ;;
            modify (with_state expectingCompressionFlag) ;;
            processBuffer stack
      end
  end.

(** The closure given to setOnResponseData. *)
Definition onData (stack : nat) (chunk : NSData) : M Processor unit :=
  modify (λ p, with_buffer (buffer p ++ chunk) p) ;;
  processBuffer stack.
End processor.

Definition setOnResponseMessage : Processor :=
  {| buffer := []; state := expectingCompressionFlag; messages := [] |}.
End Swift.

(** ** Kotlin *)

(** A ByteBuffer: its array (or the memory of a direct buffer), the position and the
    limit. [hasArray] is false for a read-only buffer. *)
Record ByteBuffer := {
  bb_content : list byte;
  bb_position : Z;
  bb_limit : Z;
  bb_isDirect : bool;
  bb_hasArray : bool
}.

(** ByteBuffer.allocate and ByteBuffer.wrap: the whole of an array of the heap. *)
Definition ByteBuffer_wrap (bs : list byte) : ByteBuffer :=
  {| bb_content := bs; bb_position := 0; bb_limit := Z.of_nat (length bs);
     bb_isDirect := false; bb_hasArray := true |}.

Definition bb_remaining (b : ByteBuffer) : Z := (bb_limit b - bb_position b)%Z.

(** [putInt] of a big-endian buffer, and [getInt]. *)
Definition putInt (n : Z) : list byte := be_bytes (Z.to_N (n `mod` 2 ^ 32)).
Definition getInt (bs : list byte) : Z := s32 (Z.of_N (be_value bs)).

(** [sliceArray(first until last)]: an empty range gives an empty array, whatever its
    bounds. *)
Definition sliceArray {St} (first last : Z) (bs : list byte) : M St (list byte) :=
  if decide (last ≤ first)%Z then mret []
  else if decide (0 ≤ first ∧ last ≤ Z.of_nat (length bs))%Z
  then mret (subdata first last bs)
  else fail (Thrown "IndexOutOfBoundsException").

Definition GRPC_PREFIX_LENGTH : Z := 5.

Module Kotlin.

(** sendData of EnvoyHTTPStream: the whole array, or the whole memory. *)
Definition EnvoyHTTPStream_sendData (data : ByteBuffer) (endStream : bool) : M Sent unit :=
  if bb_isDirect data then stream_sendData (bb_content data) endStream
  else if bb_hasArray data then stream_sendData (bb_content data) endStream
  else fail (Thrown "UnsupportedOperationException").

(** sendMessage of GRPCStream *)
Definition sendMessage (messageData : ByteBuffer) : M Sent unit :=
  let messageLength := bb_remaining messageData in
  let byteBuffer := ByteBuffer_wrap ([x00] ++ putInt messageLength) in
  EnvoyHTTPStream_sendData byteBuffer false ;;
  EnvoyHTTPStream_sendData messageData false.

Definition close : M Sent unit := EnvoyHTTPStream_sendData (ByteBuffer_wrap []) true.

(** GRPCMessageProcessor.ProcessState *)
Inductive ProcessState :=
| CompressionFlag
| MessageLength
| Message (messageLength : Z).

(** What the closure of setOnResponseMessage captures, and the messages. *)
Record Processor := {
  byteBufferedOutputStream : list byte;
  processState : ProcessState;
  messages : list (list byte)
}.

Definition with_buffer (b : list byte) (p : Processor) : Processor :=
  {| byteBufferedOutputStream := b; processState := processState p; messages := messages p |}.
Definition with_state (s : ProcessState) (p : Processor) : Processor :=
  {| byteBufferedOutputStream := byteBufferedOutputStream p; processState := s;
     messages := messages p |}.
Definition onMessage (message : list byte) : M Processor unit :=
  modify (λ p, {| byteBufferedOutputStream := byteBufferedOutputStream p;
                  processState := processState p; messages := messages p ++ [message] |}).

(** The state that is passed and returned; the buffer is the captured one. *)
Fixpoint processData (stack : nat) (st : ProcessState) : M Processor ProcessState :=
  match stack with
  | O => fail (Thrown "StackOverflowError")
  | S stack =>
      byteArray ← gets byteBufferedOutputStream;
      let size := Z.of_nat (length byteArray) in
      match st with
      | CompressionFlag =>
          match byteArray with
          | [] => mret CompressionFlag
          | compressionFlag :: _ =>
              when (bool_decide (Byte.to_N compressionFlag ≠ 0%N)) (modify (with_buffer [])) ;;
              processData stack MessageLength
          end
      | MessageLength =>
          if decide (size < GRPC_PREFIX_LENGTH)%Z then mret MessageLength
          else
            bytes ← sliceArray 1 5 byteArray;
            processData stack (Message (getInt bytes))
      | Message messageLength =>
          if decide (size < s32 (messageLength + GRPC_PREFIX_LENGTH))%Z
          then mret (Message messageLength)
          else
            message ← sliceArray GRPC_PREFIX_LENGTH (s32 (GRPC_PREFIX_LENGTH + messageLength)) byteArray;
            onMessage message ;;
            modify (with_buffer []) ;;
            rest ← sliceArray (s32 (GRPC_PREFIX_LENGTH + messageLength)) size byteArray;
            modify (with_buffer rest) ;;
            match rest with
            | [] => mret CompressionFlag
            | _ => processData stack CompressionFlag
            end
      end
  end.

(** The closure given to setOnResponseData. *)
Definition onData (stack : nat) (byteBuffer : ByteBuffer) : M Processor unit :=
  let byteBufferArray :=
    if bb_hasArray byteBuffer then bb_content byteBuffer
    else subdata (bb_position byteBuffer) (bb_limit byteBuffer) (bb_content byteBuffer) in
  modify (λ p, with_buffer (byteBufferedOutputStream p ++ byteBufferArray) p) ;;
  st ← gets processState;
  st ← processData stack st;
  modify (with_state st).

Definition setOnResponseMessage : Processor :=
  {| byteBufferedOutputStream := []; processState := CompressionFlag; messages := [] |}.
End Kotlin.

(** ** Feeding a processor *)

(** What the round trip needs of a processor: how it starts, how it takes a chunk (with
    how much stack), the bytes it keeps and the messages it has delivered. *)
Class MessageReader (St : Type) := {
  reader_new : St;
  reader_feed : nat → list byte → M St unit;
  reader_kept : St → list byte;
  reader_messages : St → list (list byte)
}.

#[export] Instance swift_reader `{!SwiftInt} : MessageReader Swift.Processor := {
  reader_new := Swift.setOnResponseMessage;
  reader_feed := Swift.onData;
  reader_kept := Swift.buffer;
  reader_messages := Swift.messages
}.

(** The chunks are arrays: JvmCallbackContext wraps what the JNI layer gives it. *)
#[export] Instance kotlin_reader : MessageReader Kotlin.Processor := {
  reader_new := Kotlin.setOnResponseMessage;
  reader_feed stack chunk := Kotlin.onData stack (ByteBuffer_wrap chunk);
  reader_kept := Kotlin.byteBufferedOutputStream;
  reader_messages := Kotlin.messages
}.

Definition feed_all {St} `{!MessageReader St} (stack : nat) (chunks : list (list byte)) :
    M St unit :=
  for_each chunks (reader_feed stack).

(** A message with its prefix, and what is left of one when the stream is cut. *)
Definition frame (m : list byte) : list byte :=
  x00 :: be_bytes (N.of_nat (length m)) ++ m.
Definition fits (limit : Z) (m : list byte) : Prop := (Z.of_nat (length m) ≤ limit)%Z.
Definition partial (limit : Z) (tail : list byte) : Prop :=
  ∃ m i, fits limit m ∧ i < length (frame m) ∧ tail = take i (frame m).

(** A reader splits what it keeps and a chunk into the messages that are complete, which
    it delivers, and the rest, which it keeps. *)
Class MessageReaderLaws (St : Type) `{!MessageReader St} (limit : Z) := {
  reader_ok : St → Prop;
  reader_new_ok : reader_ok reader_new;
  reader_new_empty : reader_kept reader_new = [] ∧ reader_messages reader_new = [];
  reader_feed_frames stack st chunk ms tail :
    reader_ok st → reader_kept st ++ chunk = concat (frame <$> ms) ++ tail →
    Forall (fits limit) ms → partial limit tail → 3 * length ms + 3 ≤ stack →
    ∃ st', reader_feed stack chunk st = Ok (tt, st') ∧ reader_ok st' ∧
      reader_kept st' = tail ∧ reader_messages st' = reader_messages st ++ ms
}.
