(* ===== verification/GrpcReaders.v ===== *)
(** * The processors of gRPC streams are readers

    The instances of [MessageReaderLaws] for the processors of Swift and Kotlin: fed with
    a part of a stream of messages, each delivers what is complete and keeps the rest, in
    a state that says what the rest is a part of. First lemmas on integers in memory, and
    on streams of frames that are cut. *)

From S2P Require Export Grpc.
From Stdlib Require Import ZArith Lia.

(** ** Integers in memory *)

Lemma length_le_bytes k n : length (le_bytes k n) = k.
Proof. revert n. induction k as [|k IH]; intros n; [done|]. cbn. by rewrite IH. Qed.

Lemma le_value_le_bytes k n : (n < 256 ^ N.of_nat k)%N → le_value (le_bytes k n) = n.
Proof.
  revert n. induction k as [|k IH]; intros n Hn; [cbn in *; lia|].
  rewrite Nat2N.inj_succ, N.pow_succ_r' in Hn. cbn [le_bytes le_value].
  rewrite to_N_byte_of by (by apply N.mod_upper_bound).
  rewrite IH by (by apply N.Div0.div_lt_upper_bound). rewrite (N.div_mod' n 256) at 3. lia.
Qed.

Lemma le_bytes_le_value bs : le_bytes (length bs) (le_value bs) = bs.
Proof.
  induction bs as [|b bs IH]; [done|]. cbn [length le_bytes le_value].
  pose proof (Byte.to_N_bounded b) as Hb.
  rewrite (N.mul_comm 256), N.Div0.mod_add, N.mod_small, N.div_add, N.div_small by lia.
  rewrite N.add_0_l, IH. unfold byte_of. by rewrite Byte.of_to_N.
Qed.

Lemma le_value_bound bs : (le_value bs < 256 ^ N.of_nat (length bs))%N.
Proof.
  induction bs as [|b bs IH]; [done|]. pose proof (Byte.to_N_bounded b).
  cbn [length le_value]. rewrite Nat2N.inj_succ, N.pow_succ_r'. lia.
Qed.

Lemma length_be_bytes n : length (be_bytes n) = 4.
Proof. unfold be_bytes. by rewrite length_reverse, length_le_bytes. Qed.

Lemma be_value_be_bytes n : (n < 2 ^ 32)%N → be_value (be_bytes n) = n.
Proof. intros Hn. unfold be_value, be_bytes. rewrite reverse_involutive. by apply le_value_le_bytes. Qed.

Lemma be_value_bound bs : length bs = 4 → (be_value bs < 2 ^ 32)%N.
Proof. intros Hbs. unfold be_value. pose proof (le_value_bound (reverse bs)) as H. by rewrite length_reverse, Hbs in H. Qed.

(** Exchanging the bytes turns what is read in the order of the device into what was
    meant, and the other way around. *)
Lemma byteSwapped_le_value bs : length bs = 4 → byteSwapped (le_value bs) = be_value bs.
Proof. intros Hbs. unfold byteSwapped, be_value. by rewrite <- Hbs, le_bytes_le_value. Qed.

Lemma le_bytes_byteSwapped n : le_bytes 4 (byteSwapped n) = be_bytes n.
Proof.
  unfold byteSwapped, be_bytes.
  pose proof (le_bytes_le_value (reverse (le_bytes 4 n))) as H.
  by rewrite length_reverse, length_le_bytes in H.
Qed.

Lemma putInt_small n : (0 ≤ n < 2 ^ 32)%Z → putInt n = be_bytes (Z.to_N n).
Proof. intros Hn. unfold putInt. by rewrite Z.mod_small. Qed.

(** ** Frames *)

(** The four bytes of the length, one by one. *)
Lemma be_bytes_4 n :
  ∃ b1 b2 b3 b4, be_bytes n = [b1; b2; b3; b4] ∧ ((n < 2 ^ 32)%N → be_value [b1; b2; b3; b4] = n).
Proof.
  pose proof (length_be_bytes n) as Hlen. pose proof (be_value_be_bytes n) as Hval.
  destruct (be_bytes n) as [|b1 [|b2 [|b3 [|b4 [|]]]]]; try done. by exists b1, b2, b3, b4.
Qed.

Lemma length_frame m : length (frame m) = 5 + length m.
Proof. unfold frame. by rewrite length_cons, length_app, length_be_bytes. Qed.

(** The forms of what is kept: nothing, a part of the prefix, a part of the message. *)
Variant kept_cases (limit : Z) : list byte → Prop :=
| kept_nothing : kept_cases limit []
| kept_prefix t : length t < 4 → kept_cases limit (x00 :: t)
| kept_message b1 b2 b3 b4 t n :
    be_value [b1; b2; b3; b4] = n → (Z.of_N n ≤ limit)%Z → (Z.of_nat (length t) < Z.of_N n)%Z →
    kept_cases limit (x00 :: b1 :: b2 :: b3 :: b4 :: t).

Lemma partial_kept limit tail :
  (limit < 2 ^ 32)%Z → partial limit tail → kept_cases limit tail.
Proof.
  intros Hlimit (m & i & Hm & Hi & ->). unfold fits in Hm. rewrite length_frame in Hi.
  destruct i as [|i]; [apply kept_nothing|]. unfold frame. cbn [take].
  destruct (decide (i < 4)) as [Hi4|Hi4].
  { apply kept_prefix. rewrite length_take. lia. }
  destruct (be_bytes_4 (N.of_nat (length m))) as (b1 & b2 & b3 & b4 & -> & Hn).
  do 4 (destruct i as [|i]; [lia|]). cbn [take app].
  eapply kept_message; [apply Hn; lia|lia|]. rewrite length_take. lia.
Qed.

Lemma frames_app ms ms' : concat (frame <$> ms ++ ms') = concat (frame <$> ms) ++ concat (frame <$> ms').
Proof. by rewrite fmap_app, concat_app. Qed.

(** A stream that is cut anywhere is some messages and a part of one. *)
Lemma cut_frames limit ms p :
  (0 ≤ limit)%Z → Forall (fits limit) ms → p `prefix_of` concat (frame <$> ms) →
  ∃ done tail, done `prefix_of` ms ∧ partial limit tail ∧ p = concat (frame <$> done) ++ tail.
Proof.
  intros Hlimit Hms. revert p. induction Hms as [|m ms Hm Hms IH]; intros p [r Hp].
  - exists [], []. split_and!; [done| |by destruct p].
    exists [], 0. split_and!; [unfold fits; cbn; lia|rewrite length_frame; cbn; lia|done].
  - destruct (decide (length p < length (frame m))) as [Hlt|Hge].
    + exists [], p. split_and!; [apply prefix_nil| |done]. exists m, (length p).
      split_and!; [done|done|]. rewrite fmap_cons in Hp. cbn [concat] in Hp.
      rewrite <- (take_app_le _ (concat (frame <$> ms))), Hp by lia. by rewrite take_app_length.
    + rewrite fmap_cons in Hp. cbn [concat] in Hp.
      destruct (IH (drop (length (frame m)) p)) as (dn & tail & Hdn & Htail & Htl).
      { exists r. apply (f_equal (drop (length (frame m)))) in Hp.
        by rewrite drop_app_length, drop_app_le in Hp by lia. }
      exists (m :: dn), tail. split_and!; [by apply prefix_cons|done|].
      rewrite fmap_cons. cbn [concat]. rewrite <- app_assoc, <- Htl.
      rewrite <- (take_drop (length (frame m)) p) at 1. f_equal.
      apply (f_equal (take (length (frame m)))) in Hp. by rewrite take_app_length, take_app_le in Hp by lia.
Qed.

(** ** The Swift processor *)

(** The closure may be called whenever the buffer goes on as the state expects. *)
Lemma subdata_message b0 b1 b2 b3 b4 (m r : list byte) :
  subdata 5 (5 + Z.of_nat (length m)) (b0 :: b1 :: b2 :: b3 :: b4 :: m ++ r) = m.
Proof.
  unfold subdata. replace (Z.to_nat (5 + Z.of_nat (length m) - 5)) with (length m) by lia.
  change (Z.to_nat 5) with 5. cbn [drop]. by rewrite drop_0, take_app_length.
Qed.

Lemma drop_message b0 b1 b2 b3 b4 (m r : list byte) :
  drop (Z.to_nat (5 + Z.of_nat (length m))) (b0 :: b1 :: b2 :: b3 :: b4 :: m ++ r) = r.
Proof.
  replace (Z.to_nat (5 + Z.of_nat (length m))) with (5 + length m) by lia.
  cbn [drop Nat.add]. apply drop_app_length.
Qed.

Section swift.
Context `{!SwiftInt} (limit : Z).
Hypothesis limit_32 : (0 ≤ limit < 2 ^ 32)%Z.
Hypothesis limit_Int : (limit + 5 ≤ Int_max)%Z.
Import Swift.

Implicit Types (stack : nat) (t m r : list byte) (out : list (list byte)).

Local Abbreviation P := Build_Processor.

(** One call of the function, for each state and each way the buffer goes on. *)
Lemma flag_step stack b out :
  processBuffer (S stack) (P (x00 :: b) expectingCompressionFlag out) =
  processBuffer stack (P (x00 :: b) expectingMessageLength out).
Proof. cbn. unfold mbind, M_bind, gets. cbn. unfold integer. rewrite decide_False by (cbn; lia). done. Qed.

Lemma length_step stack b1 b2 b3 b4 t out :
  processBuffer (S stack) (P (x00 :: b1 :: b2 :: b3 :: b4 :: t) expectingMessageLength out) =
  processBuffer stack (P (x00 :: b1 :: b2 :: b3 :: b4 :: t)
                         (expectingMessage (be_value [b1; b2; b3; b4])) out).
Proof.
  cbn. unfold mbind, M_bind, gets. cbn. unfold integer. rewrite decide_False by (cbn; lia).
  change (Z.to_nat 1) with 1. cbn [drop take]. rewrite take_0.
  by rewrite byteSwapped_le_value.
Qed.

Lemma message_step stack b1 b2 b3 b4 m r out :
  fits limit m →
  processBuffer (S stack) (P (x00 :: b1 :: b2 :: b3 :: b4 :: m ++ r)
                             (expectingMessage (N.of_nat (length m))) out) =
  processBuffer stack (P r expectingCompressionFlag (out ++ [m])).
Proof.
  intros Hm. unfold fits in Hm. cbn [processBuffer]. unfold mbind, M_bind, gets. cbn [state buffer].
  unfold kGRPCPrefixLength, trap_unless. rewrite nat_N_Z, bool_decide_true by lia. cbn [mret M_ret].
  unfold mret, M_ret. rewrite decide_False by (cbn [length]; rewrite length_app; lia).
  unfold onMessage, modify, with_buffer, with_state.
  case_decide as Hpos; cbn [buffer state messages]; rewrite drop_message, ?subdata_message; [done|].
  by replace m with (@nil byte) by (symmetry; apply length_zero_iff_nil; lia).
Qed.

Lemma message_short stack data n out :
  (Z.of_nat (length data) < 5 + Z.of_N n ≤ Int_max)%Z →
  processBuffer (S stack) (P data (expectingMessage n) out) =
  Ok (tt, P data (expectingMessage n) out).
Proof.
  intros Hn. cbn [processBuffer]. unfold mbind, M_bind, gets. cbn [state buffer].
  unfold kGRPCPrefixLength, trap_unless. rewrite bool_decide_true by lia. unfold mret, M_ret.
  by rewrite decide_True by lia.
Qed.

Lemma message_overflows stack data n out :
  (Int_max < 5 + Z.of_N n)%Z →
  processBuffer (S stack) (P data (expectingMessage n) out) = Fault (Panic "arithmetic overflow").
Proof.
  intros Hn. cbn [processBuffer]. unfold mbind, M_bind, gets. cbn [state buffer].
  unfold kGRPCPrefixLength, trap_unless. by rewrite bool_decide_false by lia.
Qed.

(** The state between two chunks says what the kept bytes are a part of. *)
Definition state_of (b : list byte) : State :=
  match b with
  | [] => expectingCompressionFlag
  | _ :: b1 :: b2 :: b3 :: b4 :: _ => expectingMessage (be_value [b1; b2; b3; b4])
  | _ => expectingMessageLength
  end.

Lemma processBuffer_mono stack stack' s (res : unit * Processor) :
  processBuffer stack s = Ok res → stack ≤ stack' → processBuffer stack' s = Ok res.
Proof.
  revert stack' s. induction stack as [|stack IH]; intros stack' s Hrun Hle; [done|].
  destruct stack' as [|stack']; [lia|]. revert Hrun. cbn. unfold mbind, M_bind, gets.
  destruct (state s); repeat case_match; naive_solver (eauto with lia).
Qed.

(** Kept bytes are complete only with more to come. *)
Lemma kept_returns stack t out :
  kept_cases limit t → 3 ≤ stack →
  processBuffer stack (P t expectingCompressionFlag out) = Ok (tt, P t (state_of t) out).
Proof.
  intros Ht Hstack. do 3 (destruct stack as [|stack]; [lia|]).
  destruct Ht as [|t Hlen|b1 b2 b3 b4 t n Hn Hlim Hlen]; [done| |].
  - rewrite flag_step. cbn. unfold mbind, M_bind, gets. cbn. unfold integer.
    rewrite decide_True by (cbn; lia). do 4 (destruct t as [|? t]; [done|]). cbn in Hlen. lia.
  - rewrite flag_step, length_step, Hn, message_short by (cbn [length]; lia). cbn [state_of].
    by rewrite Hn.
Qed.

Lemma frames_return stack ms t out :
  Forall (fits limit) ms → kept_cases limit t → 3 * length ms + 3 ≤ stack →
  processBuffer stack (P (concat (frame <$> ms) ++ t) expectingCompressionFlag out) =
  Ok (tt, P t (state_of t) (out ++ ms)).
Proof.
  intros Hms Ht. revert stack out. induction Hms as [|m ms Hm Hms IH]; intros stack out Hstack.
  { rewrite app_nil_r. by apply kept_returns. }
  cbn [length] in Hstack. do 3 (destruct stack as [|stack]; [lia|]).
  rewrite fmap_cons. cbn [concat]. rewrite <- app_assoc. unfold frame at 1. cbn [app].
  destruct (be_bytes_4 (N.of_nat (length m))) as (b1 & b2 & b3 & b4 & -> & Hn).
  rewrite <- (app_assoc [b1; b2; b3; b4]). cbn [app].
  rewrite flag_step, length_step, Hn by (unfold fits in Hm; lia).
  rewrite message_step, IH by (done || lia). by rewrite <- app_assoc.
Qed.

(** What is kept is read again from its start by the next call. *)
Lemma resume_returns stack t b out (res : unit * Processor) :
  kept_cases limit t →
  processBuffer stack (P (t ++ b) expectingCompressionFlag out) = Ok res →
  processBuffer stack (P (t ++ b) (state_of t) out) = Ok res.
Proof.
  destruct 1 as [|t Hlen|b1 b2 b3 b4 t n Hn Hlim Hlen]; [done| |]; cbn [app]; intros Hrun.
  - destruct stack as [|stack]; [done|]. rewrite flag_step in Hrun.
    assert (state_of (x00 :: t) = expectingMessageLength) as ->.
    { do 4 (destruct t as [|? t]; [done|]). cbn in Hlen. lia. }
    eapply processBuffer_mono; [exact Hrun|lia].
  - destruct stack as [|stack]; [done|]. rewrite flag_step in Hrun.
    destruct stack as [|stack]; [done|]. rewrite length_step in Hrun.
    eapply processBuffer_mono; [exact Hrun|lia].
Qed.

#[export] Instance swift_reader_laws : MessageReaderLaws Processor limit.
Proof.
  refine {| reader_ok p := kept_cases limit (buffer p) ∧ state p = state_of (buffer p) |}.
  - split; [constructor|done].
  - done.
  - intros stack [b s out] chunk ms tail [Hok Hs] Hbytes Hms Htail Hstack. cbn in *. subst s.
    apply partial_kept in Htail; [|lia].
    exists (P tail (state_of tail) (out ++ ms)). split_and!; try done.
    unfold Swift.onData. erewrite bind_run by reflexivity. cbn. unfold with_buffer. cbn.
    apply resume_returns; [done|]. rewrite Hbytes. apply frames_return; [done|done|lia].
Qed.
End swift.

(** ** The Kotlin processor *)

Lemma getInt_small bs : length bs = 4 → (be_value bs < 2 ^ 31)%N → getInt bs = Z.of_N (be_value bs).
Proof. intros Hbs Hn. unfold getInt. apply s32_small. lia. Qed.

Lemma sliceArray_run {St} first last bs (s : St) :
  (0 ≤ first ≤ last ∧ last ≤ Z.of_nat (length bs))%Z →
  sliceArray first last bs s = Ok (subdata first last bs, s).
Proof.
  intros H. unfold sliceArray. case_decide as E.
  - unfold subdata. by replace (Z.to_nat (last - first)) with 0 by lia.
  - by rewrite decide_True by lia.
Qed.

Lemma sliceArray_empty {St} first last bs :
  (last ≤ first)%Z → sliceArray (St := St) first last bs = mret [].
Proof. intros H. unfold sliceArray. by rewrite decide_True. Qed.

Lemma sliceArray_negative {St} first last bs :
  (first < last)%Z → (first < 0)%Z →
  sliceArray (St := St) first last bs = fail (Thrown "IndexOutOfBoundsException").
Proof. intros H1 H2. unfold sliceArray. by rewrite !decide_False by lia. Qed.

Section kotlin.
Context (limit : Z).
Hypothesis limit_31 : (0 ≤ limit ∧ limit + 5 < 2 ^ 31)%Z.
Import Kotlin.

Implicit Types (stack : nat) (t m r : list byte) (out : list (list byte)) (st : ProcessState).

Local Abbreviation P := Build_Processor.

Lemma kotlin_flag_step stack b st out :
  processData (S stack) CompressionFlag (P (x00 :: b) st out) =
  processData stack MessageLength (P (x00 :: b) st out).
Proof. done. Qed.

Lemma kotlin_length_step stack b0 b1 b2 b3 b4 t st out :
  processData (S stack) MessageLength (P (b0 :: b1 :: b2 :: b3 :: b4 :: t) st out) =
  processData stack (Message (getInt [b1; b2; b3; b4]))
    (P (b0 :: b1 :: b2 :: b3 :: b4 :: t) st out).
Proof.
  cbn [processData]. erewrite bind_run by reflexivity.
  cbn [byteBufferedOutputStream].
  unfold GRPC_PREFIX_LENGTH. rewrite decide_False by (cbn; lia).
  erewrite bind_run by (apply sliceArray_run; cbn; lia).
  unfold subdata.
  change (Z.to_nat (5 - 1)) with 4. change (Z.to_nat 1) with 1. cbn [drop take]. by rewrite take_0.
Qed.

Lemma kotlin_message_step stack b0 b1 b2 b3 b4 m r st out :
  fits limit m →
  processData (S stack) (Message (Z.of_nat (length m)))
    (P (b0 :: b1 :: b2 :: b3 :: b4 :: m ++ r) st out) =
  (if r is [] then mret CompressionFlag else processData stack CompressionFlag)
    (P r st (out ++ [m])).
Proof.
  intros Hm. unfold fits in Hm. cbn [processData].
  erewrite bind_run by reflexivity. cbn [byteBufferedOutputStream].
  assert (Z.of_nat (length (b0 :: b1 :: b2 :: b3 :: b4 :: m ++ r)) =
          5 + Z.of_nat (length m) + Z.of_nat (length r))%Z as Hlen
    by (cbn [length]; rewrite length_app; lia).
  unfold GRPC_PREFIX_LENGTH. rewrite !s32_small by lia. rewrite decide_False by lia.
  erewrite bind_run by (apply sliceArray_run; lia). rewrite subdata_message.
  erewrite bind_run by reflexivity. erewrite bind_run by reflexivity.
  erewrite bind_run by (apply sliceArray_run; lia). erewrite bind_run by reflexivity.
  unfold with_buffer, subdata. cbn [byteBufferedOutputStream processState messages].
  rewrite drop_message, take_ge by lia. by destruct r.
Qed.

(** A sum that has wrapped around: what is left of the buffer starts before it. *)
Lemma kotlin_negative_step stack n data st out :
  (s32 (n + 5) < 0)%Z → data ≠ [] →
  processData (S stack) (Message n) (P data st out) = Fault (Thrown "IndexOutOfBoundsException").
Proof.
  intros Hn Hdata. cbn [processData]. erewrite bind_run by reflexivity. cbn [byteBufferedOutputStream].
  assert (0 < length data) by (destruct data; cbn; lia || done).
  unfold GRPC_PREFIX_LENGTH. rewrite (Z.add_comm 5 n), decide_False by lia.
  rewrite (sliceArray_empty 5) by lia. do 3 (erewrite bind_run by reflexivity).
  by rewrite sliceArray_negative by lia.
Qed.

Definition kotlin_state_of (b : list byte) : ProcessState :=
  match b with
  | [] => CompressionFlag
  | _ :: b1 :: b2 :: b3 :: b4 :: _ => Message (Z.of_N (be_value [b1; b2; b3; b4]))
  | _ => MessageLength
  end.

Lemma processData_mono stack stack' st s (res : ProcessState * Processor) :
  processData stack st s = Ok res → stack ≤ stack' → processData stack' st s = Ok res.
Proof.
  revert stack' st s. induction stack as [|stack IH]; intros stack' st s Hrun Hle; [done|].
  destruct stack' as [|stack']; [lia|]. revert Hrun. cbn [processData].
  rewrite !bind_Ok. intros (b & s1 & Hb & Hrun). exists b, s1. split; [done|].
  destruct st; repeat case_match; try done.
  - apply bind_Ok in Hrun as (u & s2 & Hw & Hrun). apply bind_Ok. eauto with lia.
  - apply bind_Ok in Hrun as (u & s2 & Hw & Hrun). apply bind_Ok. eauto with lia.
  - repeat (apply bind_Ok in Hrun as (? & ? & ? & Hrun); apply bind_Ok; do 2 eexists; split; [done|]).
    case_match; [done|]. eauto with lia.
Qed.

Lemma kotlin_kept_returns stack t st out :
  kept_cases limit t → 3 ≤ stack →
  processData stack CompressionFlag (P t st out) = Ok (kotlin_state_of t, P t st out).
Proof.
  intros Ht Hstack. do 3 (destruct stack as [|stack]; [lia|]).
  destruct Ht as [|t Hlen|b1 b2 b3 b4 t n Hn Hlim Hlen]; [done| |].
  - rewrite kotlin_flag_step. cbn [processData]. erewrite bind_run by reflexivity. cbn [byteBufferedOutputStream].
    unfold GRPC_PREFIX_LENGTH. rewrite decide_True by (cbn; lia).
    do 4 (destruct t as [|? t]; [done|]). cbn in Hlen. lia.
  - rewrite kotlin_flag_step, kotlin_length_step, getInt_small by (done || lia). cbn [processData].
    erewrite bind_run by reflexivity. cbn [byteBufferedOutputStream]. rewrite Hn.
    unfold GRPC_PREFIX_LENGTH. rewrite s32_small, decide_True by (cbn [length]; lia).
    cbn [kotlin_state_of]. by rewrite Hn.
Qed.

Lemma kotlin_frames_return stack ms t st out :
  Forall (fits limit) ms → kept_cases limit t → 3 * length ms + 3 ≤ stack →
  processData stack CompressionFlag (P (concat (frame <$> ms) ++ t) st out) =
  Ok (kotlin_state_of t, P t st (out ++ ms)).
Proof.
  intros Hms Ht. revert stack out. induction Hms as [|m ms Hm Hms IH]; intros stack out Hstack.
  { rewrite app_nil_r. by apply kotlin_kept_returns. }
  cbn [length] in Hstack. do 3 (destruct stack as [|stack]; [lia|]).
  rewrite fmap_cons. cbn [concat]. rewrite <- app_assoc. unfold frame at 1. cbn [app].
  destruct (be_bytes_4 (N.of_nat (length m))) as (b1 & b2 & b3 & b4 & -> & Hn).
  unfold fits in Hm. rewrite <- (app_assoc [b1; b2; b3; b4]). cbn [app].
  rewrite kotlin_flag_step, kotlin_length_step, getInt_small, Hn, nat_N_Z, kotlin_message_step by (done || lia).
  rewrite (cons_middle m out ms), app_assoc.
  specialize (IH stack (out ++ [m]) ltac:(lia)).
  destruct (concat (frame <$> ms) ++ t) as [|b l] eqn:Hrest; [|done].
  apply app_nil in Hrest as [Hnil ->]. destruct ms; [|done]. by rewrite app_nil_r.
Qed.

Lemma kotlin_resume_returns stack t b st out (res : ProcessState * Processor) :
  kept_cases limit t →
  processData stack CompressionFlag (P (t ++ b) st out) = Ok res →
  processData stack (kotlin_state_of t) (P (t ++ b) st out) = Ok res.
Proof.
  destruct 1 as [|t Hlen|b1 b2 b3 b4 t n Hn Hlim Hlen]; [done| |]; cbn [app]; intros Hrun;
    destruct stack as [|stack]; try done; rewrite kotlin_flag_step in Hrun.
  - assert (kotlin_state_of (x00 :: t) = MessageLength) as ->.
    { do 4 (destruct t as [|? t]; [done|]). cbn in Hlen. lia. }
    eapply processData_mono; [exact Hrun|lia].
  - destruct stack as [|stack]; [done|]. rewrite kotlin_length_step, getInt_small in Hrun by (done || lia).
    eapply processData_mono; [exact Hrun|lia].
Qed.

#[export] Instance kotlin_reader_laws : MessageReaderLaws Processor limit.
Proof.
  refine {| reader_ok p := kept_cases limit (byteBufferedOutputStream p) ∧
              processState p = kotlin_state_of (byteBufferedOutputStream p) |}.
  - split; [constructor|done].
  - done.
  - intros stack [b s out] chunk ms tail [Hok Hs] Hbytes Hms Htail Hstack.
    cbn [reader_kept kotlin_reader byteBufferedOutputStream processState] in *. subst s.
    apply partial_kept in Htail; [|lia].
    exists (P tail (kotlin_state_of tail) (out ++ ms)). split_and!; try done.
    cbn [reader_feed kotlin_reader]. unfold Kotlin.onData. cbn [ByteBuffer_wrap bb_hasArray bb_content].
    erewrite bind_run by reflexivity. erewrite bind_run by reflexivity. cbn [with_buffer byteBufferedOutputStream processState messages].
    pose proof (kotlin_frames_return stack ms tail (kotlin_state_of b) out Hms Htail Hstack) as Hrun.
    rewrite <- Hbytes in Hrun. apply kotlin_resume_returns in Hrun; [|done]. by rewrite (bind_run _ _ _ _ _ Hrun).
Qed.
End kotlin.
