(* ===== verification/GrpcProps.v ===== *)
(** * gRPC messages arrive as they were sent

    Whatever the chunks, both processors deliver exactly the messages of a stream
    ([grpc_round_trip], [grpc_processors_agree]), and Swift's takes any bytes. Where they
    differ: a length of 2^31 or more, a compressed message, and the part of a ByteBuffer
    that is sent. *)

From S2P Require Export GrpcReaders.
From Stdlib Require Import ZArith Lia.

(** ** Whole streams *)

Section readers.
Context {St : Type} `{!MessageReader St} (limit : Z) `{!MessageReaderLaws St limit}.
Hypothesis limit_nonneg : (0 ≤ limit)%Z.

Lemma feed_all_cut stack chunks ms :
  Forall (fits limit) ms → concat chunks `prefix_of` concat (frame <$> ms) →
  3 * length ms + 3 ≤ stack →
  ∃ st delivered tail, feed_all stack chunks reader_new = Ok (tt, st) ∧ reader_ok st ∧
    delivered `prefix_of` ms ∧ partial limit tail ∧
    concat chunks = concat (frame <$> delivered) ++ tail ∧
    reader_messages st = delivered ∧ reader_kept st = tail.
Proof.
  intros Hms Hpre Hstack. induction chunks as [|chunk chunks IH] using rev_ind.
  - destruct reader_new_empty as [Hk Hm]. exists reader_new, [], [].
    split_and!; try done; [apply reader_new_ok|apply prefix_nil|].
    exists [], 0. split_and!; [done|rewrite length_frame; cbn; lia|done].
  - destruct IH as (st & dn & tail & Hrun & Hok & Hdn & Htail & Heq & Hmsgs & Hkept).
    { etrans; [|exact Hpre]. rewrite concat_app. by eexists. }
    rewrite concat_app in Hpre |- *. cbn in Hpre |- *. rewrite app_nil_r in Hpre |- *.
    destruct Hdn as [more ->]. apply Forall_app in Hms as [Hdn Hmore].
    rewrite Heq, <- app_assoc in Hpre |- *. rewrite frames_app in Hpre. apply prefix_app_inv in Hpre.
    destruct (cut_frames limit more _ limit_nonneg Hmore Hpre) as (dn' & tail' & Hdn' & Htail' & Heq').
    rewrite length_app in Hstack.
    assert (length dn' ≤ length more) by (destruct Hdn' as [? ->]; rewrite length_app; lia).
    assert (Forall (fits limit) dn') by eauto using Forall_prefix.
    destruct (reader_feed_frames stack st chunk dn' tail') as (st' & Hrun' & Hok' & Hkept' & Hmsgs');
      [done|by rewrite Hkept|done|done|lia|].
    exists st', (dn ++ dn'), tail'. split_and!; try done.
    + unfold feed_all. rewrite for_each_app. erewrite bind_run by exact Hrun. cbn [for_each foldr].
      by rewrite (bind_run _ _ _ _ _ Hrun').
    + by apply prefix_app.
    + rewrite Heq', frames_app. apply app_assoc.
    + by rewrite Hmsgs', Hmsgs.
Qed.

(** The messages that are complete are determined by the bytes. *)
Lemma cut_unique ms delivered tail tail' :
  (limit < 2 ^ 32)%Z → Forall (fits limit) ms → delivered `prefix_of` ms → partial limit tail →
  concat (frame <$> ms) ++ tail' = concat (frame <$> delivered) ++ tail →
  ms = delivered ∧ tail' = tail.
Proof.
  intros Hlimit Hms [more ->] (m & i & Hm & Hi & ->) Heq. rewrite frames_app, <- app_assoc in Heq.
  apply app_inv_head in Heq. apply Forall_app in Hms as [_ Hmore].
  destruct Hmore as [|m' more Hm' _].
  { by rewrite app_nil_r. }
  exfalso. rewrite fmap_cons in Heq. cbn [concat] in Heq. unfold fits in Hm, Hm'.
  rewrite <- app_assoc in Heq.
  assert (length (frame m') ≤ i) as Hle.
  { apply (f_equal length) in Heq. rewrite length_app, length_take in Heq. lia. }
  rewrite length_frame in Hi, Hle. do 5 (destruct i as [|i]; [lia|]).
  destruct (be_bytes_4 (N.of_nat (length m))) as (b1 & b2 & b3 & b4 & Hb & Hn).
  destruct (be_bytes_4 (N.of_nat (length m'))) as (c1 & c2 & c3 & c4 & Hc & Hn').
  unfold frame in Heq. rewrite Hb, Hc in Heq. cbn [app take] in Heq.
  injection Heq as -> -> -> -> _.
  assert (N.of_nat (length m) = N.of_nat (length m')) by (rewrite <- Hn, <- Hn'; lia || done). lia.
Qed.

(** A whole stream, in any chunks: every message is delivered and nothing is kept. *)
Lemma feed_all_whole stack chunks ms :
  (limit < 2 ^ 32)%Z → Forall (fits limit) ms → concat chunks = concat (frame <$> ms) →
  3 * length ms + 3 ≤ stack →
  ∃ st, feed_all stack chunks reader_new = Ok (tt, st) ∧ reader_messages st = ms ∧
    reader_kept st = [].
Proof.
  intros Hlimit Hms Heq Hstack.
  destruct (feed_all_cut stack chunks ms) as (st & dn & tail & Hrun & _ & Hdn & Htail & Hcut & Hm & Hk);
    [done|by rewrite Heq|done|].
  rewrite Heq, <- (app_nil_r (concat (frame <$> ms))) in Hcut.
  apply cut_unique in Hcut as [-> <-]; [|done..]. eauto.
Qed.
End readers.

(** ** What is sent *)

Lemma swift_sendMessage_run (m : list byte) calls :
  (Z.of_nat (length m) < 2 ^ 32)%Z →
  Swift.sendMessage m calls =
  Ok (tt, calls ++ [(x00 :: be_bytes (N.of_nat (length m)), false); (m, false)]).
Proof.
  intros Hm. unfold Swift.sendMessage, trap_unless. rewrite bool_decide_true by done.
  rewrite le_bytes_byteSwapped.
  unfold mbind, M_bind, mret, M_ret, stream_sendData, modify. by rewrite <- app_assoc.
Qed.

Lemma kotlin_sendMessage_run b calls :
  bb_isDirect b = true ∨ bb_hasArray b = true → (0 ≤ bb_remaining b < 2 ^ 32)%Z →
  Kotlin.sendMessage b calls =
  Ok (tt, calls ++ [(x00 :: be_bytes (Z.to_N (bb_remaining b)), false); (bb_content b, false)]).
Proof.
  intros Hb Hn. unfold Kotlin.sendMessage, Kotlin.EnvoyHTTPStream_sendData. rewrite putInt_small by done.
  cbn [ByteBuffer_wrap bb_isDirect bb_hasArray bb_content app].
  unfold mbind, M_bind, stream_sendData, modify.
  destruct Hb as [->| ->]; [|destruct (bb_isDirect b)]; by rewrite <- app_assoc.
Qed.

(** The calls that send some messages. *)
Definition message_calls (ms : list (list byte)) : Sent :=
  ms ≫= λ m, [(x00 :: be_bytes (N.of_nat (length m)), false); (m, false)].

Lemma message_calls_frames ms : concat (message_calls ms).*1 = concat (frame <$> ms).
Proof.
  induction ms as [|m ms IH]; [done|].
  change (message_calls (m :: ms)) with
    ([(x00 :: be_bytes (N.of_nat (length m)), false); (m, false)] ++ message_calls ms).
  rewrite fmap_app, fmap_cons. cbn [fmap list_fmap app concat fst]. rewrite <- IH. unfold frame.
  cbn [app]. by rewrite <- app_assoc.
Qed.

Lemma send_all {A} (send : A → M Sent unit) (as_bytes : A → list byte) (l : list A) calls :
  (∀ a calls, a ∈ l → send a calls = Ok (tt, calls ++ message_calls [as_bytes a])) →
  for_each l send calls = Ok (tt, calls ++ message_calls (as_bytes <$> l)).
Proof.
  revert calls. induction l as [|a l IH]; intros calls Hsend.
  - cbn. by rewrite app_nil_r.
  - cbn [for_each foldr]. erewrite bind_run by (apply Hsend; set_solver).
    change (foldr _ _ l) with (for_each l send). rewrite IH by set_solver. by rewrite <- app_assoc.
Qed.

(** Both platforms send the same bytes, in the same calls. *)
Lemma send_messages ms :
  Forall (fits (2 ^ 31 - 6)) ms →
  for_each ms Swift.sendMessage [] = Ok (tt, message_calls ms) ∧
  for_each (ByteBuffer_wrap <$> ms) Kotlin.sendMessage [] = Ok (tt, message_calls ms).
Proof.
  intros Hms. rewrite Forall_forall in Hms. unfold fits in Hms. split.
  - rewrite (send_all _ id), list_fmap_id; [done|]. intros m calls Hm. specialize (Hms _ Hm).
    apply swift_sendMessage_run. lia.
  - rewrite (send_all _ bb_content); [by rewrite <- list_fmap_compose, list_fmap_id|].
    intros b calls (m & -> & Hm)%list_elem_of_fmap. specialize (Hms _ Hm).
    rewrite kotlin_sendMessage_run; [|by right|unfold bb_remaining; cbn; lia].
    unfold bb_remaining. cbn [ByteBuffer_wrap bb_limit bb_position bb_content].
    by rewrite Z.sub_0_r, <- nat_N_Z, N2Z.id.
Qed.

(** ** Properties *)

(** C13: Messages arrive as they were sent. Both platforms send a list of messages (each
    of at most 2^31 - 6 bytes) as the same bytes; and whatever the chunks in which these
    bytes come in at the other end, on either platform and whatever the width of Swift's
    Int, with three calls of stack for a message and three more, each message is
    delivered once, in order and whole, and nothing is left in the buffer. *)
Theorem grpc_round_trip `{!SwiftInt} (ms chunks : list (list byte)) (stack : nat) :
  (2 ^ 31 - 1 ≤ Int_max)%Z → Forall (fits (2 ^ 31 - 6)) ms → 3 * length ms + 3 ≤ stack →
  ∃ calls,
    for_each ms Swift.sendMessage [] = Ok (tt, calls) ∧
    for_each (ByteBuffer_wrap <$> ms) Kotlin.sendMessage [] = Ok (tt, calls) ∧
    (concat chunks = concat calls.*1 →
     (∃ p, for_each chunks (Swift.onData stack) Swift.setOnResponseMessage = Ok (tt, p) ∧
        Swift.messages p = ms ∧ Swift.buffer p = []) ∧
     (∃ p, for_each (ByteBuffer_wrap <$> chunks) (Kotlin.onData stack) Kotlin.setOnResponseMessage =
          Ok (tt, p) ∧
        Kotlin.messages p = ms ∧ Kotlin.byteBufferedOutputStream p = [])).
Proof.
  intros HInt Hms Hstack. destruct (send_messages ms Hms) as [Hswift Hkotlin].
  exists (message_calls ms). split_and!; [done|done|]. rewrite message_calls_frames. intros Heq.
  split.
  - assert (MessageReaderLaws Swift.Processor (2 ^ 31 - 6)) by (apply swift_reader_laws; lia).
    exact (feed_all_whole (St := Swift.Processor) (2 ^ 31 - 6) ltac:(lia) stack chunks ms
             ltac:(lia) Hms Heq Hstack).
  - assert (MessageReaderLaws Kotlin.Processor (2 ^ 31 - 6)) by (apply kotlin_reader_laws; lia).
    rewrite for_each_fmap.
    exact (feed_all_whole (St := Kotlin.Processor) (2 ^ 31 - 6) ltac:(lia) stack chunks ms
             ltac:(lia) Hms Heq Hstack).
Qed.

Lemma grpc_round_trip_witness :
  let ms := [[x01; x02]; []; [x03]] in
  let chunks := [[x00]; [x00; x00; x00; x02; x01]; [x02; x00; x00; x00; x00; x00; x00; x00; x00];
                 [x00; x01]; []; [x03]] in
  ∃ calls,
    for_each ms Swift.sendMessage [] = Ok (tt, calls) ∧
    for_each (ByteBuffer_wrap <$> ms) Kotlin.sendMessage [] = Ok (tt, calls) ∧
    concat chunks = concat calls.*1 ∧
    (∃ p, for_each chunks (Swift.onData (H := Int_32) 12) Swift.setOnResponseMessage = Ok (tt, p) ∧
       Swift.messages p = ms ∧ Swift.buffer p = []) ∧
    (∃ p, for_each (ByteBuffer_wrap <$> chunks) (Kotlin.onData 12) Kotlin.setOnResponseMessage =
         Ok (tt, p) ∧
       Kotlin.messages p = ms ∧ Kotlin.byteBufferedOutputStream p = []).
Proof.
  intros ms chunks. destruct (grpc_round_trip (H := Int_32) ms chunks 12) as (calls & H1 & H2 & H3).
  - done.
  - repeat constructor; done.
  - cbn. lia.
  - exists calls. split_and!; [done|done| |apply H3..];
      assert (calls = message_calls ms) as -> by (vm_compute in H1; by injection H1 as <-);
      by vm_compute.
Defined.

(** C18: The processors agree in the middle of a stream. Cut a stream of messages (each
    of at most 2^31 - 6 bytes) anywhere, into any chunks, not the same ones on the two
    platforms: both have delivered the same messages, which are those the bytes have
    completed, and both keep the same bytes, which are a part of the next. *)
Theorem grpc_processors_agree `{!SwiftInt} (ms chunks chunks' : list (list byte)) (stack : nat) :
  (2 ^ 31 - 1 ≤ Int_max)%Z → Forall (fits (2 ^ 31 - 6)) ms → 3 * length ms + 3 ≤ stack →
  concat chunks `prefix_of` concat (frame <$> ms) → concat chunks' = concat chunks →
  ∃ p p' delivered tail,
    for_each chunks (Swift.onData stack) Swift.setOnResponseMessage = Ok (tt, p) ∧
    for_each (ByteBuffer_wrap <$> chunks') (Kotlin.onData stack) Kotlin.setOnResponseMessage =
      Ok (tt, p') ∧
    delivered `prefix_of` ms ∧ concat chunks = concat (frame <$> delivered) ++ tail ∧
    partial (2 ^ 31 - 6) tail ∧
    Swift.messages p = delivered ∧ Kotlin.messages p' = delivered ∧
    Swift.buffer p = tail ∧ Kotlin.byteBufferedOutputStream p' = tail.
Proof.
  intros HInt Hms Hstack Hpre Hchunks. rewrite for_each_fmap.
  assert (MessageReaderLaws Swift.Processor (2 ^ 31 - 6)) by (apply swift_reader_laws; lia).
  assert (MessageReaderLaws Kotlin.Processor (2 ^ 31 - 6)) by (apply kotlin_reader_laws; lia).
  destruct (feed_all_cut (St := Swift.Processor) (2 ^ 31 - 6) ltac:(lia) stack chunks ms)
    as (p & dn & tail & Hrun & _ & Hdn & Htail & Heq & Hm & Hk); [done..|].
  destruct (feed_all_cut (St := Kotlin.Processor) (2 ^ 31 - 6) ltac:(lia) stack chunks' ms)
    as (p' & dn' & tail' & Hrun' & _ & Hdn' & Htail' & Heq' & Hm' & Hk'); [done|by rewrite Hchunks|done|].
  assert (dn' = dn ∧ tail' = tail) as [-> ->].
  { rewrite Hchunks, Heq in Heq'. destruct (prefix_weak_total dn dn' ms Hdn Hdn') as [Hle|Hle].
    - symmetry in Heq'. eapply cut_unique in Heq'; eauto using Forall_prefix. lia.
    - eapply cut_unique in Heq' as [-> ->]; eauto using Forall_prefix. lia. }
  by exists p, p', dn, tail.
Qed.

Lemma grpc_processors_agree_witness :
  let ms := [[x01; x02]; [x03]] in
  ∃ p p' delivered tail,
    for_each [[x00; x00; x00]; [x00; x02; x01; x02; x00]] (Swift.onData (H := Int_32) 9)
      Swift.setOnResponseMessage = Ok (tt, p) ∧
    for_each (ByteBuffer_wrap <$> [[x00; x00; x00; x00; x02; x01; x02]; [x00]]) (Kotlin.onData 9)
      Kotlin.setOnResponseMessage = Ok (tt, p') ∧
    delivered `prefix_of` ms ∧
    concat [[x00; x00; x00]; [x00; x02; x01; x02; x00]] = concat (frame <$> delivered) ++ tail ∧
    partial (2 ^ 31 - 6) tail ∧
    Swift.messages p = delivered ∧ Kotlin.messages p' = delivered ∧
    Swift.buffer p = tail ∧ Kotlin.byteBufferedOutputStream p' = tail.
Proof.
  intros ms. apply (grpc_processors_agree (H := Int_32) ms).
  - done.
  - repeat constructor; done.
  - cbn. lia.
  - by exists [x00; x00; x00; x01; x03].
  - done.
Defined.

(** ** What the processors do with other bytes *)

Section any_bytes.
Import Swift.

Definition state_typed (s : State) : Prop :=
  if s is expectingMessage n then (n < 2 ^ 32)%N else True.

(** Calls left before a call returns or a message is taken from the buffer. *)
Definition rank (s : State) : nat :=
  match s with
  | expectingCompressionFlag => 3
  | expectingMessageLength => 2
  | expectingMessage _ => 1
  end.

Lemma byteSwapped_bound n : (byteSwapped n < 2 ^ 32)%N.
Proof.
  unfold byteSwapped. pose proof (le_value_bound (reverse (le_bytes 4 n))) as H.
  by rewrite length_reverse, length_le_bytes in H.
Qed.

Lemma processBuffer_returns stack p :
  state_typed (state p) → length (buffer p) + rank (state p) ≤ stack →
  wp (processBuffer (H := Int_64) stack) no_fault
    (λ _ p', state_typed (state p') ∧ messages p `prefix_of` messages p' ∧
       length (buffer p') ≤ length (buffer p)) p.
Proof.
  revert p. induction stack as [|stack IH]; intros p Hty Hstack.
  { destruct (state p); cbn in Hstack; lia. }
  cbn [processBuffer]. wp_pures. destruct (state p) as [| |n] eqn:Hs; cbn [rank] in Hstack.
  - case_match; [|by apply wp_ret; rewrite Hs]. case_decide; wp_pures; [|cbn; split_and!; [done|done|lia]].
    apply (IH (with_state _ p)); cbn; lia || done.
  - case_match; [|by apply wp_ret; rewrite Hs]. wp_pures.
    apply (IH (with_state _ p)); cbn; [apply byteSwapped_bound|lia].
  - cbn in Hty. unfold trap_unless, kGRPCPrefixLength.
    rewrite bool_decide_true by (change (Int_max (SwiftInt := Int_64)) with (2 ^ 63 - 1)%Z; lia).
    wp_pures. case_decide; [by apply wp_ret; rewrite Hs|]. wp_pures.
    apply (wp_conseq _ _ (λ _ p', ∃ m, p' = {| buffer := buffer p; state := state p; messages := messages p ++ [m] |})).
    { case_decide; apply wp_modify; eauto. }
    intros _ p' [m ->]. wp_pures. eapply wp_conseq; [apply IH; cbn|cbn].
    + done.
    + rewrite length_drop. lia.
    + intros _ p'' (H1 & H2 & H3). split_and!; [done| |].
      * etrans; [|done]. by eexists.
      * etrans; [done|]. rewrite length_drop. lia.
Qed.
End any_bytes.

(** C19: On 64-bit devices the Swift processor takes any bytes. Whatever it keeps and
    whatever comes in, messages or not, a call returns without a fault when there is
    stack for as many calls as there are bytes and three more; no message it has
    delivered changes, and the bytes it keeps are no more than those it had and got. *)
Theorem swift_processing_terminates (p : Swift.Processor) (chunk : list byte) (stack : nat) :
  state_typed (Swift.state p) → length (Swift.buffer p) + length chunk + 3 ≤ stack →
  ∃ p', Swift.onData (H := Int_64) stack chunk p = Ok (tt, p') ∧ state_typed (Swift.state p') ∧
    Swift.messages p `prefix_of` Swift.messages p' ∧
    length (Swift.buffer p') ≤ length (Swift.buffer p) + length chunk.
Proof.
  intros Hty Hstack.
  destruct (wp_total _ _ _ (processBuffer_returns stack
    (Swift.with_buffer (Swift.buffer p ++ chunk) p) Hty ltac:(cbn; rewrite length_app; destruct (Swift.state p); cbn; lia)))
    as ([] & p' & Hrun & H1 & H2 & H3).
  exists p'. cbn in H3. rewrite length_app in H3. by split_and!.
Qed.

Lemma swift_processing_terminates_witness :
  let p := {| Swift.buffer := [x00; x00; x00; x00; x00]; Swift.state := Swift.expectingMessage 0;
              Swift.messages := [] |} in
  let chunk := [x00; xff; xff; xff; xfb; x01; x02] in
  ∃ p', Swift.onData (H := Int_64) 15 chunk p = Ok (tt, p') ∧ state_typed (Swift.state p') ∧
    Swift.messages p `prefix_of` Swift.messages p' ∧
    length (Swift.buffer p') ≤ length (Swift.buffer p) + length chunk.
Proof. intros p chunk. apply (swift_processing_terminates p chunk 15); [done|cbn; lia]. Defined.

(** A length of 2^32 - 5 comes to a prefix of no bytes: the same bytes are read again. *)
Lemma kotlin_loops stack n st out :
  st = Kotlin.CompressionFlag ∨ st = Kotlin.MessageLength ∨ st = Kotlin.Message (-5) →
  Kotlin.processData stack st
    {| Kotlin.byteBufferedOutputStream := [x00; xff; xff; xff; xfb]; Kotlin.processState := n;
       Kotlin.messages := out |} = Fault (Thrown "StackOverflowError").
Proof.
  revert st out. induction stack as [|stack IH]; intros st out Hst; [done|].
  destruct Hst as [->|[->| ->]].
  - exact (IH Kotlin.MessageLength out ltac:(eauto)).
  - exact (IH (Kotlin.Message (-5)) out ltac:(eauto)).
  - exact (IH Kotlin.CompressionFlag (out ++ [[]]) ltac:(eauto)).
Qed.

(** Kotlin's sum of the prefix and a length that does not fit in an Int. *)
Lemma s32_wrap z : (2 ^ 31 ≤ z < 2 ^ 32 + 2 ^ 31)%Z → s32 z = (z - 2 ^ 32)%Z.
Proof.
  intros Hz. unfold s32, wrap_signed.
  rewrite <- (Z.mod_unique (z + 2 ^ (32 - 1)) (2 ^ 32) 1 (z - 2 ^ 31)); lia.
Qed.

(** The first two calls read the flag and the length. *)
Lemma kotlin_prefix_read stack n b1 b2 b3 b4 :
  be_bytes n = [b1; b2; b3; b4] → (n < 2 ^ 32)%N →
  Kotlin.onData (S (S stack)) (ByteBuffer_wrap (x00 :: be_bytes n)) Kotlin.setOnResponseMessage =
  (Kotlin.processData stack (Kotlin.Message (s32 (Z.of_N n))) ≫= λ st, modify (Kotlin.with_state st))
    {| Kotlin.byteBufferedOutputStream := x00 :: be_bytes n;
       Kotlin.processState := Kotlin.CompressionFlag; Kotlin.messages := [] |}.
Proof.
  intros Hb Hn. unfold Kotlin.onData. cbn [ByteBuffer_wrap bb_hasArray bb_content].
  erewrite bind_run by reflexivity. erewrite bind_run by reflexivity.
  unfold mbind, M_bind, Kotlin.with_buffer, Kotlin.setOnResponseMessage.
  cbn [Kotlin.byteBufferedOutputStream Kotlin.processState Kotlin.messages app].
  rewrite Hb, kotlin_flag_step, kotlin_length_step, <- Hb. unfold getInt. by rewrite be_value_be_bytes.
Qed.

(** C30: A length from 2^31 - 5 on breaks the Kotlin processor. Let a prefix with the
    length [n] come in. Where Int has 64 bits, Swift waits for the message; on a 32-bit
    device its addition overflows and the program stops. Kotlin adds in 32 bits and reads a
    negative end: it throws IndexOutOfBoundsException; or, for 2^32 - 5, calls the
    closure with an empty message and itself until the stack is used up, however large
    it is; or, for the four lengths above, delivers one empty message, drops what it has,
    and takes what comes next for a prefix whose flag it has seen. *)
Theorem kotlin_long_messages (n : N) (stack : nat) :
  (2 ^ 31 - 5 ≤ n < 2 ^ 32)%N → 5 ≤ stack →
  let prefix := x00 :: be_bytes n in
  let kotlin := Kotlin.onData stack (ByteBuffer_wrap prefix) Kotlin.setOnResponseMessage in
  Swift.onData (H := Int_64) stack prefix Swift.setOnResponseMessage =
    Ok (tt, {| Swift.buffer := prefix; Swift.state := Swift.expectingMessage n;
               Swift.messages := [] |}) ∧
  Swift.onData (H := Int_32) stack prefix Swift.setOnResponseMessage =
    Fault (Panic "arithmetic overflow") ∧
  ((n < 2 ^ 32 - 5)%N → kotlin = Fault (Thrown "IndexOutOfBoundsException")) ∧
  (n = (2 ^ 32 - 5)%N → kotlin = Fault (Thrown "StackOverflowError")) ∧
  ((2 ^ 32 - 5 < n)%N →
   kotlin = Ok (tt, {| Kotlin.byteBufferedOutputStream := [];
                       Kotlin.processState := Kotlin.MessageLength;
                       Kotlin.messages := [[]] |})).
Proof.
  intros Hn Hstack prefix kotlin. subst prefix kotlin.
  destruct (be_bytes_4 n) as (b1 & b2 & b3 & b4 & Hb & Hv).
  do 3 (destruct stack as [|stack]; [lia|]). split_and!.
  - rewrite Hb. unfold Swift.onData. erewrite bind_run by reflexivity.
    unfold Swift.with_buffer, Swift.setOnResponseMessage.
    cbn [Swift.buffer Swift.state Swift.messages app].
    rewrite flag_step, length_step, Hv by lia. apply message_short.
    change (Int_max (SwiftInt := Int_64)) with (2 ^ 63 - 1)%Z. cbn [length]. lia.
  - rewrite Hb. unfold Swift.onData. erewrite bind_run by reflexivity.
    unfold Swift.with_buffer, Swift.setOnResponseMessage.
    cbn [Swift.buffer Swift.state Swift.messages app].
    rewrite flag_step, length_step, Hv by lia. apply message_overflows.
    change (Int_max (SwiftInt := Int_32)) with (2 ^ 31 - 1)%Z. lia.
  - intros Hn5. rewrite (kotlin_prefix_read (S stack) n b1 b2 b3 b4) by (done || lia).
    unfold mbind, M_bind. rewrite kotlin_negative_step; [done| |done].
    destruct (decide (n < 2 ^ 31)%N) as [Hlt|Hge].
    + rewrite (s32_small (Z.of_N n)), s32_wrap by lia. lia.
    + rewrite (s32_wrap (Z.of_N n)), s32_small by lia. lia.
  - intros ->. rewrite (kotlin_prefix_read (S stack) _ b1 b2 b3 b4) by done.
    unfold mbind, M_bind. replace (be_bytes (2 ^ 32 - 5)) with [xff; xff; xff; xfb] by done.
    replace (s32 (Z.of_N (2 ^ 32 - 5))) with (-5)%Z by done.
    rewrite (kotlin_loops (S stack) Kotlin.CompressionFlag (Kotlin.Message (-5)) []); auto.
  - intros Hn5. rewrite (kotlin_prefix_read (S stack) n b1 b2 b3 b4) by (done || lia).
    assert (n = 2 ^ 32 - 4 ∨ n = 2 ^ 32 - 3 ∨ n = 2 ^ 32 - 2 ∨ n = 2 ^ 32 - 1)%N
      as [->|[->|[->| ->]]] by lia; destruct stack as [|[|stack]]; lia || done.
Qed.

Lemma kotlin_long_messages_witness :
  let prefix := x00 :: be_bytes (2 ^ 31) in
  Swift.onData (H := Int_64) 9 prefix Swift.setOnResponseMessage =
    Ok (tt, {| Swift.buffer := prefix; Swift.state := Swift.expectingMessage (2 ^ 31);
               Swift.messages := [] |}) ∧
  Kotlin.onData 9 (ByteBuffer_wrap prefix) Kotlin.setOnResponseMessage =
    Fault (Thrown "IndexOutOfBoundsException").
Proof.
  destruct (kotlin_long_messages (2 ^ 31) 9) as (H1 & _ & H2 & _); [done|lia|].
  split; [exact H1|by apply H2].
Defined.

(** A message with a flag of its own. *)
Definition flagged_frame (flag : byte) (m : list byte) : list byte :=
  flag :: be_bytes (N.of_nat (length m)) ++ m.

Lemma to_N_nonzero f : f ≠ x00 → Byte.to_N f ≠ 0%N.
Proof. intros Hf Hz. apply Hf. pose proof (Byte.of_to_N f) as H. rewrite Hz in H. by injection H. Qed.

Lemma swift_drops `{!SwiftInt} stack f m :
  f ≠ x00 → Swift.onData (S stack) (flagged_frame f m) Swift.setOnResponseMessage =
    Ok (tt, Swift.setOnResponseMessage).
Proof.
  intros Hf%to_N_nonzero. unfold Swift.onData, flagged_frame. erewrite bind_run by reflexivity.
  cbn [Swift.processBuffer]. do 2 (erewrite bind_run by reflexivity).
  unfold Swift.with_buffer, Swift.setOnResponseMessage. cbn [Swift.state Swift.buffer app].
  unfold integer. rewrite decide_False by (cbn [length]; lia). change (Z.to_nat 0) with 0.
  rewrite drop_0. cbn [take le_value]. by rewrite take_0, N.add_0_r, decide_False.
Qed.

Lemma kotlin_drops stack f m :
  f ≠ x00 →
  Kotlin.onData (S (S stack)) (ByteBuffer_wrap (flagged_frame f m)) Kotlin.setOnResponseMessage =
  Ok (tt, {| Kotlin.byteBufferedOutputStream := []; Kotlin.processState := Kotlin.MessageLength;
             Kotlin.messages := [] |}).
Proof.
  intros Hf%to_N_nonzero. unfold Kotlin.onData, flagged_frame. do 2 (erewrite bind_run by reflexivity).
  cbn. unfold mbind, M_bind, gets, Kotlin.with_buffer. cbn. by rewrite bool_decide_true.
Qed.

(** Compressed messages are not dropped alike. A chunk that starts with a flag other
    than 0 is thrown away. Swift then expects a flag again, and throws away the next
    compressed message as well. Kotlin expects the length: when the next message comes,
    compressed or not, its flag is not looked at, and the application gets the compressed
    bytes for a message. *)
Theorem compressed_messages `{!SwiftInt} (f1 f2 : byte) (m1 m2 : list byte) (stack : nat) :
  f1 ≠ x00 → f2 ≠ x00 → fits (2 ^ 31 - 6) m2 → 3 ≤ stack →
  let chunks := [flagged_frame f1 m1; flagged_frame f2 m2] in
  for_each chunks (Swift.onData stack) Swift.setOnResponseMessage =
    Ok (tt, Swift.setOnResponseMessage) ∧
  for_each (ByteBuffer_wrap <$> chunks) (Kotlin.onData stack) Kotlin.setOnResponseMessage =
    Ok (tt, {| Kotlin.byteBufferedOutputStream := [];
               Kotlin.processState := Kotlin.CompressionFlag; Kotlin.messages := [m2] |}).
Proof.
  intros Hf1 Hf2 Hm2 Hstack chunks. do 3 (destruct stack as [|stack]; [lia|]). unfold fits in Hm2.
  unfold chunks, for_each. cbn [fmap list_fmap foldr]. split.
  - by do 2 (erewrite bind_run by (by apply swift_drops)).
  - erewrite bind_run by (by apply kotlin_drops). erewrite bind_run; [done|].
    unfold Kotlin.onData, flagged_frame. do 2 (erewrite bind_run by reflexivity).
    unfold Kotlin.with_buffer.
    cbn [ByteBuffer_wrap bb_hasArray bb_content Kotlin.byteBufferedOutputStream Kotlin.processState Kotlin.messages app].
    destruct (be_bytes_4 (N.of_nat (length m2))) as (b1 & b2 & b3 & b4 & -> & Hn).
    assert (Hrun := kotlin_message_step (2 ^ 31 - 6) ltac:(lia) (S stack) f2 b1 b2 b3 b4 m2 []
                      Kotlin.MessageLength [] Hm2).
    rewrite app_nil_r, <- nat_N_Z, <- Hn, <- getInt_small, <- kotlin_length_step in Hrun by (done || lia).
    by rewrite (bind_run _ _ _ _ _ Hrun).
Qed.

Lemma compressed_messages_witness :
  let chunks := [flagged_frame x01 [x0a]; flagged_frame x01 [x0b; x0c]] in
  for_each chunks (Swift.onData (H := Int_64) 3) Swift.setOnResponseMessage =
    Ok (tt, Swift.setOnResponseMessage) ∧
  for_each (ByteBuffer_wrap <$> chunks) (Kotlin.onData 3) Kotlin.setOnResponseMessage =
    Ok (tt, {| Kotlin.byteBufferedOutputStream := [];
               Kotlin.processState := Kotlin.CompressionFlag; Kotlin.messages := [[x0b; x0c]] |}).
Proof. apply (compressed_messages (H := Int_64)); [done|done|done|lia]. Defined.

(** Kotlin sends the array behind a buffer. sendMessage takes the length from the
    position and the limit of the ByteBuffer, and the bytes from its array or its whole
    memory: what is sent is the frame of what the buffer holds exactly if the buffer
    starts at 0 and ends with its array. A buffer without an accessible array raises
    UnsupportedOperationException; by then the prefix is sent. *)
Theorem kotlin_sends_whole_array (b : ByteBuffer) (calls : Sent) :
  (0 ≤ bb_position b ≤ bb_limit b)%Z → (bb_limit b ≤ Z.of_nat (length (bb_content b)) < 2 ^ 31)%Z →
  let message := subdata (bb_position b) (bb_limit b) (bb_content b) in
  (bb_isDirect b = true ∨ bb_hasArray b = true →
   ∃ sent, Kotlin.sendMessage b calls = Ok (tt, calls ++ sent) ∧
     (concat sent.*1 = frame message ↔
      bb_position b = 0%Z ∧ bb_limit b = Z.of_nat (length (bb_content b)))) ∧
  (bb_isDirect b = false → bb_hasArray b = false →
   Kotlin.sendMessage b calls = Fault (Thrown "UnsupportedOperationException") ∧
   Kotlin.EnvoyHTTPStream_sendData
     (ByteBuffer_wrap (x00 :: be_bytes (N.of_nat (length message)))) false calls =
     Ok (tt, calls ++ [(x00 :: be_bytes (N.of_nat (length message)), false)])).
Proof.
  intros Hpos Hlim message.
  assert (Z.of_nat (length message) = bb_remaining b) as Hlen.
  { unfold message, subdata, bb_remaining. rewrite length_take, length_drop. lia. }
  split.
  - intros Hb. eexists. split.
    { apply kotlin_sendMessage_run; [done|]. unfold bb_remaining. lia. }
    cbn [fmap list_fmap concat fst app]. rewrite app_nil_r. unfold frame.
    rewrite <- Hlen, <- nat_N_Z, N2Z.id. split.
    + intros Heq. injection Heq as Heq. apply (f_equal length) in Heq.
      unfold bb_remaining in Hlen. lia.
    + intros [H0 Hend]. unfold message, subdata. rewrite H0, Hend, take_ge; [done|]. rewrite length_drop. lia.
  - intros Hd Ha. split; [|done]. unfold Kotlin.sendMessage. erewrite bind_run by reflexivity.
    unfold Kotlin.EnvoyHTTPStream_sendData. by rewrite Hd, Ha.
Qed.

Lemma kotlin_sends_whole_array_witness :
  let b := {| bb_content := [x01; x02; x03]; bb_position := 1; bb_limit := 3;
              bb_isDirect := false; bb_hasArray := true |} in
  ∃ sent, Kotlin.sendMessage b [] = Ok (tt, sent) ∧
    ¬ concat sent.*1 = frame [x02; x03].
Proof.
  destruct (kotlin_sends_whole_array
    {| bb_content := [x01; x02; x03]; bb_position := 1; bb_limit := 3;
       bb_isDirect := false; bb_hasArray := true |} []) as [H _]; [cbn; lia|cbn; lia|].
  destruct (H (or_intror eq_refl)) as (sent & Hrun & Hiff). exists sent. split; [exact Hrun|].
  intros Heq. by destruct (proj1 Hiff Heq) as [? _].
Defined.
