(* ===== verification/RetryPolicy.v ===== *)
(** * Retry policies of the two platforms

    RetryPolicy.swift and RetryPolicyMapper.swift (under src/library/swift/src/),
    RetryPolicy.kt and RetryPolicyMapper.kt (under src/library/kotlin/src/): a policy of
    the application is turned into headers that Envoy knows, and read from them again.
    Strings are UTF-8; the case of letters matters to the code for ASCII only. *)

From S2P Require Export Foundation EnvoyIface.
From Stdlib Require Import Strings.Ascii.
From stdpp Require Import pretty.

(** The dictionaries and maps of header names to values. Their order of enumeration is
    not fixed: a Swift dictionary has any, a LinkedHashMap that of the insertions. *)
Abbreviation HeaderValues := (gmap string (list string)).

Class EntryOrder := entries_in_order : HeaderValues → list (string * list string).
Class EntryOrderLaws `{!EntryOrder} : Prop :=
  entries_in_order_perm (h : HeaderValues) : entries_in_order h ≡ₚ map_to_list h.

(** ** Strings *)

Definition is_between (lo hi : nat) (a : Ascii.ascii) : bool :=
  (lo <=? Ascii.nat_of_ascii a) && (Ascii.nat_of_ascii a <=? hi).
Definition lowercase_ascii (a : Ascii.ascii) : Ascii.ascii :=
  if is_between 65 90 a then Ascii.ascii_of_nat (Ascii.nat_of_ascii a + 32) else a.
Definition uppercase_ascii (a : Ascii.ascii) : Ascii.ascii :=
  if is_between 97 122 a then Ascii.ascii_of_nat (Ascii.nat_of_ascii a - 32) else a.

Fixpoint map_string (f : Ascii.ascii → Ascii.ascii) (s : string) : string :=
  match s with
  | EmptyString => EmptyString
  | String a s => String (f a) (map_string f s)
  end.
Definition lowercased : string → string := map_string lowercase_ascii.
Definition uppercased : string → string := map_string uppercase_ascii.

(** The decimal digits of ASCII; an optional sign; and no more than the type holds. *)
Fixpoint parse_decimal (acc : Z) (s : string) : option Z :=
  match s with
  | EmptyString => Some acc
  | String a s =>
      if is_between 48 57 a
      then parse_decimal (10 * acc + (Z.of_nat (Ascii.nat_of_ascii a) - 48)) s
      else None
  end.

Definition parse_digits1 (s : string) : option Z :=
  match s with EmptyString => None | _ => parse_decimal 0 s end.

Definition parse_integer (s : string) : option Z :=
  match s with
  | String "-"%char s => Z.opp <$> parse_digits1 s
  | String "+"%char s => parse_digits1 s
  | _ => parse_digits1 s
  end.

Definition parse_within (lo hi : Z) (s : string) : option Z :=
  z ← parse_integer s; if decide (lo ≤ z ≤ hi)%Z then Some z else None.

(** Swift's [UInt.init], and Kotlin's toIntOrNull and toLongOrNull. *)
Definition UInt_max `{!SwiftInt} : Z := (2 * Int_max + 1)%Z.
Definition UInt_init `{!SwiftInt} : string → option Z := parse_within 0 UInt_max.
Definition toIntOrNull : string → option Z := parse_within (- 2 ^ 31) (2 ^ 31 - 1).
Definition toLongOrNull : string → option Z := parse_within (- 2 ^ 63) (2 ^ 63 - 1).

(** ** Rules *)

Inductive RetryRule :=
| status5xx | gatewayError | connectFailure | refusedStream
| retriable4xx | retriableHeaders | reset.

#[export] Instance RetryRule_eq_dec : EqDecision RetryRule.
Proof. solve_decision. Defined.

Definition RetryRule_stringValue (rule : RetryRule) : string :=
  match rule with
  | status5xx => "5xx"
  | gatewayError => "gateway-error"
  | connectFailure => "connect-failure"
  | refusedStream => "refused-stream"
  | retriable4xx => "retriable-4xx"
  | retriableHeaders => "retriable-headers"
  | reset => "reset"
  end.

(** What both switches say of a string: a rule, nil, or neither. *)
Definition rule_of (s : string) : option (option RetryRule) :=
  if decide (s = "5xx") then Some (Some status5xx)
  else if decide (s = "gateway-error") then Some (Some gatewayError)
  else if decide (s = "connect-failure") then Some (Some connectFailure)
  else if decide (s = "refused-stream") then Some (Some refusedStream)
  else if decide (s = "retriable-4xx") then Some (Some retriable4xx)
  else if decide (s = "retriable-headers") then Some (Some retriableHeaders)
  else if decide (s = "reset") then Some (Some reset)
  else if decide (s = "retriable-status-codes") then Some None
  else None.

(** [init?(stringValue:)], in Swift *)
Definition RetryRule_init {St} (stringValue : string) : M St (option RetryRule) :=
  match rule_of (lowercased stringValue) with
  | Some rule => mret rule
  | None => fail (Panic "invalid value")
  end.

(** [enumValue], in Kotlin: the case matters. *)
Definition RetryRule_enumValue {St} (stringRepresentation : string) : M St (option RetryRule) :=
  match rule_of stringRepresentation with
  | Some rule => mret rule
  | None => fail (Thrown "IllegalArgumentException")
  end.

(** compactMap, and map followed by filterNotNull. *)
Fixpoint compactMap {St A B} (f : A → M St (option B)) (l : list A) : M St (list B) :=
  match l with
  | [] => mret []
  | a :: l => b ← f a; bs ← compactMap f l; mret (match b with Some b => b :: bs | None => bs end)
  end.

(** ** Policies *)

Record RetryPolicy := {
  maxRetryCount : Z;
  retryOn : list RetryRule;
  retryStatusCodes : list Z;
  perRetryTimeoutMS : option Z;
  totalUpstreamTimeoutMS : option Z
}.

(** [perRetryTimeoutMS <= totalUpstreamTimeoutMS || totalUpstreamTimeoutMS == 0], when
    both are given. *)
Definition timeouts_fit (p : RetryPolicy) : bool :=
  match perRetryTimeoutMS p, totalUpstreamTimeoutMS p with
  | Some per, Some total => bool_decide (per ≤ total ∨ total = 0)%Z
  | _, _ => true
  end.

(** The initialiser of Swift: [assert] is checked in debug builds. *)
Definition RetryPolicy_init {St} {mode : BuildMode} (p : RetryPolicy) : M St RetryPolicy :=
  ASSERT (timeouts_fit p) "Per-retry timeout cannot be less than total timeout" ;;
  mret p.

(** The constructor of Kotlin. *)
Definition RetryPolicy_constructor {St} (p : RetryPolicy) : M St RetryPolicy :=
  match perRetryTimeoutMS p, totalUpstreamTimeoutMS p with
  | Some per, Some total =>
      if decide (per > total ∧ total ≠ 0)%Z then fail (Thrown "IllegalArgumentException")
      else mret p
  | _, _ => mret p
  end.

(** [value(forName:)?.first], and [value(name)?.firstOrNull()]. *)
Definition first_value (headers : HeaderValues) (name : string) : option string :=
  values ← headers !! name; head values.

(** ** To headers *)

Module SwiftMapper.
Definition outboundHeaders (p : RetryPolicy) : HeaderValues :=
  let headers : HeaderValues :=
    <["x-envoy-max-retries" := [pretty (maxRetryCount p)]]>
      {["x-envoy-upstream-rq-timeout-ms" := [pretty (default 0%Z (totalUpstreamTimeoutMS p))]]} in
  let rules := RetryRule_stringValue <$> retryOn p in
  let '(rules, headers) :=
    (if decide (retryStatusCodes p = []) then (rules, headers)
     else (rules ++ ["retriable-status-codes"],
           <["x-envoy-retriable-status-codes" := pretty <$> retryStatusCodes p]> headers)) in
  let headers := <["x-envoy-retry-on" := rules]> headers in
  match perRetryTimeoutMS p with
  | Some per => <["x-envoy-upstream-rq-per-try-timeout-ms" := [pretty per]]> headers
  | None => headers
  end.

(** [from(headers:)] *)
Definition from {St} {mode : BuildMode} `{!SwiftInt} (headers : HeaderValues) :
    M St (option RetryPolicy) :=
  let value (name : string) := headers !! name in
  match first_value headers "x-envoy-max-retries" ≫= UInt_init with
  | None => mret None
  | Some maxRetryCount =>
      rules ← compactMap RetryRule_init (default [] (value "x-envoy-retry-on"));
      policy ← RetryPolicy_init {|
        maxRetryCount := maxRetryCount;
        retryOn := rules;
        retryStatusCodes := omap UInt_init (default [] (value "x-envoy-retriable-status-codes"));
        perRetryTimeoutMS := first_value headers "x-envoy-upstream-rq-per-try-timeout-ms" ≫= UInt_init;
        totalUpstreamTimeoutMS := first_value headers "x-envoy-upstream-rq-timeout-ms" ≫= UInt_init
      |};
      mret (Some policy)
  end.
End SwiftMapper.

Module KotlinMapper.
Definition outboundHeaders (p : RetryPolicy) : HeaderValues :=
  let upstreamTimeoutMS := default 0%Z (totalUpstreamTimeoutMS p) in
  let headers : HeaderValues :=
    <["x-envoy-max-retries" := [pretty (maxRetryCount p)]]>
      {["x-envoy-upstream-rq-timeout-ms" := [pretty upstreamTimeoutMS]]} in
  let headers :=
    match perRetryTimeoutMS p with
    | Some per => <["x-envoy-upstream-rq-per-try-timeout-ms" := [pretty per]]> headers
    | None => headers
    end in
  let rules := RetryRule_stringValue <$> retryOn p in
  let '(rules, headers) :=
    (if decide (retryStatusCodes p = []) then (rules, headers)
     else (rules ++ ["retriable-status-codes"],
           <["x-envoy-retriable-status-codes" := pretty <$> retryStatusCodes p]> headers)) in
  <["x-envoy-retry-on" := rules]> headers.

(** [first()] of a list: it throws when the list is empty. *)
Definition first {St A} (l : list A) : M St A :=
  match l with
  | a :: _ => mret a
  | [] => fail (Thrown "NoSuchElementException")
  end.

(** [from], of the companion object: [first()] for the number of retries, firstOrNull()
    for the timeouts. *)
Definition from {St} (headers : HeaderValues) : M St (option RetryPolicy) :=
  let value (name : string) := headers !! name in
  maxRetries ← (match value "x-envoy-max-retries" with
                | Some values => v ← first values; mret (toIntOrNull v)
                | None => mret None
                end);
  match maxRetries with
  | None => mret None
  | Some maxRetries =>
      rules ← compactMap RetryRule_enumValue (default [] (value "x-envoy-retry-on"));
      policy ← RetryPolicy_constructor {|
        maxRetryCount := maxRetries;
        retryOn := rules;
        retryStatusCodes := omap toIntOrNull (default [] (value "x-envoy-retriable-status-codes"));
        perRetryTimeoutMS := first_value headers "x-envoy-upstream-rq-per-try-timeout-ms" ≫= toLongOrNull;
        totalUpstreamTimeoutMS := first_value headers "x-envoy-upstream-rq-timeout-ms" ≫= toLongOrNull
      |};
      mret (Some policy)
  end.
End KotlinMapper.
