(* ===== verification/Headers.v ===== *)
(** * The header builders of the two platforms

    HeadersBuilder, RequestHeadersBuilder, GRPCRequestHeadersBuilder and RequestHeaders
    of Swift (under src/library/swift/src/) and Kotlin (under src/library/kotlin/src/).
    In Swift a builder has a dictionary of arrays, which are values: the module [Swift]
    has functions from dictionaries to dictionaries. In Kotlin it has a map of lists,
    which are objects: the module [Kotlin] has computations on a store of maps and
    lists. *)

From S2P Require Export RetryPolicy.
From stdpp Require Import pretty.

(** ** Names, methods and protocols *)

Definition kRestrictedPrefixes : list string := [":"; "x-envoy-mobile"].

(** [hasPrefix] and [startsWith] *)
Definition isRestrictedHeader (name : string) : bool :=
  existsb (λ p, String.prefix p name) kRestrictedPrefixes.

Inductive RequestMethod := DELETE | GET | HEAD | OPTIONS | PATCH | POST | PUT | TRACE.

Definition RequestMethod_stringValue (m : RequestMethod) : string :=
  match m with
  | DELETE => "DELETE" | GET => "GET" | HEAD => "HEAD" | OPTIONS => "OPTIONS"
  | PATCH => "PATCH" | POST => "POST" | PUT => "PUT" | TRACE => "TRACE"
  end.

Definition method_of (s : string) : option RequestMethod :=
  if decide (s = "DELETE") then Some DELETE
  else if decide (s = "GET") then Some GET
  else if decide (s = "HEAD") then Some HEAD
  else if decide (s = "OPTIONS") then Some OPTIONS
  else if decide (s = "PATCH") then Some PATCH
  else if decide (s = "POST") then Some POST
  else if decide (s = "PUT") then Some PUT
  else if decide (s = "TRACE") then Some TRACE
  else None.

(** [init(stringValue:)] of Swift, and [enumValue] of Kotlin. *)
Definition RequestMethod_init {St} (stringValue : string) : M St RequestMethod :=
  match method_of (uppercased stringValue) with
  | Some m => mret m
  | None => fail (Panic "invalid value")
  end.
Definition RequestMethod_enumValue {St} (stringRepresentation : string) : M St RequestMethod :=
  match method_of stringRepresentation with
  | Some m => mret m
  | None => fail (Thrown "IllegalArgumentException")
  end.

Inductive UpstreamHttpProtocol := http1 | http2.

Definition UpstreamHttpProtocol_stringValue (p : UpstreamHttpProtocol) : string :=
  match p with http1 => "http1" | http2 => "http2" end.
Definition protocol_of (s : string) : option UpstreamHttpProtocol :=
  if decide (s = "http1") then Some http1 else if decide (s = "http2") then Some http2 else None.
Definition UpstreamHttpProtocol_init {St} (stringValue : string) : M St UpstreamHttpProtocol :=
  match protocol_of (lowercased stringValue) with
  | Some p => mret p
  | None => fail (Panic "invalid value")
  end.

(** ** Swift *)

Module Swift.

(** HeadersBuilder *)
Definition add (name value : string) (headers : HeaderValues) : HeaderValues :=
  if isRestrictedHeader name then headers
  else <[name := default [] (headers !! name) ++ [value]]> headers.

Definition set (name : string) (value : list string) (headers : HeaderValues) : HeaderValues :=
  if isRestrictedHeader name then headers else <[name := value]> headers.

Definition remove (name : string) (headers : HeaderValues) : HeaderValues :=
  if isRestrictedHeader name then headers else delete name headers.

Definition internalSet (name : string) (value : list string) (headers : HeaderValues) : HeaderValues :=
  <[name := value]> headers.

(** RequestHeadersBuilder *)
Definition RequestHeadersBuilder_init (method : RequestMethod) (scheme authority path : string) :
    HeaderValues :=
  list_to_map [(":authority", [authority]); (":method", [RequestMethod_stringValue method]);
               (":path", [path]); (":scheme", [scheme])].

Definition addRetryPolicy `{!EntryOrder} (retryPolicy : RetryPolicy) (headers : HeaderValues) :
    HeaderValues :=
  foldl (λ headers entry, internalSet entry.1 entry.2 headers) headers
    (entries_in_order (SwiftMapper.outboundHeaders retryPolicy)).

Definition addUpstreamHttpProtocol (p : UpstreamHttpProtocol) (headers : HeaderValues) : HeaderValues :=
  internalSet "x-envoy-mobile-upstream-protocol" [UpstreamHttpProtocol_stringValue p] headers.

(** GRPCRequestHeadersBuilder *)
Definition GRPCRequestHeadersBuilder_init (scheme authority path : string) : HeaderValues :=
  list_to_map [(":authority", [authority]); (":method", ["POST"]); (":path", [path]);
               (":scheme", [scheme]); ("content-type", ["application/grpc"]);
               ("x-envoy-mobile-upstream-protocol", [UpstreamHttpProtocol_stringValue http2])].

Definition addTimeoutMs (timeoutMs : option Z) (headers : HeaderValues) : HeaderValues :=
  let headerName := "grpc-timeout" in
  match timeoutMs with
  | Some timeoutMs => set headerName [pretty timeoutMs +:+ "m"] headers
  | None => remove headerName headers
  end.

(** RequestHeaders: a forced unwrap of nil stops the program. *)
Definition unwrap {St A} (o : option A) : M St A :=
  match o with Some a => mret a | None => fail (Panic "unexpectedly found nil") end.

Definition method {St} (headers : HeaderValues) : M St RequestMethod :=
  value ← unwrap (first_value headers ":method"); RequestMethod_init value.
Definition scheme {St} (headers : HeaderValues) : M St string := unwrap (first_value headers ":scheme").
Definition authority {St} (headers : HeaderValues) : M St string :=
  unwrap (first_value headers ":authority").
Definition path {St} (headers : HeaderValues) : M St string := unwrap (first_value headers ":path").
Definition upstreamHttpProtocol {St} (headers : HeaderValues) : M St (option UpstreamHttpProtocol) :=
  match first_value headers "x-envoy-mobile-upstream-protocol" with
  | Some value => p ← UpstreamHttpProtocol_init value; mret (Some p)
  | None => mret None
  end.
Definition retryPolicy {St} {mode : BuildMode} `{!SwiftInt} (headers : HeaderValues) :
    M St (option RetryPolicy) := SwiftMapper.from headers.
End Swift.

(** ** Kotlin *)

(** The maps and lists of the program. A name of a map designates a list. *)
Record Objects := {
  lists : gmap positive (list string);
  maps : gmap positive (gmap string positive)
}.
Definition set_lists (l : gmap positive (list string)) (o : Objects) : Objects :=
  {| lists := l; maps := maps o |}.
Definition set_maps (m : gmap positive (gmap string positive)) (o : Objects) : Objects :=
  {| lists := lists o; maps := m |}.

Abbreviation K := (M Objects).

Definition new_list (values : list string) : K positive := λ o,
  let l := fresh (dom (lists o)) in Ok (l, set_lists (<[l := values]> (lists o)) o).
Definition new_map (entries : gmap string positive) : K positive := λ o,
  let m := fresh (dom (maps o)) in Ok (m, set_maps (<[m := entries]> (maps o)) o).
Definition get_list (l : positive) : K (list string) :=
  ls ← gets lists; deref "a list" (ls !! l).
Definition get_entries (m : positive) : K (gmap string positive) :=
  ms ← gets maps; deref "a map" (ms !! m).
Definition put_list (l : positive) (values : list string) : K unit :=
  modify (λ o, set_lists (<[l := values]> (lists o)) o).
Definition put_entries (m : positive) (entries : gmap string positive) : K unit :=
  modify (λ o, set_maps (<[m := entries]> (maps o)) o).

Module Kotlin.

(** HeadersBuilder; [this] is the builder's map. *)
Definition add (name value : string) (this : positive) : K unit :=
  if isRestrictedHeader name then mret tt
  else
    headers ← get_entries this;
    l ← (match headers !! name with
         | Some l => mret l
         | None => l ← new_list []; put_entries this (<[name := l]> headers) ;; mret l
         end);
    values ← get_list l;
    put_list l (values ++ [value]).

Definition internalSet (name : string) (value : positive) (this : positive) : K unit :=
  headers ← get_entries this; put_entries this (<[name := value]> headers).

(** The list is the caller's. *)
Definition set (name : string) (value : positive) (this : positive) : K unit :=
  if isRestrictedHeader name then mret tt
  else headers ← get_entries this; put_entries this (<[name := value]> headers).

Definition remove (name : string) (this : positive) : K unit :=
  if isRestrictedHeader name then mret tt
  else headers ← get_entries this; put_entries this (delete name headers).

(** mutableMapOf, with a list of one string for each name. *)
Fixpoint mutableMapOf (entries : list (string * string)) (m : gmap string positive) : K positive :=
  match entries with
  | [] => new_map m
  | (name, value) :: entries =>
      l ← new_list [value]; mutableMapOf entries (<[name := l]> m)
  end.

(** RequestHeadersBuilder *)
Definition RequestHeadersBuilder_constructor (method : RequestMethod)
    (scheme authority path : string) : K positive :=
  mutableMapOf [(":authority", authority); (":method", RequestMethod_stringValue method);
                (":path", path); (":scheme", scheme)] ∅.

Definition addRetryPolicy `{!EntryOrder} (retryPolicy : RetryPolicy) (this : positive) : K unit :=
  for_each (entries_in_order (KotlinMapper.outboundHeaders retryPolicy))
    (λ entry, l ← new_list entry.2; internalSet entry.1 l this).

Definition addUpstreamHttpProtocol (p : UpstreamHttpProtocol) (this : positive) : K unit :=
  l ← new_list [UpstreamHttpProtocol_stringValue p];
  internalSet "x-envoy-mobile-upstream-protocol" l this.

(** The headers that are built have the map of the builder. *)
Definition build (this : positive) : K positive := mret this.

(** [value] of Headers. *)
Definition value (name : string) (headers : positive) : K (option (list string)) :=
  m ← get_entries headers;
  match m !! name with
  | Some l => values ← get_list l; mret (Some values)
  | None => mret None
  end.

(** The names of a map with the strings of its lists. *)
Definition contents (o : Objects) (m : positive) : HeaderValues :=
  match maps o !! m with
  | Some entries => omap (λ l, lists o !! l) entries
  | None => ∅
  end.

(** The property is lazy: this is its first reading. *)
Definition retryPolicy (headers : positive) : K (option RetryPolicy) :=
  h ← gets (λ o, contents o headers); KotlinMapper.from h.

(** GRPCRequestHeadersBuilder *)
Definition GRPCRequestHeadersBuilder_constructor (scheme authority path : string) : K positive :=
  mutableMapOf [(":authority", authority); (":method", "POST"); (":path", path);
                (":scheme", scheme); ("content-type", "application/grpc");
                ("x-envoy-mobile-upstream-protocol", UpstreamHttpProtocol_stringValue http2)] ∅.

Definition addtimeoutMs (timeoutMs : option Z) (this : positive) : K unit :=
  let headerName := "grpc-timeout" in
  match timeoutMs with
  | None => remove headerName this
  | Some timeoutMs => add headerName (pretty timeoutMs +:+ "m") this
  end.

(** toRequestHeadersBuilder: a map of its own, with lists of their own. *)
Fixpoint copy_entries (entries : list (string * positive)) (m : gmap string positive) : K positive :=
  match entries with
  | [] => new_map m
  | (name, l) :: entries =>
      values ← get_list l; l' ← new_list values; copy_entries entries (<[name := l']> m)
  end.
Definition toRequestHeadersBuilder (headers : positive) : K positive :=
  m ← get_entries headers; copy_entries (map_to_list m) ∅.
End Kotlin.
