(* ===== verification/RetryPolicyProps.v ===== *)
(** * Retry policies in the headers

    Policies round-trip through the headers of both platforms; what the headers of an
    earlier policy do to a later one. *)

From S2P Require Export Headers.
From Stdlib Require Import ZArith Lia Strings.Ascii.
From stdpp Require Import pretty.

(** ** Integers as text *)

Lemma digit_code x : (x < 10)%N → nat_of_ascii (pretty_N_char x) = 48 + N.to_nat x.
Proof.
  intros Hx.
  assert (x = 0 ∨ x = 1 ∨ x = 2 ∨ x = 3 ∨ x = 4 ∨ x = 5 ∨ x = 6 ∨ x = 7 ∨ x = 8 ∨ x = 9)%N as H by lia.
  by destruct H as [->|[->|[->|[->|[->|[->|[->|[->|[->| ->]]]]]]]]].
Qed.

Lemma digit_between x : (x < 10)%N → is_between 48 57 (pretty_N_char x) = true.
Proof.
  intros Hx. unfold is_between. rewrite digit_code by done.
  apply andb_true_intro. split; apply Nat.leb_le; lia.
Qed.

Lemma parse_decimal_go x s : parse_decimal 0 (pretty_N_go x s) = parse_decimal (Z.of_N x) s.
Proof.
  revert s. induction (N.lt_wf_0 x) as [x _ IH]; intros s.
  destruct (decide (x = 0%N)) as [->|Hx]; [by rewrite pretty_N_go_0|].
  rewrite pretty_N_go_step, IH by (lia || by apply N.div_lt; lia).
  pose proof (N.mod_upper_bound x 10 ltac:(done)) as Hm.
  cbn [parse_decimal]. rewrite digit_between, digit_code by done.
  f_equal. pose proof (N.div_mod' x 10). lia.
Qed.

Lemma pretty_N_go_nonempty x s : s ≠ "" → pretty_N_go x s ≠ "".
Proof.
  revert s. induction (N.lt_wf_0 x) as [x _ IH]; intros s Hs.
  destruct (decide (x = 0%N)) as [->|Hx]; [by rewrite pretty_N_go_0|].
  rewrite pretty_N_go_step by lia. apply IH; [by apply N.div_lt; lia|done].
Qed.

Lemma parse_digits1_N (x : N) : parse_digits1 (pretty x) = Some (Z.of_N x).
Proof.
  unfold pretty, pretty_N. case_decide as Hx; [by subst|].
  assert (pretty_N_go x "" ≠ "") as Hne.
  { rewrite pretty_N_go_step by lia. by apply pretty_N_go_nonempty. }
  pose proof (parse_decimal_go x "") as Hp. unfold parse_digits1.
  by destruct (pretty_N_go x "").
Qed.

(** Digits are not a sign. *)
Lemma parse_integer_digits s z : parse_digits1 s = Some z → parse_integer s = Some z.
Proof.
  destruct s as [|a s]; [done|]. cbn. unfold is_between. intros H.
  destruct a as [[] [] [] [] [] [] [] []]; cbn in *; try done; exact H.
Qed.

Lemma parse_integer_pretty (z : Z) : parse_integer (pretty z) = Some z.
Proof.
  destruct z as [|p|p]; [done| |].
  - apply parse_integer_digits. exact (parse_digits1_N (N.pos p)).
  - change (Z.opp <$> parse_digits1 (pretty (N.pos p)) = Some (Z.neg p)). by rewrite parse_digits1_N.
Qed.

Lemma parse_within_pretty lo hi z : (lo ≤ z ≤ hi)%Z → parse_within lo hi (pretty z) = Some z.
Proof. intros Hz. unfold parse_within. rewrite parse_integer_pretty. cbn. by rewrite decide_True. Qed.

Lemma parse_all_pretty lo hi l :
  Forall (λ z, lo ≤ z ≤ hi)%Z l → omap (parse_within lo hi) (pretty <$> l) = l.
Proof.
  induction 1 as [|z l Hz _ IH]; [done|]. cbn. rewrite parse_within_pretty by done. by rewrite <- IH at 2.
Qed.

(** ** Rules as text *)

Lemma rule_of_stringValue rule : rule_of (RetryRule_stringValue rule) = Some (Some rule).
Proof. by destruct rule. Qed.

Lemma lowercased_stringValue rule : lowercased (RetryRule_stringValue rule) = RetryRule_stringValue rule.
Proof. by destruct rule. Qed.

(** The rules of a policy, with or without the entry for status codes, are read back. *)
Lemma read_rules {St} (read : string → M St (option RetryRule)) rules (s : St) extra :
  (∀ rule, read (RetryRule_stringValue rule) = mret (Some rule)) →
  read "retriable-status-codes" = mret None → (extra = [] ∨ extra = ["retriable-status-codes"]) →
  compactMap read ((RetryRule_stringValue <$> rules) ++ extra) s = Ok (rules, s).
Proof.
  intros Hr Hc Hextra. induction rules as [|rule rules IH].
  - destruct Hextra as [->| ->]; [done|]. cbn. by rewrite Hc.
  - cbn. rewrite Hr. unfold mbind, M_bind. cbn. by rewrite IH.
Qed.

(** ** A policy in the headers *)

(** The entry of [retryOn] that says there are status codes. *)
Definition codes_rule (p : RetryPolicy) : list string :=
  if decide (retryStatusCodes p = []) then [] else ["retriable-status-codes"].

Lemma outboundHeaders_lookup p name :
  SwiftMapper.outboundHeaders p !! name =
  if decide (name = "x-envoy-max-retries") then Some [pretty (maxRetryCount p)]
  else if decide (name = "x-envoy-upstream-rq-timeout-ms") then
    Some [pretty (default 0%Z (totalUpstreamTimeoutMS p))]
  else if decide (name = "x-envoy-retry-on") then
    Some ((RetryRule_stringValue <$> retryOn p) ++ codes_rule p)
  else if decide (name = "x-envoy-retriable-status-codes") then
    if decide (retryStatusCodes p = []) then None else Some (pretty <$> retryStatusCodes p)
  else if decide (name = "x-envoy-upstream-rq-per-try-timeout-ms") then
    (λ per, [pretty per]) <$> perRetryTimeoutMS p
  else None.
Proof.
  unfold SwiftMapper.outboundHeaders, codes_rule.
  destruct (decide (retryStatusCodes p = [])), (perRetryTimeoutMS p);
    repeat case_decide; subst; simplify_map_eq; rewrite ?app_nil_r; try done;
    by repeat (rewrite lookup_insert_ne by congruence || rewrite lookup_singleton_ne by congruence).
Qed.

(** The two mappers make the same headers. *)
Lemma outboundHeaders_agree p : KotlinMapper.outboundHeaders p = SwiftMapper.outboundHeaders p.
Proof.
  unfold KotlinMapper.outboundHeaders, SwiftMapper.outboundHeaders.
  by destruct (decide (retryStatusCodes p = [])), (perRetryTimeoutMS p).
Qed.

Lemma foldl_insert (l : list (string * list string)) (h : HeaderValues) :
  NoDup l.*1 → foldl (λ h e, <[e.1 := e.2]> h) h l = list_to_map l ∪ h.
Proof.
  revert h. induction l as [|[k v] l IH]; intros h Hnd; cbn.
  - by rewrite map_empty_union.
  - apply NoDup_cons in Hnd as [Hk Hnd]. rewrite IH, <- insert_union_l by done.
    by rewrite insert_union_r by (by apply not_elem_of_list_to_map_1).
Qed.

Lemma addRetryPolicy_union `{!EntryOrder, !EntryOrderLaws} p h :
  Swift.addRetryPolicy p h = SwiftMapper.outboundHeaders p ∪ h.
Proof.
  unfold Swift.addRetryPolicy, Swift.internalSet.
  pose proof (entries_in_order_perm (SwiftMapper.outboundHeaders p)) as Hperm.
  assert (NoDup (entries_in_order (SwiftMapper.outboundHeaders p)).*1) as Hnd.
  { rewrite Hperm. apply NoDup_fst_map_to_list. }
  rewrite foldl_insert by done. f_equal.
  etrans; [by apply list_to_map_proper|apply list_to_map_to_list].
Qed.

(** The policy that can be read: no timeout is one of 0. *)
Definition as_sent (p : RetryPolicy) : RetryPolicy :=
  {| maxRetryCount := maxRetryCount p; retryOn := retryOn p; retryStatusCodes := retryStatusCodes p;
     perRetryTimeoutMS := perRetryTimeoutMS p;
     totalUpstreamTimeoutMS := Some (default 0%Z (totalUpstreamTimeoutMS p)) |}.

(** The numbers of a policy are within the types of the platform: UInt in Swift; Int, and
    Long for the timeouts, in Kotlin. *)
Definition policy_within (lo hi tlo thi : Z) (p : RetryPolicy) : Prop :=
  (lo ≤ maxRetryCount p ≤ hi)%Z ∧ Forall (λ z, lo ≤ z ≤ hi)%Z (retryStatusCodes p) ∧
  from_option (λ t, tlo ≤ t ≤ thi)%Z True (perRetryTimeoutMS p) ∧
  from_option (λ t, tlo ≤ t ≤ thi)%Z True (totalUpstreamTimeoutMS p).
Definition swift_policy `{!SwiftInt} : RetryPolicy → Prop := policy_within 0 UInt_max 0 UInt_max.
Definition kotlin_policy : RetryPolicy → Prop :=
  policy_within (- 2 ^ 31) (2 ^ 31 - 1) (- 2 ^ 63) (2 ^ 63 - 1).

(** What headers that a policy was put into say of a policy: its own numbers, and what
    was there before for those it does not set. *)
Section read.
Context (h : HeaderValues) (p : RetryPolicy) (lo hi tlo thi : Z).
Hypothesis Hp : policy_within lo hi tlo thi p.
Hypothesis Ht : (tlo ≤ 0 ≤ thi)%Z.
Local Abbreviation h' := (SwiftMapper.outboundHeaders p ∪ h).

Lemma read_max : first_value h' "x-envoy-max-retries" = Some (pretty (maxRetryCount p)).
Proof. unfold first_value. rewrite lookup_union, outboundHeaders_lookup. cbn. by destruct (h !! _). Qed.
Lemma read_max_value : h' !! "x-envoy-max-retries" = Some [pretty (maxRetryCount p)].
Proof. rewrite lookup_union, outboundHeaders_lookup. cbn. by destruct (h !! _). Qed.
Lemma read_total :
  first_value h' "x-envoy-upstream-rq-timeout-ms" ≫= parse_within tlo thi =
  Some (default 0%Z (totalUpstreamTimeoutMS p)).
Proof.
  unfold first_value. rewrite lookup_union, outboundHeaders_lookup. cbn.
  destruct Hp as (_ & _ & _ & Htotal). rewrite <- (parse_within_pretty tlo thi).
  - by destruct (h !! _).
  - by destruct (totalUpstreamTimeoutMS p).
Qed.
Lemma read_retry_on :
  default [] (h' !! "x-envoy-retry-on") = (RetryRule_stringValue <$> retryOn p) ++ codes_rule p.
Proof. rewrite lookup_union, outboundHeaders_lookup. cbn. by destruct (h !! _). Qed.
Lemma read_codes :
  omap (parse_within lo hi) (default [] (h' !! "x-envoy-retriable-status-codes")) =
  if decide (retryStatusCodes p = [])
  then omap (parse_within lo hi) (default [] (h !! "x-envoy-retriable-status-codes"))
  else retryStatusCodes p.
Proof.
  destruct Hp as (_ & Hcodes & _). rewrite lookup_union, outboundHeaders_lookup. cbn.
  destruct (decide (retryStatusCodes p = [])).
  - by destruct (h !! _).
  - pose proof (parse_all_pretty lo hi (retryStatusCodes p) Hcodes). by destruct (h !! _).
Qed.
Lemma read_per_try :
  first_value h' "x-envoy-upstream-rq-per-try-timeout-ms" ≫= parse_within tlo thi =
  match perRetryTimeoutMS p with
  | Some per => Some per
  | None => first_value h "x-envoy-upstream-rq-per-try-timeout-ms" ≫= parse_within tlo thi
  end.
Proof.
  destruct Hp as (_ & _ & Hper & _). unfold first_value. rewrite lookup_union, outboundHeaders_lookup. cbn.
  destruct (perRetryTimeoutMS p) as [per|]; cbn in Hper.
  - pose proof (parse_within_pretty tlo thi per Hper). by destruct (h !! _).
  - by destruct (h !! _).
Qed.
End read.

(** The policy that is read from headers [h] a policy was put into. *)
Definition read_back (lo hi tlo thi : Z) (p : RetryPolicy) (h : HeaderValues) : RetryPolicy :=
  {| maxRetryCount := maxRetryCount p;
     retryOn := retryOn p;
     retryStatusCodes :=
       if decide (retryStatusCodes p = [])
       then omap (parse_within lo hi) (default [] (h !! "x-envoy-retriable-status-codes"))
       else retryStatusCodes p;
     perRetryTimeoutMS :=
       match perRetryTimeoutMS p with
       | Some per => Some per
       | None => first_value h "x-envoy-upstream-rq-per-try-timeout-ms" ≫= parse_within tlo thi
       end;
     totalUpstreamTimeoutMS := Some (default 0%Z (totalUpstreamTimeoutMS p)) |}.

Lemma codes_rule_cases p : codes_rule p = [] ∨ codes_rule p = ["retriable-status-codes"].
Proof. unfold codes_rule. case_decide; auto. Qed.

Section put.
Context {mode : BuildMode} `{!SwiftInt} {St : Type}.
Hypothesis Int_positive : (0 ≤ Int_max)%Z.

Lemma swift_from_put p h (s : St) :
  swift_policy p →
  SwiftMapper.from (SwiftMapper.outboundHeaders p ∪ h) s =
  (policy ← RetryPolicy_init (read_back 0 UInt_max 0 UInt_max p h); mret (Some policy)) s.
Proof.
  intros Hp. unfold SwiftMapper.from, UInt_init, read_back.
  rewrite read_max. cbn [mbind option_bind]. rewrite parse_within_pretty by apply Hp.
  rewrite read_retry_on.
  assert (Hrules := read_rules RetryRule_init (retryOn p) s (codes_rule p)).
  rewrite (bind_run _ _ _ _ _ (Hrules ltac:(intros []; done) ltac:(done) (codes_rule_cases p))).
  rewrite (read_codes h p _ _ _ _ Hp), (read_per_try h p _ _ _ _ Hp).
  rewrite (read_total h p _ _ _ _ Hp); [done|]. unfold UInt_max. lia.
Qed.

Lemma kotlin_from_put p h (s : St) :
  kotlin_policy p →
  KotlinMapper.from (SwiftMapper.outboundHeaders p ∪ h) s =
  (policy ← RetryPolicy_constructor
     (read_back (- 2 ^ 31) (2 ^ 31 - 1) (- 2 ^ 63) (2 ^ 63 - 1) p h); mret (Some policy)) s.
Proof.
  intros Hp. unfold KotlinMapper.from, toIntOrNull, toLongOrNull, read_back.
  rewrite read_max_value. erewrite bind_run by reflexivity.
  rewrite parse_within_pretty by apply Hp. rewrite read_retry_on.
  assert (Hrules := read_rules RetryRule_enumValue (retryOn p) s (codes_rule p)).
  rewrite (bind_run _ _ _ _ _ (Hrules ltac:(intros []; done) ltac:(done) (codes_rule_cases p))).
  rewrite (read_codes h p _ _ _ _ Hp), (read_per_try h p _ _ _ _ Hp).
  by rewrite (read_total h p _ _ _ _ Hp).
Qed.

(** What both platforms require of the timeouts. *)
Lemma RetryPolicy_init_fit p (s : St) :
  timeouts_fit p = true → RetryPolicy_init p s = Ok (p, s) ∧ RetryPolicy_constructor p s = Ok (p, s).
Proof.
  intros Hfit. split.
  - unfold RetryPolicy_init, ASSERT. rewrite Hfit. by destruct ASSERT_enabled.
  - revert Hfit. unfold RetryPolicy_constructor, timeouts_fit. repeat case_match; try done.
    rewrite bool_decide_eq_true. lia.
Qed.
End put.

Lemma as_sent_fit p : timeouts_fit p = true → timeouts_fit (as_sent p) = true.
Proof.
  unfold timeouts_fit, as_sent. cbn. destruct (perRetryTimeoutMS p), (totalUpstreamTimeoutMS p); try done.
  intros _. cbn. apply bool_decide_true. lia.
Qed.

(** C20: A retry policy round-trips through the headers. On either platform, take
    headers without a policy of their own, put in one whose numbers are in range and
    whose timeouts fit, and read it back: it is the same one, but that no timeout for the
    whole request has become one of 0, which means none. And the two platforms put the
    same headers in. *)
Theorem retry_policy_round_trip `{mode : BuildMode, !SwiftInt, !EntryOrder, !EntryOrderLaws} {St : Type}
    (p : RetryPolicy) (h : HeaderValues) (s : St) :
  (0 ≤ Int_max)%Z → timeouts_fit p = true →
  h !! "x-envoy-upstream-rq-per-try-timeout-ms" = None →
  h !! "x-envoy-retriable-status-codes" = None →
  (swift_policy p → SwiftMapper.from (Swift.addRetryPolicy p h) s = Ok (Some (as_sent p), s)) ∧
  (kotlin_policy p →
   KotlinMapper.from (KotlinMapper.outboundHeaders p ∪ h) s = Ok (Some (as_sent p), s)) ∧
  KotlinMapper.outboundHeaders p ∪ h = Swift.addRetryPolicy p h.
Proof.
  intros HInt Hfit Hper Hcodes. rewrite addRetryPolicy_union, outboundHeaders_agree.
  assert (∀ lo hi tlo thi, read_back lo hi tlo thi p h = as_sent p) as Hback.
  { intros. unfold read_back, as_sent, first_value. rewrite Hcodes, Hper. cbn.
    f_equal; [case_decide; by subst|by destruct (perRetryTimeoutMS p)]. }
  destruct (RetryPolicy_init_fit (as_sent p) s (as_sent_fit p Hfit)) as [Hs Hk].
  split_and!; [| |done]; intros Hp.
  - rewrite swift_from_put, Hback by done. by rewrite (bind_run _ _ _ _ _ Hs).
  - rewrite kotlin_from_put, Hback by done. by rewrite (bind_run _ _ _ _ _ Hk).
Qed.

(** A second policy can make the first one's timeout fatal. Put one policy into a
    builder and then another without a timeout for each retry: the header of the first
    one's stays. When that timeout is longer than the second policy's for the whole
    request, reading the policy of the request back stops the program in Swift (in a
    debug build) and throws in Kotlin, although both policies are valid. *)
Theorem stale_retry_policy `{!SwiftInt, !EntryOrder, !EntryOrderLaws} {St : Type}
    (p q : RetryPolicy) (h : HeaderValues) (per total : Z) (s : St) :
  (0 ≤ Int_max)%Z → swift_policy p → swift_policy q → kotlin_policy p → kotlin_policy q →
  perRetryTimeoutMS p = Some per → perRetryTimeoutMS q = None →
  totalUpstreamTimeoutMS q = Some total → (0 < total < per)%Z →
  let headers := Swift.addRetryPolicy q (Swift.addRetryPolicy p h) in
  SwiftMapper.from (mode := debug_build) headers s =
    Fault (DebugAssert "Per-retry timeout cannot be less than total timeout") ∧
  KotlinMapper.from headers s = Fault (Thrown "IllegalArgumentException").
Proof.
  intros HInt Hsp Hsq Hkp Hkq Hper Hnone Htotal Hlt headers. unfold headers.
  rewrite !addRetryPolicy_union.
  assert (∀ lo hi tlo thi, (tlo ≤ per ≤ thi)%Z →
    let r := read_back lo hi tlo thi q (SwiftMapper.outboundHeaders p ∪ h) in
    perRetryTimeoutMS r = Some per ∧ totalUpstreamTimeoutMS r = Some total) as Hback.
  { intros lo hi tlo thi Hin. cbn. rewrite Hnone, Htotal. split; [|done].
    unfold first_value. rewrite lookup_union, outboundHeaders_lookup. cbn. rewrite Hper. cbn.
    rewrite <- (parse_within_pretty tlo thi per Hin). by destruct (h !! _). }
  split.
  - rewrite swift_from_put by done. erewrite bind_Fault; [done|].
    destruct (Hback 0 UInt_max 0 UInt_max)%Z as [Hbp Hbt].
    { destruct Hsp as (_ & _ & Hp & _). rewrite Hper in Hp. exact Hp. }
    unfold RetryPolicy_init, timeouts_fit. rewrite Hbp, Hbt, bool_decide_false by lia. done.
  - rewrite kotlin_from_put by done. erewrite bind_Fault; [done|].
    edestruct Hback as [Hbp Hbt]; [|unfold RetryPolicy_constructor; rewrite Hbp, Hbt, decide_True by lia; done].
    destruct Hkp as (_ & _ & Hp & _). rewrite Hper in Hp. exact Hp.
Qed.

(** ** Examples *)

(** An order of enumeration. *)
#[export] Instance ref_entry_order : EntryOrder := λ h, map_to_list h.
#[export] Instance ref_entry_order_laws : EntryOrderLaws.
Proof. by intros h. Qed.

Definition ref_policy : RetryPolicy :=
  {| maxRetryCount := 3; retryOn := [status5xx; reset]; retryStatusCodes := [404; 503]%Z;
     perRetryTimeoutMS := Some 20000%Z; totalUpstreamTimeoutMS := None |}.
Definition ref_late_policy : RetryPolicy :=
  {| maxRetryCount := 1; retryOn := [refusedStream]; retryStatusCodes := [];
     perRetryTimeoutMS := None; totalUpstreamTimeoutMS := Some 15000%Z |}.

Lemma ref_policies_within :
  swift_policy (H := Int_32) ref_policy ∧ swift_policy (H := Int_32) ref_late_policy ∧
  kotlin_policy ref_policy ∧ kotlin_policy ref_late_policy.
Proof. split_and!; unfold swift_policy, kotlin_policy, policy_within; cbn; repeat split; try lia; repeat constructor; done. Qed.

Lemma retry_policy_round_trip_witness :
  SwiftMapper.from (mode := debug_build) (H := Int_32)
    (Swift.addRetryPolicy ref_policy {["accept" := ["a"]]}) tt = Ok (Some (as_sent ref_policy), tt).
Proof.
  refine (proj1 (retry_policy_round_trip (H := Int_32) ref_policy {["accept" := ["a"]]} tt _ _ _ _) _).
  - done.
  - done.
  - done.
  - done.
  - apply ref_policies_within.
Defined.

Lemma stale_retry_policy_witness :
  let headers := Swift.addRetryPolicy ref_late_policy (Swift.addRetryPolicy ref_policy ∅) in
  SwiftMapper.from (mode := debug_build) (H := Int_32) headers tt =
    Fault (DebugAssert "Per-retry timeout cannot be less than total timeout") ∧
  KotlinMapper.from headers tt = Fault (Thrown "IllegalArgumentException").
Proof.
  apply (stale_retry_policy (H := Int_32) ref_policy ref_late_policy ∅ 20000 15000 tt);
    try apply ref_policies_within; done.
Defined.
