(* ===== verification/RequestProps.v ===== *)
(** * From the builder to the cluster

    What an application can do to the headers of a request, and where the dispatcher
    then sends it: the restricted headers keep what the builder was made with, and the
    protocol is one the dispatcher knows, as long as the names are in lower case. *)

From S2P Require Export RetryPolicyProps ConfigProps Reference.
From Stdlib Require Import ZArith Lia.
From stdpp Require Import pretty.

(** ** The builder's guard *)

(** What an application can do with a builder: of the last three, the first two with that
    of an HTTP request, the last with that of a gRPC request. *)
Inductive builder_call :=
| CallAdd (name value : string)
| CallSet (name : string) (value : list string)
| CallRemove (name : string)
| CallRetryPolicy (p : RetryPolicy)
| CallProtocol (p : UpstreamHttpProtocol)
| CallTimeout (timeoutMs : option Z).

Definition builder_run `{!EntryOrder} (h : HeaderValues) (c : builder_call) : HeaderValues :=
  match c with
  | CallAdd name value => Swift.add name value h
  | CallSet name value => Swift.set name value h
  | CallRemove name => Swift.remove name h
  | CallRetryPolicy p => Swift.addRetryPolicy p h
  | CallProtocol p => Swift.addUpstreamHttpProtocol p h
  | CallTimeout timeoutMs => Swift.addTimeoutMs timeoutMs h
  end.

Section guard.
Context `{!EntryOrder, !EntryOrderLaws}.

Lemma addRetryPolicy_restricted p h name :
  isRestrictedHeader name = true → Swift.addRetryPolicy p h !! name = h !! name.
Proof.
  intros Hr. rewrite addRetryPolicy_union, lookup_union, outboundHeaders_lookup.
  repeat (case_decide; [by subst|]). by destruct (h !! name).
Qed.

(** A restricted name keeps its values, but for the protocol. *)
Lemma builder_run_restricted h c name :
  isRestrictedHeader name = true → name ≠ "x-envoy-mobile-upstream-protocol" →
  builder_run h c !! name = h !! name.
Proof.
  intros Hr Hp. destruct c as [n v|n vs|n|p|p|[t|]]; cbn.
  - unfold Swift.add. case_match; [done|]. apply lookup_insert_ne. congruence.
  - unfold Swift.set. case_match; [done|]. apply lookup_insert_ne. congruence.
  - unfold Swift.remove. case_match; [done|]. apply lookup_delete_ne. congruence.
  - by apply addRetryPolicy_restricted.
  - by apply lookup_insert_ne.
  - apply lookup_insert_ne. by intros <-.
  - apply lookup_delete_ne. by intros <-.
Qed.

Lemma builder_runs_restricted h cs name :
  isRestrictedHeader name = true → name ≠ "x-envoy-mobile-upstream-protocol" →
  foldl builder_run h cs !! name = h !! name.
Proof.
  intros Hr Hp. revert h. induction cs as [|c cs IH]; intros h; [done|]. cbn.
  by rewrite IH, builder_run_restricted.
Qed.

(** The protocol header has none or one of the values the dispatcher knows. *)
Definition protocol_values (h : HeaderValues) : Prop :=
  h !! "x-envoy-mobile-upstream-protocol" = None ∨
  ∃ p, h !! "x-envoy-mobile-upstream-protocol" = Some [UpstreamHttpProtocol_stringValue p].

Lemma builder_runs_protocol h cs : protocol_values h → protocol_values (foldl builder_run h cs).
Proof.
  revert h. induction cs as [|c cs IH]; intros h Hh; [done|]. cbn. apply IH.
  destruct c as [n v|n vs|n|p|p|[t|]]; cbn.
  - unfold Swift.add. case_match eqn:Hr; [done|]. unfold protocol_values.
    rewrite lookup_insert_ne; [done|]. by intros ->.
  - unfold Swift.set. case_match eqn:Hr; [done|]. unfold protocol_values.
    rewrite lookup_insert_ne; [done|]. by intros ->.
  - unfold Swift.remove. case_match eqn:Hr; [done|]. unfold protocol_values.
    rewrite lookup_delete_ne; [done|]. by intros ->.
  - unfold protocol_values. by rewrite addRetryPolicy_restricted.
  - right. exists p. apply lookup_insert_eq.
  - unfold protocol_values. by rewrite lookup_insert_ne.
  - unfold protocol_values. by rewrite lookup_delete_ne.
Qed.

(** ** What is sent *)

(** A pair for each value, name by name. *)
Definition header_pairs (h : HeaderValues) : list (string * string) :=
  entries_in_order h ≫= λ e, pair e.1 <$> e.2.

Lemma values_pairs k (l : list (string * list string)) :
  NoDup l.*1 →
  values k (l ≫= λ e, pair e.1 <$> e.2) = default [] ((list_to_map l : HeaderValues) !! k).
Proof.
  induction l as [|[n vs] l IH]; intros Hnd; [done|]. apply NoDup_cons in Hnd as [Hn Hnd].
  change ((_ :: l) ≫= ?f) with ((pair n <$> vs) ++ (l ≫= f)). rewrite values_app, IH by done.
  assert (values k (pair n <$> vs) = if decide (n = k) then vs else []) as ->.
  { clear. induction vs as [|v vs IH]; [by case_decide|]. rewrite fmap_cons, values_cons, IH. cbn.
    by case_decide. }
  cbn. case_decide as Hk.
  - subst. rewrite lookup_insert_eq. cbn.
    rewrite (not_elem_of_list_to_map_1 (M := gmap string)) by done. by rewrite app_nil_r.
  - by rewrite lookup_insert_ne.
Qed.

Lemma values_header_pairs k h : values k (header_pairs h) = default [] (h !! k).
Proof.
  unfold header_pairs. pose proof (entries_in_order_perm h) as Hperm.
  assert (NoDup (entries_in_order h).*1) as Hnd by (rewrite Hperm; apply NoDup_fst_map_to_list).
  rewrite values_pairs by done. do 2 f_equal.
  etrans; [by apply list_to_map_proper|apply list_to_map_to_list].
Qed.

Lemma header_pairs_names h e : e ∈ header_pairs h → is_Some (h !! e.1).
Proof.
  unfold header_pairs. rewrite list_elem_of_bind. intros ([n vs] & He & Hin).
  apply list_elem_of_fmap in He as (v & -> & _). rewrite entries_in_order_perm in Hin.
  apply elem_of_map_to_list in Hin. by exists vs.
Qed.

(** Lower-casing the names takes the values of a name to those of another, when it is the
    only one that becomes it. *)
Lemma values_lowered (lower : string → string) n k h :
  (∀ name, is_Some (h !! name) → lower name = k ↔ name = n) →
  values k ((λ e, (lower e.1, e.2)) <$> header_pairs h) = default [] (h !! n).
Proof.
  intros Hn. rewrite <- values_header_pairs.
  assert (∀ e, e ∈ header_pairs h → lower e.1 = k ↔ e.1 = n) as He by (intros; by apply Hn, header_pairs_names).
  revert He. generalize (header_pairs h). intros l Hl. induction l as [|e l IH]; [done|].
  rewrite fmap_cons, !values_cons, IH by set_solver. cbn. specialize (Hl e ltac:(left)).
  repeat case_decide; tauto.
Qed.
End guard.

(** ** Requests of an application *)

(** A builder as the application gets it. *)
Inductive started : HeaderValues → Prop :=
| started_request method scheme authority path :
    started (Swift.RequestHeadersBuilder_init method scheme authority path)
| started_grpc scheme authority path :
    started (Swift.GRPCRequestHeadersBuilder_init scheme authority path).

Definition call_names (c : builder_call) : list string :=
  match c with CallAdd n _ | CallSet n _ | CallRemove n => [n] | _ => [] end.
Definition lower_call (c : builder_call) : Prop := Forall (λ n, lowercased n = n) (call_names c).

(** The names of a map are in lower case. *)
Definition lower_names (h : HeaderValues) : Prop := map_Forall (λ n _, lowercased n = n) h.

Ltac in_map :=
  repeat first
    [ apply map_Forall_insert_2; [reflexivity|] | apply map_Forall_empty ].

(** The two constructors. *)
Inductive builder_start :=
| StartRequest (method : RequestMethod) (scheme authority path : string)
| StartGrpc (scheme authority path : string).

Definition swift_start (start : builder_start) : HeaderValues :=
  match start with
  | StartRequest m s a p => Swift.RequestHeadersBuilder_init m s a p
  | StartGrpc s a p => Swift.GRPCRequestHeadersBuilder_init s a p
  end.
Definition is_grpc (start : builder_start) : bool :=
  match start with StartGrpc _ _ _ => true | StartRequest _ _ _ _ => false end.

Lemma swift_start_started start : started (swift_start start).
Proof. destruct start; constructor. Qed.

Definition call_protocol (c : builder_call) : option UpstreamHttpProtocol :=
  match c with CallProtocol p => Some p | _ => None end.
(** The protocol selected last, if any call selects one. *)
Definition selected_protocol (cs : list builder_call) : option UpstreamHttpProtocol :=
  last (omap call_protocol cs).

Lemma started_lower h : started h → lower_names h.
Proof.
  unfold lower_names.
  intros []; unfold Swift.RequestHeadersBuilder_init, Swift.GRPCRequestHeadersBuilder_init; cbn; in_map.
Qed.

Lemma started_protocol h : started h → protocol_values h.
Proof. intros []; [by left|right; by exists http2]. Qed.

Lemma started_cluster h : started h → h !! ClusterHeader = None.
Proof. by intros []. Qed.

Section requests.
Context `{!EntryOrder, !EntryOrderLaws}.

Lemma outboundHeaders_lower p : lower_names (SwiftMapper.outboundHeaders p).
Proof.
  intros n vs. rewrite outboundHeaders_lookup. by repeat case_decide; subst.
Qed.

Lemma builder_runs_lower h cs :
  lower_names h → Forall lower_call cs → lower_names (foldl builder_run h cs).
Proof.
  unfold lower_names. intros Hh Hcs. revert h Hh.
  induction Hcs as [|c cs Hc _ IH]; intros h Hh; [done|]. cbn. apply IH.
  unfold lower_call in Hc. destruct c as [n v|n vs|n|p|p|[t|]]; cbn [call_names builder_run] in *;
    rewrite ?Forall_singleton in Hc.
  - unfold Swift.add. case_match; [done|]. by apply map_Forall_insert_2.
  - unfold Swift.set. case_match; [done|]. by apply map_Forall_insert_2.
  - unfold Swift.remove. case_match; [done|]. by apply map_Forall_delete.
  - rewrite addRetryPolicy_union. apply map_Forall_union_2; [apply outboundHeaders_lower|done].
  - by apply map_Forall_insert_2.
  - by apply map_Forall_insert_2.
  - by apply map_Forall_delete.
Qed.
(** The protocol header is that of the last call, or the one it started with. *)
Lemma builder_runs_last_protocol h cs :
  foldl builder_run h cs !! "x-envoy-mobile-upstream-protocol" =
  match selected_protocol cs with
  | Some p => Some [UpstreamHttpProtocol_stringValue p]
  | None => h !! "x-envoy-mobile-upstream-protocol"
  end.
Proof.
  unfold selected_protocol. induction cs as [|c cs IH] using rev_ind; [done|]. rewrite foldl_snoc, omap_app.
  destruct c as [n v|n vs|n|p|p|[t|]]; cbn [builder_run call_protocol omap list_omap];
    rewrite ?app_nil_r, ?last_snoc.
  - rewrite <- IH; clear IH. unfold Swift.add. case_match eqn:Hr; [done|]. apply lookup_insert_ne. by intros ->.
  - rewrite <- IH; clear IH. unfold Swift.set. case_match eqn:Hr; [done|]. apply lookup_insert_ne. by intros ->.
  - rewrite <- IH; clear IH. unfold Swift.remove. case_match eqn:Hr; [done|]. apply lookup_delete_ne. by intros ->.
  - rewrite <- IH. by apply addRetryPolicy_restricted.
  - apply lookup_insert_eq.
  - rewrite <- IH. by apply lookup_insert_ne.
  - rewrite <- IH. by apply lookup_delete_ne.
Qed.

End requests.

Section routing.
Context {mode : BuildMode} `{Allocator} {HM : Type} `{!HeaderMap HM} `{!EnvoyCodec HM}
  {B : Type} `{!BufferInstance B} `{!HeaderMapLaws HM} `{!EntryOrder, !EntryOrderLaws}.
Hypothesis LowerCaseString_lowercased : ∀ s, LowerCaseString (HM := HM) s = lowercased s.
Implicit Types (s : state HM B).

(** The entries toRequestHeaders makes of the headers of a request. *)
Definition sent_entries (h : HeaderValues) : list (string * string) :=
  lower_entries (HM := HM) (bytes_entries (header_pairs h)).

Lemma sent_entries_eq h : sent_entries h = (λ e, (lowercased e.1, e.2)) <$> header_pairs h.
Proof.
  unfold sent_entries, lower_entries, bytes_entries. rewrite <- list_fmap_compose.
  apply list_fmap_ext. intros _ [n v] _. unfold compose, prod_map. cbn [fst snd].
  by rewrite !string_of_bytes_of, LowerCaseString_lowercased.
Qed.

Lemma sent_values k h : lower_names h → values k (sent_entries h) = default [] (h !! k).
Proof.
  intros Hl. rewrite sent_entries_eq. apply values_lowered. intros name [vs Hname].
  by rewrite (Hl _ _ Hname).
Qed.

(** C12: Requests go to a cluster that exists and speaks the protocol that was asked
    for. Whatever the application does with a builder (for HTTP or gRPC), with names in
    lower case, once its headers are in C (a pair for each value) the dispatcher's
    toRequestHeaders makes a header map of them, though it joins the values of inline
    headers; and setDestinationCluster takes the map without a failing ASSERT and adds one
    cluster, of the configuration, for the network it prefers. The cluster speaks HTTP/2
    exactly if the last protocol the application selected is that, or if it selected none
    and the builder is that of a gRPC request. (The dispatcher's own two headers are none
    of the map's inline headers.) *)
Theorem builder_requests_are_routed certificates s start cs eh hs m :
  Forall certificate_line certificates → Forall lower_call cs →
  headers_ok m eh hs (bytes_entries (header_pairs (foldl builder_run (swift_start start) cs))) →
  hm_inline (hm_create RequestHeaderMapImpl : HM) H2UpstreamHeader = false →
  hm_inline (hm_create RequestHeaderMapImpl : HM) ClusterHeader = false →
  ∃ (hm : HM) m' hm' c, toRequestHeaders eh m = Ok (hm, m') ∧
    setDestinationCluster hm s = Ok (hm', s) ∧
    values ClusterHeader (hm_entries hm') = [c.1] ∧ c ∈ clusters certificates ∧
    c.1 = cluster_name (preferred_network_ s) (bool_decide (speaks_http2 c)) ∧
    (speaks_http2 c ↔
     match selected_protocol cs with Some p => p = http2 | None => is_grpc start = true end).
Proof.
  intros Hcerts Hcs Hok Hi2 Hi. pose proof (swift_start_started start) as Hstart.
  pose proof (builder_runs_last_protocol (swift_start start) cs) as Hlast.
  set (h' := foldl builder_run _ cs) in *.
  assert (Hlower : lower_names h') by (by apply builder_runs_lower, Hcs; apply started_lower).
  assert (Hproto : protocol_values h') by (by apply builder_runs_protocol, started_protocol).
  assert (Hcluster : h' !! ClusterHeader = None).
  { unfold h'. rewrite builder_runs_restricted by done. by apply started_cluster. }
  pose proof (toRequestHeaders_run (HM := HM) eh hs _ m Hok) as Hmake. fold (sent_entries h') in Hmake.
  set (hm := add_entries (sent_entries h') (hm_create RequestHeaderMapImpl : HM)) in *.
  assert (Hvalues : ∀ k, hm_inline (hm_create RequestHeaderMapImpl : HM) k = false →
    values k (hm_entries hm) = default [] (h' !! k)).
  { intros k Hk. unfold hm. rewrite add_entries_values; [|intros; rewrite create_entries; cbn; lia|done].
    by rewrite create_entries, sent_values. }
  destruct (setDestinationCluster_run s hm) as (hm' & Hrun & He).
  { unfold known_protocol. rewrite Hvalues by done.
    unfold H2UpstreamHeader. destruct Hproto as [Hv|[[] Hv]]; rewrite Hv; set_solver. }
  destruct (cluster_configured certificates (preferred_network_ s) (uses_h2 (hm_entries hm)))
    as (c & Hin & Hname & Hh2); [done|].
  eexists hm, _, hm', c. split_and!; [exact Hmake|done| |done| |].
  - rewrite He by (unfold hm; by rewrite inline_add_entries).
    unfold routed. rewrite values_app, values_filter_ne.
    rewrite decide_False by done. rewrite Hvalues, Hcluster by done. cbn. by rewrite Hname.
  - rewrite Hname. f_equal. apply eq_true_iff_eq. by rewrite bool_decide_eq_true.
  - rewrite Hh2. unfold uses_h2. rewrite bool_decide_eq_true, Hvalues by done.
    unfold H2UpstreamHeader. rewrite Hlast.
    destruct (selected_protocol cs) as [[]|]; [done|done|]. by destruct start.
Qed.

(** A guard that looks at lower-case prefixes only lets names in other cases through. *)
Lemma set_mixed_case name vs h k :
  isRestrictedHeader name = false → lower_names h → h !! k = None →
  lowercased name = k → values k (sent_entries (Swift.set name vs h)) = vs.
Proof.
  intros Hr Hh Hk Hlow. unfold Swift.set. rewrite Hr, sent_entries_eq.
  rewrite (values_lowered lowercased name); [by rewrite lookup_insert_eq|].
  intros name' [vs' Hname']. rewrite lookup_insert_Some in Hname'.
  destruct Hname' as [[<- _]|[Hne Hname']]; [done|]. rewrite (Hh _ _ Hname'). split; [|done].
  intros ->. by rewrite Hk in Hname'.
Qed.

Lemma set_mixed_case_other name vs h k :
  lower_names h → lowercased name ≠ k → lowercased k = k →
  values k (sent_entries (Swift.set name vs h)) = default [] (h !! k).
Proof.
  intros Hh Hlow Hk. unfold Swift.set. case_match; [by apply sent_values|].
  assert (name ≠ k) as Hne by congruence.
  rewrite sent_entries_eq, (values_lowered lowercased k); [by rewrite lookup_insert_ne|].
  intros name' [vs' Hname']. rewrite lookup_insert_Some in Hname'.
  destruct Hname' as [[<- _]|[_ Hname']]; [by split; intros|]. by rewrite (Hh _ _ Hname').
Qed.

(** C31: Names in mixed case get around the guard. The builder lets the application set
    X-Envoy-Mobile-Cluster, and the header map takes it for the dispatcher's own header:
    the value of the application comes first, before the cluster the dispatcher adds. And
    it lets it set X-Envoy-Mobile-Upstream-Protocol to anything: for a value that is no
    protocol the ASSERT of the dispatcher fails in a debug build, and a release build
    takes the cluster for HTTP/1. *)
Theorem mixed_case_names_pass s (hm hm1 : HM) h v c :
  started h → h !! "x-envoy-mobile-upstream-protocol" = None → v ∉ ["http1"; "http2"] →
  hm_inline hm ClusterHeader = false → hm_inline hm1 ClusterHeader = false →
  hm_entries hm ≡ₕ sent_entries (Swift.set "X-Envoy-Mobile-Cluster" [c] h) →
  hm_entries hm1 ≡ₕ sent_entries (Swift.set "X-Envoy-Mobile-Upstream-Protocol" [v] h) →
  (∃ hm', setDestinationCluster hm s = Ok (hm', s) ∧
     values ClusterHeader (hm_entries hm') = [c; cluster_name (preferred_network_ s) false]) ∧
  setDestinationCluster (mode := debug_build) hm1 s =
    Fault (DebugAssert "using unsupported protocol version") ∧
  ∃ hm', setDestinationCluster (mode := release_build) hm1 s = Ok (hm', s) ∧
    values ClusterHeader (hm_entries hm') = [cluster_name (preferred_network_ s) false].
Proof.
  intros Hstart Hnone Hv Hi Hi1 Hhm Hhm1. pose proof (started_lower h Hstart) as Hlow.
  pose proof (started_cluster h Hstart) as Hcl.
  assert (values H2UpstreamHeader (hm_entries hm) = []) as Hp.
  { rewrite Hhm, set_mixed_case_other by done. unfold H2UpstreamHeader. by rewrite Hnone. }
  assert (values ClusterHeader (hm_entries hm) = [c]) as Hc by (rewrite Hhm; by apply set_mixed_case).
  assert (hm_get H2UpstreamHeader hm1 = [v]) as Hp1.
  { rewrite get_values, Hhm1. by apply set_mixed_case. }
  assert (values ClusterHeader (hm_entries hm1) = []) as Hc1.
  { rewrite Hhm1, set_mixed_case_other by done. by rewrite Hcl. }
  split_and!.
  - destruct (setDestinationCluster_run s hm) as (hm' & Hrun & He).
    { unfold known_protocol. rewrite Hp. left. }
    exists hm'. split; [done|]. rewrite (He Hi ClusterHeader). unfold routed, uses_h2.
    rewrite values_app, values_filter_ne, decide_False, Hc, Hp by done. done.
  - unfold setDestinationCluster. rewrite Hp1. unfold ASSERT, debug_build, ASSERT_enabled.
    rewrite !bind_assoc. cbn [length]. unfold mbind, M_bind, mret, M_ret.
    rewrite (bool_decide_true (1 = 1)), decide_False, (bool_decide_false (v = "http1")) by set_solver.
    done.
  - unfold setDestinationCluster. rewrite Hp1. unfold ASSERT, release_build, ASSERT_enabled.
    rewrite !bind_assoc. cbn [length]. unfold mbind, M_bind, mret, M_ret.
    rewrite decide_False by set_solver. eexists. split; [reflexivity|].
    etrans; [apply (add_cluster (preferred_network_ s) false (hm_remove H2UpstreamHeader hm1)
                     ltac:(by rewrite inline_remove) ClusterHeader)|].
    rewrite values_app, remove_entries.
    by rewrite values_filter_ne, decide_False, Hc1.
Qed.
End routing.

(** ** What was built is read back *)

Section accessors.
Context `{!EntryOrder, !EntryOrderLaws}.

(** C17: The application cannot touch the restricted headers. Whatever calls it makes on
    a builder, in whatever order, the headers that are built say the method, the scheme,
    the authority and the path that the builder was made with, and the protocol of the
    last call that selected one; reading them never stops the program. *)
Theorem restricted_headers_kept {St : Type} method scheme authority path cs (s : St) :
  let headers := foldl builder_run (Swift.RequestHeadersBuilder_init method scheme authority path) cs in
  Swift.method headers s = Ok (method, s) ∧
  Swift.scheme headers s = Ok (scheme, s) ∧
  Swift.authority headers s = Ok (authority, s) ∧
  Swift.path headers s = Ok (path, s) ∧
  Swift.upstreamHttpProtocol headers s = Ok (selected_protocol cs, s).
Proof.
  intros headers. unfold headers, Swift.method, Swift.scheme, Swift.authority, Swift.path,
    Swift.upstreamHttpProtocol, first_value.
  rewrite !builder_runs_restricted, builder_runs_last_protocol by done. split_and!; try done.
  - by destruct method.
  - by destruct (selected_protocol cs) as [[]|].
Qed.
End accessors.

(** ** Examples *)

Lemma ref_lower_lowercased s : LowerCaseString (HM := ref_map) s = lowercased s.
Proof.
  cbn. induction s as [|a s IH]; [done|]. cbn. by rewrite IH.
Qed.

Definition ref_request : HeaderValues := Swift.RequestHeadersBuilder_init GET "https" "a.com" "/x".
Definition ref_start : builder_start := StartRequest GET "https" "a.com" "/x".
(** A cookie is an inline header of the reference map. *)
Definition ref_calls : list builder_call :=
  [CallAdd "accept" "a"; CallProtocol http1; CallSet "x-envoy-mobile-cluster" ["mine"];
   CallRemove ":path"; CallProtocol http2; CallAdd "accept" "b"; CallAdd "cookie" "k=1";
   CallAdd "cookie" "l=2"].
Definition ref_state (network : envoy_network_t) : state ref_map ref_buffer :=
  set_preferred_network network (init_state ref_mem).
Definition sent_map (h : HeaderValues) : ref_map := RefMap RequestHeaderMapImpl (sent_entries (HM := ref_map) h).

(** A memory that holds the pairs [es], each string in a block of its own. *)
Definition string_block (p : positive) (s : string) : envoy_data :=
  EnvoyData (Z.of_nat (length (bytes_of s))) (Some p) c_free_release (Some p).
Fixpoint header_blocks (p : positive) (es : list (string * string)) : list envoy_header :=
  match es with
  | [] => []
  | (k, v) :: es =>
      EnvoyHeader (string_block p k) (string_block (p + 1) v) :: header_blocks (p + 2) es
  end.
Fixpoint pairs_heap (p : positive) (es : list (string * string)) : gmap positive CTypes.block :=
  match es with
  | [] => ∅
  | (k, v) :: es =>
      <[p := BBytes (Some <$> bytes_of k)]> (<[(p + 1)%positive := BBytes (Some <$> bytes_of v)]>
        (pairs_heap (p + 2) es))
  end.
Definition pairs_mem (es : list (string * string)) : mem :=
  Mem (<[1%positive := BHeaders (Some <$> header_blocks 2 es)]> (pairs_heap 2 es)) 1000 [].

Definition ref_pairs_sent : list (string * string) :=
  header_pairs (foldl builder_run ref_request ref_calls).

Lemma pairs_heap_above p es l : is_Some (pairs_heap p es !! l) → (p ≤ l)%positive.
Proof.
  revert p. induction es as [|[k v] es IH]; intros p; cbn.
  { intros Hl. rewrite lookup_empty in Hl. by destruct Hl. }
  rewrite !lookup_insert. repeat case_decide; [lia|lia|]. intros Hl%IH. lia.
Qed.

Lemma string_block_reads h p s :
  h !! p = Some (BBytes (Some <$> bytes_of s)) → reads_data h (string_block p s) (bytes_of s).
Proof. intros Hp. split; [done|]. right. exists p, []. by rewrite app_nil_r. Qed.

Lemma header_blocks_read h p es :
  (∀ l b, pairs_heap p es !! l = Some b → h !! l = Some b) →
  Forall2 (reads_header h) (header_blocks p es) (bytes_entries es).
Proof.
  revert p. induction es as [|[k v] es IH]; intros p Hh; cbn; constructor.
  - split; apply string_block_reads, Hh; cbn; [by rewrite lookup_insert_eq|].
    by rewrite lookup_insert_ne, lookup_insert_eq by lia.
  - apply IH. intros l b Hl. apply Hh. cbn.
    pose proof (pairs_heap_above (p + 2) es l ltac:(by rewrite Hl)).
    by rewrite !lookup_insert_ne by lia.
Qed.

Lemma ref_sent_ok :
  headers_ok (pairs_mem ref_pairs_sent)
    (EnvoyHeaders (Z.of_nat (length ref_pairs_sent)) (Some 1%positive))
    (header_blocks 2 ref_pairs_sent) (bytes_entries ref_pairs_sent).
Proof.
  split; [split_and!|split].
  - by vm_compute.
  - right. exists 1%positive, []. by rewrite app_nil_r.
  - apply header_blocks_read. intros l b Hl.
    pose proof (pairs_heap_above 2 ref_pairs_sent l ltac:(by rewrite Hl)).
    cbn. by rewrite lookup_insert_ne by lia.
  - apply (bool_decide_unpack _). by vm_compute.
  - apply Forall_forall. apply (bool_decide_unpack _). by vm_compute.
Qed.

Lemma builder_requests_are_routed_witness :
  ∃ (hm : ref_map) m' hm' c,
    toRequestHeaders (EnvoyHeaders (Z.of_nat (length ref_pairs_sent)) (Some 1%positive))
      (pairs_mem ref_pairs_sent) = Ok (hm, m') ∧
    setDestinationCluster (mode := debug_build) hm (ref_state ENVOY_NET_WWAN) =
      Ok (hm', ref_state ENVOY_NET_WWAN) ∧
    values ClusterHeader (hm_entries hm') = [c.1] ∧ c ∈ clusters [] ∧
    c.1 = cluster_name ENVOY_NET_WWAN (bool_decide (speaks_http2 c)) ∧
    (speaks_http2 c ↔ http2 = http2).
Proof.
  apply (builder_requests_are_routed (mode := debug_build) ref_lower_lowercased []
    (ref_state ENVOY_NET_WWAN) ref_start ref_calls _ (header_blocks 2 ref_pairs_sent)).
  - constructor.
  - by repeat constructor.
  - apply ref_sent_ok.
  - done.
  - done.
Defined.

Lemma restricted_headers_kept_witness :
  Swift.path (foldl builder_run ref_request ref_calls) tt = Ok ("/x", tt) ∧
  Swift.upstreamHttpProtocol (foldl builder_run ref_request ref_calls) tt = Ok (Some http2, tt).
Proof.
  destruct (restricted_headers_kept GET "https" "a.com" "/x" ref_calls tt) as (_ & _ & _ & H1 & H2).
  split; [exact H1|exact H2].
Defined.

Lemma mixed_case_names_pass_witness :
  setDestinationCluster (mode := debug_build)
    (sent_map (Swift.set "X-Envoy-Mobile-Upstream-Protocol" ["http3"] ref_request))
    (ref_state ENVOY_NET_WLAN) =
  Fault (DebugAssert "using unsupported protocol version").
Proof.
  refine (proj1 (proj2 (mixed_case_names_pass (mode := debug_build) ref_lower_lowercased
    (ref_state ENVOY_NET_WLAN) (sent_map (Swift.set "X-Envoy-Mobile-Cluster" ["mine"] ref_request))
    (sent_map (Swift.set "X-Envoy-Mobile-Upstream-Protocol" ["http3"] ref_request))
    ref_request "http3" "mine" _ _ _ _ _ _ _))).
  - constructor.
  - done.
  - set_solver.
  - done.
  - done.
  - done.
  - done.
Defined.
