(* ===== verification/KotlinHeadersProps.v ===== *)
(** * Kotlin's header builders are Swift's, but for the objects they share

    On a builder whose lists are its own, the operations of Kotlin do to its contents
    what those of Swift do to a dictionary ([kotlin_builder_refines_swift]). What is
    built is not a value, though: it is the builder's map ([built_headers_change]). *)

From S2P Require Export RequestProps.
From Stdlib Require Import ZArith Lia.
From stdpp Require Import pretty.

Implicit Types (o : Objects) (b l : positive) (m : gmap string positive) (h : HeaderValues).

(** ** Builders that share nothing *)

(** The lists of a map exist, and each is that of one name. *)
Record separate o m : Prop := {
  separate_lists n l : m !! n = Some l → is_Some (lists o !! l);
  separate_once n n' l : m !! n = Some l → m !! n' = Some l → n = n'
}.

Definition contents_of o m : HeaderValues := omap (λ l, lists o !! l) m.

(** Builder [b] has such a map, with contents [h]. *)
Definition holds o b h : Prop :=
  ∃ m, maps o !! b = Some m ∧ separate o m ∧ contents_of o m = h.

Definition reachable o b l : Prop := ∃ m n, maps o !! b = Some m ∧ m !! n = Some l.

(** What an operation on builder [b] may change: its map, its lists, and new lists. *)
Record touches b o o' : Prop := {
  touches_lists l : is_Some (lists o !! l) → ¬ reachable o b l → lists o' !! l = lists o !! l;
  touches_alive l : is_Some (lists o !! l) → is_Some (lists o' !! l);
  touches_maps b' : b' ≠ b → maps o' !! b' = maps o !! b';
  touches_reachable l : reachable o' b l → reachable o b l ∨ lists o !! l = None
}.

#[export] Instance touches_preorder b : PreOrder (touches b).
Proof.
  split.
  - intros o. split; auto.
  - intros o1 o2 o3 [L1 A1 M1 R1] [L2 A2 M2 R2]. split.
    + intros l Hl Hr. rewrite L2, L1; auto. intros Hr2. destruct (R1 _ Hr2) as [|Hn]; [done|].
      rewrite Hn in Hl. by destruct Hl.
    + auto.
    + intros b' Hb. by rewrite M2, M1.
    + intros l [Hr|Hn]%R2; [by apply R1|]. right. apply eq_None_not_Some. intros Hl%A1.
      rewrite Hn in Hl. by destruct Hl.
Qed.

Lemma holds_contents o b h : holds o b h → Kotlin.contents o b = h.
Proof. intros (m & Hm & _ & <-). unfold Kotlin.contents. by rewrite Hm. Qed.

Lemma contents_of_lookup o m n : contents_of o m !! n = m !! n ≫= λ l, lists o !! l.
Proof. apply lookup_omap. Qed.

(** ** What an operation does *)

(** A computation on builder [b] that takes its contents to [f] of them. *)
Definition implements b (c : K unit) (f : HeaderValues → HeaderValues) : Prop :=
  ∀ o h, holds o b h → ∃ o', c o = Ok (tt, o') ∧ holds o' b (f h) ∧ touches b o o'.

Lemma fresh_list o : lists o !! fresh (dom (lists o)) = None.
Proof. apply not_elem_of_dom, is_fresh. Qed.

(** A name gets a list that no other name has. *)
Lemma separate_insert o o' m name l vs :
  separate o m → (∀ n, m !! n = Some l → n = name) → lists o' = <[l := vs]> (lists o) →
  separate o' (<[name := l]> m) ∧ contents_of o' (<[name := l]> m) = <[name := vs]> (contents_of o m).
Proof.
  intros [Hl Ho] Hnew El. split; [split|].
  - intros n l' Hn. rewrite El. destruct (decide (l' = l)) as [->|Hne]; [by rewrite lookup_insert_eq|].
    rewrite lookup_insert_ne by done. apply lookup_insert_Some in Hn as [[_ ?]|[_ Hn]]; [done|eauto].
  - intros n n' l' Hn Hn'. apply lookup_insert_Some in Hn as [[<- <-]|[Hne Hn]];
      apply lookup_insert_Some in Hn' as [[<- E']|[Hne' Hn']]; try done; subst.
    + by apply Hnew in Hn'.
    + by apply Hnew in Hn.
    + by eapply Ho.
  - apply map_eq. intros n. rewrite contents_of_lookup.
    destruct (decide (n = name)) as [->|Hne].
    + rewrite !lookup_insert_eq. cbn. by rewrite El, lookup_insert_eq.
    + rewrite !lookup_insert_ne by done. rewrite contents_of_lookup.
      destruct (m !! n) as [l'|] eqn:Hn; [|done]. cbn. rewrite El, lookup_insert_ne; [done|].
      intros ->. by apply Hnew in Hn.
Qed.

(** The name's own list, or a new one. *)
Lemma gives o o' b m name l vs :
  maps o !! b = Some m → separate o m → (lists o !! l = None ∨ m !! name = Some l) →
  lists o' = <[l := vs]> (lists o) → maps o' = <[b := <[name := l]> m]> (maps o) →
  holds o' b (<[name := vs]> (contents_of o m)) ∧ touches b o o'.
Proof.
  intros Hm Hs Hl El Em. destruct (separate_insert o o' m name l vs) as [Hs' Hc']; [done| |done|].
  { intros n Hn. destruct Hl as [Hl|Hl]; [|by eapply Hs].
    destruct (separate_lists _ _ Hs _ _ Hn). congruence. }
  split.
  { exists (<[name := l]> m). by rewrite Em, lookup_insert_eq. }
  split.
  - intros l' [? Hl'] Hr. rewrite El, lookup_insert_ne; [done|]. intros <-.
    destruct Hl as [|Hl]; [congruence|]. apply Hr. by exists m, name.
  - intros l' Hl'. rewrite El. destruct (decide (l' = l)) as [->|?]; [by rewrite lookup_insert_eq|].
    by rewrite lookup_insert_ne.
  - intros b' Hb. by rewrite Em, lookup_insert_ne.
  - intros l' (m' & n & Hm' & Hn). rewrite Em, lookup_insert_eq in Hm'. simplify_eq.
    apply lookup_insert_Some in Hn as [[-> <-]|[_ Hn]]; [|left; by exists m, n].
    destruct Hl as [|Hl]; [by right|]. left. by exists m, n.
Qed.

Lemma implements_id b : implements b (mret tt) id.
Proof. intros o h Hh. by exists o. Qed.

Lemma implements_guard b (r : bool) (c : K unit) f :
  implements b c f → implements b (if r then mret tt else c) (λ h, if r then h else f h).
Proof. destruct r; [intros _; apply implements_id|done]. Qed.

Lemma implements_seq b c1 f1 c2 f2 :
  implements b c1 f1 → implements b c2 f2 → implements b (c1 ;; c2) (λ h, f2 (f1 h)).
Proof.
  intros H1 H2 o h Hh. destruct (H1 o h Hh) as (o1 & E1 & Hh1 & T1).
  destruct (H2 o1 _ Hh1) as (o2 & E2 & Hh2 & T2). exists o2.
  rewrite (bind_run _ _ _ _ _ E1). split_and!; [done..|by etrans].
Qed.

Lemma implements_for_each {A} b (l : list A) (body : A → K unit) f :
  (∀ a, implements b (body a) (f a)) →
  implements b (for_each l body) (λ h, foldl (λ h a, f a h) h l).
Proof.
  intros Hb. induction l as [|a l IH]; [apply implements_id|].
  exact (implements_seq b _ _ _ _ (Hb a) IH).
Qed.

Lemma get_entries_run o b m : maps o !! b = Some m → get_entries b o = Ok (m, o).
Proof. intros Hm. unfold get_entries, gets, deref, mbind, M_bind. by rewrite Hm. Qed.

Lemma get_list_run o l vs : lists o !! l = Some vs → get_list l o = Ok (vs, o).
Proof. intros Hl. unfold get_list, gets, deref, mbind, M_bind. by rewrite Hl. Qed.

(** A new list for a name, restricted or not. *)
Lemma internalSet_new b name vs :
  implements b (l ← new_list vs; Kotlin.internalSet name l b) (Swift.internalSet name vs).
Proof.
  intros o h (m & Hm & Hs & <-). eexists. split.
  - unfold Kotlin.internalSet. unfold mbind at 1, M_bind, new_list.
    rewrite (bind_run _ _ _ _ _ (get_entries_run (set_lists _ o) b m Hm)). reflexivity.
  - eapply (gives o _ b m name (fresh (dom (lists o))) vs); [done|done|left; apply fresh_list|done|done].
Qed.

Lemma add_implements b name v : implements b (Kotlin.add name v b) (Swift.add name v).
Proof.
  apply implements_guard. intros o h (m & Hm & Hs & <-). rewrite contents_of_lookup.
  rewrite (bind_run _ _ _ _ _ (get_entries_run o b m Hm)).
  destruct (m !! name) as [l|] eqn:Hn.
  - destruct (separate_lists _ _ Hs _ _ Hn) as [vs Hl]. eexists. split.
    + unfold mbind at 1, M_bind, mret at 1, M_ret. 
      rewrite (bind_run _ _ _ _ _ (get_list_run o l vs Hl)). reflexivity.
    + cbn. rewrite Hl. eapply gives; [done|done|by right|done|].
      by rewrite (insert_id m), (insert_id (maps o)).
  - set (l := fresh (dom (lists o))). set (o1 := set_maps (<[b := <[name := l]> m]> (maps o))
      (set_lists (<[l := []]> (lists o)) o)).
    assert (lists o1 !! l = Some []) as Hl by apply lookup_insert_eq.
    eexists. split.
    + rewrite (bind_run _ _ o l o1) by reflexivity.
      rewrite (bind_run _ _ _ _ _ (get_list_run o1 l [] Hl)). reflexivity.
    + eapply gives; [done|done|left; apply fresh_list| |done].
      cbn. by rewrite insert_insert_eq.
Qed.

Lemma set_implements b name vs :
  implements b (l ← new_list vs; Kotlin.set name l b) (Swift.set name vs).
Proof.
  unfold Kotlin.set, Swift.set. destruct (isRestrictedHeader name); [|apply internalSet_new].
  intros o h (m & Hm & [Hl Ho] & <-). eexists. split; [reflexivity|].
  assert (∀ l, is_Some (lists o !! l) → lists (set_lists (<[fresh (dom (lists o)) := vs]> (lists o)) o) !! l
    = lists o !! l) as Hsame.
  { intros l [? Hl']. cbn. rewrite lookup_insert_ne; [done|]. intros <-. by rewrite fresh_list in Hl'. }
  split; [|split].
  - exists m. split_and!; [done| |].
    + split; [|done]. intros n l Hn. rewrite Hsame; eauto.
    + apply map_eq. intros n. rewrite !contents_of_lookup. destruct (m !! n) as [l|] eqn:Hn; [|done].
      cbn [mbind option_bind]. rewrite Hsame; eauto.
  - intros l Hl' _. by apply Hsame.
  - intros l Hl'. by rewrite Hsame.
  - done.
  - by left.
Qed.

Lemma remove_implements b name : implements b (Kotlin.remove name b) (Swift.remove name).
Proof.
  apply implements_guard. intros o h (m & Hm & [Hl Ho] & <-).
  rewrite (bind_run _ _ _ _ _ (get_entries_run o b m Hm)). eexists. split; [reflexivity|]. split; [|split].
  - exists (delete name m). cbn. rewrite lookup_insert_eq. split_and!; [done| |].
    + split.
      * intros n l Hn%lookup_delete_Some. naive_solver.
      * intros n n' l Hn%lookup_delete_Some Hn'%lookup_delete_Some. naive_solver.
    + apply map_eq. intros n. rewrite contents_of_lookup.
      destruct (decide (n = name)) as [->|Hne]; [by rewrite !lookup_delete_eq|].
      rewrite !lookup_delete_ne by done. by rewrite contents_of_lookup.
  - done.
  - done.
  - intros b' Hb. cbn. by rewrite lookup_insert_ne.
  - intros l (m' & n & Hm' & Hn). cbn in Hm'. rewrite lookup_insert_eq in Hm'. simplify_eq.
    apply lookup_delete_Some in Hn as [_ Hn]. left. by exists m, n.
Qed.

(** ** The refinement *)

Section refinement.
Context `{!EntryOrder, !EntryOrderLaws}.

(** A call on a builder of Kotlin. [CallSet] gives it a list of its own. *)
Definition kotlin_run (b : positive) (c : builder_call) : K unit :=
  match c with
  | CallAdd name value => Kotlin.add name value b
  | CallSet name value => l ← new_list value; Kotlin.set name l b
  | CallRemove name => Kotlin.remove name b
  | CallRetryPolicy p => Kotlin.addRetryPolicy p b
  | CallProtocol p => Kotlin.addUpstreamHttpProtocol p b
  | CallTimeout timeoutMs => Kotlin.addtimeoutMs timeoutMs b
  end.

(** What a call does to the contents: what Swift's does, but that a timeout is added to
    those there are, where Swift's is set. *)
Definition kotlin_call (h : HeaderValues) (c : builder_call) : HeaderValues :=
  match c with
  | CallTimeout (Some timeoutMs) => Swift.add "grpc-timeout" (pretty timeoutMs +:+ "m") h
  | _ => builder_run h c
  end.

(** No timeout is given while there is one. *)
Fixpoint timeouts_once (h : HeaderValues) (cs : list builder_call) : bool :=
  match cs with
  | [] => true
  | c :: cs =>
      match c with
      | CallTimeout (Some _) => bool_decide (h !! "grpc-timeout" = None)
      | _ => true
      end && timeouts_once (builder_run h c) cs
  end.

Lemma kotlin_calls_agree h cs :
  timeouts_once h cs = true → foldl kotlin_call h cs = foldl builder_run h cs.
Proof.
  revert h. induction cs as [|c cs IH]; intros h; [done|]. cbn.
  intros [Hc Hcs]%andb_true_iff. rewrite <- IH by done. f_equal.
  destruct c as [n v|n vs|n|p|p|[t|]]; try done. apply bool_decide_eq_true in Hc. cbn.
  unfold Swift.add, Swift.set. by rewrite Hc.
Qed.

Lemma kotlin_run_implements b c : implements b (kotlin_run b c) (λ h, kotlin_call h c).
Proof.
  destruct c as [n v|n vs|n|p|p|[t|]]; cbn.
  - apply add_implements.
  - apply set_implements.
  - apply remove_implements.
  - unfold Kotlin.addRetryPolicy, Swift.addRetryPolicy. rewrite outboundHeaders_agree.
    exact (implements_for_each b _ _ (λ e h, Swift.internalSet e.1 e.2 h)
             (λ e, internalSet_new b e.1 e.2)).
  - apply internalSet_new.
  - exact (add_implements b "grpc-timeout" (pretty t +:+ "m")).
  - exact (remove_implements b "grpc-timeout").
Qed.

Lemma kotlin_runs_implement b cs :
  implements b (for_each cs (kotlin_run b)) (λ h, foldl kotlin_call h cs).
Proof. exact (implements_for_each b cs _ (λ c h, kotlin_call h c) (kotlin_run_implements b)). Qed.

(** A map of new lists leaves the old objects alone. *)
Record grows o o' : Prop := {
  grows_lists l : is_Some (lists o !! l) → lists o' !! l = lists o !! l;
  grows_maps b : is_Some (maps o !! b) → maps o' !! b = maps o !! b
}.

#[export] Instance grows_preorder : PreOrder grows.
Proof.
  split; [by split|]. intros o1 o2 o3 [L1 M1] [L2 M2]. split.
  - intros l Hl. rewrite L2; rewrite L1; auto.
  - intros b Hb. rewrite M2; rewrite M1; auto.
Qed.

(** A new map, with contents [h], whose lists are new. *)
Definition built o h (r : result (positive * Objects)) : Prop :=
  ∃ b o', r = Ok (b, o') ∧ maps o !! b = None ∧ holds o' b h ∧ grows o o' ∧
    ∀ l, reachable o' b l → lists o !! l = None.

(** The entries of such a map, before it is made. *)
Record entries_of o o' m : Prop := {
  entries_separate : separate o' m;
  entries_grows : grows o o';
  entries_new n l : m !! n = Some l → lists o !! l = None
}.

Lemma entries_of_empty o : entries_of o o ∅.
Proof.
  split; [split| |].
  - intros n l Hn. by rewrite lookup_empty in Hn.
  - intros n n' l Hn. by rewrite lookup_empty in Hn.
  - done.
  - intros n l Hn. by rewrite lookup_empty in Hn.
Qed.

Lemma new_list_entries o o' m name vs :
  entries_of o o' m →
  ∃ l o'', new_list vs o' = Ok (l, o'') ∧ entries_of o o'' (<[name := l]> m) ∧
    contents_of o'' (<[name := l]> m) = <[name := vs]> (contents_of o' m).
Proof.
  intros [Hs Hg Hn]. eexists _, _. split; [reflexivity|].
  set (l := fresh (dom (lists o'))). assert (lists o' !! l = None) as Hl by apply fresh_list.
  destruct (separate_insert o' (set_lists (<[l := vs]> (lists o')) o') m name l vs) as [Hs' Hc];
    [done| |done|].
  { intros n Hn'. destruct (separate_lists _ _ Hs _ _ Hn'). congruence. }
  split; [|done]. split; [done| |].
  - etrans; [done|]. split; [|done]. intros l' [? Hl']. apply lookup_insert_ne. congruence.
  - intros n l' [[_ <-]|[_ Hn']]%lookup_insert_Some; [|by eapply Hn].
    apply eq_None_not_Some. intros Hsome. rewrite <- (grows_lists _ _ Hg) in Hsome by done.
    rewrite Hl in Hsome. by destruct Hsome.
Qed.

Lemma new_map_built o o' m :
  entries_of o o' m → built o (contents_of o' m) (new_map m o').
Proof.
  intros [[Hl Ho] Hg Hn]. set (b := fresh (dom (maps o'))).
  assert (maps o' !! b = None) as Hnone by (apply not_elem_of_dom, is_fresh).
  exists b, (set_maps (<[b := m]> (maps o')) o'). split_and!; [done| | | |].
  - apply eq_None_not_Some. intros Hsome. rewrite <- (grows_maps _ _ Hg) in Hsome by done.
    rewrite Hnone in Hsome. by destruct Hsome.
  - exists m. cbn. by rewrite lookup_insert_eq.
  - etrans; [done|]. split; [done|]. intros b' [? Hb']. apply lookup_insert_ne. congruence.
  - intros l (m' & n & Hm' & Hn'). cbn in Hm'. rewrite lookup_insert_eq in Hm'. simplify_eq. eauto.
Qed.

Lemma mutableMapOf_built o o' m entries :
  entries_of o o' m →
  built o (foldl (λ h e, <[e.1 := [e.2]]> h) (contents_of o' m) entries)
    (Kotlin.mutableMapOf entries m o').
Proof.
  revert o' m. induction entries as [|[n v] entries IH]; intros o' m Hm; cbn; [by apply new_map_built|].
  destruct (new_list_entries o o' m n [v] Hm) as (l & o'' & Hrun & Hm' & Hc).
  rewrite (bind_run _ _ _ _ _ Hrun), <- Hc. by apply IH.
Qed.

Definition kotlin_start (start : builder_start) : K positive :=
  match start with
  | StartRequest m s a p => Kotlin.RequestHeadersBuilder_constructor m s a p
  | StartGrpc s a p => Kotlin.GRPCRequestHeadersBuilder_constructor s a p
  end.

Lemma constructor_built o start : built o (swift_start start) (kotlin_start start o).
Proof.
  assert (∀ entries, built o (foldl (λ h e, <[e.1 := [e.2]]> h) ∅ entries)
    (Kotlin.mutableMapOf entries ∅ o)) as Hbuilt.
  { intros entries. exact (mutableMapOf_built o o ∅ entries (entries_of_empty o)). }
  destruct start; [exact (Hbuilt [_; _; _; _])|].
  exact (Hbuilt [_; _; _; _; _; _]).
Qed.

Lemma copy_entries_built o o' m entries :
  entries_of o o' m → NoDup entries.*1 → Forall (λ e, is_Some (lists o !! e.2)) entries →
  (∀ n, n ∈ entries.*1 → m !! n = None) →
  built o (contents_of o' m ∪ contents_of o (list_to_map entries)) (Kotlin.copy_entries entries m o').
Proof.
  intros Hm Hnd Hall. revert o' m Hm. induction Hall as [|[n l] entries [vs Hl] _ IH];
    intros o' m Hm Hnone; cbn [Kotlin.copy_entries list_to_map foldr uncurry].
  - unfold contents_of at 2. rewrite omap_empty, map_union_empty. by apply new_map_built.
  - apply NoDup_cons in Hnd as [Hn Hnd]. cbn in Hl.
    assert (lists o' !! l = Some vs) as Hl' by (rewrite (grows_lists _ _ (entries_grows _ _ _ Hm)); done).
    rewrite (bind_run _ _ _ _ _ (get_list_run o' l vs Hl')).
    destruct (new_list_entries o o' m n vs Hm) as (l' & o'' & Hrun & Hm' & Hc).
    rewrite (bind_run _ _ _ _ _ Hrun).
    replace (contents_of o' m ∪ contents_of o (<[n := l]> (list_to_map entries)))
      with (contents_of o'' (<[n := l']> m) ∪ contents_of o (list_to_map entries)).
    + apply IH; [done..|]. intros n' Hn'. rewrite lookup_insert_ne by (intros ->; done).
      apply Hnone. by right.
    + rewrite Hc, <- insert_union_l, insert_union_r; [|].
      * f_equal. apply map_eq. intros k. rewrite contents_of_lookup.
        destruct (decide (k = n)) as [->|Hk]; [by rewrite !lookup_insert_eq|].
        by rewrite !lookup_insert_ne, contents_of_lookup.
      * rewrite contents_of_lookup, Hnone; [done|by left].
Qed.

(** A copy needs only that the lists exist. *)
Lemma copy_built o b m :
  maps o !! b = Some m → (∀ n l, m !! n = Some l → is_Some (lists o !! l)) →
  built o (contents_of o m) (Kotlin.toRequestHeadersBuilder b o).
Proof.
  intros Hm Hl. unfold Kotlin.toRequestHeadersBuilder.
  rewrite (bind_run _ _ _ _ _ (get_entries_run o b m Hm)).
  pose proof (copy_entries_built o o ∅ (map_to_list m) (entries_of_empty o)) as Hb.
  unfold contents_of at 1 in Hb. rewrite omap_empty, (left_id ∅ (∪)), list_to_map_to_list in Hb.
  apply Hb.
  - apply NoDup_fst_map_to_list.
  - apply Forall_forall. intros [n l] Hin%elem_of_map_to_list. eauto.
  - intros n _. apply lookup_empty.
Qed.

(** What touches a new builder only leaves the old objects alone. *)
Lemma built_touches o b o1 o2 :
  maps o !! b = None → grows o o1 → (∀ l, reachable o1 b l → lists o !! l = None) →
  touches b o1 o2 → grows o o2.
Proof.
  intros Hb [Lg Mg] Hnew [Lt _ Mt _]. split.
  - intros l Hl. rewrite Lt; [auto| |].
    + by rewrite Lg.
    + intros Hr%Hnew. rewrite Hr in Hl. by destruct Hl.
  - intros b' Hb'. rewrite Mt; [auto|]. intros ->. rewrite Hb in Hb'. by destruct Hb'.
Qed.

Lemma holds_grows o o' b h : grows o o' → holds o b h → holds o' b h.
Proof.
  intros [Lg Mg] (m & Hm & [Hl Ho] & <-). exists m. split_and!.
  - rewrite Mg; [done|]. by rewrite Hm.
  - split; [|done]. intros n l Hn. rewrite Lg; eauto.
  - apply map_eq. intros n. rewrite !contents_of_lookup. destruct (m !! n) as [l|] eqn:Hn; [|done].
    cbn [mbind option_bind]. rewrite Lg; eauto.
Qed.

(** C15: Kotlin's builders implement Swift's, but for the timeout. On a new builder (for
    HTTP or gRPC) an application makes any calls (of add, set, remove and those for the
    retry policy, the protocol and the timeout), giving each call a list of its own. No
    call fails, and no other object of the program changes. If no timeout is given while
    the builder has one already, the builder has the headers of the dictionary of Swift
    after the same calls: the same names, the same values in the same order. Else it has
    those of Swift with the timeouts added to each other, where Swift keeps the last. *)
Theorem kotlin_builder_refines_swift o start cs :
  ∃ b o',
    (b ← kotlin_start start; for_each cs (kotlin_run b) ;; mret b) o = Ok (b, o') ∧
    grows o o' ∧
    (timeouts_once (swift_start start) cs = true →
     Kotlin.contents o' b = foldl builder_run (swift_start start) cs) ∧
    Kotlin.contents o' b = foldl kotlin_call (swift_start start) cs.
Proof.
  destruct (constructor_built o start) as (b & o1 & Hrun & Hb & Hh & Hg & Hnew).
  destruct (kotlin_runs_implement b cs o1 _ Hh) as (o2 & Hrun2 & Hh2 & Ht).
  pose proof (holds_contents _ _ _ Hh2) as Hc.
  exists b, o2. rewrite (bind_run _ _ _ _ _ Hrun), (bind_run _ _ _ _ _ Hrun2). split_and!.
  - done.
  - by eapply built_touches.
  - intros Honce. by rewrite <- kotlin_calls_agree.
  - done.
Qed.

(** What is built is not a value in Kotlin. The headers that [build] returns have
    the builder's map: a later call on the builder changes them. The builder that
    toRequestHeadersBuilder makes of headers has a map and lists of its own: calls on it
    leave them as they were. *)
Theorem built_headers_change o b h c :
  holds o b h →
  (∃ headers o',
     (headers ← Kotlin.build b; kotlin_run b c ;; mret headers) o = Ok (headers, o') ∧
     Kotlin.contents o' headers = kotlin_call h c) ∧
  (∃ headers copy o',
     (headers ← Kotlin.build b; copy ← Kotlin.toRequestHeadersBuilder headers;
      kotlin_run copy c ;; mret (headers, copy)) o = Ok ((headers, copy), o') ∧
     Kotlin.contents o' headers = h ∧ Kotlin.contents o' copy = kotlin_call h c).
Proof.
  intros Hh. split.
  - destruct (kotlin_run_implements b c o h Hh) as (o' & Hrun & Hh' & _). exists b, o'.
    unfold Kotlin.build. rewrite (bind_run _ _ _ b o) by done.
    rewrite (bind_run _ _ _ _ _ Hrun). split; [done|by apply holds_contents].
  - pose proof Hh as (m & Hm & Hs & Hc).
    destruct (copy_built o b m Hm (separate_lists _ _ Hs)) as (b' & o1 & Hrun & Hb & Hh1 & Hg & Hnew).
    rewrite Hc in Hh1. destruct (kotlin_run_implements b' c o1 h Hh1) as (o2 & Hrun2 & Hh2 & Ht).
    exists b, b', o2. unfold Kotlin.build. rewrite (bind_run _ _ _ b o) by done.
    rewrite (bind_run _ _ _ _ _ Hrun), (bind_run _ _ _ _ _ Hrun2). split_and!.
    + done.
    + apply holds_contents. eapply holds_grows; [|done]. by eapply built_touches.
    + by apply holds_contents.
Qed.
End refinement.

(** A list given to two names is shared: what is added to one is added to the other. *)
Theorem list_set_twice o b m name name' l vs v :
  maps o !! b = Some m → lists o !! l = Some vs → name ≠ name' →
  isRestrictedHeader name = false → isRestrictedHeader name' = false →
  ∃ o', (Kotlin.set name l b ;; Kotlin.set name' l b ;; Kotlin.add name v b) o = Ok (tt, o') ∧
    Kotlin.contents o' b !! name' = Some (vs ++ [v]).
Proof.
  intros Hm Hl Hne Hr Hr'. unfold Kotlin.set, Kotlin.add. rewrite Hr, Hr'.
  set (m1 := <[name := l]> m). set (m2 := <[name' := l]> m1).
  set (o1 := set_maps (<[b := m1]> (maps o)) o). set (o2 := set_maps (<[b := m2]> (maps o1)) o1).
  assert (maps o1 !! b = Some m1) as Hm1 by apply lookup_insert_eq.
  assert (maps o2 !! b = Some m2) as Hm2 by apply lookup_insert_eq.
  rewrite (bind_run _ _ _ tt o1) by (by rewrite (bind_run _ _ _ _ _ (get_entries_run o b m Hm))).
  rewrite (bind_run _ _ _ tt o2) by (by rewrite (bind_run _ _ _ _ _ (get_entries_run o1 b m1 Hm1))).
  rewrite (bind_run _ _ _ _ _ (get_entries_run o2 b m2 Hm2)).
  assert (m2 !! name = Some l) as -> by (unfold m2, m1; by simplify_map_eq).
  rewrite (bind_run _ _ _ l o2) by done.
  rewrite (bind_run _ _ _ _ _ (get_list_run o2 l vs Hl)). eexists. split; [reflexivity|].
  unfold Kotlin.contents. cbn [maps set_lists]. rewrite Hm2. cbn [lists set_lists].
  rewrite lookup_omap. unfold m2. rewrite lookup_insert_eq. cbn. apply lookup_insert_eq.
Qed.

(** The timeout of a gRPC request: Swift sets it, Kotlin adds it to those there are. *)
Theorem timeouts_pile_up o b h timeoutMs :
  holds o b h →
  ∃ o', Kotlin.addtimeoutMs (Some timeoutMs) b o = Ok (tt, o') ∧
    Kotlin.contents o' b !! "grpc-timeout" =
      Some (default [] (h !! "grpc-timeout") ++ [pretty timeoutMs +:+ "m"]) ∧
    Swift.addTimeoutMs (Some timeoutMs) h !! "grpc-timeout" = Some [pretty timeoutMs +:+ "m"].
Proof.
  intros Hh. destruct (add_implements b "grpc-timeout" (pretty timeoutMs +:+ "m") o h Hh)
    as (o' & Hrun & Hh' & _).
  exists o'. split_and!; [done| |].
  - rewrite (holds_contents _ _ _ Hh'). apply lookup_insert_eq.
  - apply lookup_insert_eq.
Qed.

(** ** Examples *)

Definition ref_objects : Objects :=
  {| lists := {[1%positive := ["a"]; 2%positive := ["GET"]]};
     maps := {[1%positive := {["accept" := 1%positive; ":method" := 2%positive]}]} |}.

Lemma ref_holds : holds ref_objects 1 {["accept" := ["a"]; ":method" := ["GET"]]}.
Proof.
  eexists. split_and!; [reflexivity| |reflexivity]. split.
  - intros n l [[_ <-]|[_ [_ <-]%lookup_singleton_Some]]%lookup_insert_Some; by eexists.
  - intros n n' l [[<- <-]|[_ [<- <-]%lookup_singleton_Some]]%lookup_insert_Some
      [[<- ?]|[_ [<- ?]%lookup_singleton_Some]]%lookup_insert_Some; done.
Qed.

(** A gRPC request whose timeout is given, taken back and given again; then once more. *)
Definition ref_timeouts : list builder_call :=
  [CallTimeout (Some 10%Z); CallTimeout None; CallTimeout (Some 20%Z)].

Lemma kotlin_builder_refines_swift_witness :
  (∃ b o', (b ← kotlin_start (StartGrpc "https" "a.com" "/S/M");
      for_each ref_timeouts (kotlin_run b) ;; mret b) ref_objects = Ok (b, o') ∧
    Kotlin.contents o' b !! "grpc-timeout" = Some ["20m"]) ∧
  (∃ b o', (b ← kotlin_start (StartGrpc "https" "a.com" "/S/M");
      for_each (ref_timeouts ++ [CallTimeout (Some 30%Z)]) (kotlin_run b) ;; mret b) ref_objects =
      Ok (b, o') ∧
    Kotlin.contents o' b !! "grpc-timeout" = Some ["20m"; "30m"]).
Proof.
  split.
  - destruct (kotlin_builder_refines_swift ref_objects (StartGrpc "https" "a.com" "/S/M") ref_timeouts)
      as (b & o' & Hrun & _ & Hc & _).
    exists b, o'. split; [exact Hrun|]. rewrite Hc; vm_compute; reflexivity.
  - destruct (kotlin_builder_refines_swift ref_objects (StartGrpc "https" "a.com" "/S/M")
      (ref_timeouts ++ [CallTimeout (Some 30%Z)])) as (b & o' & Hrun & _ & _ & Hc).
    exists b, o'. split; [exact Hrun|]. rewrite Hc. vm_compute. reflexivity.
Defined.

Lemma built_headers_change_witness :
  ∃ headers o',
    (headers ← Kotlin.build 1; kotlin_run 1 (CallRemove "accept") ;; mret headers) ref_objects =
      Ok (headers, o') ∧
    Kotlin.contents o' headers = {[":method" := ["GET"]]}.
Proof.
  destruct (built_headers_change ref_objects 1 _ (CallRemove "accept") ref_holds)
    as [(headers & o' & Hrun & Hc) _].
  exists headers, o'. split; [exact Hrun|]. rewrite Hc. reflexivity.
Defined.
