(* ===== verification/JvmBridge.v ===== *)
(** * The Java side of the bridge

    The classes of src/library/java/src/io/envoyproxy/envoymobile/engine/ that the JNI
    layer calls, and the adapters of Kotlin behind them: JvmBridgeUtility collects the
    pairs of a block of headers, JvmCallbackContext hands the callbacks of a stream to
    the executor of the application, JvmFilterContext asks a filter, and
    JniBridgeUtility flattens headers for the way back. *)

From S2P Require Export Foundation Jni.

(** ** Strings *)

(** A String is a sequence of characters as NSString is. What the decoder makes of bytes
    that are not UTF-8, and the default charset, are the affair of the virtual machine. *)
Class JavaStrings := {
  malformed_utf8 : list byte → NSString;
  default_charset : list byte → NSString
}.

(** [new String(bytes, "UTF-8")] *)
Definition new_String `{!JavaStrings} (bytes : list byte) : NSString :=
  default (malformed_utf8 bytes) (utf8_decode bytes).

(** [getBytes(StandardCharsets.UTF_8)]: a question mark for half a surrogate pair. *)
Definition getBytes (s : NSString) : list byte :=
  s ≫= λ c, if decide (scalar c) then utf8_char c else [x3f].

Definition null_pointer {St A} : M St A := fail (Thrown "NullPointerException").
Definition not_null {St A} (o : option A) : M St A :=
  match o with Some a => mret a | None => null_pointer end.

(** A parameter that cannot be null, in Kotlin 1.3. *)
Definition parameter {St A} (o : option A) : M St A :=
  match o with Some a => mret a | None => fail (Thrown "IllegalArgumentException") end.

(** ** JniBridgeUtility *)

Definition toJniHeaders `{!Dictionary} (headers : NSHeaders) : list (list byte * list byte) :=
  enumeration headers ≫= λ key,
    (λ value, (getBytes key, getBytes value)) <$> default [] (headers !! key).

(** ** JvmBridgeUtility *)

Record JvmBridgeUtility := {
  headerAccumulator : option NSHeaders;
  headerCount : Z
}.

Definition JvmBridgeUtility_new : JvmBridgeUtility :=
  {| headerAccumulator := None; headerCount := 0 |}.

(** The asserts of Java, as those of C++, are checked in some builds only. *)
Definition passHeader {mode : BuildMode} `{!JavaStrings} (key value : list byte) (start : bool) :
    M JvmBridgeUtility unit :=
  when start (
    accumulator ← gets headerAccumulator;
    ASSERT (bool_decide (accumulator = None)) "headerAccumulator == null" ;;
    count ← gets headerCount;
    ASSERT (bool_decide (count = 0%Z)) "headerCount == 0" ;;
    modify (λ u, {| headerAccumulator := Some ∅; headerCount := headerCount u |})) ;;
  accumulator ← gets headerAccumulator;
  ASSERT (bool_decide (accumulator ≠ None)) "headerAccumulator != null" ;;
  let headerKey := new_String key in
  let headerValue := new_String value in
  headers ← not_null accumulator;
  modify (λ u, {| headerAccumulator := Some (dict_add headerKey headerValue headers);
                  headerCount := s64 (headerCount u + 1) |}).

Definition retrieveHeaders : M JvmBridgeUtility (option NSHeaders) :=
  headers ← gets headerAccumulator;
  modify (λ _, {| headerAccumulator := None; headerCount := 0 |}) ;;
  mret headers.

Definition validateCount (count : Z) : M JvmBridgeUtility bool :=
  headerCount ← gets headerCount; mret (bool_decide (headerCount = count)).

(** ** JvmCallbackContext *)

(** What is given to the executor: a call of EnvoyHTTPCallbacks. Headers may be null. *)
Inductive Runnable :=
| RunOnHeaders (headers : option NSHeaders) (endStream : bool)
| RunOnTrailers (trailers : option NSHeaders)
| RunOnData (data : list byte) (endStream : bool)
| RunOnError (errorCode : Z) (message : list byte) (attemptCount : Z)
| RunOnCancel.

(** The executor runs what it is given in the order it is given. *)
Record JvmCallbackContext := {
  bridgeUtility : JvmBridgeUtility;
  executor : list Runnable
}.

Definition JvmCallbackContext_new : JvmCallbackContext :=
  {| bridgeUtility := JvmBridgeUtility_new; executor := [] |}.

#[export] Instance context_utility : Part JvmCallbackContext JvmBridgeUtility := {
  part_get := bridgeUtility;
  part_set := λ u c, {| bridgeUtility := u; executor := executor c |}
}.

Definition execute (r : Runnable) : M JvmCallbackContext unit :=
  modify (λ c, {| bridgeUtility := bridgeUtility c; executor := executor c ++ [r] |}).

(** Both onResponseHeaders and onResponseTrailers begin so. *)
Definition take_headers {mode : BuildMode} {St} `{!Part St JvmBridgeUtility} (count : Z) :
    M St (option NSHeaders) :=
  valid ← zoom (validateCount count);
  ASSERT valid "bridgeUtility.validateCount" ;;
  zoom retrieveHeaders.

Module Context.
Definition onResponseHeaders {mode : BuildMode} (headerCount : Z) (endStream : bool) :
    M JvmCallbackContext unit :=
  headers ← take_headers headerCount; execute (RunOnHeaders headers endStream).

Definition onResponseTrailers {mode : BuildMode} (trailerCount : Z) : M JvmCallbackContext unit :=
  trailers ← take_headers trailerCount; execute (RunOnTrailers trailers).

Definition onResponseData (data : list byte) (endStream : bool) : M JvmCallbackContext unit :=
  execute (RunOnData data endStream).

Definition onError (errorCode : Z) (message : list byte) (attemptCount : Z) :
    M JvmCallbackContext unit := execute (RunOnError errorCode message attemptCount).

Definition onCancel : M JvmCallbackContext unit := execute RunOnCancel.
End Context.

(** A call of the JNI layer, on the context it is made on. *)
Definition context_call {mode : BuildMode} `{!JavaStrings} (c : java_call) :
    M JvmCallbackContext unit :=
  let name := (call_method c).1 in
  match call_arguments c with
  | [ABytes key; ABytes value; ABoolean start] =>
      if decide (name = "passHeader") then zoom (passHeader key value start)
      else fail (Thrown "NoSuchMethodError")
  | [ALong count; ABoolean endStream] =>
      if decide (name = "onResponseHeaders") then Context.onResponseHeaders count endStream
      else fail (Thrown "NoSuchMethodError")
  | [ALong count] =>
      if decide (name = "onResponseTrailers") then Context.onResponseTrailers count
      else fail (Thrown "NoSuchMethodError")
  | [ABytes data; ABoolean endStream] =>
      if decide (name = "onResponseData") then Context.onResponseData data endStream
      else fail (Thrown "NoSuchMethodError")
  | [AInt errorCode; ABytes message; AInt attemptCount] =>
      if decide (name = "onError") then Context.onError errorCode message attemptCount
      else fail (Thrown "NoSuchMethodError")
  | [] =>
      if decide (name = "onCancel") then Context.onCancel else fail (Thrown "NoSuchMethodError")
  | _ => fail (Thrown "NoSuchMethodError")
  end.

(** ** EnvoyHTTPCallbacksAdapter, in StreamCallbacks.kt *)

(** What the closures of the application are called with. *)
Inductive stream_event :=
| StreamHeaders (headers : NSHeaders) (endStream : bool)
| StreamData (data : list byte) (endStream : bool)
| StreamTrailers (trailers : NSHeaders)
| StreamError (errorCode : Z) (message : NSString) (attemptCount : Z)
| StreamCancel.

(** which closures of StreamCallbacks are set. *)
Record AppStreamCallbacks := {
  has_onHeaders : bool;
  has_onData : bool;
  has_onTrailers : bool;
  has_onCancel : bool;
  has_onError : bool
}.

Definition invoke (present : bool) (ev : stream_event) : M (list stream_event) unit :=
  when present (modify (λ evs, evs ++ [ev])).

(** [run] of a Runnable: Kotlin checks that a parameter that cannot be null is not. *)
Definition run_runnable `{!JavaStrings} (callbacks : AppStreamCallbacks) (r : Runnable) :
    M (list stream_event) unit :=
  match r with
  | RunOnHeaders headers endStream =>
      headers ← parameter headers;
      invoke (has_onHeaders callbacks) (StreamHeaders headers endStream)
  | RunOnTrailers trailers =>
      trailers ← parameter trailers;
      invoke (has_onTrailers callbacks) (StreamTrailers trailers)
  | RunOnData data endStream => invoke (has_onData callbacks) (StreamData data endStream)
  | RunOnError errorCode message attemptCount =>
      invoke (has_onError callbacks) (StreamError errorCode (default_charset message) attemptCount)
  | RunOnCancel => invoke (has_onCancel callbacks) StreamCancel
  end.

(** ** Filters of Kotlin *)

Inductive KotlinHeadersStatus :=
| KHeadersContinue (headers : NSHeaders)
| KHeadersStopIteration.
Inductive KotlinDataStatus :=
| KDataContinue (data : list byte)
| KDataStopIterationAndBuffer
| KDataStopIterationNoBuffer
| KDataResumeIteration (headers : option NSHeaders) (data : list byte).
Inductive KotlinTrailersStatus :=
| KTrailersContinue (trailers : NSHeaders)
| KTrailersStopIteration
| KTrailersResumeIteration (headers : option NSHeaders) (data : option (list byte)) (trailers : NSHeaders).

(** RequestFilter, or ResponseFilter, of an application with state [F]. It does not write
    into the buffers it is given. *)
Record KotlinFilter (F : Type) := {
  filter_onHeaders : NSHeaders → bool → M F KotlinHeadersStatus;
  filter_onData : list byte → bool → M F KotlinDataStatus;
  filter_onTrailers : NSHeaders → M F KotlinTrailersStatus
}.
Arguments filter_onHeaders {F}.
Arguments filter_onData {F}.
Arguments filter_onTrailers {F}.

(** The elements of the arrays that are returned to native code. *)
Inductive answer_element :=
| Status (n : Z)
| HeadersMap (headers : option NSHeaders)
| HeadersPairs (pairs : list (list byte * list byte))
| Buffer (data : option (list byte)).

(** EnvoyHTTPFilterAdapter: the functions for requests and for responses are the same, on
    the filter as the interface of that direction, if it has it. *)
Module Adapter.
Definition onHeaders {F} (filter : option (KotlinFilter F)) (headers : option NSHeaders)
    (endStream : bool) : M F (list answer_element) :=
  headers ← parameter headers;
  match filter with
  | Some f =>
      result ← filter_onHeaders f headers endStream;
      mret (match result with
            | KHeadersContinue headers' => [Status 0; HeadersMap (Some headers')]
            | KHeadersStopIteration => [Status 1; HeadersMap (Some headers)]
            end)
  | None => mret [Status 0; HeadersMap (Some headers)]
  end.

Definition onData {F} (filter : option (KotlinFilter F)) (data : list byte) (endStream : bool) :
    M F (list answer_element) :=
  match filter with
  | Some f =>
      result ← filter_onData f data endStream;
      mret (match result with
            | KDataContinue data' => [Status 0; Buffer (Some data')]
            | KDataStopIterationAndBuffer => [Status 1; Buffer (Some data)]
            | KDataStopIterationNoBuffer => [Status 3; Buffer (Some data)]
            | KDataResumeIteration headers data' =>
                [Status (-1); HeadersMap headers; Buffer (Some data')]
            end)
  | None => mret [Status 0; Buffer (Some data)]
  end.

Definition onTrailers {F} (filter : option (KotlinFilter F)) (trailers : option NSHeaders) :
    M F (list answer_element) :=
  trailers ← parameter trailers;
  match filter with
  | Some f =>
      result ← filter_onTrailers f trailers;
      mret (match result with
            | KTrailersContinue trailers' => [Status 0; HeadersMap (Some trailers')]
            | KTrailersStopIteration => [Status 1; HeadersMap (Some trailers)]
            | KTrailersResumeIteration headers data trailers' =>
                [Status (-1); HeadersMap headers; Buffer data; HeadersMap (Some trailers')]
            end)
  | None => mret [Status 0; HeadersMap (Some trailers)]
  end.
End Adapter.

(** ** JvmFilterContext *)

(** The utility of the context, and the state of the filter. *)
Record JvmFilterContext (F : Type) := {
  filter_utility : JvmBridgeUtility;
  filter_data : F
}.
Arguments Build_JvmFilterContext {F}.
Arguments filter_utility {F}.
Arguments filter_data {F}.

#[export] Instance filter_context_utility {F} : Part (JvmFilterContext F) JvmBridgeUtility := {
  part_get := filter_utility;
  part_set := λ u c, {| filter_utility := u; filter_data := filter_data c |}
}.
#[export] Instance filter_context_filter {F} : Part (JvmFilterContext F) F := {
  part_get := filter_data;
  part_set := λ f c, {| filter_utility := filter_utility c; filter_data := f |}
}.

(** [result[1]] must be a map, and is cast to one. *)
Definition toJniFilterHeadersStatus {mode : BuildMode} `{!Dictionary} {St}
    (result : list answer_element) : M St (list answer_element) :=
  ASSERT (bool_decide (length result = 2)) "result.length == 2" ;;
  match result !! 1 with
  | Some (HeadersMap headers) =>
      headers ← not_null headers; mret (<[1 := HeadersPairs (toJniHeaders headers)]> result)
  | Some _ => fail (Thrown "ClassCastException")
  | None => fail (Thrown "ArrayIndexOutOfBoundsException")
  end.

(** The methods for requests, and those for responses. *)
Module FilterContext.
Definition onHeaders {mode : BuildMode} `{!Dictionary} {F} (filter : option (KotlinFilter F))
    (headerCount : Z) (endStream : bool) : M (JvmFilterContext F) (list answer_element) :=
  headers ← take_headers headerCount;
  result ← zoom (Adapter.onHeaders filter headers endStream);
  toJniFilterHeadersStatus result.

Definition onData {F} (filter : option (KotlinFilter F)) (data : list byte) (endStream : bool) :
    M (JvmFilterContext F) (list answer_element) :=
  zoom (Adapter.onData filter data endStream).

Definition onTrailers {mode : BuildMode} `{!Dictionary} {F} (filter : option (KotlinFilter F))
    (trailerCount : Z) : M (JvmFilterContext F) (list answer_element) :=
  trailers ← take_headers trailerCount;
  result ← zoom (Adapter.onTrailers filter trailers);
  toJniFilterHeadersStatus result.
End FilterContext.
