(* ===== verification/JvmBridgeProps.v ===== *)
(** * What an Android application sees

    The callbacks of the dispatcher arrive at the application: through the JNI layer, the
    context of the stream and its executor; headers round-trip between the maps of Java
    and C; what a filter written in Kotlin answers, and what becomes of a block of
    headers that is empty. *)

From S2P Require Import Engine EngineInv EngineProps IosUtilityProps.
From S2P Require Export JvmBridge JniProps.

#[export] Instance context_utility_laws : PartLaws JvmCallbackContext JvmBridgeUtility.
Proof. split; by intros; try destruct s. Qed.
#[export] Instance filter_context_utility_laws {F} : PartLaws (JvmFilterContext F) JvmBridgeUtility.
Proof. split; by intros; try destruct s. Qed.

(** ** Blocks of headers *)

Section blocks.
Context `{!JavaStrings}.

Definition new_pair (e : list byte * list byte) : NSString * NSString :=
  prod_map new_String new_String e.

(** A block as Java gets it: no map is made for an empty one. *)
Definition java_block (es : list (list byte * list byte)) : option NSHeaders :=
  if decide (es = []) then None else Some (dict_of (new_pair <$> es)).

Lemma new_String_getBytes s : Forall scalar s → new_String (getBytes s) = s.
Proof.
  intros Hs. unfold new_String. replace (getBytes s) with (utf8 s).
  - by rewrite utf8_decode_encode.
  - unfold getBytes, utf8. induction Hs as [|c s Hc _ IH]; [done|].
    cbn. rewrite decide_True by done. f_equal. exact IH.
Qed.

Definition java_text (h : NSHeaders) : Prop :=
  map_Forall (λ name values, Forall scalar name ∧ Forall (Forall scalar) values) h.

Lemma toJniHeaders_pairs `{!Dictionary} h :
  toJniHeaders h = prod_map getBytes getBytes <$> pairs_of h.
Proof.
  unfold toJniHeaders, pairs_of. induction (enumeration h) as [|k ks IH]; [done|].
  cbn. rewrite fmap_app, <- IH, <- list_fmap_compose. done.
Qed.

Lemma new_pairs_toJniHeaders `{!Dictionary, !DictionaryLaws} h :
  java_text h → new_pair <$> toJniHeaders h = pairs_of h.
Proof.
  intros Hh. rewrite toJniHeaders_pairs, <- list_fmap_compose.
  apply (pairs_of_Forall (Forall scalar)) in Hh. induction Hh as [|[k v] ps [Hk Hv] _ IH]; [done|].
  rewrite fmap_cons, IH. unfold compose, new_pair, prod_map. cbn [fst snd] in *.
  by rewrite !new_String_getBytes.
Qed.

(** ** The calls of a block *)

Section calls.
Context {mode : BuildMode}.

Lemma s64_small n : (0 ≤ n < 2 ^ 63)%Z → s64 n = n.
Proof. intros Hn. unfold s64, wrap_signed. rewrite Z.mod_small; lia. Qed.

(** A pair is added to the map of the block, which the first pair makes. *)
Lemma passHeader_run key value start d u :
  (if (start : bool) then u = JvmBridgeUtility_new ∧ d = ∅ else headerAccumulator u = Some d) →
  passHeader key value start u =
  Ok (tt, {| headerAccumulator := Some (dict_add (new_String key) (new_String value) d);
             headerCount := s64 (headerCount u + 1) |}).
Proof.
  unfold passHeader, when, ASSERT. destruct start, u as [acc n]; cbn [headerAccumulator].
  - intros [[= -> ->] ->]. by destruct ASSERT_enabled.
  - intros ->. by destruct ASSERT_enabled.
Qed.

(** The pairs of a block with the flag the JNI layer gives each. *)
Definition marked (es : list (list byte * list byte)) : list (bool * (list byte * list byte)) :=
  imap (λ i e, (bool_decide (i = 0), e)) es.
Definition pass_marked (x : bool * (list byte * list byte)) : M JvmBridgeUtility unit :=
  passHeader x.2.1 x.2.2 x.1.

Lemma marked_cons e es : marked (e :: es) = (true, e) :: (pair false <$> es).
Proof. unfold marked. cbn. f_equal. rewrite <- (imap_const _ es). by apply imap_ext. Qed.

Lemma pass_rest d n es :
  (0 ≤ n)%Z → (n + Z.of_nat (length es) < 2 ^ 63)%Z →
  for_each (pair false <$> es) pass_marked {| headerAccumulator := Some d; headerCount := n |} =
  Ok (tt, {| headerAccumulator := Some (foldl (λ d p, dict_add p.1 p.2 d) d (new_pair <$> es));
             headerCount := n + Z.of_nat (length es) |}).
Proof.
  revert d n. induction es as [|e es IH]; intros d n Hn Hmax.
  { cbn. by rewrite Z.add_0_r. }
  cbn [length] in *. rewrite fmap_cons. cbn [for_each foldr].
  rewrite (bind_run _ _ _ _ _ (passHeader_run e.1 e.2 false d
    {| headerAccumulator := Some d; headerCount := n |} eq_refl)). cbn [headerCount].
  rewrite s64_small by lia. unfold for_each in IH. rewrite IH by lia.
  by replace (n + 1 + Z.of_nat (length es))%Z with (n + Z.of_nat (S (length es)))%Z by lia.
Qed.

(** A whole block leaves its map and the number of its pairs. *)
Lemma pass_block es :
  fits_java es →
  for_each (marked es) pass_marked JvmBridgeUtility_new =
  Ok (tt, {| headerAccumulator := java_block es; headerCount := Z.of_nat (length es) |}).
Proof.
  intros [Hmax _]. unfold INT_MAX in Hmax. destruct es as [|e es]; [done|].
  rewrite marked_cons. cbn [for_each foldr length] in *.
  rewrite (bind_run _ _ _ _ _ (passHeader_run e.1 e.2 true ∅ JvmBridgeUtility_new (conj eq_refl eq_refl))).
  cbn [headerCount JvmBridgeUtility_new].
  rewrite s64_small by lia. change (0 + 1)%Z with 1%Z.
  pose proof (pass_rest (dict_add (new_String e.1) (new_String e.2) ∅) 1 es) as Hrest.
  unfold for_each in Hrest. rewrite Hrest by lia. unfold java_block. rewrite decide_False by done.
  by replace (1 + Z.of_nat (length es))%Z with (Z.of_nat (S (length es))) by lia.
Qed.

(** Either context passes the pairs on to its utility. *)
Lemma context_block g q es :
  fits_java es →
  for_each (header_calls g es) context_call
    {| bridgeUtility := JvmBridgeUtility_new; executor := q |} =
  Ok (tt, {| bridgeUtility := {| headerAccumulator := java_block es; headerCount := Z.of_nat (length es) |};
             executor := q |}).
Proof.
  intros Hfit. assert (header_calls g es = (λ x, JavaCall g ("passHeader", "([B[BZ)V")
    [ABytes x.2.1; ABytes x.2.2; ABoolean x.1]) <$> marked es) as ->.
  { unfold header_calls, marked. by rewrite fmap_imap. }
  rewrite for_each_fmap.
  change (for_each (marked es) (λ x, zoom (pass_marked x)) 
    {| bridgeUtility := JvmBridgeUtility_new; executor := q |} = Ok (tt, {| bridgeUtility :=
      {| headerAccumulator := java_block es; headerCount := Z.of_nat (length es) |}; executor := q |})).
  rewrite zoom_for_each. unfold zoom. change (part_get _) with JvmBridgeUtility_new.
  by rewrite (pass_block es Hfit).
Qed.
End calls.

(** ** Callbacks *)

(** What a callback of the bridge says, whatever memory it is in. *)
Inductive message :=
| GotHeaders (es : list (list byte * list byte)) (end_stream : bool)
| GotData (bs : list byte) (end_stream : bool)
| GotTrailers (es : list (list byte * list byte))
| GotError (code : envoy_error_code_t) (text : list byte) (attempts : Z)
| GotComplete
| GotCancel.

Definition says (c : mem) (ev : bridge_event) (msg : message) : Prop :=
  match ev, msg with
  | OnHeaders headers end_stream, GotHeaders es end_stream' =>
      end_stream' = end_stream ∧ fits_java es ∧ ∃ hs, headers_ok c headers hs es
  | OnData data end_stream, GotData bs end_stream' =>
      end_stream' = end_stream ∧ data_ok c data bs ∧ (data_length data ≤ INT_MAX)%Z
  | OnTrailers headers, GotTrailers es => fits_java es ∧ ∃ hs, headers_ok c headers hs es
  | OnError error, GotError code text attempts =>
      code = error_code error ∧ attempts = error_attempt_count error ∧
      data_ok c (CTypes.error_message error) text ∧
      (data_length (CTypes.error_message error) ≤ INT_MAX)%Z
  | OnComplete, GotComplete | OnCancel, GotCancel => True
  | _, _ => False
  end.

(** The calls the JNI layer makes for it. *)
Definition calls_of (g : positive) (msg : message) : list java_call :=
  match msg with
  | GotHeaders es end_stream => header_calls g es ++
      [JavaCall g ("onResponseHeaders", "(JZ)Ljava/lang/Object;")
        [ALong (Z.of_nat (length es)); ABoolean end_stream]]
  | GotData bs end_stream =>
      [JavaCall g ("onResponseData", "([BZ)Ljava/lang/Object;") [ABytes bs; ABoolean end_stream]]
  | GotTrailers es => header_calls g es ++
      [JavaCall g ("onResponseTrailers", "(J)Ljava/lang/Object;") [ALong (Z.of_nat (length es))]]
  | GotError code text attempts =>
      [JavaCall g ("onError", "(I[BI)Ljava/lang/Object;")
        [AInt (error_code_value code); ABytes text; AInt attempts]]
  | GotComplete => []
  | GotCancel => [JavaCall g ("onCancel", "()Ljava/lang/Object;") []]
  end.

(** What the context gives the executor for it. *)
Definition runs_of (msg : message) : list Runnable :=
  match msg with
  | GotHeaders es end_stream => [RunOnHeaders (java_block es) end_stream]
  | GotData bs end_stream => [RunOnData bs end_stream]
  | GotTrailers es => [RunOnTrailers (java_block es)]
  | GotError code text attempts => [RunOnError (error_code_value code) text attempts]
  | GotComplete => []
  | GotCancel => [RunOnCancel]
  end.

Definition message_fits (msg : message) : Prop :=
  match msg with GotHeaders es _ | GotTrailers es => fits_java es | _ => True end.

Lemma says_fits c ev msg : says c ev msg → message_fits msg.
Proof. destruct ev, msg; cbn; naive_solver. Qed.

Lemma says_all_fit l msgs :
  Forall2 (λ x msg, says x.1 x.2 msg) l msgs → Forall message_fits msgs.
Proof. induction 1; constructor; [by eapply says_fits|done]. Qed.

Definition context_of (q : list Runnable) : JvmCallbackContext :=
  {| bridgeUtility := JvmBridgeUtility_new; executor := q |}.

Section executor.
Context {mode : BuildMode}.

Lemma take_block {St} `{!Part St JvmBridgeUtility, !PartLaws St JvmBridgeUtility} s acc n :
  part_get s = {| headerAccumulator := acc; headerCount := n |} →
  take_headers n s = Ok (acc, part_set JvmBridgeUtility_new s).
Proof.
  intros Hs. unfold take_headers, zoom, validateCount, retrieveHeaders, ASSERT.
  unfold mbind, M_bind, gets, modify, mret, M_ret. cbn. rewrite Hs. cbn.
  rewrite bool_decide_true by done. rewrite <- Hs, part_set_get.
  destruct ASSERT_enabled; cbn; by rewrite Hs.
Qed.

Lemma context_takes acc n q :
  take_headers n {| bridgeUtility := {| headerAccumulator := acc; headerCount := n |}; executor := q |} =
  Ok (acc, context_of q).
Proof. by rewrite (take_block _ acc n). Qed.

Lemma onResponseHeaders_run g sig acc n q end_stream :
  context_call (JavaCall g ("onResponseHeaders", sig) [ALong n; ABoolean end_stream])
    {| bridgeUtility := {| headerAccumulator := acc; headerCount := n |}; executor := q |} =
  Ok (tt, context_of (q ++ [RunOnHeaders acc end_stream])).
Proof.
  change (context_call _) with (Context.onResponseHeaders n end_stream).
  unfold Context.onResponseHeaders. by rewrite (bind_run _ _ _ _ _ (context_takes acc n q)).
Qed.

Lemma onResponseTrailers_run g sig acc n q :
  context_call (JavaCall g ("onResponseTrailers", sig) [ALong n])
    {| bridgeUtility := {| headerAccumulator := acc; headerCount := n |}; executor := q |} =
  Ok (tt, context_of (q ++ [RunOnTrailers acc])).
Proof.
  change (context_call _) with (Context.onResponseTrailers n).
  unfold Context.onResponseTrailers. by rewrite (bind_run _ _ _ _ _ (context_takes acc n q)).
Qed.

(** The calls of one message run without a failing assert or an exception, and leave the
    context ready for the next. *)
Lemma message_runs g msg q :
  message_fits msg →
  for_each (calls_of g msg) context_call (context_of q) = Ok (tt, context_of (q ++ runs_of msg)).
Proof.
  destruct msg as [es e|bs e|es|code text n| |]; cbn [calls_of runs_of message_fits]; intros Hfit.
  - rewrite for_each_app, (bind_run _ _ _ _ _ (context_block g q es Hfit)).
    unfold for_each. cbn [foldr]. by rewrite (bind_run _ _ _ _ _ (onResponseHeaders_run _ _ _ _ _ _)).
  - done.
  - rewrite for_each_app, (bind_run _ _ _ _ _ (context_block g q es Hfit)).
    unfold for_each. cbn [foldr]. by rewrite (bind_run _ _ _ _ _ (onResponseTrailers_run _ _ _ _ _)).
  - done.
  - by rewrite app_nil_r.
  - done.
Qed.

Lemma messages_run g msgs q :
  Forall message_fits msgs →
  for_each (msgs ≫= calls_of g) context_call (context_of q) =
  Ok (tt, context_of (q ++ (msgs ≫= runs_of))).
Proof.
  intros Hall. revert q. induction Hall as [|msg msgs Hm _ IH]; intros q; [by rewrite app_nil_r|].
  cbn [mbind list_bind]. change (list_bind _ _ ?f msgs) with (msgs ≫= f).
  rewrite for_each_app, (bind_run _ _ _ _ _ (message_runs g msg q Hm)), IH. by rewrite app_assoc.
Qed.
End executor.

(** ** The application *)

Definition all_closures : AppStreamCallbacks := {|
  has_onHeaders := true; has_onData := true; has_onTrailers := true;
  has_onCancel := true; has_onError := true |}.

(** What the closures of the application get for it, unless a block of headers is empty. *)
Definition events_of (msg : message) : list stream_event :=
  match msg with
  | GotHeaders es end_stream => [StreamHeaders (dict_of (new_pair <$> es)) end_stream]
  | GotData bs end_stream => [StreamData bs end_stream]
  | GotTrailers es => [StreamTrailers (dict_of (new_pair <$> es))]
  | GotError code text attempts => [StreamError (error_code_value code) (default_charset text) attempts]
  | GotComplete => []
  | GotCancel => [StreamCancel]
  end.

Definition has_pairs (msg : message) : Prop :=
  match msg with GotHeaders es _ | GotTrailers es => es ≠ [] | _ => True end.

Lemma runnables_run msgs evs :
  Forall has_pairs msgs →
  for_each (msgs ≫= runs_of) (run_runnable all_closures) evs = Ok (tt, evs ++ (msgs ≫= events_of)).
Proof.
  intros Hall. revert evs. induction Hall as [|msg msgs Hm _ IH]; intros evs; [by rewrite app_nil_r|].
  cbn [mbind list_bind]. change (list_bind _ _ ?f msgs) with (msgs ≫= f).
  rewrite for_each_app, (bind_run _ _ _ tt (evs ++ events_of msg)); [by rewrite IH, app_assoc|].
  destruct msg as [es e|bs e|es|code text n| |]; cbn in *; try done;
    unfold java_block; rewrite ?decide_False by done; try done. by rewrite app_nil_r.
Qed.
End blocks.

(** ** Through the JNI layer *)

Section callbacks.
Context {mode : BuildMode} `{Allocator} {J : Type} `{!JNI J} `{!JNILaws J} `{!JavaStrings}.
Implicit Types (s : mem * jni_state J).

Lemma says_payload c ev msg : says c ev msg → payload_ok c ev.
Proof. destruct ev, msg; cbn; naive_solver. Qed.

Lemma wp_jvm_callback_calls g ev msg s :
  ready_vm s → says s.1 ev msg → g ∈ global_refs (jview s) →
  wp (jvm_callback (Some g) ev) no_fault (λ _ s', ready_vm s' ∧
    global_refs (jview s') = global_refs (jview s) ∖ (if terminal ev then {[g]} else ∅) ∧
    java_calls (jview s') = java_calls (jview s) ++ calls_of g msg) s.
Proof.
  intros Hvm Hok Hg. unfold ready_vm in *.
  destruct ev as [eh es|d es|eh|er| |], msg as [l e|bs e|l|code bs n| |];
    cbn [says calls_of] in *; try done; apply wp_bind.
  - destruct Hok as (-> & Hfit & hs & Hok).
    eapply wp_jvm_on_headers; [apply ensures_nothing|done..|]. intros r s' _ [A B _ D] _.
    apply wp_ret. rewrite A, B, D. destruct Hok as [(Hl & _ & Hall) _].
    rewrite Hl, (Forall2_length _ _ _ Hall). split_and!; [done|set_solver|done].
  - destruct Hok as (-> & Hok & Hmax). eapply wp_jvm_on_data; [done..|]. intros r s' _ [A B _ D].
    apply wp_ret. rewrite A, B, D. split_and!; [done|set_solver|done].
  - destruct Hok as (Hfit & hs & Hok).
    eapply wp_jvm_on_trailers; [apply ensures_nothing|done..|]. intros r s' _ [A B _ D] _.
    apply wp_ret. rewrite A, B, D. destruct Hok as [(Hl & _ & Hall) _].
    rewrite Hl, (Forall2_length _ _ _ Hall). split_and!; [done|set_solver|done].
  - destruct Hok as (-> & -> & Hok & Hmax). eapply wp_jvm_on_error; [done..|]. intros r s' _ [A B _ D].
    apply wp_ret. by rewrite A, B, D.
  - apply wp_jvm_on_complete; [done..|]. intros s' _ [A B _ D]. apply wp_ret.
    by rewrite A, B, D.
  - apply wp_jvm_on_cancel; [done..|]. intros r s' _ [A B _ D]. apply wp_ret. by rewrite A, B, D.
Qed.

(** The calls for the callbacks of a stream. *)
Lemma wp_run_callbacks_calls g l msgs p p' s :
  ready_vm s → Forall2 (λ x msg, says x.1 x.2 msg) l msgs → p ≠ Closed →
  foldl (λ p ev, p ≫= λ p, spec_step p ev) (Some p) l.*2 = Some p' → g ∈ global_refs (jview s) →
  wp (run_callbacks g l) no_fault (λ _ s',
    java_calls (jview s') = java_calls (jview s) ++ (msgs ≫= calls_of g)) s.
Proof.
  intros Hvm Hsays. revert p s Hvm. induction Hsays as [|[c ev] msg l msgs Hmsg Hrest IH];
    intros p s Hvm Hp Hf Hg; [apply wp_ret; by rewrite app_nil_r|].
  cbn in Hf, Hmsg. unfold run_callbacks. cbn.
  apply wp_bind, wp_bind, wp_modify. cbn.
  eapply wp_conseq; [by apply wp_jvm_callback_calls|]. intros [] s1 (Hvm1 & Hr1 & Hc1).
  change (jview (c, s.2)) with (jview s) in *.
  destruct (spec_step p ev) as [p1|] eqn:Hstep; [|by rewrite spec_stuck in Hf].
  destruct (decide (p1 = Closed)) as [->|Hp1].
  - assert (l = []) as ->.
    { destruct l as [|[c2 ev2] l]; [done|]. cbn in Hf. by rewrite spec_stuck in Hf. }
    apply wp_ret. apply Forall2_nil_inv_l in Hrest as ->. by rewrite Hc1, app_nil_r.
  - assert (terminal ev = false) as Ht by (by destruct p, ev as [? []|? []| | | |]; naive_solver).
    rewrite Ht in Hr1. eapply wp_conseq; [apply (IH p1); [done..|]|].
    + rewrite Hr1. set_solver.
    + intros [] s2 ->. by rewrite Hc1, <- app_assoc.
Qed.

(** C14: Headers round-trip between the maps of Java and C. A map of names to values, in
    text that has a UTF-8 form, is flattened, copied into an envoy_headers, and handed back
    to a context; whatever the map's order of enumeration, the context's executor gets the
    same map, without the names whose list of values is empty, or null if nothing remains.
    No assert fails on the way, though memory may run out; C's heap and Java's global references are as they were. *)
Theorem java_map_round_trip `{!Dictionary, !DictionaryLaws}
    h a g end_stream q s :
  let kept := filter (λ e, e.2 ≠ []) h in
  java_text h → mem_wf s.1 → fits_java (toJniHeaders h) → java_headers (jview s) a (toJniHeaders h) →
  g ∈ global_refs (jview s) → ready_vm s →
  wp (headers ← to_native_headers (Some a);
      jvm_on_response_headers headers end_stream (Some g)) oom (λ _ s', ∃ calls,
    heap s'.1 = heap s.1 ∧ global_refs (jview s') = global_refs (jview s) ∧
    java_calls (jview s') = java_calls (jview s) ++ calls ∧
    for_each calls context_call (context_of q) =
      Ok (tt, context_of (q ++ [RunOnHeaders (if decide (kept = ∅) then None else Some kept) end_stream]))) s.
Proof.
  intros kept Ht Hwf Hfit Ha Hg Hvm.
  assert (java_block (toJniHeaders h) = if decide (kept = ∅) then None else Some kept) as Hb.
  { unfold java_block. rewrite new_pairs_toJniHeaders, dict_of_pairs_of by done. fold kept.
    destruct (decide (toJniHeaders h = [])) as [He|He], (decide (kept = ∅)) as [Hk|Hk]; try done.
    - destruct Hk. unfold kept. by rewrite <- dict_of_pairs_of, <- new_pairs_toJniHeaders, He.
    - destruct He. apply (fmap_nil_inv new_pair). rewrite new_pairs_toJniHeaders by done.
      unfold kept in Hk. rewrite <- dict_of_pairs_of in Hk.
      destruct (pairs_of h) as [|[k v] ps] eqn:Hp; [done|].
      apply (f_equal (lookup k)) in Hk. rewrite dict_of_lookup, values_of_cons, lookup_empty in Hk.
      cbn in Hk. repeat case_decide; congruence. }
  apply wp_bind, (wp_to_native_headers a (toJniHeaders h)); [done|apply Hfit|done|].
  intros eh hs s1 R1 X1 G1 _ S1 V1.
  assert (headers_ok s1.1 eh hs (toJniHeaders h)) as Hok by (split; [done|by eapply grows_allocated]).
  eapply wp_mono; [apply (wp_jvm_on_headers (λ _ _, True) "onResponseHeaders" eh hs (toJniHeaders h)
    end_stream g s1 (λ _ s', s'.1 = mem_release (headers_owned eh hs) (headers_external hs) s1.1 ∧
      ∃ n, jvm_kept n (header_calls g (toJniHeaders h) ++ [JavaCall g ("onResponseHeaders",
        "(JZ)Ljava/lang/Object;") [ALong (headers_length eh); ABoolean end_stream]]) s1 s'))|done|].
  - apply ensures_nothing.
  - unfold ready_vm in *. congruence.
  - done.
  - done.
  - by rewrite V1.
  - intros r s' M' J' _. eauto.
  - intros r s' (M' & n & [_ R _ C]). eexists.
    split_and!; [by rewrite M', contained_headers_external; [apply grows_release|]
                |by rewrite R, V1|by rewrite C, V1|].
    destruct R1 as (Hl & _ & Hall). rewrite Hl, (Forall2_length _ _ _ Hall), <- Hb.
    apply (message_runs g (GotHeaders (toJniHeaders h) end_stream) q Hfit).
Qed.
End callbacks.

Section application.
#[local] Existing Instance debug_build.
Context `{Allocator} {HM : Type} `{!HeaderMap HM} `{!EnvoyCodec HM}
  {B : Type} `{!BufferInstance B} {J : Type} `{!JNI J} `{!JNILaws J} `{!JavaStrings}.

(** C10: The application sees what the dispatcher says. Take any stream of any reachable
    dispatcher and the callbacks it has made for it so far, which say [msgs] in the memory
    of their time. The JNI layer turns them into calls on the context of the stream; these
    run without a failing assert or an exception, and give the executor one call for each
    callback but onComplete, in their order. If no block of headers is empty, the closures
    of the application then get the same headers, grouped by name, the same data, trailers,
    error or cancellation. *)
Theorem application_sees_callbacks {asserts : BuildMode} scope ls (d : state HM B) o g l msgs
    (s : mem * jni_state J) :
  reachable (mode := debug_build) scope ls d → o < next_object d →
  l.*2 = bridge_trace o (trace d) → Forall2 (λ x msg, says x.1 x.2 msg) l msgs →
  ready_vm s → g ∈ global_refs (jview s) →
  wp (run_callbacks g l) no_fault (λ _ s', ∃ calls,
    java_calls (jview s') = java_calls (jview s) ++ calls ∧
    for_each calls (context_call (mode := asserts)) JvmCallbackContext_new =
      Ok (tt, context_of (msgs ≫= runs_of)) ∧
    (Forall has_pairs msgs →
     for_each (msgs ≫= runs_of) (run_runnable all_closures) [] = Ok (tt, msgs ≫= events_of))) s.
Proof.
  intros Hd Ho Hl Hsays Hvm Hg. pose proof (reachable_phase _ _ _ _ Hd Ho) as Hp.
  unfold phase_of, spec_run in Hp. rewrite <- Hl in Hp.
  eapply wp_conseq; [by eapply (wp_run_callbacks_calls g l msgs Open)|]. intros [] s' Hcalls.
  exists (msgs ≫= calls_of g). split_and!; [done| |].
  - by apply (messages_run g msgs []), (says_all_fit l).
  - intros Hpairs. by rewrite runnables_run.
Qed.
End application.

(** ** Filters of Kotlin *)

Section filters.
Context {mode : BuildMode} `{!JavaStrings} `{!Dictionary, !DictionaryLaws} {F : Type}.
Implicit Types (filter : option (KotlinFilter F)) (d : F).

(** The JNI layer passes a block of headers to the context of a filter and calls one of
    its methods. *)
Definition ask_filter (es : list (list byte * list byte))
    (method : Z → M (JvmFilterContext F) (list answer_element)) :
    M (JvmFilterContext F) (list answer_element) :=
  for_each (marked es) (λ x, zoom (pass_marked x)) ;; method (Z.of_nat (length es)).

Definition filter_context d : JvmFilterContext F := Build_JvmFilterContext JvmBridgeUtility_new d.

Lemma filter_block es d :
  fits_java es →
  for_each (marked es) (λ x, zoom (pass_marked x)) (filter_context d) =
  Ok (tt, Build_JvmFilterContext {| headerAccumulator := java_block es;
                                    headerCount := Z.of_nat (length es) |} d).
Proof.
  intros Hfit. rewrite zoom_for_each. unfold zoom. change (part_get _) with JvmBridgeUtility_new.
  by rewrite (pass_block es Hfit).
Qed.

Lemma filter_takes acc n d :
  take_headers n (Build_JvmFilterContext {| headerAccumulator := acc; headerCount := n |} d) =
  Ok (acc, filter_context d).
Proof. by rewrite (take_block _ acc n). Qed.

(** Both methods: the headers are taken, the adapter runs, and its answer is flattened. *)
Lemma ask_filter_run (es : list (list byte * list byte))
    (adapter : option NSHeaders → M F (list answer_element)) d :
  fits_java es →
  ask_filter es (λ n, headers ← take_headers n; result ← zoom (adapter headers);
                      toJniFilterHeadersStatus result) (filter_context d) =
  match adapter (java_block es) d with
  | Ok (result, d') => toJniFilterHeadersStatus result (filter_context d')
  | Fault f => Fault f
  end.
Proof.
  intros Hfit. unfold ask_filter. rewrite (bind_run _ _ _ _ _ (filter_block es d Hfit)).
  rewrite (bind_run _ _ _ _ _ (filter_takes _ _ d)). unfold mbind, M_bind. unfold zoom at 1.
  change (part_get (filter_context d)) with d.
  by destruct (adapter (java_block es) d) as [[result d']|].
Qed.

(** The pairs of a block, in UTF-8. *)
Definition utf8_pairs (ps : list (NSString * NSString)) : list (list byte * list byte) :=
  prod_map getBytes getBytes <$> ps.
Definition scalar_pairs (ps : list (NSString * NSString)) : Prop :=
  Forall (λ p, Forall scalar p.1 ∧ Forall scalar p.2) ps.

Lemma java_block_text ps : ps ≠ [] → scalar_pairs ps → java_block (utf8_pairs ps) = Some (dict_of ps).
Proof.
  intros Hne Hps. unfold java_block, utf8_pairs.
  rewrite decide_False by (by intros ?%fmap_nil_inv). do 2 f_equal.
  clear Hne. induction Hps as [|[k v] ps [Hk Hv] _ IH]; [done|]. rewrite !fmap_cons, IH.
  unfold new_pair, prod_map. cbn [fst snd] in *. by rewrite !new_String_getBytes.
Qed.

(** C21: What a filter of Kotlin answers for a block of headers. For headers in UTF-8 that
    are not empty, the filter is asked once, with the headers grouped by name; the array
    that is returned says its status, and the headers it continues with, or those it got
    when it stops. A filter without the interface of the direction continues with those it
    got. The pairs go back name by name, those of one name in their order. *)
Theorem kotlin_filter_answers filter ps end_stream d result d' :
  ps ≠ [] → scalar_pairs ps → fits_java (utf8_pairs ps) →
  match filter with
  | Some f => filter_onHeaders f (dict_of ps) end_stream d = Ok (result, d')
  | None => result = KHeadersContinue (dict_of ps) ∧ d' = d
  end →
  ∃ ps',
    ask_filter (utf8_pairs ps) (λ n, FilterContext.onHeaders filter n end_stream) (filter_context d) =
      Ok ([Status (match result with KHeadersContinue _ => 0 | KHeadersStopIteration => 1 end)%Z;
           HeadersPairs (utf8_pairs ps')], filter_context d') ∧
    ∀ name, values_of name ps' =
      match result with
      | KHeadersContinue headers => default [] (headers !! name)
      | KHeadersStopIteration => values_of name ps
      end.
Proof.
  intros Hne Hps Hfit Hf. unfold FilterContext.onHeaders.
  rewrite (ask_filter_run (utf8_pairs ps) (λ h, Adapter.onHeaders filter h end_stream) d Hfit).
  rewrite java_block_text by done. unfold Adapter.onHeaders, parameter.
  assert (∀ name, default [] (dict_of ps !! name) = values_of name ps) as Hgroup.
  { intros name. rewrite dict_of_lookup. case_decide as E; [by rewrite E|done]. }
  assert (∀ n h (x : F), toJniFilterHeadersStatus [Status n; HeadersMap (Some h)] (filter_context x) =
    Ok ([Status n; HeadersPairs (utf8_pairs (pairs_of h))], filter_context x)) as Hflat.
  { intros n h x. unfold toJniFilterHeadersStatus, ASSERT, utf8_pairs. rewrite <- toJniHeaders_pairs.
    by destruct ASSERT_enabled. }
  destruct filter as [f|].
  - unfold mbind, M_bind, mret, M_ret. cbn. rewrite Hf. destruct result as [headers|];
      (eexists; split; [apply Hflat|]); intros name; rewrite values_of_pairs; [done|apply Hgroup].
  - destruct Hf as [-> ->]. eexists. split; [apply Hflat|]. intros name. by rewrite values_of_pairs.
Qed.

(** C32: ResumeIteration does not get through. When a filter resumes with its trailers,
    Kotlin returns an array of four: an assert of JvmFilterContext fails where asserts are
    checked; where they are not, the second element, which the JNI layer takes for the
    trailers, has the pairs of the headers (and if the filter gave none, an exception is
    thrown); the trailers stay a map in the fourth. When it resumes with data, the second
    element, which the JNI layer takes for the data, is a map. *)
Theorem kotlin_resume_answers (f : KotlinFilter F) ps headers data trailers
    bs headers' bs' end_stream d d1 d2 :
  ps ≠ [] → scalar_pairs ps → fits_java (utf8_pairs ps) →
  filter_onTrailers f (dict_of ps) d = Ok (KTrailersResumeIteration headers data trailers, d1) →
  filter_onData f bs end_stream d = Ok (KDataResumeIteration headers' bs', d2) →
  ask_filter (utf8_pairs ps) (FilterContext.onTrailers (Some f)) (filter_context d) =
    (if ASSERT_enabled then Fault (DebugAssert "result.length == 2")
     else match headers with
     | Some h => Ok ([Status (-1); HeadersPairs (toJniHeaders h); Buffer data;
                      HeadersMap (Some trailers)], filter_context d1)
     | None => Fault (Thrown "NullPointerException")
     end) ∧
  FilterContext.onData (Some f) bs end_stream (filter_context d) =
    Ok ([Status (-1); HeadersMap headers'; Buffer (Some bs')], filter_context d2).
Proof.
  intros Hne Hps Hfit Ht Hd. split.
  - unfold FilterContext.onTrailers.
    rewrite (ask_filter_run (utf8_pairs ps) (Adapter.onTrailers (Some f)) d Hfit).
    rewrite java_block_text by done. unfold Adapter.onTrailers, parameter, mbind, M_bind, mret, M_ret.
    rewrite Ht. unfold toJniFilterHeadersStatus, ASSERT. cbn.
    by destruct ASSERT_enabled, headers.
  - unfold FilterContext.onData, zoom. change (part_get _) with d.
    unfold Adapter.onData, mbind, M_bind. by rewrite Hd.
Qed.

(** An empty block is null in Java. The JNI layer makes no call for its pairs, so no
    map is made; Kotlin does not take null for headers. The run of the application's
    callback throws, whatever closures are set, and so does every filter, before the
    application is asked. *)
Theorem empty_blocks_throw callbacks filter end_stream q evs d :
  for_each (calls_of 1 (GotTrailers [])) context_call (context_of q) =
    Ok (tt, context_of (q ++ [RunOnTrailers None])) ∧
  run_runnable callbacks (RunOnTrailers None) evs = Fault (Thrown "IllegalArgumentException") ∧
  run_runnable callbacks (RunOnHeaders None end_stream) evs = Fault (Thrown "IllegalArgumentException") ∧
  ask_filter [] (FilterContext.onTrailers filter) (filter_context d) =
    Fault (Thrown "IllegalArgumentException") ∧
  ask_filter [] (λ n, FilterContext.onHeaders filter n end_stream) (filter_context d) =
    Fault (Thrown "IllegalArgumentException").
Proof.
  assert (fits_java []) as Hfit by (by split).
  split_and!; [apply (message_runs 1 (GotTrailers [])); done|done|done| |].
  - exact (ask_filter_run [] (Adapter.onTrailers filter) d Hfit).
  - exact (ask_filter_run [] (λ h, Adapter.onHeaders filter h end_stream) d Hfit).
Qed.
End filters.

(** ** Examples *)

#[export] Instance ref_strings : JavaStrings := {
  malformed_utf8 := λ _, [0xFFFD%N];
  default_charset := λ bytes, default [] (utf8_decode bytes)
}.

Definition ref_java_map : NSHeaders := {[ ns "Key" := [ns "ab"] ]}.

Lemma java_map_round_trip_witness :
  wp (headers ← to_native_headers (Some 12%positive);
      jvm_on_response_headers headers true (Some 20%positive)) oom (λ _ s', ∃ calls,
    java_calls (jview s') = java_calls (jview (ref_native ref_mem)) ++ calls ∧
    for_each calls (context_call (mode := debug_build)) (context_of []) =
      Ok (tt, context_of [RunOnHeaders (Some ref_java_map) true])) (ref_native ref_mem).
Proof.
  refine (wp_conseq _ _ _ _ _ (java_map_round_trip (mode := debug_build) (J := ref_jvm)
    ref_java_map 12 20 true [] (ref_native ref_mem) _ ref_mem_wf _ _ _ _) _).
  - apply (bool_decide_unpack _). by vm_compute.
  - apply ref_fits.
  - apply (ref_java_headers [0]).
  - apply (bool_decide_unpack _). by vm_compute.
  - reflexivity.
  - intros _ s' (calls & _ & _ & H1 & H2). exists calls. split; [exact H1|exact H2].
Defined.

(** One header whose blocks follow one another. *)
Definition one_header (p : positive) (k v : string) : envoy_header :=
  EnvoyHeader
    (EnvoyData (Z.of_nat (String.length k)) (Some (p + 1)%positive) c_free_release (Some (p + 1)%positive))
    (EnvoyData (Z.of_nat (String.length v)) (Some (p + 2)%positive) c_free_release (Some (p + 2)%positive)).

Lemma one_header_ok m p k v :
  heap m !! p = Some (BHeaders [Some (one_header p k v)]) →
  heap m !! (p + 1)%positive = Some (BBytes (Some <$> bytes_of k)) →
  heap m !! (p + 2)%positive = Some (BBytes (Some <$> bytes_of v)) →
  length (bytes_of k) = String.length k → length (bytes_of v) = String.length v →
  headers_ok m (EnvoyHeaders 1 (Some p)) [one_header p k v] [(bytes_of k, bytes_of v)].
Proof.
  intros Hp Hk Hv Lk Lv. split; [split_and!; [done| |]|].
  - right. by exists p, [].
  - constructor; [|constructor]. split.
    + split; [cbn; by rewrite Lk|]. right. exists (p + 1)%positive, []. by rewrite app_nil_r.
    + split; [cbn; by rewrite Lv|]. right. exists (p + 2)%positive, []. by rewrite app_nil_r.
  - split.
    + cbn. repeat constructor; rewrite ?elem_of_cons, ?elem_of_nil; intros H;
        repeat destruct H as [H|H]; try done; lia.
    + intros l Hl. cbn in Hl. rewrite !elem_of_cons, elem_of_nil in Hl.
      destruct Hl as [->|[->|[->|[]]]]; by eexists.
Qed.

(** The first stream of [two_streams], with the memory after each of its callbacks. *)
Definition mem_after (n : nat) : mem :=
  st_mem (default (init_state mem_empty)
    (run_labels (mode := debug_build) no_stats (take n two_streams) (init_state mem_empty))).
Definition ref_stream : list (mem * bridge_event) :=
  zip [mem_after 4; mem_after 7; mem_after 7]
    (bridge_trace 0 (trace (two_streams_end (mode := debug_build)))).
Definition ref_messages : list message :=
  [GotHeaders [(bytes_of ":status", bytes_of "200")] false;
   GotTrailers [(bytes_of "t", bytes_of "v")]; GotComplete].

Lemma ref_stream_says : Forall2 (λ x msg, says x.1 x.2 msg) ref_stream ref_messages.
Proof.
  assert (ref_stream = [(mem_after 4, OnHeaders (EnvoyHeaders 1 (Some 1%positive)) false);
    (mem_after 7, OnTrailers (EnvoyHeaders 1 (Some 4%positive))); (mem_after 7, OnComplete)]) as ->
    by (vm_compute; reflexivity).
  repeat constructor; cbn; try (vm_compute; congruence).
  - eexists. apply (one_header_ok _ 1 ":status" "200"); by vm_compute.
  - eexists. apply (one_header_ok _ 4 "t" "v"); by vm_compute.
Qed.

Lemma application_sees_callbacks_witness :
  wp (run_callbacks 20 ref_stream) no_fault (λ _ s', ∃ calls,
    java_calls (jview s') = java_calls (jview (ref_native ref_mem)) ++ calls ∧
    for_each calls (context_call (mode := debug_build)) JvmCallbackContext_new =
      Ok (tt, context_of [RunOnHeaders (Some {[ ns ":status" := [ns "200"] ]}) false;
                          RunOnTrailers (Some {[ ns "t" := [ns "v"] ]})])) (ref_native ref_mem).
Proof.
  refine (wp_conseq _ _ _ _ _ (application_sees_callbacks (asserts := debug_build) (J := ref_jvm) no_stats
    two_streams (two_streams_end (mode := debug_build)) 0 20 ref_stream ref_messages (ref_native ref_mem)
    two_streams_reachable _ _ ref_stream_says _ _) _).
  - vm_compute. lia.
  - vm_compute. reflexivity.
  - reflexivity.
  - apply (bool_decide_unpack _). by vm_compute.
  - intros [] s' (calls & H1 & H2 & _). exists calls. split; [exact H1|]. rewrite H2. by vm_compute.
Defined.

(** A filter that adds a name to headers, and resumes with headers for trailers. *)
Definition ref_kotlin_filter : KotlinFilter nat := {|
  filter_onHeaders := λ h _ n, Ok (KHeadersContinue (<[ns "x" := [ns "1"]]> h), S n);
  filter_onData := λ bs _ n, Ok (KDataResumeIteration None bs, S n);
  filter_onTrailers := λ t n, Ok (KTrailersResumeIteration (Some ref_java_map) None t, S n)
|}.
Definition ref_text : list (NSString * NSString) := [(ns "a", ns "1"); (ns "b", ns "2"); (ns "a", ns "3")].

Lemma ref_text_ok : scalar_pairs ref_text ∧ fits_java (utf8_pairs ref_text).
Proof.
  split; [apply (bool_decide_unpack _); by vm_compute|]. split; [vm_compute; congruence|].
  repeat constructor; vm_compute; congruence.
Qed.

Lemma kotlin_filter_answers_witness :
  ∃ ps',
    ask_filter (mode := debug_build) (utf8_pairs ref_text)
      (λ n, FilterContext.onHeaders (mode := debug_build) (Some ref_kotlin_filter) n true) (filter_context 0) =
      Ok ([Status 0; HeadersPairs (utf8_pairs ps')], filter_context 1) ∧
    values_of (ns "a") ps' = [ns "1"; ns "3"].
Proof.
  destruct (kotlin_filter_answers (mode := debug_build) (Some ref_kotlin_filter) ref_text true 0
    (KHeadersContinue (<[ns "x" := [ns "1"]]> (dict_of ref_text))) 1) as (ps' & Hrun & Hps).
  - done.
  - apply ref_text_ok.
  - apply ref_text_ok.
  - reflexivity.
  - exists ps'. split; [exact Hrun|]. rewrite Hps. by vm_compute.
Defined.

Lemma kotlin_resume_answers_witness :
  ask_filter (mode := release_build) (utf8_pairs ref_text)
    (FilterContext.onTrailers (mode := release_build) (Some ref_kotlin_filter)) (filter_context 0) =
  Ok ([Status (-1); HeadersPairs ref_pairs; Buffer None; HeadersMap (Some (dict_of ref_text))],
      filter_context 1).
Proof.
  refine (eq_trans (proj1 (kotlin_resume_answers (mode := release_build) ref_kotlin_filter ref_text
    (Some ref_java_map) None (dict_of ref_text) [] None [] true 0 1 1 _ _ _ _ _)) _).
  - done.
  - apply ref_text_ok.
  - apply ref_text_ok.
  - reflexivity.
  - reflexivity.
  - by vm_compute.
Defined.
